(* ===== verification/_CoqProject ===== *)
-Q . S2P
Prelude.v
Keccak.v
Sha1.v
Common.v
Crypto.v
Uri.v
Contract.v
Evm.v
EvmRules.v
Abi.v
Compiled.v
Registry.v
Bindings.v
Testnet.v
Claim.v
Quad.v
Sql.v
Db.v
Conn.v
GraphDriver.v
Network.v
Api.v
Query.v
Travel.v
Server.v
Cli.v
Docopt.v
Matching.v
Json.v
Rpc.v
Graphql.v
Exchange.v
Load.v
Node.v
Main.v
