(* ===== verification/Prelude.v ===== *)
(** * go-kord, verified

    go-kord is a network of nodes that share graphs of claims.  An identity is
    an Ethereum address; its graph is a SQLite file of quads in Swarm, under
    the hash of its content; a contract on Ethereum maps the identity to the
    hash of its current graph, and takes a new hash from whoever presents a
    signature of it by the identity.  A node fetches the files of the graphs it
    is asked for and follows the registry for updates; a GraphQL API and a
    JSON-RPC API write to the node's copies and publish them; claims carry the
    signature of their issuer; a directory of files (a dapp) can be deployed at
    a URI of an identity and served over HTTP.

    ** How the parts call each other

<<
    cmd/kord (Main) --the words of the command line--> docopt-go (Docopt, Matching)
                    --their arguments--> cli (Cli, Load, Node)
    cli (Cli, Load, Node) --JSON-RPC (Json, Rpc)--> kord.PublicAPI (Server) --> graph.Driver
    api.Client (Exchange) --HTTP--> kord.Server (Server) --> api.API, Resolver (Api, Query)
                                  through graphql-go (Graphql) --> graph.Driver
    graph.Driver (GraphDriver, Network) --> db.Driver (Db): one file per graph
                                        --> cayley's quad store, runTx (Sql)
    db.Driver --> Registry (the interface, in Registry), storage.DPA (class DPA)
    Registry: the contract's client, the node's lazy one, testutil's (Registry)
    registry.Client --> bindings (Bindings, Abi) --> an Ethereum node (Bindings)
                    --> the compiled contract (Compiled) on core/vm (Evm, EvmRules)
                    = KORDRegistry.sol (Contract)
    all of them: Keccak, Sha1, Common (hex, addresses), Crypto, Uri, Quad, Claim
>>

    ** The files

    - this file: Go strings, slices and errors ([bytes], [result]), arrays of
      fixed length ([array]), a state monad with errors ([prog]: a panic is an
      error of its own, and [defer] runs in both cases), its laws and tactics.
    - Keccak ([crypto/sha3], with the permutation as it is unrolled), Sha1
      ([crypto/sha1]), Common ([common], [common/hexutil]), Crypto (the Go
      wrappers of secp256k1 and the [ecrecover] precompile), Uri ([pkg/uri]
      and the part of [net/url] below it).
    - Contract: [contracts/KORDRegistry.sol].  The state is the mapping
      [graphs]; [setGraph] is the transaction, with the assembly that loads
      the signature; [None] is a transaction that is reverted.
    - Evm: the interpreter of the vendored [core/vm] as far as the contract's
      code needs it, EvmRules a rule for each of its operations, Abi the part
      of [accounts/abi] that packs the contract's calls.  Compiled: the
      bytecode of [registry/contract/registry.go] ([KORDRegistryBin]), run
      symbolically part by part.  Bindings: the rest of that file with
      [accounts/abi/bind], [NewClient] of [registry/registry.go], and a node
      ([Chain]) that answers the client's calls and mines its transactions.
    - Testnet: the genesis blocks of [cli/node.go], and of the vendored node the
      pool, the making of blocks and their sealing, as far as gas decides what
      becomes of the client's calls.
    - Registry: the interface [registry.Registry] is the class [Registry], what
      its users rely on the class [RegistryLaws]; the instances are the
      contract itself, Module [Lazy] ([lazyRegistry] of [kord/meta.go]) and
      Module [Test] ([testutil]).  Module [Client] is the wait for a receipt of
      [registry/registry.go] over the heads [subscribeBlocks] relays, and
      [registry/deploy.go].
    - Claim: [api/types.go] and [verifyClaim] of [api/graphql.go].
    - Quad: the values and quads of the vendored [quad], their hashes and JSON.
    - Sql: [runTx] of [db/graph.go] and the vendored store around it; a
      database is the record [db] of the rows of its two tables.
    - Db: [db/db.go].  [fetchDB], [fetchHash] and [Commit] are functions on a
      file system ([FS], names to inodes, with open files kept alive); the
      goroutine of a database, the connections and the two mutexes are the
      steps [step] on [sys], one per critical section or call that can
      block.  Conn: the methods of [Conn] that run SQL, on these states.
    - GraphDriver: [graph/driver.go] and the remote [ApplyDeltas], as programs
      on the state of a node ([node]: registry, storage, files, open graphs).
    - Network: many nodes over one registry and one storage, and the board
      ([board]) that specifies them.
    - Api, Query: [api/graphql.go], [api/api.go], [api/client.go],
      [graphql/client.go] and the part of the vendored [schema] that writes
      and loads claims.  Travel puts them on the nodes of Network.
    - Graphql: the lexer, the parsers, the packing of arguments and the
      execution of the vendored [graphql-go].  Exchange: the schema and the
      client's documents as the texts they are, the resolvers as the methods
      of the schema's objects, and the operations of [api/client.go] from their
      arguments to what they return.
    - Server: [kord/http.go], [kord/meta.go], [kord/api.go], [dapp/dapp.go].
    - Json: the types that travel to the API and back, as [encoding/json]
      writes and reads them (a class [JSON], with its law).  Rpc: the client of
      [kord/client.go], the server of the vendored [rpc], the API as a service of
      it, and the endpoints of a node ([startRPC] of [node/node.go]).
    - Cli, Load, Node: [cli/*.go]; a command calls the API where the source calls
      the client, which Rpc shows to come to the same; Node also has the stack of
      services of the vendored [node/node.go] with its lock.  In Node a call may
      also wait for ever, which is an outcome ([Waits]).
    - Docopt: the vendored [docopt-go], from a usage text and the words of a
      command line to the arguments of a command; what is matched is updated in
      place, in a store.  Matching: what holds of every command line, whatever
      its words, by an invariant of that store.
    - Main: [cmd/kord/main.go], the usage texts of the commands and their
      dispatch, and how a process ends: with a status, with a panic, or not
      ([Hung]).

    ** What is proved

    - Publishing, from end to end: [kord graph create], [kord graph load] and
      [kord dapp deploy] (Main, on Cli and Load), each from the words of its
      command line to the registry and the status of the process;
      a published graph is what another node gets (GraphDriver), which holds
      over any history of any number of nodes (Network), where the nodes are a
      refinement of the board and only an identity's signature changes what is
      posted for it; a claim created at one node is read, as it was made, by a
      client of another (Travel).
    - The contract as deployed: the bytecode does what the Solidity source says,
      call by call and over any history (Compiled: a refinement of Contract),
      and the client's [SetGraph] and [Graph], through the bindings, a node
      and the bytecode, are the registry that the rest relies on (Bindings).
    - The networks: from which block on the test network takes the client's calls,
      that it does not get there by these calls, and how many of them fit in a
      block (Testnet).
    - Command lines: for every list of words the program shows a usage, reports an
      error or runs a command; a command that runs finds each of its arguments,
      with the type it asks for, and one of its actions (Main, Matching).
      Which command a line goes to, the one the usage announces and there is
      none for, and the options of the documentation in it.
    - Authentication: the contract changes the entry of an identity only on its
      signature (Contract); a claim verifies exactly for its issuer's signature,
      and what its identifier binds (Claim).
    - The store: transactions of additions succeed, keep a graph well formed,
      read back, and change nothing when they fail (Sql).
    - Concurrency: one live goroutine per database, updates reach every
      connection, the schedules in which the code deadlocks or panics (Db), and
      transactions that an update leaves behind (Conn).
    - The node process: it returns, cleans up on every error, the
      command lines on which it hangs (Main), and that it starts once (Node).
    - The API: the claims that filters find, what the client gets (Api, Query),
      routing and the handler of dapps (Server).
    - The remote API: the client does to a node exactly what the API does, with
      arguments as they arrive; a request that is refused changes nothing; which
      endpoints have the API, and where a node listens (Rpc).
    - The client of the GraphQL API: the schema is accepted with the resolvers,
      each of the client's documents parses to an operation on it, and each of
      the client's operations is the resolver of its field, in what it does to
      the node and in what the caller gets; input that is not of its type is
      refused, and input that lacks a required field is not (Exchange).
      Parsing never lacks fuel (Graphql).
    - Round trips: URIs, quads as JSON, claims in each of their forms, hex.
    - Hashing: the unrolled permutation against the specification of
      Keccak-f[1600], and [Write] against absorbing everything at once.
    Where the code does not do what it means to, the theorem states what it
    does: an empty signature sets the graph of the zero address, reference
    counts are overwritten, a failed update wedges its database, a lost
    subscription to heads leaves calls waiting, a root dapp given on the command
    line deadlocks the node, a client with a wrong contract address is told that
    its graphs are set, the test network refuses
    the client's calls until others have made blocks, a delta without an action brings the node down, a
    command without a URL does not find a node with a data directory, a stopped node cannot be started again in its
    process, a file that stops parsing is loaded in part.

    ** Bounds and fuel

    Every operation is a total function; [None] is a step that is not enabled
    (Db) or a transaction that is reverted (Contract).  The relations are
    [reachable] (Db) and the steps of the board (Network).  Bytes are 8-bit, lanes 64-bit and SHA-1 words 32-bit, each with its wrap-around
    written out.  Where the source has a loop that is not structural the
    recursion has a fuel that is proved enough: [CopyBatch] in Load takes one
    more than the quads of the source; the parser of a command line one more than its words and
    the match of a repeated part two more than the words left (Matching: neither
    runs out); the parser of a usage and its [transform] (4096) end on the five
    usages by computation, and are a panic of the model where they would not;
    the writer of the sponge one step
    per byte written (Keccak); the wait for a receipt is structural on the
    heads that arrive and ends at the 51st (Registry: [blockTimeout] is 50).
    [DefaultBatch] is 10000, as in the source.  Runs of the virtual machine take
    a number of turns; that they end is part of the theorems ([ends]: there is a
    number of turns from which on the outcome is the same).  Gas is an oracle of
    the environment: with enough of it the outcome is exact, and otherwise it may
    also be [outOfGas].  A parser of GraphQL takes one more than the tokens of
    its text ([parse_fuel]: it never runs out), the packing of an argument two
    more than the types of the schema, which is deeper than inputs nest that do
    not contain themselves.  Memory is bounded at 2^39 bytes by the rules, and a
    signature at 2^32, which a transaction cannot reach.

    ** Parameters

    Code that is not in the repository, or is vendored and only called, is a
    class or a variable: the curve ([Secp256k1], with the laws of signing and
    recovery), Swarm's storage ([DPA]), SQLite's file format ([SqliteCodec]),
    the keystore ([Keystore]), what an Ethereum node knows of its pool and its
    gas prices ([Chain.node]), the hash a transaction is signed by, the validation of
    GraphQL documents (assumed to accept the client's own) and the execution of
    those with parts that are not modelled, TOML, the N-Quads parser, Swarm's HTTP server, the other
    services of the node.  Each class of laws has an instance that satisfies
    it, and the witnesses of the theorems evaluate on these instances.

    ** Not modelled

    The gas that code costs; balances, blocks and the pool of the Ethereum node; the
    instructions the contract does not use; the parsing of its ABI's JSON;
    the arguments in docopt's messages of errors (the messages themselves are
    kept), and regular expressions as such (those of docopt are functions on the
    text); the moment at which a signal arrives; the text of JSON (objects are
    values here); fragments, directives, introspection, and literals with digits
    or quotes in GraphQL documents; identifiers of JSON-RPC requests, batches, subscriptions and
    the transports below them; the order in which the fields of
    a query run; the optimiser and the iterators of the graph library other
    than the paths the API builds; the decoding of TOML in
    [cli/node.go]; [testutil.TestDPA], a Swarm store in a temporary
    directory; log
    output; the listener of the HTTP server. *)
From stdpp Require Export base tactics gmap strings list.
From Stdlib Require Export ZArith NArith Lia Ascii.
From Stdlib Require Import Eqdep_dec.
Open Scope nat_scope.

(** ** Go strings and byte slices

    A Go [string] and a Go [[]byte] are both sequences of bytes; conversions
    between the two are the identity.  Literals are written as Rocq strings
    and coerced. *)
Abbreviation byte := ascii (only parsing).
Abbreviation bytes := (list ascii).

Coercion String.list_ascii_of_string : string >-> list.

(** The unsigned value of a byte, and the byte of an unsigned value (mod 256). *)
Abbreviation b2N := N_of_ascii.
Abbreviation N2b := ascii_of_N.

Lemma N2b_b2N (c : ascii) : N2b (b2N c) = c.
Proof. apply ascii_N_embedding. Qed.

Lemma b2N_N2b (n : N) : (n < 256)%N -> b2N (N2b n) = n.
Proof. apply N_ascii_embedding. Qed.

Lemma b2N_lt (c : ascii) : (b2N c < 256)%N.
Proof. destruct c as [[] [] [] [] [] [] [] []]; reflexivity. Qed.

Lemma b2N_inj (c d : ascii) : b2N c = b2N d -> c = d.
Proof. intros H. by rewrite <- (N2b_b2N c), H, N2b_b2N. Qed.

(** Case analysis on the 256 values of a byte. *)
Ltac all_bytes c := destruct c as [[] [] [] [] [] [] [] []].

(** [c] lies between the characters [lo] and [hi], Go's [lo <= c && c <= hi]. *)
Definition in_range (lo hi c : ascii) : bool :=
  ((b2N lo <=? b2N c) && (b2N c <=? b2N hi))%N.

(** A boolean property of bytes that holds of all 256 of them. *)
Definition all_ascii : list ascii := (fun n => N2b (N.of_nat n)) <$> seq 0 256.

Lemma all_ascii_complete (c : ascii) : c ∈ all_ascii.
Proof.
  unfold all_ascii. apply list_elem_of_fmap. exists (N.to_nat (b2N c)). split.
  - by rewrite N2Nat.id, N2b_b2N.
  - apply elem_of_seq. pose proof (b2N_lt c). lia.
Qed.

Lemma byte_forall (P : ascii -> bool) : forallb P all_ascii = true -> forall c, P c = true.
Proof.
  rewrite forallb_forall. intros H c. apply H. apply list_elem_of_In, all_ascii_complete.
Qed.

(** Prove a property of one byte, stated as a boolean, by evaluating it everywhere. *)
Ltac by_bytes := apply byte_forall; vm_compute; reflexivity.

(** ** Errors and results

    Go's [error] interface: messages built by [errors.New] and [fmt.Errorf],
    package variables compared by identity, [hex.InvalidByteError] with its
    byte, other typed errors with the text they carry, the SQLite error struct
    with its primary and extended codes, and errors that wrap another
    ([*url.Error], [*graph.DeltaError]). *)
Inductive error : Type :=
  | EMsg (msg : bytes)
  | EVar (name : string)
  | EInvalidByte (c : ascii)
  | ETyped (type : string) (arg : bytes)
  | ESqlite (code extended : Z)
  | EWrap (type : string) (arg : bytes) (inner : error).

#[global] Instance error_eq_dec : EqDecision error.
Proof. unfold EqDecision, Decision. decide equality; apply decide; apply _. Defined.

(** What a Go call does: it returns a value, returns a non-nil error, or panics. *)
Inductive result (A : Type) : Type :=
  | Ok (a : A)
  | Err (e : error)
  | Panic (msg : bytes).
Arguments Ok {A} a.
Arguments Err {A} e.
Arguments Panic {A} msg.

#[global] Instance result_eq_dec `{EqDecision A} : EqDecision (result A).
Proof. solve_decision. Defined.

#[global] Instance result_ret : MRet result := fun _ a => Ok a.
#[global] Instance result_bind : MBind result := fun _ _ f r =>
  match r with Ok a => f a | Err e => Err e | Panic m => Panic m end.
#[global] Instance result_fmap : FMap result := fun _ _ f r =>
  match r with Ok a => Ok (f a) | Err e => Err e | Panic m => Panic m end.

Definition is_ok {A} (r : result A) : bool := match r with Ok _ => true | _ => false end.

(** ** Stateful code

    [prog S A] is Go code that reads and writes a state [S] and then returns,
    fails or panics; the writes made before an error or a panic remain. *)
Definition prog (S A : Type) : Type := S -> result A * S.

#[global] Instance prog_ret S : MRet (prog S) := fun _ a s => (Ok a, s).
#[global] Instance prog_bind S : MBind (prog S) := fun _ _ f m s =>
  match m s with
  | (Ok a, s') => f a s'
  | (Err e, s') => (Err e, s')
  | (Panic p, s') => (Panic p, s')
  end.

Section prog.
Context {S : Type}.
Implicit Types s : S.

Definition get : prog S S := fun s => (Ok s, s).
Definition put (s : S) : prog S unit := fun _ => (Ok tt, s).
Definition modify (f : S -> S) : prog S unit := fun s => (Ok tt, f s).
Definition lift {A} (r : result A) : prog S A := fun s => (r, s).
Definition throw {A} (e : error) : prog S A := lift (Err e).
Definition gopanic {A} (msg : bytes) : prog S A := lift (Panic msg).

(** Run [m] and hand its outcome, error or not, to the continuation:
    [if err := m; err != nil { ... }]. *)
Definition try {A} (m : prog S A) : prog S (result A) := fun s =>
  match m s with
  | (Panic p, s') => (Panic p, s')
  | (r, s') => (Ok r, s')
  end.

(** [defer]: run [d] after [m], whatever the outcome of [m]. *)
Definition defer {A} (d : S -> S) (m : prog S A) : prog S A := fun s =>
  let (r, s') := m s in (r, d s').

Lemma bind_ok_inv {A B} (m : prog S A) (k : A -> prog S B) s b s'' :
  (x ← m; k x) s = (Ok b, s'') <->
  exists a s', m s = (Ok a, s') /\ k a s' = (Ok b, s'').
Proof.
  unfold mbind, prog_bind. destruct (m s) as [[a|e|p] s'] eqn:E; split; naive_solver.
Qed.

Lemma bind_ok {A B} (m : prog S A) (k : A -> prog S B) s a s' :
  m s = (Ok a, s') -> (x ← m; k x) s = k a s'.
Proof. unfold mbind, prog_bind. by intros ->. Qed.

Lemma bind_err {A B} (m : prog S A) (k : A -> prog S B) s e s' :
  m s = (Err e, s') -> (x ← m; k x) s = (Err e, s').
Proof. unfold mbind, prog_bind. by intros ->. Qed.

Lemma try_spec {A} (m : prog S A) s r s' :
  m s = (r, s') -> (forall p, r <> Panic p) -> try m s = (Ok r, s').
Proof. unfold try. intros -> Hp. destruct r as [a|e|p]; [done..|]. by destruct (Hp p). Qed.

Lemma bind_try {A B} (m : prog S A) (k : result A -> prog S B) s r s' :
  m s = (r, s') -> (forall p, r <> Panic p) -> (x ← try m; k x) s = k r s'.
Proof. intros Hm Hp. by rewrite (bind_ok _ _ _ _ _ (try_spec _ _ _ _ Hm Hp)). Qed.

Lemma bind_assoc {A B C} (m : prog S A) (k : A -> prog S B) (h : B -> prog S C) s :
  (y ← (x ← m; k x); h y) s = (x ← m; y ← k x; h y) s.
Proof. unfold mbind, prog_bind. by destruct (m s) as [[a|e|p] s']. Qed.
End prog.

(** Run a program on a part of a larger state. *)
Definition zoom {S T A} (proj : S -> T) (upd : T -> S -> S) (m : prog T A) : prog S A :=
  fun s => let (r, t) := m (proj s) in (r, upd t s).

Lemma result_bind_ok_inv {A B} (r : result A) (k : A -> result B) b :
  (x ← r; k x) = Ok b <-> exists a, r = Ok a /\ k a = Ok b.
Proof. destruct r; split; naive_solver. Qed.

(** Split hypotheses [m ≫= k = Ok _] into their successful steps. *)
Ltac inv_ok :=
  repeat match goal with
  | H : (_ ≫= _) _ = (Ok _, _) |- _ => apply bind_ok_inv in H as (? & ? & ? & H)
  | H : (_ ≫= _) = Ok _ |- _ => apply result_bind_ok_inv in H as (? & ? & H)
  | H : lift _ _ = (Ok _, _) |- _ => unfold lift in H
  | H : (Ok _, _) = (Ok _, _) |- _ => injection H as ? ?; subst
  | H : Ok _ = Ok _ |- _ => injection H as ?; subst
  | H : Err _ = Ok _ |- _ => discriminate H
  | H : Panic _ = Ok _ |- _ => discriminate H
  end.

(** ** Fixed-size arrays

    Go's [[n]byte]: a byte sequence whose length is [n] by construction.  The
    length is a boolean equation, so two arrays with the same bytes are equal. *)
Record array (n : nat) : Type := Array {
  abytes :> list ascii;
  alength : Nat.eqb (length abytes) n = true;
}.
Arguments Array {n} abytes alength.
Arguments abytes {n} a.

Lemma array_length {n} (a : array n) : length a = n.
Proof. apply Nat.eqb_eq, alength. Qed.

Lemma array_eq {n} (a b : array n) : abytes a = abytes b -> a = b.
Proof.
  destruct a as [la Ha], b as [lb Hb]; simpl; intros ->. f_equal.
  apply UIP_dec. decide equality.
Qed.

#[global] Instance array_eq_dec n : EqDecision (array n).
Proof.
  intros a b. destruct (decide (abytes a = abytes b)) as [E|E].
  - left. by apply array_eq.
  - right. intros ->. done.
Defined.

(** The array holding [l], when [l] has the right length. *)
Definition array_of {n} (l : bytes) : option (array n) :=
  match bool_dec (Nat.eqb (length l) n) true with
  | left H => Some (Array l H)
  | right _ => None
  end.

Lemma array_of_abytes {n} (a : array n) : array_of (abytes a) = Some a.
Proof.
  unfold array_of. destruct (bool_dec _ _) as [H|H].
  - f_equal. by apply array_eq.
  - destruct H. apply alength.
Qed.

#[global] Instance array_countable n : Countable (array n) :=
  inj_countable abytes array_of array_of_abytes.

(** The zero value of [[n]byte]. *)
Lemma zero_array_length n : Nat.eqb (length (replicate n (N2b 0))) n = true.
Proof. apply Nat.eqb_eq, length_replicate. Qed.
Definition zero_array n : array n := Array (replicate n (N2b 0)) (zero_array_length n).
#[global] Instance array_inhabited n : Inhabited (array n) := populate (zero_array n).

(** ** Generic lemmas *)

(** Induction two elements at a time, for code that consumes pairs. *)
Lemma list_pair_ind {A} (P : list A -> Prop) :
  P [] -> (forall a, P [a]) -> (forall a b l, P l -> P (a :: b :: l)) -> forall l, P l.
Proof.
  intros H0 H1 H2. fix IH 1. intros [|a [|b l]]; [apply H0|apply H1|apply H2, IH].
Qed.

Lemma odd_SS n : Nat.odd (S (S n)) = Nat.odd n.
Proof. reflexivity. Qed.

Lemma Forall2_imap_l {A B} (R : B -> A -> Prop) (f : nat -> A -> B) (l : list A) :
  Forall (fun x => forall i, R (f i x) x) l -> Forall2 R (imap f l) l.
Proof.
  intros H. revert f H. induction l as [|x l IH]; intros f H; simpl; constructor.
  - by apply Forall_inv in H.
  - apply IH. apply Forall_inv_tail in H. eapply Forall_impl; [exact H|]. simpl; auto.
Qed.

Lemma list_filter_all {A} (P : A -> Prop) `{forall x, Decision (P x)} (l : list A) :
  Forall P l -> filter P l = l.
Proof. induction 1 as [|x l Hx _ IH]; [done|]. rewrite filter_cons_True by done. by rewrite IH. Qed.

Lemma list_filter_none {A} (P : A -> Prop) `{forall x, Decision (P x)} (l : list A) :
  Forall (fun x => ~ P x) l -> filter P l = [].
Proof. induction 1 as [|x l Hx _ IH]; [done|]. by rewrite filter_cons_False. Qed.
