(* ===== verification/Keccak.v ===== *)
(** * Keccak-256

    The vendored package [crypto/sha3]: the unrolled permutation of
    keccakf.go, four rounds at a time on a state that changes layout from one
    round to the next, and the sponge of sha3.go ([Write], [Read], [Sum]).
    The permutation is proved equal to the 24 rounds of the Keccak
    specification, and the incremental [Write] to absorbing all the input at
    once.  Lanes are 64-bit words, as [N] with the shifts cut to 64 bits. *)
From Stdlib Require Import Btauto.
From S2P Require Import Prelude.

Declare Scope keccak_scope.
Delimit Scope keccak_scope with keccak.
Local Infix "^^" := N.lxor (at level 50, left associativity) : keccak_scope.
Local Open Scope keccak_scope.

(** [t<<n | t>>(64-n)] on 64-bit words. *)
Definition mask64 : N := 0xFFFFFFFFFFFFFFFF.
Definition rotl (t n : N) : N := N.lor (N.land (N.shiftl t n) mask64) (N.shiftr t (64 - n)).

(** ** keccakf.go *)

Definition rc : list N :=
  [0x0000000000000001; 0x0000000000008082; 0x800000000000808A; 0x8000000080008000;
   0x000000000000808B; 0x0000000080000001; 0x8000000080008081; 0x8000000000008009;
   0x000000000000008A; 0x0000000000000088; 0x0000000080008009; 0x000000008000000A;
   0x000000008000808B; 0x800000000000008B; 0x8000000000008089; 0x8000000000008003;
   0x8000000000008002; 0x8000000000000080; 0x000000000000800A; 0x800000008000000A;
   0x8000000080008081; 0x8000000000008080; 0x0000000080000001; 0x8000000080008008]%N.

Definition keccakRound1 (rc : N) (a : list N) : list N :=
  match a with
  | [a0; a1; a2; a3; a4; a5; a6; a7; a8; a9; a10; a11; a12;
     a13; a14; a15; a16; a17; a18; a19; a20; a21; a22; a23; a24] =>
      let bc0 := a0 ^^ a5 ^^ a10 ^^ a15 ^^ a20 in
      let bc1 := a1 ^^ a6 ^^ a11 ^^ a16 ^^ a21 in
      let bc2 := a2 ^^ a7 ^^ a12 ^^ a17 ^^ a22 in
      let bc3 := a3 ^^ a8 ^^ a13 ^^ a18 ^^ a23 in
      let bc4 := a4 ^^ a9 ^^ a14 ^^ a19 ^^ a24 in
      let d0 := bc4 ^^ rotl bc1 1 in
      let d1 := bc0 ^^ rotl bc2 1 in
      let d2 := bc1 ^^ rotl bc3 1 in
      let d3 := bc2 ^^ rotl bc4 1 in
      let d4 := bc3 ^^ rotl bc0 1 in
      let bc0 := a0 ^^ d0 in
      let t := a6 ^^ d1 in
      let bc1 := rotl t 44 in
      let t := a12 ^^ d2 in
      let bc2 := rotl t 43 in
      let t := a18 ^^ d3 in
      let bc3 := rotl t 21 in
      let t := a24 ^^ d4 in
      let bc4 := rotl t 14 in
      let a0 := bc0 ^^ N.ldiff bc2 bc1 ^^ rc in
      let a6 := bc1 ^^ N.ldiff bc3 bc2 in
      let a12 := bc2 ^^ N.ldiff bc4 bc3 in
      let a18 := bc3 ^^ N.ldiff bc0 bc4 in
      let a24 := bc4 ^^ N.ldiff bc1 bc0 in
      let t := a10 ^^ d0 in
      let bc2 := rotl t 3 in
      let t := a16 ^^ d1 in
      let bc3 := rotl t 45 in
      let t := a22 ^^ d2 in
      let bc4 := rotl t 61 in
      let t := a3 ^^ d3 in
      let bc0 := rotl t 28 in
      let t := a9 ^^ d4 in
      let bc1 := rotl t 20 in
      let a10 := bc0 ^^ N.ldiff bc2 bc1 in
      let a16 := bc1 ^^ N.ldiff bc3 bc2 in
      let a22 := bc2 ^^ N.ldiff bc4 bc3 in
      let a3 := bc3 ^^ N.ldiff bc0 bc4 in
      let a9 := bc4 ^^ N.ldiff bc1 bc0 in
      let t := a20 ^^ d0 in
      let bc4 := rotl t 18 in
      let t := a1 ^^ d1 in
      let bc0 := rotl t 1 in
      let t := a7 ^^ d2 in
      let bc1 := rotl t 6 in
      let t := a13 ^^ d3 in
      let bc2 := rotl t 25 in
      let t := a19 ^^ d4 in
      let bc3 := rotl t 8 in
      let a20 := bc0 ^^ N.ldiff bc2 bc1 in
      let a1 := bc1 ^^ N.ldiff bc3 bc2 in
      let a7 := bc2 ^^ N.ldiff bc4 bc3 in
      let a13 := bc3 ^^ N.ldiff bc0 bc4 in
      let a19 := bc4 ^^ N.ldiff bc1 bc0 in
      let t := a5 ^^ d0 in
      let bc1 := rotl t 36 in
      let t := a11 ^^ d1 in
      let bc2 := rotl t 10 in
      let t := a17 ^^ d2 in
      let bc3 := rotl t 15 in
      let t := a23 ^^ d3 in
      let bc4 := rotl t 56 in
      let t := a4 ^^ d4 in
      let bc0 := rotl t 27 in
      let a5 := bc0 ^^ N.ldiff bc2 bc1 in
      let a11 := bc1 ^^ N.ldiff bc3 bc2 in
      let a17 := bc2 ^^ N.ldiff bc4 bc3 in
      let a23 := bc3 ^^ N.ldiff bc0 bc4 in
      let a4 := bc4 ^^ N.ldiff bc1 bc0 in
      let t := a15 ^^ d0 in
      let bc3 := rotl t 41 in
      let t := a21 ^^ d1 in
      let bc4 := rotl t 2 in
      let t := a2 ^^ d2 in
      let bc0 := rotl t 62 in
      let t := a8 ^^ d3 in
      let bc1 := rotl t 55 in
      let t := a14 ^^ d4 in
      let bc2 := rotl t 39 in
      let a15 := bc0 ^^ N.ldiff bc2 bc1 in
      let a21 := bc1 ^^ N.ldiff bc3 bc2 in
      let a2 := bc2 ^^ N.ldiff bc4 bc3 in
      let a8 := bc3 ^^ N.ldiff bc0 bc4 in
      let a14 := bc4 ^^ N.ldiff bc1 bc0 in
      [a0; a1; a2; a3; a4; a5; a6; a7; a8; a9; a10; a11; a12;
       a13; a14; a15; a16; a17; a18; a19; a20; a21; a22; a23; a24]
  | _ => a
  end.

Definition keccakRound2 (rc : N) (a : list N) : list N :=
  match a with
  | [a0; a1; a2; a3; a4; a5; a6; a7; a8; a9; a10; a11; a12;
     a13; a14; a15; a16; a17; a18; a19; a20; a21; a22; a23; a24] =>
      let bc0 := a0 ^^ a5 ^^ a10 ^^ a15 ^^ a20 in
      let bc1 := a1 ^^ a6 ^^ a11 ^^ a16 ^^ a21 in
      let bc2 := a2 ^^ a7 ^^ a12 ^^ a17 ^^ a22 in
      let bc3 := a3 ^^ a8 ^^ a13 ^^ a18 ^^ a23 in
      let bc4 := a4 ^^ a9 ^^ a14 ^^ a19 ^^ a24 in
      let d0 := bc4 ^^ rotl bc1 1 in
      let d1 := bc0 ^^ rotl bc2 1 in
      let d2 := bc1 ^^ rotl bc3 1 in
      let d3 := bc2 ^^ rotl bc4 1 in
      let d4 := bc3 ^^ rotl bc0 1 in
      let bc0 := a0 ^^ d0 in
      let t := a16 ^^ d1 in
      let bc1 := rotl t 44 in
      let t := a7 ^^ d2 in
      let bc2 := rotl t 43 in
      let t := a23 ^^ d3 in
      let bc3 := rotl t 21 in
      let t := a14 ^^ d4 in
      let bc4 := rotl t 14 in
      let a0 := bc0 ^^ N.ldiff bc2 bc1 ^^ rc in
      let a16 := bc1 ^^ N.ldiff bc3 bc2 in
      let a7 := bc2 ^^ N.ldiff bc4 bc3 in
      let a23 := bc3 ^^ N.ldiff bc0 bc4 in
      let a14 := bc4 ^^ N.ldiff bc1 bc0 in
      let t := a20 ^^ d0 in
      let bc2 := rotl t 3 in
      let t := a11 ^^ d1 in
      let bc3 := rotl t 45 in
      let t := a2 ^^ d2 in
      let bc4 := rotl t 61 in
      let t := a18 ^^ d3 in
      let bc0 := rotl t 28 in
      let t := a9 ^^ d4 in
      let bc1 := rotl t 20 in
      let a20 := bc0 ^^ N.ldiff bc2 bc1 in
      let a11 := bc1 ^^ N.ldiff bc3 bc2 in
      let a2 := bc2 ^^ N.ldiff bc4 bc3 in
      let a18 := bc3 ^^ N.ldiff bc0 bc4 in
      let a9 := bc4 ^^ N.ldiff bc1 bc0 in
      let t := a15 ^^ d0 in
      let bc4 := rotl t 18 in
      let t := a6 ^^ d1 in
      let bc0 := rotl t 1 in
      let t := a22 ^^ d2 in
      let bc1 := rotl t 6 in
      let t := a13 ^^ d3 in
      let bc2 := rotl t 25 in
      let t := a4 ^^ d4 in
      let bc3 := rotl t 8 in
      let a15 := bc0 ^^ N.ldiff bc2 bc1 in
      let a6 := bc1 ^^ N.ldiff bc3 bc2 in
      let a22 := bc2 ^^ N.ldiff bc4 bc3 in
      let a13 := bc3 ^^ N.ldiff bc0 bc4 in
      let a4 := bc4 ^^ N.ldiff bc1 bc0 in
      let t := a10 ^^ d0 in
      let bc1 := rotl t 36 in
      let t := a1 ^^ d1 in
      let bc2 := rotl t 10 in
      let t := a17 ^^ d2 in
      let bc3 := rotl t 15 in
      let t := a8 ^^ d3 in
      let bc4 := rotl t 56 in
      let t := a24 ^^ d4 in
      let bc0 := rotl t 27 in
      let a10 := bc0 ^^ N.ldiff bc2 bc1 in
      let a1 := bc1 ^^ N.ldiff bc3 bc2 in
      let a17 := bc2 ^^ N.ldiff bc4 bc3 in
      let a8 := bc3 ^^ N.ldiff bc0 bc4 in
      let a24 := bc4 ^^ N.ldiff bc1 bc0 in
      let t := a5 ^^ d0 in
      let bc3 := rotl t 41 in
      let t := a21 ^^ d1 in
      let bc4 := rotl t 2 in
      let t := a12 ^^ d2 in
      let bc0 := rotl t 62 in
      let t := a3 ^^ d3 in
      let bc1 := rotl t 55 in
      let t := a19 ^^ d4 in
      let bc2 := rotl t 39 in
      let a5 := bc0 ^^ N.ldiff bc2 bc1 in
      let a21 := bc1 ^^ N.ldiff bc3 bc2 in
      let a12 := bc2 ^^ N.ldiff bc4 bc3 in
      let a3 := bc3 ^^ N.ldiff bc0 bc4 in
      let a19 := bc4 ^^ N.ldiff bc1 bc0 in
      [a0; a1; a2; a3; a4; a5; a6; a7; a8; a9; a10; a11; a12;
       a13; a14; a15; a16; a17; a18; a19; a20; a21; a22; a23; a24]
  | _ => a
  end.

Definition keccakRound3 (rc : N) (a : list N) : list N :=
  match a with
  | [a0; a1; a2; a3; a4; a5; a6; a7; a8; a9; a10; a11; a12;
     a13; a14; a15; a16; a17; a18; a19; a20; a21; a22; a23; a24] =>
      let bc0 := a0 ^^ a5 ^^ a10 ^^ a15 ^^ a20 in
      let bc1 := a1 ^^ a6 ^^ a11 ^^ a16 ^^ a21 in
      let bc2 := a2 ^^ a7 ^^ a12 ^^ a17 ^^ a22 in
      let bc3 := a3 ^^ a8 ^^ a13 ^^ a18 ^^ a23 in
      let bc4 := a4 ^^ a9 ^^ a14 ^^ a19 ^^ a24 in
      let d0 := bc4 ^^ rotl bc1 1 in
      let d1 := bc0 ^^ rotl bc2 1 in
      let d2 := bc1 ^^ rotl bc3 1 in
      let d3 := bc2 ^^ rotl bc4 1 in
      let d4 := bc3 ^^ rotl bc0 1 in
      let bc0 := a0 ^^ d0 in
      let t := a11 ^^ d1 in
      let bc1 := rotl t 44 in
      let t := a22 ^^ d2 in
      let bc2 := rotl t 43 in
      let t := a8 ^^ d3 in
      let bc3 := rotl t 21 in
      let t := a19 ^^ d4 in
      let bc4 := rotl t 14 in
      let a0 := bc0 ^^ N.ldiff bc2 bc1 ^^ rc in
      let a11 := bc1 ^^ N.ldiff bc3 bc2 in
      let a22 := bc2 ^^ N.ldiff bc4 bc3 in
      let a8 := bc3 ^^ N.ldiff bc0 bc4 in
      let a19 := bc4 ^^ N.ldiff bc1 bc0 in
      let t := a15 ^^ d0 in
      let bc2 := rotl t 3 in
      let t := a1 ^^ d1 in
      let bc3 := rotl t 45 in
      let t := a12 ^^ d2 in
      let bc4 := rotl t 61 in
      let t := a23 ^^ d3 in
      let bc0 := rotl t 28 in
      let t := a9 ^^ d4 in
      let bc1 := rotl t 20 in
      let a15 := bc0 ^^ N.ldiff bc2 bc1 in
      let a1 := bc1 ^^ N.ldiff bc3 bc2 in
      let a12 := bc2 ^^ N.ldiff bc4 bc3 in
      let a23 := bc3 ^^ N.ldiff bc0 bc4 in
      let a9 := bc4 ^^ N.ldiff bc1 bc0 in
      let t := a5 ^^ d0 in
      let bc4 := rotl t 18 in
      let t := a16 ^^ d1 in
      let bc0 := rotl t 1 in
      let t := a2 ^^ d2 in
      let bc1 := rotl t 6 in
      let t := a13 ^^ d3 in
      let bc2 := rotl t 25 in
      let t := a24 ^^ d4 in
      let bc3 := rotl t 8 in
      let a5 := bc0 ^^ N.ldiff bc2 bc1 in
      let a16 := bc1 ^^ N.ldiff bc3 bc2 in
      let a2 := bc2 ^^ N.ldiff bc4 bc3 in
      let a13 := bc3 ^^ N.ldiff bc0 bc4 in
      let a24 := bc4 ^^ N.ldiff bc1 bc0 in
      let t := a20 ^^ d0 in
      let bc1 := rotl t 36 in
      let t := a6 ^^ d1 in
      let bc2 := rotl t 10 in
      let t := a17 ^^ d2 in
      let bc3 := rotl t 15 in
      let t := a3 ^^ d3 in
      let bc4 := rotl t 56 in
      let t := a14 ^^ d4 in
      let bc0 := rotl t 27 in
      let a20 := bc0 ^^ N.ldiff bc2 bc1 in
      let a6 := bc1 ^^ N.ldiff bc3 bc2 in
      let a17 := bc2 ^^ N.ldiff bc4 bc3 in
      let a3 := bc3 ^^ N.ldiff bc0 bc4 in
      let a14 := bc4 ^^ N.ldiff bc1 bc0 in
      let t := a10 ^^ d0 in
      let bc3 := rotl t 41 in
      let t := a21 ^^ d1 in
      let bc4 := rotl t 2 in
      let t := a7 ^^ d2 in
      let bc0 := rotl t 62 in
      let t := a18 ^^ d3 in
      let bc1 := rotl t 55 in
      let t := a4 ^^ d4 in
      let bc2 := rotl t 39 in
      let a10 := bc0 ^^ N.ldiff bc2 bc1 in
      let a21 := bc1 ^^ N.ldiff bc3 bc2 in
      let a7 := bc2 ^^ N.ldiff bc4 bc3 in
      let a18 := bc3 ^^ N.ldiff bc0 bc4 in
      let a4 := bc4 ^^ N.ldiff bc1 bc0 in
      [a0; a1; a2; a3; a4; a5; a6; a7; a8; a9; a10; a11; a12;
       a13; a14; a15; a16; a17; a18; a19; a20; a21; a22; a23; a24]
  | _ => a
  end.

Definition keccakRound4 (rc : N) (a : list N) : list N :=
  match a with
  | [a0; a1; a2; a3; a4; a5; a6; a7; a8; a9; a10; a11; a12;
     a13; a14; a15; a16; a17; a18; a19; a20; a21; a22; a23; a24] =>
      let bc0 := a0 ^^ a5 ^^ a10 ^^ a15 ^^ a20 in
      let bc1 := a1 ^^ a6 ^^ a11 ^^ a16 ^^ a21 in
      let bc2 := a2 ^^ a7 ^^ a12 ^^ a17 ^^ a22 in
      let bc3 := a3 ^^ a8 ^^ a13 ^^ a18 ^^ a23 in
      let bc4 := a4 ^^ a9 ^^ a14 ^^ a19 ^^ a24 in
      let d0 := bc4 ^^ rotl bc1 1 in
      let d1 := bc0 ^^ rotl bc2 1 in
      let d2 := bc1 ^^ rotl bc3 1 in
      let d3 := bc2 ^^ rotl bc4 1 in
      let d4 := bc3 ^^ rotl bc0 1 in
      let bc0 := a0 ^^ d0 in
      let t := a1 ^^ d1 in
      let bc1 := rotl t 44 in
      let t := a2 ^^ d2 in
      let bc2 := rotl t 43 in
      let t := a3 ^^ d3 in
      let bc3 := rotl t 21 in
      let t := a4 ^^ d4 in
      let bc4 := rotl t 14 in
      let a0 := bc0 ^^ N.ldiff bc2 bc1 ^^ rc in
      let a1 := bc1 ^^ N.ldiff bc3 bc2 in
      let a2 := bc2 ^^ N.ldiff bc4 bc3 in
      let a3 := bc3 ^^ N.ldiff bc0 bc4 in
      let a4 := bc4 ^^ N.ldiff bc1 bc0 in
      let t := a5 ^^ d0 in
      let bc2 := rotl t 3 in
      let t := a6 ^^ d1 in
      let bc3 := rotl t 45 in
      let t := a7 ^^ d2 in
      let bc4 := rotl t 61 in
      let t := a8 ^^ d3 in
      let bc0 := rotl t 28 in
      let t := a9 ^^ d4 in
      let bc1 := rotl t 20 in
      let a5 := bc0 ^^ N.ldiff bc2 bc1 in
      let a6 := bc1 ^^ N.ldiff bc3 bc2 in
      let a7 := bc2 ^^ N.ldiff bc4 bc3 in
      let a8 := bc3 ^^ N.ldiff bc0 bc4 in
      let a9 := bc4 ^^ N.ldiff bc1 bc0 in
      let t := a10 ^^ d0 in
      let bc4 := rotl t 18 in
      let t := a11 ^^ d1 in
      let bc0 := rotl t 1 in
      let t := a12 ^^ d2 in
      let bc1 := rotl t 6 in
      let t := a13 ^^ d3 in
      let bc2 := rotl t 25 in
      let t := a14 ^^ d4 in
      let bc3 := rotl t 8 in
      let a10 := bc0 ^^ N.ldiff bc2 bc1 in
      let a11 := bc1 ^^ N.ldiff bc3 bc2 in
      let a12 := bc2 ^^ N.ldiff bc4 bc3 in
      let a13 := bc3 ^^ N.ldiff bc0 bc4 in
      let a14 := bc4 ^^ N.ldiff bc1 bc0 in
      let t := a15 ^^ d0 in
      let bc1 := rotl t 36 in
      let t := a16 ^^ d1 in
      let bc2 := rotl t 10 in
      let t := a17 ^^ d2 in
      let bc3 := rotl t 15 in
      let t := a18 ^^ d3 in
      let bc4 := rotl t 56 in
      let t := a19 ^^ d4 in
      let bc0 := rotl t 27 in
      let a15 := bc0 ^^ N.ldiff bc2 bc1 in
      let a16 := bc1 ^^ N.ldiff bc3 bc2 in
      let a17 := bc2 ^^ N.ldiff bc4 bc3 in
      let a18 := bc3 ^^ N.ldiff bc0 bc4 in
      let a19 := bc4 ^^ N.ldiff bc1 bc0 in
      let t := a20 ^^ d0 in
      let bc3 := rotl t 41 in
      let t := a21 ^^ d1 in
      let bc4 := rotl t 2 in
      let t := a22 ^^ d2 in
      let bc0 := rotl t 62 in
      let t := a23 ^^ d3 in
      let bc1 := rotl t 55 in
      let t := a24 ^^ d4 in
      let bc2 := rotl t 39 in
      let a20 := bc0 ^^ N.ldiff bc2 bc1 in
      let a21 := bc1 ^^ N.ldiff bc3 bc2 in
      let a22 := bc2 ^^ N.ldiff bc4 bc3 in
      let a23 := bc3 ^^ N.ldiff bc0 bc4 in
      let a24 := bc4 ^^ N.ldiff bc1 bc0 in
      [a0; a1; a2; a3; a4; a5; a6; a7; a8; a9; a10; a11; a12;
       a13; a14; a15; a16; a17; a18; a19; a20; a21; a22; a23; a24]
  | _ => a
  end.

(** The loop over [i = 0, 4, ..., 20], four rounds an iteration. *)
Fixpoint keccakLoop (rcs : list N) (a : list N) : list N :=
  match rcs with
  | r0 :: r1 :: r2 :: r3 :: rcs =>
      keccakLoop rcs (keccakRound4 r3 (keccakRound3 r2 (keccakRound2 r1 (keccakRound1 r0 a))))
  | _ => a
  end.

Definition keccakF1600 (a : list N) : list N := keccakLoop rc a.

(** ** sha3.go *)

Inductive spongeDirection := spongeAbsorbing | spongeSqueezing.

(** [buf] is the part of the storage in use: the input not yet absorbed, or
    the output not yet read. *)
Record state := {
  lanes : list N; buf : bytes; rate : nat; outputLen : nat; dsbyte : ascii;
  direction : spongeDirection;
}.

(** [binary.LittleEndian.Uint64] and [PutUint64]. *)
Fixpoint leUint (b : bytes) : N :=
  match b with [] => 0%N | c :: b => (b2N c + 256 * leUint b)%N end.
Fixpoint lePut (n : nat) (w : N) : bytes :=
  match n with 0 => [] | S n => N2b (w mod 256) :: lePut n (w / 256)%N end.

(** [xorInGeneric]: the block is xored into the lanes, eight bytes a lane. *)
Fixpoint xorIn (a : list N) (b : bytes) : list N :=
  match a with
  | [] => []
  | l :: a' => if 8 <=? length b then (l ^^ leUint (take 8 b)) :: xorIn a' (drop 8 b) else a
  end.

(** [copyOutGeneric] into a buffer of [n] bytes, a multiple of eight. *)
Definition copyOut (a : list N) (n : nat) : bytes := take n (a ≫= lePut 8).

Definition setLanes (d : state) (a : list N) (b : bytes) : state :=
  {| lanes := a; buf := b; rate := rate d; outputLen := outputLen d; dsbyte := dsbyte d;
     direction := direction d |}.

Definition permute (d : state) : state :=
  match direction d with
  | spongeAbsorbing => setLanes d (keccakF1600 (xorIn (lanes d) (buf d))) []
  | spongeSqueezing =>
      let a := keccakF1600 (lanes d) in setLanes d a (copyOut a (rate d))
  end.

(** [d.buf[d.rate-1] ^= 0x80]. *)
Definition xorLast (b : bytes) : bytes :=
  alter (fun c => N2b (N.lxor (b2N c) 128)) (length b - 1) b.

Definition padAndPermute (d : state) (ds : ascii) : state :=
  let b := buf d ++ [ds] in
  let b := xorLast (b ++ replicate (rate d - length b) (N2b 0)) in
  let d := permute (setLanes d (lanes d) b) in
  {| lanes := lanes d; buf := copyOut (lanes d) (rate d); rate := rate d;
     outputLen := outputLen d; dsbyte := dsbyte d; direction := spongeSqueezing |}.

(** The loop of [Write]; each iteration consumes at least one byte of [p]
    while the buffer is not full, so [length p] iterations are enough. *)
Fixpoint writeLoop (fuel : nat) (d : state) (p : bytes) : state :=
  match fuel with
  | 0 => d
  | S fuel =>
      if length p =? 0 then d
      else if (length (buf d) =? 0) && (rate d <=? length p) then
        writeLoop fuel (setLanes d (keccakF1600 (xorIn (lanes d) (take (rate d) p))) (buf d))
                  (drop (rate d) p)
      else
        let todo := Nat.min (rate d - length (buf d)) (length p) in
        let d := setLanes d (lanes d) (buf d ++ take todo p) in
        let d := if length (buf d) =? rate d then permute d else d in
        writeLoop fuel d (drop todo p)
  end.

Definition Write (d : state) (p : bytes) : result state :=
  match direction d with
  | spongeSqueezing => Panic "sha3: write to sponge after read"
  | spongeAbsorbing => Ok (writeLoop (length p) d p)
  end.

(** The loop of [Read], for [n] bytes still to be read. *)
Fixpoint readLoop (fuel n : nat) (d : state) : bytes * state :=
  match fuel with
  | 0 => ([], d)
  | S fuel =>
      if n =? 0 then ([], d)
      else
        let out := take n (buf d) in
        let d := setLanes d (lanes d) (drop n (buf d)) in
        let d := if length (buf d) =? 0 then permute d else d in
        let (rest, d) := readLoop fuel (n - length out) d in (out ++ rest, d)
  end.

Definition Read (d : state) (n : nat) : bytes * state :=
  let d := match direction d with
           | spongeAbsorbing => padAndPermute d (dsbyte d)
           | spongeSqueezing => d
           end in
  readLoop n n d.

(** [Sum(nil)], which reads from a copy of the state. *)
Definition Sum (d : state) : bytes := fst (Read d (outputLen d)).

Definition NewKeccak256 : state :=
  {| lanes := replicate 25 0%N; buf := []; rate := 136; outputLen := 32; dsbyte := N2b 1;
     direction := spongeAbsorbing |}.

(** [crypto.Keccak256] and [Keccak256Hash]: all the arguments are written, in
    order, and the sum is taken. *)
Definition Keccak256 (data : list bytes) : bytes :=
  match foldl (fun d b => d ≫= fun d => Write d b) (Ok NewKeccak256) data with
  | Ok d => Sum d
  | _ => []
  end.

(** ** The specification of the permutation *)

(** The rotation offsets, and one round of Keccak-f[1600]: theta, rho, pi, chi
    and iota on the lanes [a[x + 5y]]. *)
Definition rotationOffsets : list N :=
  [0; 1; 62; 28; 27; 36; 44; 6; 55; 20; 3; 10; 43; 25; 39; 41; 45; 15; 21; 8; 18; 2; 61; 56; 14]%N.

Definition roundSpec (rc : N) (a : list N) : list N :=
  let A x y := nth (x + 5 * y) a 0%N in
  let C x := A x 0 ^^ A x 1 ^^ A x 2 ^^ A x 3 ^^ A x 4 in
  let D x := C ((x + 4) mod 5) ^^ rotl (C ((x + 1) mod 5)) 1 in
  let rot l n := if (n =? 0)%N then l else rotl l n in
  let B x y :=
    let sx := (x + 3 * y) mod 5 in
    rot (A sx x ^^ D sx) (nth (sx + 5 * x) rotationOffsets 0%N) in
  let lane i :=
    let x := i mod 5 in let y := i / 5 in
    let l := B x y ^^ N.ldiff (B ((x + 2) mod 5) y) (B ((x + 1) mod 5) y) in
    if i =? 0 then l ^^ rc else l in
  lane <$> seq 0 25.

Definition keccakF1600Spec (a : list N) : list N := foldl (fun a r => roundSpec r a) a rc.

(** The layout of the state after each of the four unrolled rounds: where the
    lane [x + 5y] is kept. *)
Definition layout (p : list nat) (a : list N) : list N := (fun i => nth i a 0%N) <$> p.
Definition layout1 : list nat :=
  [0; 1; 2; 3; 4; 5; 6; 7; 8; 9; 10; 11; 12;
   13; 14; 15; 16; 17; 18; 19; 20; 21; 22; 23; 24].
Definition layout2 : list nat :=
  [0; 6; 12; 18; 24; 10; 16; 22; 3; 9; 20; 1; 7;
   13; 19; 5; 11; 17; 23; 4; 15; 21; 2; 8; 14].
Definition layout3 : list nat :=
  [0; 16; 7; 23; 14; 20; 11; 2; 18; 9; 15; 6; 22;
   13; 4; 10; 1; 17; 8; 24; 5; 21; 12; 3; 19].
Definition layout4 : list nat :=
  [0; 11; 22; 8; 19; 15; 1; 12; 23; 9; 5; 16; 2;
   13; 24; 20; 6; 17; 3; 14; 10; 21; 7; 18; 4].

(** xor of five lanes, up to order. *)
Ltac xor_ac := apply N.bits_inj; intros ?; rewrite !N.lxor_spec; btauto.
Ltac column A B := replace A with B by xor_ac.

(** Open a list of 25 lanes. *)
Ltac lanes25 a H :=
  destruct a as [|a0 a]; [discriminate H|];
  destruct a as [|a1 a]; [discriminate H|];
  destruct a as [|a2 a]; [discriminate H|];
  destruct a as [|a3 a]; [discriminate H|];
  destruct a as [|a4 a]; [discriminate H|];
  destruct a as [|a5 a]; [discriminate H|];
  destruct a as [|a6 a]; [discriminate H|];
  destruct a as [|a7 a]; [discriminate H|];
  destruct a as [|a8 a]; [discriminate H|];
  destruct a as [|a9 a]; [discriminate H|];
  destruct a as [|a10 a]; [discriminate H|];
  destruct a as [|a11 a]; [discriminate H|];
  destruct a as [|a12 a]; [discriminate H|];
  destruct a as [|a13 a]; [discriminate H|];
  destruct a as [|a14 a]; [discriminate H|];
  destruct a as [|a15 a]; [discriminate H|];
  destruct a as [|a16 a]; [discriminate H|];
  destruct a as [|a17 a]; [discriminate H|];
  destruct a as [|a18 a]; [discriminate H|];
  destruct a as [|a19 a]; [discriminate H|];
  destruct a as [|a20 a]; [discriminate H|];
  destruct a as [|a21 a]; [discriminate H|];
  destruct a as [|a22 a]; [discriminate H|];
  destruct a as [|a23 a]; [discriminate H|];
  destruct a as [|a24 a]; [discriminate H|];
  destruct a; [|discriminate H]; clear H.

Ltac round_eq := cbv -[N.lxor N.ldiff rotl].

Lemma keccakRound1_spec r a :
  length a = 25 ->
  layout layout2 (keccakRound1 r a) = roundSpec r (layout layout1 a).
Proof.
  intros H. lanes25 a H.
  round_eq.
  reflexivity.
Qed.

Lemma keccakRound2_spec r a :
  length a = 25 ->
  layout layout3 (keccakRound2 r a) = roundSpec r (layout layout2 a).
Proof.
  intros H. lanes25 a H.
  round_eq.
  column (a0 ^^ a10 ^^ a20 ^^ a5 ^^ a15) (a0 ^^ a5 ^^ a10 ^^ a15 ^^ a20).
  column (a6 ^^ a16 ^^ a1 ^^ a11 ^^ a21) (a1 ^^ a6 ^^ a11 ^^ a16 ^^ a21).
  column (a12 ^^ a22 ^^ a7 ^^ a17 ^^ a2) (a2 ^^ a7 ^^ a12 ^^ a17 ^^ a22).
  column (a18 ^^ a3 ^^ a13 ^^ a23 ^^ a8) (a3 ^^ a8 ^^ a13 ^^ a18 ^^ a23).
  column (a24 ^^ a9 ^^ a19 ^^ a4 ^^ a14) (a4 ^^ a9 ^^ a14 ^^ a19 ^^ a24).
  reflexivity.
Qed.

Lemma keccakRound3_spec r a :
  length a = 25 ->
  layout layout4 (keccakRound3 r a) = roundSpec r (layout layout3 a).
Proof.
  intros H. lanes25 a H.
  round_eq.
  column (a0 ^^ a20 ^^ a15 ^^ a10 ^^ a5) (a0 ^^ a5 ^^ a10 ^^ a15 ^^ a20).
  column (a16 ^^ a11 ^^ a6 ^^ a1 ^^ a21) (a1 ^^ a6 ^^ a11 ^^ a16 ^^ a21).
  column (a7 ^^ a2 ^^ a22 ^^ a17 ^^ a12) (a2 ^^ a7 ^^ a12 ^^ a17 ^^ a22).
  column (a23 ^^ a18 ^^ a13 ^^ a8 ^^ a3) (a3 ^^ a8 ^^ a13 ^^ a18 ^^ a23).
  column (a14 ^^ a9 ^^ a4 ^^ a24 ^^ a19) (a4 ^^ a9 ^^ a14 ^^ a19 ^^ a24).
  reflexivity.
Qed.

Lemma keccakRound4_spec r a :
  length a = 25 ->
  layout layout1 (keccakRound4 r a) = roundSpec r (layout layout4 a).
Proof.
  intros H. lanes25 a H.
  round_eq.
  column (a0 ^^ a15 ^^ a5 ^^ a20 ^^ a10) (a0 ^^ a5 ^^ a10 ^^ a15 ^^ a20).
  column (a11 ^^ a1 ^^ a16 ^^ a6 ^^ a21) (a1 ^^ a6 ^^ a11 ^^ a16 ^^ a21).
  column (a22 ^^ a12 ^^ a2 ^^ a17 ^^ a7) (a2 ^^ a7 ^^ a12 ^^ a17 ^^ a22).
  column (a8 ^^ a23 ^^ a13 ^^ a3 ^^ a18) (a3 ^^ a8 ^^ a13 ^^ a18 ^^ a23).
  column (a19 ^^ a9 ^^ a24 ^^ a14 ^^ a4) (a4 ^^ a9 ^^ a14 ^^ a19 ^^ a24).
  reflexivity.
Qed.

Lemma layout1_id a : length a = 25 -> layout layout1 a = a.
Proof. intros H. lanes25 a H. reflexivity. Qed.

Lemma keccakRound_length r a :
  length (keccakRound1 r a) = length a /\ length (keccakRound2 r a) = length a /\
  length (keccakRound3 r a) = length a /\ length (keccakRound4 r a) = length a.
Proof.
  assert (length a = 25 \/ length a <> 25) as [H|H] by lia.
  - lanes25 a H. repeat split; reflexivity.
  - do 25 (destruct a as [|? a]; [repeat split; reflexivity|]).
    destruct a; [done|repeat split; reflexivity].
Qed.

Lemma keccakRounds_spec r0 r1 r2 r3 a :
  length a = 25 ->
  keccakRound4 r3 (keccakRound3 r2 (keccakRound2 r1 (keccakRound1 r0 a))) =
  roundSpec r3 (roundSpec r2 (roundSpec r1 (roundSpec r0 a))).
Proof.
  intros H.
  set (a1 := keccakRound1 r0 a). set (a2 := keccakRound2 r1 a1). set (a3 := keccakRound3 r2 a2).
  assert (length a1 = 25) as H1 by (unfold a1; by rewrite (proj1 (keccakRound_length r0 a))).
  assert (length a2 = 25) as H2 by (unfold a2; by rewrite (proj1 (proj2 (keccakRound_length r1 a1)))).
  assert (length a3 = 25) as H3
    by (unfold a3; by rewrite (proj1 (proj2 (proj2 (keccakRound_length r2 a2))))).
  rewrite <- (layout1_id (keccakRound4 r3 a3))
    by (by rewrite (proj2 (proj2 (proj2 (keccakRound_length r3 a3))))).
  rewrite keccakRound4_spec by done. unfold a3 at 1. rewrite keccakRound3_spec by done.
  unfold a2 at 1. rewrite keccakRound2_spec by done. unfold a1 at 1.
  rewrite keccakRound1_spec by done. by rewrite layout1_id.
Qed.

Lemma roundSpec_length r a : length (roundSpec r a) = 25.
Proof. reflexivity. Qed.

Lemma keccakLoop_spec rcs a :
  length a = 25 -> (length rcs mod 4 = 0) ->
  keccakLoop rcs a = foldl (fun a r => roundSpec r a) a rcs.
Proof.
  revert a. induction rcs as [rcs IH] using (induction_ltof1 _ length). unfold ltof in IH.
  intros a Ha Hr. destruct rcs as [|r0 [|r1 [|r2 [|r3 rcs]]]]; try done.
  simpl. rewrite keccakRounds_spec by done. apply IH; [simpl; lia|apply roundSpec_length|].
  etransitivity; [|exact Hr]. symmetry.
  change (length (r0 :: r1 :: r2 :: r3 :: rcs)) with (S (S (S (S (length rcs))))).
  replace (S (S (S (S (length rcs))))) with (length rcs + 1 * 4) by lia. apply Nat.Div0.mod_add.
Qed.

Lemma rounds_length rcs a : length a = 25 -> length (foldl (fun a r => roundSpec r a) a rcs) = 25.
Proof.
  revert a. induction rcs as [|r rcs IH]; intros a Ha; [exact Ha|]. cbn [foldl].
  apply IH, roundSpec_length.
Qed.

Lemma keccakF1600_spec a : length a = 25 -> keccakF1600 a = keccakF1600Spec a.
Proof. intros Ha. exact (keccakLoop_spec rc a Ha eq_refl). Qed.

Lemma keccakF1600_length a : length a = 25 -> length (keccakF1600 a) = 25.
Proof. intros Ha. rewrite (keccakF1600_spec a Ha). exact (rounds_length rc a Ha). Qed.

#[global] Opaque keccakF1600.

(** ** Absorbing *)

(** The input [l] is absorbed block by block from the lanes [a]: the lanes
    after the last full block, and what is left of the input. *)
Section absorb.
Context (block : list N -> bytes -> list N) (n : nat).

Inductive AbsorbBy : list N -> bytes -> list N -> bytes -> Prop :=
  | Absorb_rest a l : length l < n -> AbsorbBy a l a l
  | Absorb_block a l a' r :
      n <= length l -> AbsorbBy (block a (take n l)) (drop n l) a' r -> AbsorbBy a l a' r.

Lemma Absorb_det a l a1 r1 a2 r2 :
  AbsorbBy a l a1 r1 -> AbsorbBy a l a2 r2 -> a1 = a2 /\ r1 = r2.
Proof.
  intros H1. revert a2 r2. induction H1 as [|a l a' r Hle _ IH]; intros a2 r2 H2;
    inversion H2; subst; [done|lia|lia|]. by apply IH.
Qed.

Lemma Absorb_app a l1 a1 r1 l2 a2 r2 :
  AbsorbBy a l1 a1 r1 -> AbsorbBy a1 (r1 ++ l2) a2 r2 -> AbsorbBy a (l1 ++ l2) a2 r2.
Proof.
  induction 1 as [|a l a' r Hle _ IH]; [done|]. intros H2. apply Absorb_block.
  - rewrite length_app. lia.
  - rewrite take_app_le, drop_app_le by done. by apply IH.
Qed.

Lemma Absorb_rest_lt a l a' r : AbsorbBy a l a' r -> length r < n.
Proof. by induction 1. Qed.

Lemma Absorb_preserves (P : list N -> Prop) a l a' r :
  (forall a b, P a -> P (block a b)) -> AbsorbBy a l a' r -> P a -> P a'.
Proof. intros HP. induction 1; auto. Qed.
End absorb.

Definition Absorb (n : nat) := AbsorbBy (fun a b => keccakF1600 (xorIn a b)) n.

(** The sponge before [Write]: absorbing, with room in the buffer. *)
Definition absorbing (d : state) : Prop :=
  direction d = spongeAbsorbing /\ length (buf d) < rate d.

Lemma writeLoop_Absorb fuel d p :
  absorbing d -> length p <= fuel ->
  exists a r, writeLoop fuel d p = setLanes d a r /\ Absorb (rate d) (lanes d) (buf d ++ p) a r.
Proof.
  revert d p. induction fuel as [|fuel IH]; intros d p [Hdir Hbuf] Hf.
  - assert (p = []) as -> by (destruct p; [done|simpl in Hf; lia]). exists (lanes d), (buf d). split.
    + simpl. by destruct d.
    + rewrite app_nil_r. by apply Absorb_rest.
  - simpl. destruct (Nat.eqb_spec (length p) 0) as [Hp|Hp].
    { apply nil_length_inv in Hp as ->. exists (lanes d), (buf d). split; [by destruct d|].
      rewrite app_nil_r. by apply Absorb_rest. }
    destruct ((length (buf d) =? 0) && (rate d <=? length p)) eqn:E.
    + apply andb_prop in E as [E1%Nat.eqb_eq%nil_length_inv E2%Nat.leb_le].
      destruct (IH (setLanes d (keccakF1600 (xorIn (lanes d) (take (rate d) p))) (buf d))
                   (drop (rate d) p)) as (a & r & Hw & Ha).
      * done.
      * rewrite length_drop. simpl in *. lia.
      * exists a, r. rewrite Hw. split; [done|]. simpl in Ha. rewrite E1 in *. simpl in *.
        by apply Absorb_block.
    + set (todo := Nat.min (rate d - length (buf d)) (length p)).
      assert (1 <= todo <= length p) as Htodo by lia.
      assert (length (take todo p) = todo) as Htake by (rewrite length_take; lia).
      simpl. rewrite length_app, Htake.
      destruct (Nat.eqb_spec (length (buf d) + todo) (rate d)) as [Hfull|Hroom].
      * unfold permute. simpl. rewrite Hdir.
        destruct (IH (setLanes d (keccakF1600 (xorIn (lanes d) (buf d ++ take todo p))) [])
                     (drop todo p)) as (a & r & Hw & Ha).
        { split; simpl; [done|lia]. }
        { rewrite length_drop. lia. }
        exists a, r. unfold setLanes in *. simpl in *. rewrite Hw. split; [done|].
        rewrite <- (take_drop todo p), app_assoc.
        apply Absorb_block; [rewrite length_app, length_app, Htake; lia|].
        rewrite take_app_le, drop_app_le by (rewrite length_app, Htake; lia).
        rewrite take_ge, drop_ge by (rewrite length_app, Htake; lia). done.
      * destruct (IH (setLanes d (lanes d) (buf d ++ take todo p)) (drop todo p)) as (a & r & Hw & Ha).
        { split; simpl; [done|]. rewrite length_app, Htake. lia. }
        { rewrite length_drop. lia. }
        exists a, r. rewrite Hw. split; [done|]. simpl in Ha.
        by rewrite <- app_assoc, take_drop in Ha.
Qed.

Lemma Write_Absorb d p :
  absorbing d ->
  exists a r, Write d p = Ok (setLanes d a r) /\ Absorb (rate d) (lanes d) (buf d ++ p) a r
    /\ absorbing (setLanes d a r).
Proof.
  intros Hd. destruct (writeLoop_Absorb (length p) d p Hd) as (a & r & Hw & Ha); [done|].
  exists a, r. unfold Write. destruct Hd as [Hdir Hbuf]. rewrite Hdir, Hw. split_and!; [done..|].
  split; [done|]. by apply Absorb_rest_lt in Ha.
Qed.

(** Writing in two pieces is writing their concatenation. *)
Lemma Write_app d p q :
  absorbing d -> (Write d p ≫= fun d => Write d q) = Write d (p ++ q).
Proof.
  intros Hd. destruct (Write_Absorb d p Hd) as (a1 & r1 & -> & H1 & Hd1). simpl.
  destruct (Write_Absorb _ q Hd1) as (a2 & r2 & -> & H2 & _).
  destruct (Write_Absorb d (p ++ q) Hd) as (a3 & r3 & -> & H3 & _).
  simpl in H2. pose proof (Absorb_app _ _ _ _ _ _ _ _ _ H1 H2) as H12.
  rewrite <- app_assoc in H12. by destruct (Absorb_det _ _ _ _ _ _ _ _ H12 H3) as [-> ->].
Qed.

Lemma absorbing_New : absorbing NewKeccak256.
Proof. split; [done|]. simpl. lia. Qed.

Lemma Write_concat d data :
  absorbing d -> foldl (fun d b => d ≫= fun d => Write d b) (Ok d) data = Write d (concat data).
Proof.
  revert d. induction data as [|b data IH]; intros d Hd; simpl.
  - destruct (Write_Absorb d [] Hd) as (a & r & -> & Ha & _). rewrite app_nil_r in Ha.
    destruct Hd as [_ Hd].
    destruct (Absorb_det _ _ _ _ _ _ _ _ Ha (Absorb_rest _ _ _ _ Hd)) as [-> ->]. by destruct d.
  - rewrite <- Write_app by done.
    destruct (Write_Absorb d b Hd) as (a & r & -> & _ & Hd'). simpl. by apply IH.
Qed.

(** The length of a digest. *)
Lemma xorIn_length a b : length (xorIn a b) = length a.
Proof.
  revert b. induction a as [|l a IH]; intros b; [done|]. cbn [xorIn].
  destruct (8 <=? length b); [|done]. cbn [length]. by rewrite IH.
Qed.

Lemma Absorb_lanes n a l a' r : Absorb n a l a' r -> length a = 25 -> length a' = 25.
Proof.
  apply Absorb_preserves with (P := fun a => length a = 25). clear. intros a b Ha.
  apply keccakF1600_length. by rewrite xorIn_length.
Qed.

Lemma lePut_length n w : length (lePut n w) = n.
Proof. revert w. induction n; intros w; simpl; auto. Qed.

Lemma copyOut_length a n : n <= 8 * length a -> length (copyOut a n) = n.
Proof.
  intros Hn. unfold copyOut. rewrite length_take.
  assert (length (a ≫= lePut 8) = 8 * length a) as ->; [|lia]. clear Hn.
  induction a as [|l a IH]; [done|]. change ((l :: a) ≫= lePut 8) with (lePut 8 l ++ (a ≫= lePut 8)).
  rewrite length_app, lePut_length, IH. simpl. lia.
Qed.

Lemma xorLast_length b : length (xorLast b) = length b.
Proof. apply length_alter. Qed.

Lemma padAndPermute_buf d :
  absorbing d -> length (lanes d) = 25 -> rate d <= 200 ->
  length (buf (padAndPermute d (dsbyte d))) = rate d.
Proof.
  intros [Hdir Hb] Ha Hr. unfold padAndPermute, permute. simpl. rewrite Hdir. simpl.
  apply copyOut_length. rewrite keccakF1600_length; [lia|]. by rewrite xorIn_length.
Qed.

Lemma readLoop_short f n d :
  0 < n <= length (buf d) -> fst (readLoop (S f) n d) = take n (buf d).
Proof.
  intros Hn. cbn [readLoop]. destruct (Nat.eqb_spec n 0) as [?|_]; [lia|].
  assert (forall d0, readLoop f (n - length (take n (buf d))) d0 = ([], d0)) as Hz.
  { intros d0. rewrite length_take, Nat.min_l, Nat.sub_diag by lia. by destruct f. }
  rewrite Hz. simpl. apply app_nil_r.
Qed.

Lemma Sum_length d :
  absorbing d -> length (lanes d) = 25 -> outputLen d < rate d <= 200 ->
  length (Sum d) = outputLen d.
Proof.
  intros Hd Ha Hr. unfold Sum, Read. destruct (Hd) as [-> Hb].
  pose proof (padAndPermute_buf d Hd Ha ltac:(lia)) as Hl.
  destruct (outputLen d) as [|n]; [done|].
  rewrite readLoop_short by lia. rewrite length_take. lia.
Qed.

Lemma Keccak256_eq data :
  exists d, Write NewKeccak256 (concat data) = Ok d /\ Keccak256 data = Sum d /\
    length (Keccak256 data) = 32.
Proof.
  destruct (Write_Absorb NewKeccak256 (concat data) absorbing_New) as (a & r & Hw & Ha & Hd).
  exists (setLanes NewKeccak256 a r). split; [done|].
  assert (Keccak256 data = Sum (setLanes NewKeccak256 a r)) as ->.
  { unfold Keccak256. by rewrite Write_concat, Hw by apply absorbing_New. }
  split; [done|]. rewrite Sum_length; [done..| |simpl; lia].
  by apply (Absorb_lanes _ _ _ _ _ Ha).
Qed.

Lemma Keccak256_length data : length (Keccak256 data) = 32.
Proof. by destruct (Keccak256_eq data) as (? & _ & _ & ?). Qed.

Lemma Keccak256_concat data : Keccak256 data = Keccak256 [concat data].
Proof.
  destruct (Keccak256_eq data) as (d & Hd & -> & _).
  destruct (Keccak256_eq [concat data]) as (d' & Hd' & -> & _).
  simpl in Hd'. rewrite app_nil_r in Hd'. congruence.
Qed.

#[global] Opaque Keccak256.

(** ** The properties of the hash *)

(** C35: the unrolled in-place permutation of keccakf.go, which fuses the five
    steps of a round and moves the lanes between rounds, computes the 24
    rounds of the Keccak-f[1600] specification on every 25-lane state. *)
Theorem keccakF1600_refines_spec (a : list N) :
  length a = 25 -> keccakF1600 a = keccakF1600Spec a /\ length (keccakF1600 a) = 25.
Proof.
  intros Ha. split; [by apply keccakF1600_spec|by apply keccakF1600_length].
Qed.

Lemma keccakF1600_refines_spec_witness :
  keccakF1600 (replicate 25 0%N) = keccakF1600Spec (replicate 25 0%N) /\
  length (keccakF1600 (replicate 25 0%N)) = 25.
Proof. apply (keccakF1600_refines_spec (replicate 25 0%N)). reflexivity. Defined.

(** [Write] is incremental: on a sponge that is still absorbing, writing
    two slices one after the other leaves exactly the state that writing
    their concatenation leaves, whatever the block boundaries, and so does
    writing any number of slices; the sponge stays ready for more input. *)
Theorem Write_incremental (d : state) (p q : bytes) (data : list bytes) :
  absorbing d ->
  (Write d p ≫= fun d => Write d q) = Write d (p ++ q) /\
  foldl (fun d b => d ≫= fun d => Write d b) (Ok d) data = Write d (concat data) /\
  (exists d', Write d p = Ok d' /\ absorbing d').
Proof.
  intros Hd. split_and!; [by apply Write_app|by apply Write_concat|].
  destruct (Write_Absorb d p Hd) as (a & r & ? & _ & ?). eauto.
Qed.

Lemma Write_incremental_witness :
  absorbing NewKeccak256 /\
  (Write NewKeccak256 "ab" ≫= fun d => Write d "c") = Write NewKeccak256 "abc".
Proof.
  split; [apply absorbing_New|].
  apply (Write_incremental NewKeccak256 "ab" "c" []), absorbing_New.
Defined.

(** The digest of the empty string, the published test vector. *)
Example Keccak256_empty :
  (b2N <$> Keccak256 [[]]) =
  [0xc5; 0xd2; 0x46; 0x01; 0x86; 0xf7; 0x23; 0x3c; 0x92; 0x7e; 0x7d; 0xb2; 0xdc; 0xc7; 0x03; 0xc0;
   0xe5; 0x00; 0xb6; 0x53; 0xca; 0x82; 0x27; 0x3b; 0x7b; 0xfa; 0xd8; 0x04; 0x5d; 0x85; 0xa4; 0x70]%N.
Proof. vm_compute. reflexivity. Qed.
