(* ===== verification/Sha1.v ===== *)
(** * SHA-1

    The standard library's [crypto/sha1], which the graph library identifies
    values by.  Words are 32-bit, as [N]. *)
From S2P Require Import Prelude.

Definition w32 (x : N) : N := (x mod 4294967296)%N.
Definition add32 (x y : N) : N := w32 (x + y).
Definition rotl32 (n x : N) : N := N.lor (w32 (N.shiftl x n)) (N.shiftr x (32 - n)).
Definition not32 (x : N) : N := N.lxor x 4294967295.

(** Big-endian words. *)
Definition beWord (b : bytes) : N := fold_left (fun n c => n * 256 + b2N c)%N b 0%N.
Fixpoint bePut (n : nat) (w : N) : bytes :=
  match n with 0 => [] | S n => bePut n (w / 256)%N ++ [N2b (w mod 256)] end.

(** The padding: a one bit, zeros, and the length in bits on 8 bytes. *)
Definition padding (len : nat) : bytes :=
  N2b 128 :: replicate ((119 - len mod 64) mod 64) (N2b 0) ++ bePut 8 (8 * N.of_nat len)%N.

Fixpoint chunks (n fuel : nat) (l : bytes) : list bytes :=
  match fuel with
  | 0 => []
  | S fuel => if bool_decide (l = []) then [] else take n l :: chunks n fuel (drop n l)
  end.

(** The message schedule, the last word first. *)
Fixpoint schedule (n : nat) (w : list N) : list N :=
  match n with
  | 0 => w
  | S n =>
      let w3 := nth 2 w 0%N in let w8 := nth 7 w 0%N in
      let w14 := nth 13 w 0%N in let w16 := nth 15 w 0%N in
      schedule n (rotl32 1 (N.lxor (N.lxor w3 w8) (N.lxor w14 w16)) :: w)
  end.

Definition roundF (t : nat) (b c d : N) : N * N :=
  if t <? 20 then (N.lor (N.land b c) (N.land (not32 b) d), 0x5A827999%N)
  else if t <? 40 then (N.lxor (N.lxor b c) d, 0x6ED9EBA1%N)
  else if t <? 60 then (N.lor (N.lor (N.land b c) (N.land b d)) (N.land c d), 0x8F1BBCDC%N)
  else (N.lxor (N.lxor b c) d, 0xCA62C1D6%N).

Definition digest : Type := N * N * N * N * N.

Fixpoint rounds (t : nat) (ws : list N) (h : digest) : digest :=
  match ws with
  | [] => h
  | w :: ws =>
      let '(a, b, c, d, e) := h in
      let (f, k) := roundF t b c d in
      let x := add32 (add32 (add32 (rotl32 5 a) f) (add32 e k)) w in
      rounds (S t) ws (x, a, rotl32 30 b, c, d)
  end.

Definition block (h : digest) (p : bytes) : digest :=
  let ws := rev (schedule 64 (rev (beWord <$> chunks 4 16 p))) in
  let '(a, b, c, d, e) := h in
  let '(a', b', c', d', e') := rounds 0 ws h in
  (add32 a a', add32 b b', add32 c c', add32 d d', add32 e e').

(** [sha1.Sum]. *)
Definition sumBytes (data : bytes) : bytes :=
  let msg := data ++ padding (length data) in
  let '(a, b, c, d, e) :=
    foldl block (0x67452301, 0xEFCDAB89, 0x98BADCFE, 0x10325476, 0xC3D2E1F0)%N
      (chunks 64 (S (length msg / 64)) msg) in
  bePut 4 a ++ bePut 4 b ++ bePut 4 c ++ bePut 4 d ++ bePut 4 e.

Lemma bePut_length n w : length (bePut n w) = n.
Proof. revert w. induction n as [|n IH]; intros w; [done|]. simpl. rewrite length_app, IH. simpl. lia. Qed.

Lemma sum_length data : Nat.eqb (length (sumBytes data)) 20 = true.
Proof.
  apply Nat.eqb_eq. unfold sumBytes. destruct (foldl _ _ _) as [[[[a b] c] d] e].
  by rewrite !length_app, !bePut_length.
Qed.

Definition sha1 (data : bytes) : array 20 := Array (sumBytes data) (sum_length data).
#[global] Opaque sumBytes.

Example sha1_abc :
  (b2N <$> abytes (sha1 "abc")) =
  [0xa9; 0x99; 0x3e; 0x36; 0x47; 0x06; 0x81; 0x6a; 0xba; 0x3e;
   0x25; 0x71; 0x78; 0x50; 0xc2; 0x6c; 0x9c; 0xd0; 0xd8; 0x9d]%N.
Proof. vm_compute. reflexivity. Qed.

Example sha1_long :
  (b2N <$> take 4 (abytes (sha1 "abcdbcdecdefdefgefghfghighijhijkijkljklmklmnlmnomnopnopq"))) =
  [0x84; 0x98; 0x3e; 0x44]%N.
Proof. vm_compute. reflexivity. Qed.

#[global] Opaque sha1.
