(* ===== verification/Common.v ===== *)
(** * Addresses, hashes and their hexadecimal forms

    The parts of the vendored go-ethereum packages [common] and
    [common/hexutil] that go-kord is built on ([HexToAddress], [IsHexAddress],
    [Address.Hex], [FromHex], [hexutil.Encode], [hexutil.Decode], ...), on top
    of the standard library's [encoding/hex] as of Go 1.9, the version the
    repository's Dockerfile builds with. *)
From S2P Require Import Prelude Keccak.

(** ** [encoding/hex] *)

Definition hextable : bytes := "0123456789abcdef".

Definition hexdigit (n : N) : ascii := nth (N.to_nat n) hextable (N2b 0).

Definition fromHexChar (c : ascii) : option N :=
  if in_range "0" "9" c then Some (b2N c - 48)%N
  else if in_range "a" "f" c then Some (b2N c - 97 + 10)%N
  else if in_range "A" "F" c then Some (b2N c - 65 + 10)%N
  else None.

Fixpoint EncodeToString (src : bytes) : bytes :=
  match src with
  | [] => []
  | v :: src =>
      hexdigit (N.shiftr (b2N v) 4) :: hexdigit (N.land (b2N v) 15) :: EncodeToString src
  end.

(** The decoding loop, over pairs of characters. *)
Fixpoint decodePairs (src : bytes) : result bytes :=
  match src with
  | a :: b :: src =>
      match fromHexChar a, fromHexChar b with
      | None, _ => Err (EInvalidByte a)
      | Some _, None => Err (EInvalidByte b)
      | Some x, Some y =>
          dst ← decodePairs src; Ok (N2b (N.lor (N.shiftl x 4) y) :: dst)
      end
  | _ => Ok []
  end.

Definition ErrLength : error := EVar "hex.ErrLength".

Definition DecodeString (s : bytes) : result bytes :=
  if Nat.odd (length s) then Err ErrLength else decodePairs s.

(** ** Package [common]: bytes.go *)

(** [Hex2Bytes] ignores the decoding error; the slice is then nil. *)
Definition Hex2Bytes (s : bytes) : bytes :=
  match DecodeString s with Ok h => h | _ => [] end.

Definition hasHexPrefix (str : bytes) : bool :=
  match str with
  | a :: b :: _ => bool_decide (a = "0"%char) && (bool_decide (b = "x"%char) || bool_decide (b = "X"%char))
  | _ => false
  end.

Definition FromHex (s : bytes) : bytes :=
  let s := if hasHexPrefix s then drop 2 s else s in
  let s := if Nat.odd (length s) then "0"%char :: s else s in
  Hex2Bytes s.

Definition isHexCharacter (c : ascii) : bool :=
  in_range "0" "9" c || in_range "a" "f" c || in_range "A" "F" c.

Definition isHex (str : bytes) : bool :=
  if Nat.odd (length str) then false else forallb isHexCharacter str.

(** ** Package [common]: types.go *)

Definition HashLength : nat := 32.
Definition AddressLength : nat := 20.
Abbreviation Hash := (array 32).
Abbreviation Address := (array 20).

Lemma SetBytes_length n (h : array n) (b : bytes) :
  Nat.eqb (length (take (n - length b) h ++ drop (length b - n) b)) n = true.
Proof.
  apply Nat.eqb_eq. rewrite length_app, length_take, length_drop, array_length. lia.
Qed.

(** [SetBytes]: [b] is cropped from the left when it is too long, and copied
    to the right end of [h] otherwise. *)
Definition SetBytes {n} (h : array n) (b : bytes) : array n :=
  Array (take (n - length b) h ++ drop (length b - n) b) (SetBytes_length n h b).

Definition BytesToHash (b : bytes) : Hash := SetBytes (zero_array 32) b.
Definition HexToHash (s : bytes) : Hash := BytesToHash (FromHex s).
Definition EmptyHash (h : Hash) : bool := bool_decide (h = zero_array 32).

Definition BytesToAddress (b : bytes) : Address := SetBytes (zero_array 20) b.
Definition HexToAddress (s : bytes) : Address := BytesToAddress (FromHex s).

Definition IsHexAddress (s : bytes) : bool :=
  let s := if hasHexPrefix s then drop 2 s else s in
  Nat.eqb (length s) (2 * AddressLength) && isHex s.

(** One step of the checksum loop of [Address.Hex]: position [i], character [c]. *)
Definition checksumByte (hash : bytes) (i : nat) (c : ascii) : ascii :=
  let hashByte := b2N (nth (i / 2) hash (N2b 0)) in
  let hashByte := if Nat.even i then N.shiftr hashByte 4 else N.land hashByte 15 in
  if ((b2N "9" <? b2N c) && (7 <? hashByte))%N then N2b (b2N c - 32) else c.

(** [Address.Hex]: the EIP55 mixed-case form.  [Address.String] is the same. *)
Definition Address_Hex (a : Address) : bytes :=
  let unchecksummed := EncodeToString a in
  let hash := Keccak256 [unchecksummed] in
  "0x" ++ imap (checksumByte hash) unchecksummed.

(** ** Package [common/hexutil] *)

Definition ErrEmptyString : error := EMsg "empty hex string".
Definition ErrSyntax : error := EMsg "invalid hex string".
Definition ErrMissingPrefix : error := EMsg "hex string without 0x prefix".
Definition ErrOddLength : error := EMsg "hex string of odd length".

Definition mapError (e : error) : error :=
  match e with
  | EInvalidByte _ => ErrSyntax
  | _ => if decide (e = ErrLength) then ErrOddLength else e
  end.

Definition Decode (input : bytes) : result bytes :=
  if Nat.eqb (length input) 0 then Err ErrEmptyString
  else if negb (hasHexPrefix input) then Err ErrMissingPrefix
  else match DecodeString (drop 2 input) with Err e => Err (mapError e) | r => r end.

Definition Encode (b : bytes) : bytes := "0x" ++ EncodeToString b.

(** [Hash.Hex], and [Hash.String]. *)
Definition Hash_Hex (h : Hash) : bytes := Encode h.

(** Lower-casing of a hexadecimal digit, used to state results up to case. *)
Definition lowerHex (c : ascii) : ascii :=
  if in_range "A" "F" c then N2b (b2N c + 32) else c.

(** ** Hexadecimal round trips *)

Create Rewrite HintDb hex.

Lemma fromHexChar_hi v :
  fromHexChar (hexdigit (N.shiftr (b2N v) 4)) = Some (N.shiftr (b2N v) 4).
Proof. by all_bytes v. Qed.

Lemma fromHexChar_lo v :
  fromHexChar (hexdigit (N.land (b2N v) 15)) = Some (N.land (b2N v) 15).
Proof. by all_bytes v. Qed.

Lemma nibbles_join v :
  N2b (N.lor (N.shiftl (N.shiftr (b2N v) 4) 4) (N.land (b2N v) 15)) = v.
Proof. by all_bytes v. Qed.

#[export] Hint Rewrite fromHexChar_hi fromHexChar_lo nibbles_join : hex.

(** The characters the encoder writes. *)
Definition lowerDigit (c : ascii) : bool := in_range "0" "9" c || in_range "a" "f" c.

Lemma EncodeToString_digits b : Forall (fun c => lowerDigit c = true) (EncodeToString b).
Proof. induction b as [|v b IH]; simpl; repeat constructor; try done; by all_bytes v. Qed.

Lemma length_EncodeToString b : length (EncodeToString b) = 2 * length b.
Proof. induction b as [|v b IH]; simpl; lia. Qed.

Lemma odd_EncodeToString b : Nat.odd (length (EncodeToString b)) = false.
Proof.
  rewrite length_EncodeToString, <- Nat.negb_even, Nat.even_mul. reflexivity.
Qed.

Lemma decodePairs_Encode b : decodePairs (EncodeToString b) = Ok b.
Proof.
  induction b as [|v b IH]; simpl; [done|].
  autorewrite with hex. rewrite IH. simpl. by autorewrite with hex.
Qed.

Lemma DecodeString_Encode b : DecodeString (EncodeToString b) = Ok b.
Proof. unfold DecodeString. by rewrite odd_EncodeToString, decodePairs_Encode. Qed.

(** Strings that agree digit by digit (up to the case of the digits). *)
Definition sameDigits : bytes -> bytes -> Prop :=
  Forall2 (fun c d => fromHexChar c = fromHexChar d).

#[export] Instance sameDigits_equiv : Equivalence sameDigits.
Proof.
  split.
  - intros s. by apply Forall_Forall2_diag, Forall_true.
  - intros s t H. apply Forall2_flip. eapply Forall2_impl; [exact H|]. by intros.
  - intros s t u H. revert u. induction H; intros u Hu; inversion Hu; subst;
      constructor; [congruence|eauto]. apply IHForall2. done.
Qed.

Lemma decodePairs_same s t b : sameDigits s t -> decodePairs s = Ok b -> decodePairs t = Ok b.
Proof.
  revert t b. induction s as [|c|c d s IH] using list_pair_ind; intros t b Hst Hs.
  - inversion Hst; subst. done.
  - inversion Hst as [|? ? ? ? ? Hn]; subst. by inversion Hn; subst.
  - inversion Hst as [|? c' ? t1 Hc H1]; subst. inversion H1 as [|? d' ? t2 Hd H2]; subst.
    simpl in *. rewrite <- Hc, <- Hd.
    destruct (fromHexChar c) as [x|]; [|done]. destruct (fromHexChar d) as [y|]; [|done].
    inv_ok. by rewrite (IH _ _ H2 H).
Qed.

#[export] Instance DecodeString_proper b :
  Proper (sameDigits ==> iff) (fun s => DecodeString s = Ok b).
Proof.
  assert (forall s t, sameDigits s t -> DecodeString s = Ok b -> DecodeString t = Ok b) as H.
  { intros s t Hst. unfold DecodeString. rewrite <- (Forall2_length _ _ _ Hst).
    destruct (Nat.odd _); [done|]. by apply decodePairs_same. }
  intros s t Hst; split; apply H; [done|by symmetry].
Qed.

(** The checksum changes the case of letters only. *)
Lemma fromHexChar_upper c :
  lowerDigit c = true -> (57 <? b2N c)%N = true -> fromHexChar (N2b (b2N c - 32)) = fromHexChar c.
Proof. all_bytes c; vm_compute; congruence. Qed.

Lemma checksumByte_digit h i c :
  lowerDigit c = true -> fromHexChar (checksumByte h i c) = fromHexChar c.
Proof.
  intros Hc. unfold checksumByte. destruct (_ && _) eqn:E; [|done].
  apply andb_prop in E as [E _]. by apply fromHexChar_upper.
Qed.

Lemma checksum_same h b :
  sameDigits (imap (checksumByte h) (EncodeToString b)) (EncodeToString b).
Proof.
  apply Forall2_imap_l. eapply Forall_impl; [apply EncodeToString_digits|].
  intros c Hc i. by apply checksumByte_digit.
Qed.

Lemma DecodeString_checksum h b :
  DecodeString (imap (checksumByte h) (EncodeToString b)) = Ok b.
Proof. apply (DecodeString_proper b _ _ (checksum_same h b)), DecodeString_Encode. Qed.

(** [FromHex] of a prefixed string that decodes. *)
Lemma FromHex_prefixed s b : DecodeString s = Ok b -> FromHex ("0x" ++ s) = b.
Proof.
  intros H. unfold FromHex. simpl. rewrite drop_0.
  assert (Nat.odd (length s) = false) as ->.
  { unfold DecodeString in H. by destruct (Nat.odd (length s)). }
  unfold Hex2Bytes. by rewrite H.
Qed.

Lemma SetBytes_full {n} (h a : array n) : SetBytes h (abytes a) = a.
Proof.
  apply array_eq. simpl. rewrite !array_length, Nat.sub_diag, take_0, drop_0. done.
Qed.

Lemma FromHex_Encode b : FromHex (Encode b) = b.
Proof. apply FromHex_prefixed, DecodeString_Encode. Qed.

Lemma Decode_Encode b : Decode (Encode b) = Ok b.
Proof. unfold Decode, Encode. simpl. rewrite drop_0. by rewrite DecodeString_Encode. Qed.

Lemma HexToHash_Hex (h : Hash) : HexToHash (Hash_Hex h) = h.
Proof. unfold HexToHash, Hash_Hex, BytesToHash. rewrite FromHex_Encode. apply SetBytes_full. Qed.

Lemma FromHex_Address_Hex (a : Address) : FromHex (Address_Hex a) = a.
Proof. apply FromHex_prefixed, DecodeString_checksum. Qed.

Lemma HexToAddress_Hex (a : Address) : HexToAddress (Address_Hex a) = a.
Proof. unfold HexToAddress, BytesToAddress. rewrite FromHex_Address_Hex. apply SetBytes_full. Qed.

Lemma length_Address_Hex (a : Address) : length (Address_Hex a) = 42.
Proof.
  unfold Address_Hex. rewrite length_app, length_imap, length_EncodeToString, array_length. done.
Qed.

#[export] Hint Rewrite FromHex_Encode Decode_Encode @HexToHash_Hex @FromHex_Address_Hex
  @HexToAddress_Hex : hex.

(** ** Which strings are decoded *)

Lemma isHexCharacter_fromHexChar c : isHexCharacter c = true <-> is_Some (fromHexChar c).
Proof.
  unfold isHexCharacter, fromHexChar.
  destruct (in_range "0" "9" c), (in_range "a" "f" c), (in_range "A" "F" c); simpl;
    split; try done; by intros [? [=]].
Qed.

Lemma fromHexChar_lt c x : fromHexChar c = Some x -> (x < 16)%N.
Proof. all_bytes c; vm_compute; intros [=]; subst; reflexivity. Qed.

Lemma hexdigit_join x y :
  (x < 16)%N -> (y < 16)%N ->
  fromHexChar (hexdigit (N.shiftr (b2N (N2b (N.lor (N.shiftl x 4) y))) 4)) = Some x /\
  fromHexChar (hexdigit (N.land (b2N (N2b (N.lor (N.shiftl x 4) y))) 15)) = Some y.
Proof.
  intros Hx Hy.
  set (P := fun x y => bool_decide (
    fromHexChar (hexdigit (N.shiftr (b2N (N2b (N.lor (N.shiftl x 4) y))) 4)) = Some x /\
    fromHexChar (hexdigit (N.land (b2N (N2b (N.lor (N.shiftl x 4) y))) 15)) = Some y)).
  assert (forallb (fun n => forallb (fun m => P (N.of_nat n) (N.of_nat m)) (seq 0 16)) (seq 0 16)
          = true) as HP by (vm_compute; reflexivity).
  rewrite forallb_forall in HP. specialize (HP (N.to_nat x) ltac:(apply in_seq; lia)).
  cbv beta in HP. rewrite forallb_forall in HP.
  specialize (HP (N.to_nat y) ltac:(apply in_seq; lia)).
  rewrite !N2Nat.id in HP. by apply bool_decide_eq_true_1 in HP.
Qed.

(** What is decoded encodes back to the same digits. *)
Lemma decodePairs_sound s b :
  Nat.odd (length s) = false -> decodePairs s = Ok b -> sameDigits (EncodeToString b) s.
Proof.
  revert b. induction s as [|c|c d s IH] using list_pair_ind; intros b Hodd Hs; [|done|].
  - simpl in Hs. inv_ok. constructor.
  - simpl in Hs. destruct (fromHexChar c) as [x|] eqn:Hc; [|done].
    destruct (fromHexChar d) as [y|] eqn:Hd; [|done]. inv_ok. simpl.
    destruct (hexdigit_join x y) as [H1 H2]; [by eapply fromHexChar_lt..|].
    constructor; [by rewrite H1|]. constructor; [by rewrite H2|]. by apply IH.
Qed.

(** An all-hexadecimal string of even length decodes, to half as many bytes. *)
Lemma isHex_decodes s :
  isHex s = true -> exists b, DecodeString s = Ok b /\ sameDigits (EncodeToString b) s.
Proof.
  unfold isHex, DecodeString. destruct (Nat.odd (length s)) eqn:Hodd; [done|]. intros H.
  assert (exists b, decodePairs s = Ok b) as [b Hb].
  { clear Hodd. induction s as [|c|c d s IH] using list_pair_ind; [by exists []..|].
    simpl in H. apply andb_prop in H as [H1 [H2 H3]%andb_prop].
    apply isHexCharacter_fromHexChar in H1 as [x H1], H2 as [y H2].
    destruct (IH H3) as [b Hb]. eexists. simpl. by rewrite H1, H2, Hb. }
  exists b. split; [done|]. by apply decodePairs_sound.
Qed.

(** The string without its [0x] prefix, if it has one. *)
Definition stripPrefix (s : bytes) : bytes := if hasHexPrefix s then drop 2 s else s.

Lemma FromHex_strip s b : DecodeString (stripPrefix s) = Ok b -> FromHex s = b.
Proof.
  unfold FromHex, stripPrefix. intros H.
  assert (Nat.odd (length (if hasHexPrefix s then drop 2 s else s)) = false) as ->.
  { unfold DecodeString in H. by destruct (Nat.odd _). }
  unfold Hex2Bytes. by rewrite H.
Qed.

Lemma IsHexAddress_decodes s :
  IsHexAddress s = true ->
  DecodeString (stripPrefix s) = Ok (abytes (HexToAddress s)) /\
  sameDigits (EncodeToString (HexToAddress s)) (stripPrefix s).
Proof.
  unfold IsHexAddress. fold (stripPrefix s). intros [Hlen Hhex]%andb_prop.
  apply Nat.eqb_eq in Hlen.
  apply isHex_decodes in Hhex as (b & Hb & Hd).
  assert (length b = 20) as Hl.
  { apply Forall2_length in Hd. rewrite length_EncodeToString, Hlen in Hd. unfold AddressLength in Hd. lia. }
  assert (abytes (HexToAddress s) = b) as ->; [|done].
  unfold HexToAddress, BytesToAddress. rewrite (FromHex_strip s b Hb). simpl.
  rewrite Hl. by rewrite drop_0.
Qed.

Lemma isHex_same s t : sameDigits s t -> isHex s = true -> isHex t = true.
Proof.
  unfold isHex. intros Hst. rewrite <- (Forall2_length _ _ _ Hst).
  destruct (Nat.odd _); [done|]. induction Hst as [|c d s t Hcd Hst IH]; [done|]. simpl.
  intros [Hc Hs]%andb_prop. rewrite IH by done.
  apply isHexCharacter_fromHexChar in Hc as [x Hc]. rewrite Hcd in Hc.
  by rewrite (proj2 (isHexCharacter_fromHexChar d) (ex_intro _ _ Hc)).
Qed.

Lemma isHex_EncodeToString b : isHex (EncodeToString b) = true.
Proof.
  unfold isHex. rewrite odd_EncodeToString. apply forallb_forall. intros c Hin.
  pose proof (EncodeToString_digits b) as HF. rewrite List.Forall_forall in HF.
  specialize (HF c Hin). unfold isHexCharacter. unfold lowerDigit in HF. by rewrite HF.
Qed.

Lemma IsHexAddress_Hex (a : Address) : IsHexAddress (Address_Hex a) = true.
Proof.
  unfold IsHexAddress, Address_Hex. simpl. rewrite drop_0, length_imap, length_EncodeToString, array_length.
  simpl. apply (isHex_same (EncodeToString a)); [symmetry; apply checksum_same|].
  apply isHex_EncodeToString.
Qed.

(** ** The properties of the hexadecimal forms *)

(** [hexutil.Decode] and [common.FromHex] both invert [hexutil.Encode] on
    every byte string, and [HexToHash] inverts [Hash.Hex]; so hashes, claim
    identifiers and signatures survive the trip through their text form. *)
Theorem hex_roundtrip (b : bytes) (h : Hash) :
  Decode (Encode b) = Ok b /\ FromHex (Encode b) = b /\ HexToHash (Hash_Hex h) = h.
Proof. by autorewrite with hex. Qed.

(** [Address.Hex] always writes a 42-character string that [IsHexAddress]
    accepts and [HexToAddress] maps back to the address, and conversely an accepted string differs from the canonical form of
    its address in its prefix and in the case of its digits only. *)
Theorem address_hex_canonical (a : Address) (s : bytes) :
  length (Address_Hex a) = 42 /\ IsHexAddress (Address_Hex a) = true /\
  HexToAddress (Address_Hex a) = a /\
  (IsHexAddress s = true ->
    sameDigits (stripPrefix (Address_Hex (HexToAddress s))) (stripPrefix s)).
Proof.
  split_and!; [apply length_Address_Hex|apply IsHexAddress_Hex|apply HexToAddress_Hex|].
  intros [_ Hs]%IsHexAddress_decodes. etrans; [|exact Hs].
  unfold Address_Hex, stripPrefix. simpl. rewrite drop_0. apply checksum_same.
Qed.

Lemma address_hex_canonical_witness :
  IsHexAddress "0x5aaeb6053f3e94c9b9a09f33669435e7ef1beaed" = true /\
  sameDigits "5aAeb6053F3E94C9b9A09f33669435E7Ef1BeAed" "5aaeb6053f3e94c9b9a09f33669435e7ef1beaed" /\
  Address_Hex (HexToAddress "0x5aaeb6053f3e94c9b9a09f33669435e7ef1beaed")
    = "0x5aAeb6053F3E94C9b9A09f33669435E7Ef1BeAed".
Proof.
  assert (IsHexAddress "0x5aaeb6053f3e94c9b9a09f33669435e7ef1beaed" = true) as H by reflexivity.
  assert (Address_Hex (HexToAddress "0x5aaeb6053f3e94c9b9a09f33669435e7ef1beaed")
    = "0x5aAeb6053F3E94C9b9A09f33669435E7Ef1BeAed") as E by (vm_compute; reflexivity).
  split_and!; [exact H| |exact E].
  destruct (address_hex_canonical (zero_array 20) "0x5aaeb6053f3e94c9b9a09f33669435e7ef1beaed")
    as (_ & _ & _ & Hs). specialize (Hs H). rewrite E in Hs. exact Hs.
Defined.
