(* ===== verification/Crypto.v ===== *)
(** * Signatures and the addresses of their signers

    The Go wrappers of the vendored [crypto] and [crypto/secp256k1] packages
    that go-kord calls ([Ecrecover], [PubkeyToAddress], [Sign]), and the
    [ecrecover] precompiled contract of [core/vm] the registry contract calls.
    The elliptic-curve arithmetic itself is libsecp256k1, C code behind cgo: it
    is a parameter, the class [Secp256k1]. *)
From S2P Require Import Prelude Keccak Common.

(** ** libsecp256k1 *)

(** [ext_ecdsa_recover msg sig] is the C function of that name: the 65-byte
    uncompressed public key, [None] when it returns 0.  [ecdsa_sign msg key]
    is [secp256k1_ecdsa_sign_recoverable] followed by the compact
    serialization: the 64 bytes of r and s and the recovery id; [seckey_verify]
    and [ec_pubkey] are the key check and the public key of a secret key. *)
Class Secp256k1 := {
  ext_ecdsa_recover : Hash -> array 65 -> option (array 65);
  ecdsa_sign : Hash -> array 32 -> option (array 64 * ascii);
  seckey_verify : array 32 -> bool;
  ec_pubkey : array 32 -> array 65;
}.

(** What libsecp256k1 documents of signing and recovering: a valid key signs
    with a recovery id 0..3, and recovering from that signature gives the
    public key of the signing key. *)
Class Secp256k1Laws `{Secp256k1} := {
  sign_recid : forall msg key rs v, ecdsa_sign msg key = Some (rs, v) -> (b2N v < 4)%N;
  sign_recover : forall msg key rs v sig,
    seckey_verify key = true -> ecdsa_sign msg key = Some (rs, v) ->
    abytes sig = abytes rs ++ [v] -> ext_ecdsa_recover msg sig = Some (ec_pubkey key);
}.

Definition ErrInvalidMsgLen : error := EVar "secp256k1.ErrInvalidMsgLen".
Definition ErrInvalidSignatureLen : error := EVar "secp256k1.ErrInvalidSignatureLen".
Definition ErrInvalidRecoveryID : error := EVar "secp256k1.ErrInvalidRecoveryID".
Definition ErrInvalidKey : error := EVar "secp256k1.ErrInvalidKey".
Definition ErrSignFailed : error := EVar "secp256k1.ErrSignFailed".
Definition ErrRecoverFailed : error := EVar "secp256k1.ErrRecoverFailed".

Section crypto.
Context `{Secp256k1}.

Definition checkSignature (sig : bytes) : result (array 65) :=
  match array_of sig with
  | None => Err ErrInvalidSignatureLen
  | Some s => if (4 <=? b2N (nth 64 sig (N2b 0)))%N then Err ErrInvalidRecoveryID else Ok s
  end.

Definition RecoverPubkey (msg sig : bytes) : result (array 65) :=
  match array_of msg with
  | None => Err ErrInvalidMsgLen
  | Some m =>
      s ← checkSignature sig;
      match ext_ecdsa_recover m s with
      | None => Err ErrRecoverFailed
      | Some pubkey => Ok pubkey
      end
  end.

Definition Ecrecover (hash sig : bytes) : result (array 65) := RecoverPubkey hash sig.

(** [PubkeyToAddress] of the key whose serialization is [pub]: the last 20
    bytes of the hash of the 64 coordinate bytes.  The Go code goes through
    [elliptic.Unmarshal] and [elliptic.Marshal], which are inverse on the
    serializations libsecp256k1 returns. *)
Definition PubkeyToAddress (pub : array 65) : Address :=
  BytesToAddress (drop 12 (Keccak256 [drop 1 pub])).

(** [secp256k1.Sign], the body of [crypto.Sign] on a 32-byte key. *)
Definition Sign (msg : bytes) (seckey : array 32) : result bytes :=
  match array_of msg with
  | None => Err ErrInvalidMsgLen
  | Some m =>
      if negb (seckey_verify seckey) then Err ErrInvalidKey
      else match ecdsa_sign m seckey with
           | None => Err ErrSignFailed
           | Some (rs, v) => Ok (abytes rs ++ [v])
           end
  end.

(** The address of the signer of [hash], as [verifyClaim] and the registry
    implementations compute it. *)
Definition signer (hash : Hash) (sig : bytes) : result Address :=
  pub ← Ecrecover hash sig; Ok (PubkeyToAddress pub).

Definition addressOf (key : array 32) : Address := PubkeyToAddress (ec_pubkey key).

(** ** The [ecrecover] precompile *)

(** The order of the secp256k1 group. *)
Definition secp256k1_N : Z :=
  0xfffffffffffffffffffffffffffffffebaaedce6af48a03bbfd25e8cd0364141.

(** [big.Int.SetBytes]: a big-endian unsigned integer. *)
Definition bigBytes (l : bytes) : Z :=
  fold_left (fun n c => n * 256 + Z.of_N (b2N c))%Z l 0%Z.

(** [HexToECDSA]: the key of a scalar, of 32 bytes and between zero and the order. *)
Definition toECDSA (d : bytes) : result (array 32) :=
  if negb (length d =? 32) then Err (ETyped "fmt.Errorf" "invalid length, need %d bits")
  else if (secp256k1_N <=? bigBytes d)%Z then Err (ETyped "fmt.Errorf" "invalid private key, >=N")
  else if (bigBytes d <=? 0)%Z then Err (ETyped "fmt.Errorf" "invalid private key, zero or negative")
  else Ok (SetBytes (zero_array 32) d).
Definition HexToECDSA (hexkey : bytes) : result (array 32) :=
  match DecodeString hexkey with Ok b => toECDSA b | Err _ => Err (EMsg "invalid hex string") | Panic p => Panic p end.

(** [ValidateSignatureValues] with [homestead] false. *)
Definition ValidateSignatureValues (v : N) (r s : Z) : bool :=
  if ((r <? 1) || (s <? 1))%Z then false
  else ((r <? secp256k1_N) && (s <? secp256k1_N))%Z && ((v =? 0) || (v =? 1))%N.

(** [ecrecover.Run] on the input (hash, v, r, s) of four 32-byte words whose
    second is the byte [v] padded on the left, which is how Solidity calls
    it.  [v - 27] wraps around at 8 bits.  The precompile returns no bytes
    on failure, and the caller's result word, cleared beforehand, is then
    the zero address. *)
Definition ecrecover (hash : Hash) (v : N) (r s : bytes) : Address :=
  let v := ((v + 256 - 27) mod 256)%N in
  if negb (ValidateSignatureValues v (bigBytes r) (bigBytes s)) then zero_array 20
  else match Ecrecover hash (r ++ s ++ [N2b v]) with
       | Ok pubKey => PubkeyToAddress pubKey
       | _ => zero_array 20
       end.
End crypto.

(** ** Signing, then recovering *)

Section laws.
Context `{Secp256k1Laws}.

Lemma array_of_length {n} (l : bytes) (a : array n) : array_of l = Some a -> abytes a = l.
Proof. unfold array_of. destruct (bool_dec _ _); by intros [= <-]. Qed.

Lemma array_of_Some {n} (l : bytes) : length l = n -> exists a : array n, array_of l = Some a.
Proof.
  intros Hl. unfold array_of. destruct (bool_dec _ _) as [?|Hn]; [by eexists|].
  exfalso. apply Hn. by apply Nat.eqb_eq.
Qed.

Lemma Sign_length msg key sig : Sign msg key = Ok sig -> length sig = 65.
Proof.
  unfold Sign. destruct (array_of msg); [|done]. destruct (seckey_verify key); [|done]. simpl.
  destruct (ecdsa_sign _ _) as [[rs v]|]; [|done]. intros [= <-].
  by rewrite length_app, array_length.
Qed.

Lemma Sign_recid msg key sig : Sign msg key = Ok sig -> (b2N (nth 64 sig (N2b 0)) < 4)%N.
Proof.
  unfold Sign. destruct (array_of msg); [|done]. destruct (seckey_verify key); [|done]. simpl.
  destruct (ecdsa_sign _ _) as [[rs v]|] eqn:Hs; [|done]. intros [= <-].
  rewrite app_nth2; rewrite array_length; [|lia]. by apply sign_recid in Hs.
Qed.

Lemma signer_Sign (hash : Hash) key sig :
  Sign hash key = Ok sig -> signer hash sig = Ok (addressOf key).
Proof.
  intros Hs. pose proof (Sign_length _ _ _ Hs) as Hlen.
  pose proof (Sign_recid _ _ _ Hs) as Hv. revert Hs.
  unfold Sign, signer, Ecrecover, RecoverPubkey, checkSignature.
  rewrite array_of_abytes. destruct (seckey_verify key) eqn:Hk; [|done]. cbn [negb].
  destruct (ecdsa_sign hash key) as [[rs v]|] eqn:Hsign; [|done]. intros [= Hsig].
  destruct (array_of_Some (n:=65) sig Hlen) as [s Hs]. rewrite Hs. cbn beta iota.
  apply array_of_length in Hs.
  rewrite (proj2 (N.leb_gt 4 _) Hv). simpl.
  rewrite (sign_recover _ _ _ _ s Hk Hsign); [done|]. by rewrite Hs.
Qed.
End laws.

(** ** A toy curve

    An instance of the parameters that satisfies the laws, for the witnesses:
    the public key is the secret key twice, and a signature is that public key
    with recovery id 0. *)
Module Toy.
Lemma twice_length (k : array 32) : Nat.eqb (length (abytes k ++ abytes k)) 64 = true.
Proof. apply Nat.eqb_eq. by rewrite length_app, array_length. Qed.
Definition twice (k : array 32) : array 64 := Array (abytes k ++ abytes k) (twice_length k).

Lemma pubOf_length (l : array 64) : Nat.eqb (length (N2b 4 :: abytes l)) 65 = true.
Proof. apply Nat.eqb_eq. simpl. by rewrite array_length. Qed.
Definition pubOf (l : array 64) : array 65 := Array (N2b 4 :: abytes l) (pubOf_length l).

#[global] Instance toy : Secp256k1 := {
  ext_ecdsa_recover := fun _ sig => pubOf <$> array_of (take 64 sig);
  ecdsa_sign := fun _ key => Some (twice key, N2b 0);
  seckey_verify := fun _ => true;
  ec_pubkey := fun key => pubOf (twice key);
}.

#[global] Instance toy_laws : Secp256k1Laws.
Proof.
  split; [by intros msg key rs v [= <- <-]|]. intros msg key rs v sig _ [= <- <-] Hs. simpl.
  rewrite Hs, take_app_le by (by rewrite array_length).
  rewrite take_ge by (by rewrite array_length). change (abytes key ++ abytes key) with (abytes (twice key)).
  by rewrite array_of_abytes.
Qed.

Definition key : array 32 := SetBytes (zero_array 32) "a secret key of thirty-two bytes".
Definition otherKey : array 32 := SetBytes (zero_array 32) "one more key of thirty-two bytes".
End Toy.
