(* ===== verification/Uri.v ===== *)
(** * KORD URIs

    Package [pkg/uri]: [Parse] and [URI.String], on a model of the part of the
    standard library's [net/url] they use (Go 1.9): splitting a URL into
    scheme, authority and path, the percent decoding of hosts and paths with
    its error cases, and the printing of a URL with a scheme, a host and a
    path.  User information, queries and fragments are checked as the library
    checks them and dropped, as the code drops them. *)
From S2P Require Import Prelude Keccak Common.

(** ** Package [strings] *)

(** The text before and after the first [c], when there is one. *)
Fixpoint splitFirst (c : ascii) (s : bytes) : option (bytes * bytes) :=
  match s with
  | [] => None
  | d :: s =>
      if decide (d = c) then Some ([], s)
      else match splitFirst c s with Some (a, b) => Some (d :: a, b) | None => None end
  end.

(** The text before and after the last [c]. *)
Definition splitLast (c : ascii) (s : bytes) : option (bytes * bytes) :=
  match splitFirst c (rev s) with Some (a, b) => Some (rev b, rev a) | None => None end.

Definition hasByte (c : ascii) (s : bytes) : bool := bool_decide (c ∈ s).

Definition HasPrefix (s prefix : bytes) : bool :=
  bool_decide (take (length prefix) s = prefix).

(** ** [net/url]: escaping *)

Inductive encoding := encodePath | encodeUserPassword | encodeHost | encodeZone | encodeFragment.
#[global] Instance encoding_eq_dec : EqDecision encoding.
Proof. solve_decision. Defined.

Definition isLetter (c : ascii) : bool := in_range "a" "z" c || in_range "A" "Z" c.
Definition isDigit (c : ascii) : bool := in_range "0" "9" c.
Definition ishex (c : ascii) : bool := isHexCharacter c.
Definition unhex (c : ascii) : N := default 0%N (fromHexChar c).

Definition shouldEscape (c : ascii) (mode : encoding) : bool :=
  if isLetter c || isDigit c then false
  else if (bool_decide (mode = encodeHost) || bool_decide (mode = encodeZone))
          && hasByte c (String.list_ascii_of_string "!$&'()*+,;=:[]<>" ++ [N2b 34]) then false
  else if hasByte c "-_.~" then false
  else if hasByte c "$&+,/:;=?@" then
    match mode with
    | encodePath => bool_decide (c = "?"%char)
    | encodeUserPassword => hasByte c "@/?:"
    | encodeFragment => false
    | encodeHost | encodeZone => true
    end
  else true.

Definition EscapeError (s : bytes) : error := ETyped "url.EscapeError" s.
Definition InvalidHostError (c : ascii) : error := ETyped "url.InvalidHostError" [c].

(** The first pass of [unescape]: is every percent sign well formed, and
    allowed where it stands? *)
Fixpoint checkEscapes (mode : encoding) (s : bytes) : result unit :=
  match s with
  | [] => Ok tt
  | c :: s' =>
      if decide (c = "%"%char) then
        match s' with
        | a :: b :: s'' =>
            if negb (ishex a && ishex b) then Err (EscapeError [c; a; b])
            else if bool_decide (mode = encodeHost) && (unhex a <? 8)%N
                    && negb (bool_decide ([c; a; b] = "%25")) then Err (EscapeError [c; a; b])
            else if bool_decide (mode = encodeZone)
                    && negb (bool_decide ([c; a; b] = "%25"))
                    && negb (bool_decide (N.lor (N.shiftl (unhex a) 4) (unhex b) = 32%N))
                    && shouldEscape (N2b (N.lor (N.shiftl (unhex a) 4) (unhex b))) encodeHost
                 then Err (EscapeError [c; a; b])
            else checkEscapes mode s''
        | _ => Err (EscapeError s)
        end
      else if (bool_decide (mode = encodeHost) || bool_decide (mode = encodeZone))
              && (b2N c <? 128)%N && shouldEscape c mode then Err (InvalidHostError c)
      else checkEscapes mode s'
  end.

(** The second pass: replace each escape by the byte it stands for. *)
Fixpoint decodeEscapes (s : bytes) : bytes :=
  match s with
  | [] => []
  | c :: s' =>
      if decide (c = "%"%char) then
        match s' with
        | a :: b :: s'' => N2b (N.lor (N.shiftl (unhex a) 4) (unhex b)) :: decodeEscapes s''
        | _ => c :: decodeEscapes s'
        end
      else c :: decodeEscapes s'
  end.

Definition unescape (s : bytes) (mode : encoding) : result bytes :=
  _ ← checkEscapes mode s; Ok (decodeEscapes s).

Definition upperhex : bytes := "0123456789ABCDEF".
Definition hexDigitUpper (n : N) : ascii := nth (N.to_nat n) upperhex (N2b 0).

Definition escapeByte (mode : encoding) (c : ascii) : bytes :=
  if shouldEscape c mode
  then ["%"%char; hexDigitUpper (N.shiftr (b2N c) 4); hexDigitUpper (N.land (b2N c) 15)]
  else [c].

Definition escape (s : bytes) (mode : encoding) : bytes := s ≫= escapeByte mode.

(** ** [net/url]: parsing *)

Record URL := { Scheme : bytes; Opaque : bytes; Host : bytes; urlPath : bytes }.

Fixpoint getschemeFrom (i : nat) (raw s : bytes) : result (bytes * bytes) :=
  match s with
  | [] => Ok ([], raw)
  | c :: s' =>
      if isLetter c then getschemeFrom (S i) raw s'
      else if isDigit c || hasByte c "+-." then
        if Nat.eqb i 0 then Ok ([], raw) else getschemeFrom (S i) raw s'
      else if decide (c = ":"%char) then
        if Nat.eqb i 0 then Err (EMsg "missing protocol scheme") else Ok (take i raw, s')
      else Ok ([], raw)
  end.
Definition getscheme (raw : bytes) : result (bytes * bytes) := getschemeFrom 0 raw raw.

Definition toLowerByte (c : ascii) : ascii :=
  if in_range "A" "Z" c then N2b (b2N c + 32) else c.
Definition ToLower (s : bytes) : bytes := toLowerByte <$> s.

Definition validOptionalPort (port : bytes) : bool :=
  match port with
  | [] => true
  | c :: ds => bool_decide (c = ":"%char) && forallb isDigit ds
  end.

(** The position of the zone mark, a percent sign escaped as [%25]. *)
Fixpoint indexZone (s : bytes) : option nat :=
  match s with
  | [] => None
  | c :: s' => if HasPrefix s "%25" then Some 0 else S <$> indexZone s'
  end.

Definition parseHost (host : bytes) : result bytes :=
  if HasPrefix host "[" then
    match splitLast "]" host with
    | None => Err (EMsg "missing ']' in host")
    | Some (h, colonPort) =>
        if negb (validOptionalPort colonPort)
        then Err (ETyped "url: invalid port after host" colonPort)
        else match indexZone h with
             | Some zone =>
                 host1 ← unescape (take zone host) encodeHost;
                 host2 ← unescape (drop zone h) encodeZone;
                 host3 ← unescape (drop (length h) host) encodeHost;
                 Ok (host1 ++ host2 ++ host3)
             | None => unescape host encodeHost
             end
    end
  else unescape host encodeHost.

(** The host of an authority; the user information is only checked. *)
Definition parseAuthority (authority : bytes) : result bytes :=
  match splitLast "@" authority with
  | None => parseHost authority
  | Some (userinfo, host) =>
      h ← parseHost host;
      match splitFirst ":" userinfo with
      | None => _ ← unescape userinfo encodeUserPassword; Ok h
      | Some (username, password) =>
          _ ← unescape username encodeUserPassword;
          _ ← unescape password encodeUserPassword; Ok h
      end
  end.

Definition beforeQuery (rest : bytes) : bytes :=
  match splitFirst "?" rest with Some (a, _) => a | None => rest end.

(** Does the first path segment of a relative reference hold a colon? *)
Definition colonInFirstSegment (rest : bytes) : bool :=
  match splitFirst ":" rest with
  | None => false
  | Some (a, _) => negb (hasByte "/" a)
  end.

(** [split(rest[2:], "/", false)]: the slash stays with the path. *)
Definition splitAuthority (rest : bytes) : bytes * bytes :=
  match splitFirst "/" rest with
  | Some (a, b) => (a, "/"%char :: b)
  | None => (rest, [])
  end.

Definition urlParseNoFrag (rawurl : bytes) : result URL :=
  if decide (rawurl = "*") then
    Ok {| Scheme := []; Opaque := []; Host := []; urlPath := "*" |}
  else
    '(scheme, rest) ← getscheme rawurl;
    let scheme := ToLower scheme in
    let rest := beforeQuery rest in
    if negb (HasPrefix rest "/") && negb (bool_decide (scheme = [])) then
      Ok {| Scheme := scheme; Opaque := rest; Host := []; urlPath := [] |}
    else if negb (HasPrefix rest "/") && colonInFirstSegment rest then
      Err (EMsg "first path segment in URL cannot contain colon")
    else
      '(host, rest) ←
        (if (negb (bool_decide (scheme = [])) || negb (HasPrefix rest "///"))
            && HasPrefix rest "//" then
           let '(authority, rest) := splitAuthority (drop 2 rest) in
           host ← parseAuthority authority; Ok (host, rest)
         else Ok ([], rest));
      path ← unescape rest encodePath;
      Ok {| Scheme := scheme; Opaque := []; Host := host; urlPath := path |}.

Definition urlError (rawurl : bytes) {A} (r : result A) : result A :=
  match r with Err e => Err (EWrap "url.Error" rawurl e) | _ => r end.

(** [url.Parse]: the fragment is cut off first, and unescaped last. *)
Definition urlParse (rawurl : bytes) : result URL :=
  match splitFirst "#" rawurl with
  | None => urlError rawurl (urlParseNoFrag rawurl)
  | Some (u, frag) =>
      url ← urlError u (urlParseNoFrag u);
      _ ← urlError rawurl (unescape frag encodeFragment);
      Ok url
  end.

(** [URL.String] of a URL with a scheme, a host and a path and nothing else. *)
Definition urlString (u : URL) : bytes :=
  let path := if decide (urlPath u = "*") then urlPath u else escape (urlPath u) encodePath in
  Scheme u ++ ":" ++ "//" ++ escape (Host u) encodeHost ++
  (if negb (bool_decide (path = [])) && negb (HasPrefix path "/")
      && negb (bool_decide (Host u = [])) then "/" else []) ++ path.

(** ** Package [pkg/uri] *)

Record URI := { ID : Address; Path : bytes }.
#[global] Instance URI_eq_dec : EqDecision URI.
Proof. solve_decision. Defined.

Definition Parse (s : bytes) : result URI :=
  u ← urlParse s;
  if negb (bool_decide (Scheme u = "kord")) then
    Err (EMsg ("invalid KORD URI scheme: " ++ Scheme u))
  else if negb (IsHexAddress (Host u)) then
    Err (EMsg ("invalid KORD ID in uri: " ++ Host u))
  else Ok {| ID := HexToAddress (Host u); Path := urlPath u |}.

Definition URI_String (u : URI) : bytes :=
  urlString {| Scheme := "kord"; Opaque := []; Host := Address_Hex (ID u); urlPath := Path u |}.

(** ** Splitting *)

Lemma HasPrefix_nil s : HasPrefix s [] = true.
Proof. unfold HasPrefix. by rewrite bool_decide_true. Qed.

Lemma HasPrefix_cons c d s p : HasPrefix (c :: s) (d :: p) = bool_decide (c = d) && HasPrefix s p.
Proof.
  unfold HasPrefix. simpl. rewrite <- bool_decide_and. apply bool_decide_ext.
  split; [by intros [= -> ?]|by intros [-> ->]].
Qed.

Lemma splitFirst_None c s : c ∉ s -> splitFirst c s = None.
Proof.
  induction s as [|d s IH]; [done|]. rewrite not_elem_of_cons. intros [Hcd Hs]. simpl.
  rewrite decide_False by done. by rewrite IH.
Qed.

Lemma splitFirst_app c s t : c ∉ s -> splitFirst c (s ++ c :: t) = Some (s, t).
Proof.
  induction s as [|d s IH]; simpl; [by rewrite decide_True|].
  rewrite not_elem_of_cons. intros [Hcd Hs]. rewrite decide_False by done. by rewrite IH.
Qed.

Lemma splitFirst_Some c s a b : splitFirst c s = Some (a, b) -> s = a ++ c :: b.
Proof.
  revert a b. induction s as [|d s IH]; intros a b; [done|]. simpl.
  case_decide; [by intros [= <- <-]; subst|].
  destruct (splitFirst c s) as [[a' b']|]; [|done]. intros [= <- <-]. by rewrite (IH _ _ eq_refl).
Qed.

Lemma splitLast_None c s : c ∉ s -> splitLast c s = None.
Proof.
  intros H. unfold splitLast. rewrite splitFirst_None; [done|].
  by rewrite list_elem_of_In, <- in_rev, <- list_elem_of_In.
Qed.

(** ** Escaping and unescaping *)

(** Letters and digits are never escaped, and never rejected. *)
Definition alnum (c : ascii) : bool := isLetter c || isDigit c.

Lemma alnum_ne c d : alnum c = true -> alnum d = false -> c <> d.
Proof. by intros Hc Hd ->; rewrite Hc in Hd. Qed.

Lemma escape_cons c s mode : escape (c :: s) mode = escapeByte mode c ++ escape s mode.
Proof. reflexivity. Qed.

Lemma escape_alnum s mode : Forall (fun c => alnum c = true) s -> escape s mode = s.
Proof.
  induction 1 as [|c s Hc _ IH]; [done|]. rewrite escape_cons, IH.
  unfold escapeByte, shouldEscape. unfold alnum in Hc. by rewrite Hc.
Qed.

Lemma unescape_alnum s mode : Forall (fun c => alnum c = true) s -> unescape s mode = Ok s.
Proof.
  intros H. unfold unescape.
  assert (checkEscapes mode s = Ok tt /\ decodeEscapes s = s) as [-> ->]; [|done].
  induction H as [|c s Hc _ [IH1 IH2]]; [done|]. simpl.
  rewrite decide_False by (by apply (alnum_ne _ _ Hc)). unfold shouldEscape.
  unfold alnum in Hc. rewrite Hc, andb_false_r, IH1. split; [done|].
  rewrite decide_False by (intros ->; discriminate). by rewrite IH2.
Qed.

Lemma checkEscapes_byte c t :
  checkEscapes encodePath (escapeByte encodePath c ++ t) = checkEscapes encodePath t.
Proof. by all_bytes c. Qed.

Lemma decodeEscapes_byte c t : decodeEscapes (escapeByte encodePath c ++ t) = c :: decodeEscapes t.
Proof. by all_bytes c. Qed.

(** Percent-encoding a path, then decoding it. *)
Lemma unescape_escape s : unescape (escape s encodePath) encodePath = Ok s.
Proof.
  unfold unescape.
  assert (checkEscapes encodePath (escape s encodePath) = Ok tt
          /\ decodeEscapes (escape s encodePath) = s) as [-> ->]; [|done].
  induction s as [|c s [IH1 IH2]]; [done|]. rewrite escape_cons.
  by rewrite checkEscapes_byte, decodeEscapes_byte, IH1, IH2.
Qed.

(** An escaped path holds neither of the characters that end a path. *)
Lemma escape_ends s : ("#"%char ∉ escape s encodePath) /\ ("?"%char ∉ escape s encodePath).
Proof.
  assert (forall c, orb (hasByte "#" (escapeByte encodePath c)) (hasByte "?" (escapeByte encodePath c)) = false)
    as Hb.
  { intros c. apply negb_true_iff. revert c. by_bytes. }
  unfold escape. split; intros (c & Hc & _)%list_elem_of_bind; specialize (Hb c);
    apply orb_false_iff in Hb as [H1 H2]; unfold hasByte in *; rewrite !bool_decide_eq_false in *; done.
Qed.

Lemma escape_slash p : escape ("/"%char :: p) encodePath = "/"%char :: escape p encodePath.
Proof. reflexivity. Qed.

(** ** The canonical form of a URI *)

Lemma isHexCharacter_alnum c : isHexCharacter c = true -> alnum c = true.
Proof. all_bytes c; vm_compute; congruence. Qed.

Lemma isHex_alnum s : isHex s = true -> Forall (fun c => alnum c = true) s.
Proof.
  unfold isHex. destruct (Nat.odd _); [done|]. rewrite forallb_forall. intros H.
  apply Forall_forall. intros c Hc. apply isHexCharacter_alnum, H. by apply list_elem_of_In.
Qed.

Lemma Address_Hex_alnum (a : Address) : Forall (fun c => alnum c = true) (Address_Hex a).
Proof.
  pose proof (IsHexAddress_Hex a) as Hh. unfold IsHexAddress, Address_Hex in *. simpl in *.
  rewrite drop_0 in Hh. apply andb_prop in Hh as [_ Hh]. repeat (constructor; [done|]).
  by apply isHex_alnum.
Qed.

Lemma not_elem_of_alnum s c : Forall (fun c => alnum c = true) s -> alnum c = false -> c ∉ s.
Proof. intros Hs Hc Hin. rewrite Forall_forall in Hs. specialize (Hs _ Hin). congruence. Qed.

(** A path as a URL with a host has it: empty, or starting with a slash. *)
Definition rooted (p : bytes) : bool := match p with [] => true | c :: _ => bool_decide (c = "/"%char) end.

Lemma rooted_inv p : rooted p = true -> p = [] \/ exists q, p = "/"%char :: q.
Proof.
  destruct p as [|c q]; [by left|]. simpl. intros ->%bool_decide_eq_true_1. right. by exists q.
Qed.

Lemma URI_String_rooted (u : URI) :
  rooted (Path u) = true ->
  URI_String u = "kord://" ++ Address_Hex (ID u) ++ escape (Path u) encodePath.
Proof.
  intros Hp. unfold URI_String, urlString. cbn [Scheme Host urlPath].
  rewrite (escape_alnum _ _ (Address_Hex_alnum _)).
  destruct (rooted_inv _ Hp) as [-> | [q ->]]; [done|]. rewrite decide_False by done.
  rewrite escape_slash. cbn [String.list_ascii_of_string]. rewrite HasPrefix_cons, HasPrefix_nil.
  by rewrite (bool_decide_true ("/"%char = _)), andb_false_r by done.
Qed.

Section parse.
(** Parsing [kord://<host><path>] for a plain host and an escaped path. *)
Lemma urlParse_plain host p :
  Forall (fun c => alnum c = true) host -> rooted p = true ->
  urlParse ("kord://" ++ host ++ escape p encodePath) =
    Ok {| Scheme := "kord"; Opaque := []; Host := host; urlPath := p |}.
Proof.
  intros Hh Hp. destruct (escape_ends p) as [Hhash Hquery].
  unfold urlParse. rewrite splitFirst_None.
  2:{ rewrite !not_elem_of_app. split_and!; [|by eapply not_elem_of_alnum|done].
      apply (bool_decide_eq_false_1 ("#"%char ∈ _)). reflexivity. }
  unfold urlParseNoFrag. rewrite decide_False by done.
  unfold getscheme. simpl. unfold beforeQuery. rewrite splitFirst_None.
  2:{ rewrite !not_elem_of_cons, not_elem_of_app. split_and!; [done..|by eapply not_elem_of_alnum|done]. }
  rewrite !HasPrefix_cons, !HasPrefix_nil, !(bool_decide_true ("/"%char = "/"%char)) by done.
  simpl. rewrite drop_0.
  assert (splitAuthority (host ++ escape p encodePath) = (host, escape p encodePath)) as ->.
  { unfold splitAuthority. destruct (rooted_inv _ Hp) as [-> | [q ->]].
    - change (escape [] encodePath) with (@nil ascii).
      rewrite app_nil_r, splitFirst_None by (by eapply not_elem_of_alnum). done.
    - rewrite escape_slash, splitFirst_app by (by eapply not_elem_of_alnum). done. }
  unfold parseAuthority. rewrite splitLast_None by (by eapply not_elem_of_alnum).
  unfold parseHost, HasPrefix. rewrite bool_decide_false.
  2:{ destruct Hh as [|c h Hc _]; [done|]. simpl. rewrite take_0. intros [= ->]. done. }
  rewrite unescape_alnum by done. cbn [mbind result_bind].
  by rewrite unescape_escape.
Qed.

Lemma Parse_String (u : URI) : rooted (Path u) = true -> Parse (URI_String u) = Ok u.
Proof.
  intros Hp. rewrite URI_String_rooted by done. unfold Parse.
  rewrite urlParse_plain by (done || apply Address_Hex_alnum). cbn [mbind result_bind Scheme Host urlPath].
  rewrite bool_decide_true by done. rewrite IsHexAddress_Hex, HexToAddress_Hex. by destruct u.
Qed.
End parse.

(** ** Which paths are parsed *)

Lemma unescape_rooted s p mode : rooted s = true -> unescape s mode = Ok p -> rooted p = true.
Proof.
  unfold unescape. intros Hs Hp. inv_ok.
  destruct (rooted_inv _ Hs) as [-> | [q ->]]; [done|]. reflexivity.
Qed.

Lemma splitAuthority_rooted s : rooted (snd (splitAuthority s)) = true.
Proof. unfold splitAuthority. by destruct (splitFirst "/" s) as [[a b]|]. Qed.

Lemma urlParseNoFrag_rooted s u :
  urlParseNoFrag s = Ok u -> Host u <> [] -> rooted (urlPath u) = true.
Proof.
  unfold urlParseNoFrag. case_decide; [by intros [= <-]|]. intros Hu Hh. inv_ok.
  destruct x as [scheme rest]. set (r := beforeQuery rest) in *.
  destruct (negb (HasPrefix r "/") && negb (bool_decide (ToLower scheme = []))).
  { injection Hu as <-. by destruct Hh. }
  destruct (negb (HasPrefix r "/") && colonInFirstSegment r); [done|]. inv_ok.
  destruct x as [host rest']. inv_ok. simpl in *.
  destruct ((_ || _) && _) eqn:E; [|by inv_ok].
  pose proof (splitAuthority_rooted (drop 2 r)) as Hr.
  destruct (splitAuthority (drop 2 r)) as [a b]. inv_ok. by eapply unescape_rooted.
Qed.

Lemma urlParse_rooted s u : urlParse s = Ok u -> Host u <> [] -> rooted (urlPath u) = true.
Proof.
  unfold urlParse. destruct (splitFirst "#" s) as [[t frag]|].
  - unfold urlError. destruct (urlParseNoFrag t) eqn:E; simpl; try done. intros Hu. inv_ok.
    by apply (urlParseNoFrag_rooted t).
  - unfold urlError. destruct (urlParseNoFrag s) eqn:E; simpl; try done. intros [= <-].
    by apply (urlParseNoFrag_rooted s).
Qed.

Lemma Parse_rooted s u : Parse s = Ok u -> rooted (Path u) = true.
Proof.
  unfold Parse. intros Hs. inv_ok. rename x into v.
  destruct (negb (bool_decide (Scheme v = _))); [done|]. cbv zeta in Hs.
  destruct (IsHexAddress (Host v)) eqn:Hh; [|done]. injection Hs as <-. simpl.
  match goal with H : urlParse s = Ok v |- _ => apply (urlParse_rooted s v H) end.
  intros E. by rewrite E in Hh.
Qed.

(** C39: a URI that [Parse] accepts has an empty path or a path that starts
    with a slash; printing it and parsing the result gives it back, whatever
    bytes its path holds; and so the printed form is canonical: two accepted
    strings denote the same URI exactly when they print alike. *)
Theorem uri_roundtrip (s t : bytes) (u v : URI) :
  Parse s = Ok u -> Parse t = Ok v ->
  rooted (Path u) = true /\ Parse (URI_String u) = Ok u /\
  (URI_String u = URI_String v <-> u = v).
Proof.
  intros Hu%Parse_rooted Hv%Parse_rooted.
  split_and!; [done|by apply Parse_String|]. split; [|by intros ->].
  intros E. apply Parse_String in Hu, Hv. rewrite E in Hu. congruence.
Qed.

Lemma uri_roundtrip_witness :
  Parse "kord://0x5aaeb6053f3e94c9b9a09f33669435e7ef1beaed/a%20b#c" =
    Ok {| ID := HexToAddress "5aaeb6053f3e94c9b9a09f33669435e7ef1beaed"; Path := "/a b" |} /\
  rooted "/a b" = true /\
  URI_String {| ID := HexToAddress "5aaeb6053f3e94c9b9a09f33669435e7ef1beaed"; Path := "/a b" |} =
    "kord://0x5aAeb6053F3E94C9b9A09f33669435E7Ef1BeAed/a%20b".
Proof.
  assert (Parse "kord://0x5aaeb6053f3e94c9b9a09f33669435e7ef1beaed/a%20b#c" =
    Ok {| ID := HexToAddress "5aaeb6053f3e94c9b9a09f33669435e7ef1beaed"; Path := "/a b" |}) as H
    by (vm_compute; reflexivity).
  split_and!; [exact H| |vm_compute; reflexivity].
  exact (proj1 (uri_roundtrip _ _ _ _ H H)).
Defined.
