(* ===== verification/Contract.v ===== *)
(** * The registry contract

    [contracts/KORDRegistry.sol]: a mapping from identities to the Swarm hash
    of their current graph, where an entry is written by whoever presents a
    signature of the new hash that recovers to the identity.  A transaction
    that throws is reverted: [None], and the mapping is unchanged. *)
From S2P Require Import Prelude Keccak Common Crypto.

Abbreviation graphs := (gmap Address Hash).

(** The zero address, and what an identity without a graph maps to. *)
Definition zeroAddress : Address := zero_array 20.
Definition zeroHash : Hash := zero_array 32.

Definition graph (m : graphs) (kordID : Address) : Hash := default zeroHash (m !! kordID).

(** The byte [v] after [if (v < 27) v += 27], at 8 bits. *)
Definition recoveryByte (sig : bytes) : N :=
  let v := b2N (nth 64 sig (N2b 0)) in
  if (v <? 27)%N then ((v + 27) mod 256)%N else v.

Section contract.
Context `{Secp256k1}.

Definition setGraph (hash : Hash) (sig : bytes) (m : graphs) : option graphs :=
  if negb (Nat.eqb (length sig) 65) then None
  else
    let r := take 32 sig in
    let s := take 32 (drop 32 sig) in
    let v := recoveryByte sig in
    if negb (v =? 27)%N && negb (v =? 28)%N then None
    else
      let kordID := ecrecover hash v r s in
      Some (<[kordID := hash]> m).

(** A history of transactions: one that throws is reverted. *)
Definition execute (txs : list (Hash * bytes)) (m : graphs) : graphs :=
  foldl (fun m tx => default m (setGraph (fst tx) (snd tx) m)) m txs.

(** The signature with its recovery id in the 0/1 form [Ecrecover] takes. *)
Definition canonicalSig (sig : bytes) : bytes :=
  take 64 sig ++ [N2b ((recoveryByte sig + 256 - 27) mod 256)].

(** Is [a] entitled to write [hash] with [sig]? *)
Definition authorised (hash : Hash) (sig : bytes) (a : Address) : Prop :=
  signer hash (canonicalSig sig) = Ok a.

(** A signature whose values the precompile accepts: [0 < r, s < N]. *)
Definition valuesOk (sig : bytes) : bool :=
  ValidateSignatureValues ((recoveryByte sig + 256 - 27) mod 256)
    (bigBytes (take 32 sig)) (bigBytes (take 32 (drop 32 sig))).

Definition wellFormed (sig : bytes) : bool :=
  Nat.eqb (length sig) 65 && ((recoveryByte sig =? 27)%N || (recoveryByte sig =? 28)%N).

(** ** What a transaction does *)

Lemma take_drop_64 (sig : bytes) : take 32 sig ++ take 32 (drop 32 sig) = take 64 sig.
Proof. by rewrite take_take_drop. Qed.

Lemma ecrecover_eq hash (sig : bytes) :
  ecrecover hash (recoveryByte sig) (take 32 sig) (take 32 (drop 32 sig)) =
    if valuesOk sig
    then match signer hash (canonicalSig sig) with Ok a => a | _ => zeroAddress end
    else zeroAddress.
Proof.
  unfold ecrecover, valuesOk, signer, canonicalSig.
  destruct (ValidateSignatureValues _ _ _); [|done]. cbn [negb].
  rewrite app_assoc, take_drop_64. by destruct (Ecrecover _ _).
Qed.

Lemma setGraph_eq hash sig m :
  setGraph hash sig m =
    if wellFormed sig
    then Some (<[ecrecover hash (recoveryByte sig) (take 32 sig) (take 32 (drop 32 sig)) := hash]> m)
    else None.
Proof.
  unfold setGraph, wellFormed. destruct (Nat.eqb _ _); [|done]. cbn [negb andb].
  by destruct (_ =? 27)%N, (_ =? 28)%N.
Qed.

Lemma graph_insert m a hash b :
  graph (<[a := hash]> m) b = if decide (b = a) then hash else graph m b.
Proof.
  unfold graph. case_decide; subst; [by rewrite lookup_insert_eq|]. by rewrite lookup_insert_ne.
Qed.

(** A signature with recovery id 0 or 1 is its own canonical form. *)
Lemma canonicalSig_low sig :
  length sig = 65 -> (b2N (nth 64 sig (N2b 0)) < 4)%N -> canonicalSig sig = sig.
Proof.
  intros Hl Hv. unfold canonicalSig.
  assert (((recoveryByte sig + 256 - 27) mod 256)%N = b2N (nth 64 sig (N2b 0))) as ->.
  { unfold recoveryByte. set (v := b2N _) in *. assert (v < 27)%N as H27 by lia.
    rewrite (proj2 (N.ltb_lt v 27) H27), (N.mod_small (v + 27)) by lia.
    replace (v + 27 + 256 - 27)%N with (v + 1 * 256)%N by lia.
    rewrite N.Div0.mod_add. apply N.mod_small. lia. }
  rewrite N2b_b2N. rewrite <- (take_drop 64 sig) at 3. f_equal.
  destruct (drop 64 sig) as [|c [|d l]] eqn:E.
  - apply (f_equal length) in E. rewrite length_drop, Hl in E. done.
  - rewrite <- (take_drop 64 sig), E, app_nth2; rewrite length_take, Hl; [done|lia].
  - apply (f_equal length) in E. rewrite length_drop, Hl in E. done.
Qed.
End contract.

Section properties.
Context `{Secp256k1}.

(** A transaction is accepted exactly when its signature has 65 bytes
    and a recovery id of 0, 1, 27 or 28, whatever it was made for; an
    accepted one writes the hash under a single identity and leaves every
    other entry alone, and if that identity is not the zero address then it
    is the address the signature of this hash recovers to. *)
Theorem setGraph_authenticated (hash : Hash) (sig : bytes) (m : graphs) :
  match setGraph hash sig m with
  | None => wellFormed sig = false
  | Some m' =>
      wellFormed sig = true /\
      exists a, (a = zeroAddress \/ (authorised hash sig a /\ valuesOk sig = true)) /\
        forall b, graph m' b = if decide (b = a) then hash else graph m b
  end.
Proof.
  rewrite setGraph_eq. destruct (wellFormed sig); [|done]. split; [done|].
  rewrite ecrecover_eq. eexists. split; [|intros b; apply graph_insert].
  destruct (valuesOk sig); [|by left]. unfold authorised.
  destruct (signer hash (canonicalSig sig)); auto.
Qed.

(** Who a transaction writes for: the address its signature recovers to, or
    the zero address when the values are bad or nothing is recovered. *)
Definition writesFor (hash : Hash) (sig : bytes) (a : Address) : Prop :=
  authorised hash sig a \/
  (a = zeroAddress /\ (valuesOk sig = true -> forall b, ~ authorised hash sig b)).

Lemma writesFor_zero hash sig a : writesFor hash sig a -> a = zeroAddress \/ authorised hash sig a.
Proof. intros [?|[? _]]; auto. Qed.

(** With good values the recovered address is the only one. *)
Lemma writesFor_authorised hash sig a b :
  writesFor hash sig a -> valuesOk sig = true -> authorised hash sig b -> a = b.
Proof.
  intros [Ha|[_ Hn]] Hv Hb; [unfold authorised in *; congruence|]. by destruct (Hn Hv b).
Qed.

Lemma setGraph_authenticated_inv hash sig m m' :
  setGraph hash sig m = Some m' ->
  exists a, writesFor hash sig a /\
    forall b, graph m' b = if decide (b = a) then hash else graph m b.
Proof.
  rewrite setGraph_eq. destruct (wellFormed sig); [|done]. intros [= <-].
  eexists. split; [|intros b; apply graph_insert]. rewrite ecrecover_eq.
  unfold writesFor, authorised. destruct (valuesOk sig); [|by right].
  destruct (signer hash (canonicalSig sig)); [by left|by right..].
Qed.

Lemma setGraph_Sign `{!Secp256k1Laws} key (hash : Hash) sig m :
  Sign hash key = Ok sig -> wellFormed sig = true -> valuesOk sig = true ->
  setGraph hash sig m = Some (<[addressOf key := hash]> m).
Proof.
  intros Hs Hw Hv. rewrite setGraph_eq, Hw, ecrecover_eq, Hv, canonicalSig_low;
    [|by eapply Sign_length|by eapply Sign_recid]. by rewrite (signer_Sign _ _ _ Hs).
Qed.

(** C6: over any history of transactions, by anyone, the entry of an
    identity other than the zero address ends up changed only if one of the
    transactions carried a signature that recovers to it, and then it holds
    the hash of such a transaction. *)
Theorem history_authenticated (txs : list (Hash * bytes)) (m : graphs) (a : Address) :
  a <> zeroAddress -> graph (execute txs m) a <> graph m a ->
  exists hash sig, (hash, sig) ∈ txs /\ authorised hash sig a /\ graph (execute txs m) a = hash.
Proof.
  intros Ha. induction txs as [|[hash sig] txs IH] using rev_ind; [done|].
  unfold execute. rewrite foldl_app. fold (execute txs m). cbn [foldl fst snd].
  destruct (setGraph hash sig (execute txs m)) as [m'|] eqn:Hg.
  - destruct (setGraph_authenticated_inv _ _ _ _ Hg) as (b & Hb%writesFor_zero & Hm'). cbn [default from_option].
    unfold id. rewrite Hm'. case_decide; subst; intros Hc.
    + destruct Hb as [?|Hb]; [done|]. exists hash, sig. rewrite elem_of_app, list_elem_of_singleton. auto.
    + destruct (IH Hc) as (h & g & Hin & ? & ?). exists h, g. rewrite elem_of_app. auto.
  - cbn. intros Hc. destruct (IH Hc) as (h & g & Hin & ? & ?). exists h, g. rewrite elem_of_app. auto.
Qed.

(** The owner's own signature works: a signature that [Sign] makes with
    recovery id 0 or 1 and values in range is accepted, and sets exactly the
    signer's entry. *)
Theorem setGraph_signed `{!Secp256k1Laws} (key : array 32) (hash : Hash) (sig : bytes) (m : graphs) :
  Sign hash key = Ok sig -> wellFormed sig = true -> valuesOk sig = true ->
  exists m', setGraph hash sig m = Some m' /\
    forall b, graph m' b = if decide (b = addressOf key) then hash else graph m b.
Proof.
  intros Hs Hw Hv. rewrite (setGraph_Sign key) by done. eexists. split; [done|].
  intros b. apply graph_insert.
Qed.

(** Signatures can be replayed: once a transaction has been accepted,
    then after any further history anyone who saw it can send it again, and
    it puts the old hash back in the same entry. *)
Theorem setGraph_replay (hash : Hash) (sig : bytes) (m m1 : graphs) (txs : list (Hash * bytes)) :
  setGraph hash sig m = Some m1 ->
  exists a m3, setGraph hash sig (execute txs m1) = Some m3 /\
    (forall b, graph m1 b = if decide (b = a) then hash else graph m b) /\
    (forall b, graph m3 b = if decide (b = a) then hash else graph (execute txs m1) b).
Proof.
  rewrite !setGraph_eq. destruct (wellFormed sig); [|done]. intros [= <-].
  eexists _, _. split; [reflexivity|]. split; intros b; apply graph_insert.
Qed.

(** The zero address has no owner and no check protects it: 65 bytes
    that are a signature of nothing (all zero) are accepted for every hash,
    and set the zero address's graph. *)
Theorem zero_address_writable_by_anyone (hash : Hash) (m : graphs) :
  setGraph hash (replicate 65 (N2b 0)) m = Some (<[zeroAddress := hash]> m).
Proof. rewrite setGraph_eq. by rewrite ecrecover_eq. Qed.
End properties.

(** ** Witnesses *)

Section witnesses.
Import Toy.

Definition h1 : Hash := SetBytes zeroHash "first".
Definition h2 : Hash := SetBytes zeroHash "second".
Definition sigOf (h : Hash) : bytes := abytes (twice key) ++ [N2b 0].
Definition owner : Address := addressOf key.

Lemma history_authenticated_witness :
  owner <> zeroAddress /\
  exists hash sig, (hash, sig) ∈ [(h1, sigOf h1)] /\ authorised hash sig owner /\
    graph (execute [(h1, sigOf h1)] ∅) owner = hash.
Proof.
  assert (owner <> zeroAddress) as Ho
    by (apply (bool_decide_eq_false_1 (owner = zeroAddress)); vm_compute; reflexivity).
  split; [exact Ho|]. apply history_authenticated; [exact Ho|].
  apply (bool_decide_eq_false_1 (graph (execute [(h1, sigOf h1)] ∅) owner = graph ∅ owner)).
  vm_compute. reflexivity.
Defined.

Lemma setGraph_signed_witness :
  Sign h1 key = Ok (sigOf h1) /\ wellFormed (sigOf h1) = true /\ valuesOk (sigOf h1) = true /\
  exists m', setGraph h1 (sigOf h1) ∅ = Some m' /\
    forall b, graph m' b = if decide (b = owner) then h1 else graph ∅ b.
Proof.
  assert (Sign h1 key = Ok (sigOf h1)) as Hs by (vm_compute; reflexivity).
  assert (wellFormed (sigOf h1) = true) as Hw by (vm_compute; reflexivity).
  assert (valuesOk (sigOf h1) = true) as Hv by (vm_compute; reflexivity).
  split_and!; [exact Hs|exact Hw|exact Hv|]. exact (setGraph_signed key h1 (sigOf h1) ∅ Hs Hw Hv).
Defined.

(** The owner publishes h1, then h2; the first signature puts h1 back. *)
Lemma setGraph_replay_witness :
  graph (execute [(h1, sigOf h1); (h2, sigOf h2)] ∅) owner = h2 /\
  exists a m3, setGraph h1 (sigOf h1) (execute [(h2, sigOf h2)] (execute [(h1, sigOf h1)] ∅)) = Some m3 /\
    (forall b, graph (execute [(h1, sigOf h1)] ∅) b = if decide (b = a) then h1 else graph ∅ b) /\
    (forall b, graph m3 b = if decide (b = a) then h1
               else graph (execute [(h2, sigOf h2)] (execute [(h1, sigOf h1)] ∅)) b).
Proof.
  split; [vm_compute; reflexivity|]. apply setGraph_replay.
  rewrite (setGraph_Sign key) by (vm_compute; reflexivity).
  unfold execute. cbn [foldl fst snd]. by rewrite (setGraph_Sign key) by (vm_compute; reflexivity).
Defined.
End witnesses.
