(* ===== verification/Evm.v ===== *)
(** * The Ethereum virtual machine

    The interpreter of the vendored [core/vm], with the instructions of
    Byzantium that the registry contract is compiled to: words of 256 bits,
    the stack with its limits, memory that grows by words, the storage of one
    contract, jumps to valid destinations only, and calls of the [ecrecover]
    precompile.  What an operation costs is left open: an oracle says where
    the gas runs out.  An operation that is not modelled ends the
    run with an outcome of its own, which no theorem takes for a result. *)
From S2P Require Import Prelude Keccak Common Crypto Sha1.
Local Open Scope N_scope.

(** ** Words *)

Definition wordSize : N := 2 ^ 256.

(** [math.U256]. *)
Definition U256 (x : N) : N := x mod wordSize.

(** [big.Int.SetBytes], and [math.PaddedBigBytes] for [n] bytes. *)
Definition fromBytes (l : bytes) : N := fold_left (fun n c => n * 256 + b2N c) l 0.
Definition paddedBytes (n : nat) (w : N) : bytes := bePut n w.

Definition bool2N (b : bool) : N := if b then 1 else 0.

(** [common.RightPadBytes] and [common.LeftPadBytes]. *)
Definition RightPadBytes (l : bytes) (n : nat) : bytes := l ++ replicate (n - length l)%nat (N2b 0).
Definition LeftPadBytes (l : bytes) (n : nat) : bytes := replicate (n - length l)%nat (N2b 0) ++ l.

(** [getDataBig]: a slice of data, as if it were followed by zeros. *)
Definition getData (data : bytes) (start size : N) : bytes :=
  let dlen := N.of_nat (length data) in
  let s := N.min start dlen in
  RightPadBytes (take (N.to_nat (N.min size (dlen - s))) (drop (N.to_nat s) data)) (N.to_nat size).

(** ** Memory *)

Definition Resize (size : N) (m : bytes) : bytes := m ++ replicate (N.to_nat size - length m)%nat (N2b 0).
Definition Get (m : bytes) (offset size : N) : bytes := take (N.to_nat size) (drop (N.to_nat offset) m).
Definition Set_ (m : bytes) (offset size : N) (value : bytes) : bytes :=
  list_inserts (N.to_nat offset) (take (N.to_nat size) value) m.

(** ** Operations *)

Inductive opcode :=
  | STOP | ADD | MUL | SUB | DIV | LT | EQ | ISZERO | AND | BYTE | SHA3
  | CALLVALUE | CALLDATALOAD | CALLDATASIZE | CALLDATACOPY | CODECOPY
  | POP | MLOAD | MSTORE | SLOAD | SSTORE | JUMP | JUMPI | GAS | JUMPDEST
  | PUSH (n : nat) | DUP (n : nat) | SWAP (n : nat) | CALL | RETURN | REVERT | OTHER (b : N).

Definition opcodeOf (b : N) : opcode :=
  match b with
  | 0x00 => STOP | 0x01 => ADD | 0x02 => MUL | 0x03 => SUB | 0x04 => DIV | 0x10 => LT | 0x14 => EQ
  | 0x15 => ISZERO | 0x16 => AND | 0x1a => BYTE | 0x20 => SHA3 | 0x34 => CALLVALUE | 0x35 => CALLDATALOAD
  | 0x36 => CALLDATASIZE | 0x37 => CALLDATACOPY | 0x39 => CODECOPY | 0x50 => POP | 0x51 => MLOAD
  | 0x52 => MSTORE | 0x54 => SLOAD | 0x55 => SSTORE | 0x56 => JUMP | 0x57 => JUMPI | 0x5a => GAS
  | 0x5b => JUMPDEST | 0xf1 => CALL | 0xf3 => RETURN | 0xfd => REVERT
  | _ => if (0x60 <=? b) && (b <=? 0x7f) then PUSH (N.to_nat (b - 0x5f))
         else if (0x80 <=? b) && (b <=? 0x8f) then DUP (N.to_nat (b - 0x7f))
         else if (0x90 <=? b) && (b <=? 0x9f) then SWAP (N.to_nat (b - 0x8f))
         else OTHER b
  end.

(** [Contract.GetOp]. *)
Definition GetOp (code : bytes) (pc : N) : opcode := opcodeOf (b2N (nth (N.to_nat pc) code (N2b 0))).

(** Items an operation takes from the stack and puts on it, as [makeStackFunc]
    is told in the jump table. *)
Definition popped (op : opcode) : nat :=
  match op with
  | STOP | CALLVALUE | CALLDATASIZE | GAS | JUMPDEST | PUSH _ | OTHER _ => 0
  | ISZERO | CALLDATALOAD | POP | MLOAD | SLOAD | JUMP => 1
  | ADD | MUL | SUB | DIV | LT | EQ | AND | BYTE | SHA3 | MSTORE | SSTORE | JUMPI | RETURN | REVERT => 2
  | CALLDATACOPY | CODECOPY => 3
  | DUP n => n
  | SWAP n => S n
  | CALL => 7
  end%nat.
Definition pushed (op : opcode) : nat :=
  match op with
  | STOP | CALLDATACOPY | CODECOPY | POP | MSTORE | SSTORE | JUMP | JUMPI | JUMPDEST | RETURN | REVERT | OTHER _ => 0
  | DUP n => S n
  | SWAP n => S n
  | _ => 1
  end%nat.

(** [calcMemSize], and the size of the memory an operation needs. *)
Definition calcMemSize (off l : N) : N := if l =? 0 then 0 else off + l.
Definition Back (st : list N) (n : nat) : N := nth n st 0.
Definition memorySize (op : opcode) (st : list N) : N :=
  match op with
  | SHA3 | RETURN | REVERT => calcMemSize (Back st 0) (Back st 1)
  | CALLDATACOPY | CODECOPY => calcMemSize (Back st 0) (Back st 2)
  | MLOAD | MSTORE => calcMemSize (Back st 0) 32
  | CALL => N.max (calcMemSize (Back st 5) (Back st 6)) (calcMemSize (Back st 3) (Back st 4))
  | _ => 0
  end.

Definition ErrOutOfGas : error := EVar "vm.ErrOutOfGas".
Definition errGasUintOverflow : error := EVar "vm.errGasUintOverflow".

(** The size in whole words, at 64 bits; the larger ones are refused by
    [memoryGasCost]. *)
Definition wordsOf (size : N) : result N :=
  if (2 ^ 64 - 32 <? size) then Err errGasUintOverflow
  else let size := (size + 31) / 32 * 32 in if 0xffffffffe0 <? size then Err ErrOutOfGas else Ok size.

(** [codeBitmap] and [destinations.has]: a destination is a JUMPDEST that is
    not the data of a PUSH. *)
Fixpoint isCode (fuel : nat) (code : bytes) (pc dest : nat) : bool :=
  match fuel with
  | O => false
  | S fuel =>
      if (pc =? dest)%nat then true
      else if (dest <? pc)%nat then false
      else match GetOp code (N.of_nat pc) with
           | PUSH n => isCode fuel code (pc + 1 + n) dest
           | _ => isCode fuel code (pc + 1) dest
           end
  end.
Definition validJump (code : bytes) (dest : N) : bool :=
  if N.of_nat (length code) <=? dest then false
  else match GetOp code dest with
       | JUMPDEST => isCode (length code) code 0 (N.to_nat dest)
       | _ => false
       end.

(** ** Runs *)

(** The account's storage. *)
Abbreviation storage := (gmap N N).
Definition GetState (s : storage) (loc : N) : N := default 0 (s !! loc).

Record vm := { pc : N; stack : list N; mem : bytes; sto : storage }.

Inductive outcome :=
  | Stopped (ret : bytes) (s : storage)
  | Reverted (ret : bytes)
  | Failed (e : error)
  | Unmodelled.

Definition invalidJump : error := ETyped "fmt.Errorf" "invalid jump destination".
Definition stackUnderflow : error := ETyped "fmt.Errorf" "stack underflow".
Definition stackLimit : error := ETyped "fmt.Errorf" "stack limit reached".

Section machine.
Context `{Secp256k1}.

(** [ecrecover.Run]. *)
Definition ecrecoverRun (input : bytes) : bytes :=
  let input := RightPadBytes input 128 in
  let r := bigBytes (take 32 (drop 64 input)) in
  let s := bigBytes (take 32 (drop 96 input)) in
  let v := (b2N (nth 63 input (N2b 0)) + 256 - 27) mod 256 in
  if negb (forallb (fun c => b2N c =? 0) (take 31 (drop 32 input))) || negb (ValidateSignatureValues v r s) then []
  else match array_of (n := 32) (take 32 input) with
       | None => []
       | Some hash =>
           match Ecrecover hash (take 64 (drop 64 input) ++ [N2b v]) with
           | Ok pubKey => LeftPadBytes (drop 12 (Keccak256 [drop 1 pubKey])) 32
           | _ => []
           end
       end.

(** What surrounds a run: the code, the input, the value sent, and the gas: is
    there enough for the next operation, for the precompile that is called,
    and how much [GAS] says is left. *)
Record env := {
  code : bytes; input : bytes; value : N;
  metered : vm -> bool; callMetered : vm -> bool; gasLeft : vm -> N;
}.
Context (e : env).

Inductive next := Next (s : vm) | Halt (o : outcome).

(** To the next instruction, with a stack and a memory. *)
Definition goes (s : vm) (st : list N) (m : bytes) : next :=
  Next {| pc := pc s + 1; stack := st; mem := m; sto := sto s |}.
Definition jumps (s : vm) (dest : N) (st : list N) (m : bytes) : next :=
  if validJump (code e) dest then Next {| pc := dest; stack := st; mem := m; sto := sto s |}
  else Halt (Failed invalidJump).

(** [operation.execute], on a memory that is large enough. *)
Definition execute (op : opcode) (s : vm) (m : bytes) : next :=
  let go st := goes s st m in
  match op, stack s with
  | STOP, _ => Halt (Stopped [] (sto s))
  | ADD, x :: y :: st => go (U256 (x + y) :: st)
  | MUL, x :: y :: st => go (U256 (x * y) :: st)
  | SUB, x :: y :: st => go (U256 (x + wordSize - y) :: st)
  | DIV, x :: y :: st => go ((if y =? 0 then 0 else x / y) :: st)
  | LT, x :: y :: st => go (bool2N (x <? y) :: st)
  | EQ, x :: y :: st => go (bool2N (x =? y) :: st)
  | ISZERO, x :: st => go (bool2N (x =? 0) :: st)
  | AND, x :: y :: st => go (N.land x y :: st)
  | BYTE, th :: val :: st => go ((if th <? 32 then N.shiftr val (8 * (31 - th)) mod 256 else 0) :: st)
  | SHA3, off :: size :: st => go (fromBytes (Keccak256 [Get m off size]) :: st)
  | CALLVALUE, st => go (value e :: st)
  | CALLDATALOAD, off :: st => go (fromBytes (getData (input e) off 32) :: st)
  | CALLDATASIZE, st => go (N.of_nat (length (input e)) :: st)
  | CALLDATACOPY, dst :: off :: size :: st => goes s st (Set_ m dst size (getData (input e) off size))
  | CODECOPY, dst :: off :: size :: st => goes s st (Set_ m dst size (getData (code e) off size))
  | POP, _ :: st => go st
  | MLOAD, off :: st => go (fromBytes (Get m off 32) :: st)
  | MSTORE, off :: val :: st => goes s st (Set_ m off 32 (paddedBytes 32 val))
  | SLOAD, loc :: st => go (GetState (sto s) loc :: st)
  | SSTORE, loc :: val :: st =>
      Next {| pc := pc s + 1; stack := st; mem := m; sto := <[loc := val]> (sto s) |}
  | JUMP, dest :: st => jumps s dest st m
  | JUMPI, dest :: cond :: st => if cond =? 0 then go st else jumps s dest st m
  | GAS, st => go (gasLeft e s :: st)
  | JUMPDEST, st => go st
  | PUSH n, st =>
      Next {| pc := pc s + N.of_nat n + 1;
              stack := fromBytes (RightPadBytes (take n (drop (N.to_nat (pc s) + 1) (code e))) n) :: st;
              mem := m; sto := sto s |}
  | DUP n, st => go (Back st (n - 1) :: st)
  | SWAP n, x :: st => go (Back st (n - 1) :: <[(n - 1)%nat := x]> st)
  | CALL, _ :: addr :: val :: inOff :: inSize :: retOff :: retSize :: st =>
      if (addr mod 2 ^ 160 =? 1) && (val =? 0) then
        if callMetered e s
        then goes s (1 :: st) (Set_ m retOff retSize (ecrecoverRun (Get m inOff inSize)))
        else go (0 :: st)
      else Halt Unmodelled
  | RETURN, off :: size :: _ => Halt (Stopped (Get m off size) (sto s))
  | REVERT, off :: size :: _ => Halt (Reverted (Get m off size))
  | _, _ => Halt Unmodelled
  end.

(** One turn of the loop of [Interpreter.Run]. *)
Definition step (s : vm) : next :=
  let op := GetOp (code e) (pc s) in
  if (length (stack s) <? popped op)%nat then Halt (Failed stackUnderflow)
  else if (1024 <? length (stack s) + pushed op - popped op)%nat then Halt (Failed stackLimit)
  else match wordsOf (memorySize op (stack s)) with
       | Err x => Halt (Failed x)
       | Panic _ => Halt Unmodelled
       | Ok size => if metered e s then execute op s (Resize size (mem s)) else Halt (Failed ErrOutOfGas)
       end.

(** [Run], for a number of turns: [None] has not ended yet. *)
Fixpoint loop (fuel : nat) (s : vm) : option outcome :=
  match fuel with
  | O => None
  | S fuel => match step s with Next s' => loop fuel s' | Halt o => Some o end
  end.

Definition start (s : storage) : vm := {| pc := 0; stack := []; mem := []; sto := s |}.
Definition Run (fuel : nat) (s : storage) : option outcome :=
  if (length (code e) =? 0)%nat then Some (Stopped [] s) else loop fuel (start s).
End machine.
