(* ===== verification/EvmRules.v ===== *)
(** * Reasoning about runs of the virtual machine

    What the words and the memory of [Evm] satisfy, and a rule for each
    operation that says what the rest of a run starts from; the rules are for
    gas that does not run out, and [loop_metered] brings the gas back. *)
From S2P Require Import Prelude Keccak Common Crypto Sha1 Evm.
Local Open Scope N_scope.

(** ** Words and their bytes *)

Lemma fromBytes_app l1 l2 :
  fromBytes (l1 ++ l2) = fromBytes l1 * 256 ^ N.of_nat (length l2) + fromBytes l2.
Proof.
  unfold fromBytes. rewrite fold_left_app. generalize (fold_left (fun n c => n * 256 + b2N c) l1 0) as a.
  induction l2 as [|c l2 IH] using rev_ind; intros a; [cbn; lia|].
  rewrite !fold_left_app. cbn [fold_left]. rewrite IH, length_app. cbn [length].
  rewrite Nat2N.inj_add, N.pow_add_r. change (256 ^ N.of_nat 1) with 256. lia.
Qed.

Lemma fromBytes_bound l : fromBytes l < 256 ^ N.of_nat (length l).
Proof.
  induction l as [|c l IH] using rev_ind; [by vm_compute|].
  rewrite fromBytes_app, length_app, Nat2N.inj_add, N.pow_add_r. cbn [length].
  change (256 ^ N.of_nat 1) with 256. unfold fromBytes at 2. cbn [fold_left]. pose proof (b2N_lt c). nia.
Qed.

Lemma fromBytes_zeros k : fromBytes (replicate k (N2b 0)) = 0.
Proof.
  induction k as [|k IH]; [done|]. change (replicate (S k) (N2b 0)) with ([N2b 0] ++ replicate k (N2b 0)).
  rewrite fromBytes_app, IH. reflexivity.
Qed.

Lemma fromBytes_padded n w : w < 256 ^ N.of_nat n -> fromBytes (paddedBytes n w) = w.
Proof.
  revert w. induction n as [|n IH]; intros w Hw; [cbn in *; lia|]. cbn [paddedBytes bePut].
  change (fromBytes (paddedBytes n (w / 256) ++ [N2b (w mod 256)]) = w).
  rewrite Nat2N.inj_succ, N.pow_succ_r' in Hw.
  rewrite fromBytes_app, IH by (apply N.Div0.div_lt_upper_bound; lia).
  unfold fromBytes. cbn [fold_left length]. change (256 ^ N.of_nat 1) with 256.
  rewrite b2N_N2b by (apply N.mod_lt; lia). pose proof (N.div_mod' w 256). lia.
Qed.

Lemma length_padded n w : length (paddedBytes n w) = n.
Proof. revert w. induction n as [|n IH]; intros w; [done|]. cbn. rewrite length_app, IH. cbn. lia. Qed.

Lemma fromBytes_inj l1 l2 : length l1 = length l2 -> fromBytes l1 = fromBytes l2 -> l1 = l2.
Proof.
  revert l2. induction l1 as [|c l1 IH] using rev_ind; intros l2 Hl E.
  - by destruct l2.
  - destruct l2 as [|d l2 _] using rev_ind; [rewrite length_app in Hl; cbn in Hl; lia|].
    rewrite !length_app in Hl. cbn in Hl. rewrite !fromBytes_app in E.
    unfold fromBytes at 2 4 in E. cbn [fold_left length] in E. change (256 ^ N.of_nat 1) with 256 in E.
    pose proof (b2N_lt c). pose proof (b2N_lt d).
    rewrite (IH l2) by lia. f_equal. f_equal. apply b2N_inj. lia.
Qed.

Lemma padded_fromBytes l n : length l = n -> paddedBytes n (fromBytes l) = l.
Proof.
  intros <-. apply fromBytes_inj; [apply length_padded|]. apply fromBytes_padded, fromBytes_bound.
Qed.

(** The number in a hash or an address. *)
Lemma array_bound {n} (a : array n) : fromBytes (abytes a) < 256 ^ N.of_nat n.
Proof. rewrite <- (proj1 (Nat.eqb_eq _ _) (alength _ a)) at 2. apply fromBytes_bound. Qed.

Lemma fromBytes_left l n : fromBytes (LeftPadBytes l n) = fromBytes l.
Proof. unfold LeftPadBytes. by rewrite fromBytes_app, fromBytes_zeros. Qed.

Lemma padded_left l n : (length l <= n)%nat -> paddedBytes n (fromBytes l) = LeftPadBytes l n.
Proof.
  intros Hl. rewrite <- (fromBytes_left l n). apply padded_fromBytes. unfold LeftPadBytes.
  rewrite length_app, length_replicate. lia.
Qed.

Lemma U256_small x : x < wordSize -> U256 x = x.
Proof. apply N.mod_small. Qed.

(** [bigBytes] is the same number, in [Z]. *)
Lemma bigBytes_N l : bigBytes l = Z.of_N (fromBytes l).
Proof.
  induction l as [|c l IH] using rev_ind; [done|]. rewrite fromBytes_app.
  unfold bigBytes in *. rewrite fold_left_app, IH. unfold fromBytes at 3. cbn [fold_left length].
  change (256 ^ N.of_nat 1) with 256. lia.
Qed.

(** ** Data that is as if followed by zeros *)

Lemma getData_len data start size : length (getData data start size) = N.to_nat size.
Proof.
  unfold getData, RightPadBytes. cbv zeta. rewrite length_app, length_replicate, !length_take, !length_drop.
  rewrite !N2Nat.inj_min, N2Nat.inj_sub, N2Nat.inj_min. lia.
Qed.

Lemma getData_slice (pre l post : bytes) start size :
  start = N.of_nat (length pre) -> size = N.of_nat (length l) -> getData (pre ++ l ++ post) start size = l.
Proof.
  intros -> ->. unfold getData. cbv zeta. rewrite !length_app.
  set (dlen := N.of_nat (length pre + _)). replace (N.min (N.of_nat (length pre)) dlen) with (N.of_nat (length pre)) by lia.
  replace (N.min (N.of_nat (length l)) _) with (N.of_nat (length l)) by lia.
  rewrite !Nat2N.id, drop_app_length, take_app_length. unfold RightPadBytes.
  by rewrite Nat.sub_diag, app_nil_r.
Qed.

(** ** Memory *)

(** The byte at a place, zero where there is no memory yet. *)
Definition mbyte (m : bytes) (i : nat) : ascii := default (N2b 0) (m !! i).
Definition mbytes (m : bytes) (off size : nat) : bytes := mbyte m <$> seq off size.
Definition mword (m : bytes) (off : N) : N := fromBytes (mbytes m (N.to_nat off) 32).

Lemma mbytes_ext m m' off size :
  (forall i, (off <= i < off + size)%nat -> mbyte m i = mbyte m' i) -> mbytes m off size = mbytes m' off size.
Proof. intros H. unfold mbytes. apply list_fmap_ext. intros k i Hi. apply lookup_seq in Hi. apply H. lia. Qed.

Lemma mbytes_app m off a b : mbytes m off (a + b) = mbytes m off a ++ mbytes m (off + a) b.
Proof. unfold mbytes. by rewrite seq_app, fmap_app. Qed.

Lemma mbytes_len m off size : length (mbytes m off size) = size.
Proof. unfold mbytes. by rewrite length_fmap, length_seq. Qed.

Lemma mbyte_Resize size m i : mbyte (Resize size m) i = mbyte m i.
Proof.
  unfold mbyte, Resize. destruct (m !! i) as [c|] eqn:E; [by rewrite (lookup_app_l_Some _ _ _ _ E)|].
  apply lookup_ge_None in E. rewrite lookup_app_r by done.
  destruct (replicate _ _ !! _) as [c|] eqn:E2; [|done]. by apply lookup_replicate in E2 as [-> _].
Qed.

Lemma mbytes_Resize size m off n : mbytes (Resize size m) off n = mbytes m off n.
Proof. apply mbytes_ext. intros i _. apply mbyte_Resize. Qed.

Lemma Resize_len size m : (N.to_nat size <= length (Resize size m))%nat.
Proof. unfold Resize. rewrite length_app, length_replicate. lia. Qed.

Lemma Resize_0 m : Resize 0 m = m.
Proof. unfold Resize. by rewrite app_nil_r. Qed.

Lemma Get_mbytes m off size :
  (N.to_nat off + N.to_nat size <= length m)%nat -> Get m off size = mbytes m (N.to_nat off) (N.to_nat size).
Proof.
  intros Hl. unfold Get, mbytes. apply list_eq. intros i. rewrite list_lookup_fmap.
  destruct (decide (i < N.to_nat size)%nat) as [Hi|Hi].
  - rewrite lookup_take_lt, lookup_drop, lookup_seq_lt by done. cbn. unfold mbyte.
    destruct (lookup_lt_is_Some_2 m (N.to_nat off + i)) as [c Hc]; [lia|]. by rewrite Hc.
  - rewrite lookup_take_ge, lookup_seq_ge by lia. done.
Qed.

(** What is read after something has been written; a short value leaves the
    end of the place as it was. *)
Lemma mbyte_Set m off size value i :
  (N.to_nat off + N.to_nat size <= length m)%nat -> (length value <= N.to_nat size)%nat ->
  mbyte (Set_ m off size value) i =
    if decide (N.to_nat off <= i < N.to_nat off + length value)%nat
    then nth (i - N.to_nat off) value (N2b 0) else mbyte m i.
Proof.
  intros Hl Hv. unfold mbyte, Set_. rewrite take_ge by lia. case_decide as Hi.
  - rewrite list_lookup_inserts by lia. by rewrite nth_lookup.
  - destruct (decide (i < N.to_nat off)%nat); [by rewrite list_lookup_inserts_lt|].
    by rewrite list_lookup_inserts_ge by lia.
Qed.

(** Memory that has grown to hold a place, and a value put there. *)
Definition wsize (off size : N) : N := (calcMemSize off size + 31) / 32 * 32.
Definition put (m : bytes) (off size : N) (value : bytes) : bytes := Set_ (Resize (wsize off size) m) off size value.

Lemma wsize_le off size : size <> 0 -> off + size <= wsize off size.
Proof.
  intros Hs. unfold wsize, calcMemSize. destruct (N.eqb_spec size 0); [done|].
  pose proof (N.div_mod' (off + size + 31) 32). pose proof (N.mod_lt (off + size + 31) 32 ltac:(done)). lia.
Qed.

Lemma wordsOf_ok off size : off + size <= 549755813888 -> wordsOf (calcMemSize off size) = Ok (wsize off size).
Proof.
  intros Hb. unfold wordsOf, wsize.
  assert (calcMemSize off size <= 549755813888) as Hc by (unfold calcMemSize; destruct (_ =? _); lia).
  assert ((calcMemSize off size + 31) / 32 * 32 <= calcMemSize off size + 31) as Hd.
  { pose proof (N.Div0.mul_div_le (calcMemSize off size + 31) 32). lia. }
  change (2 ^ 64 - 32) with 18446744073709551584.
  rewrite !(proj2 (N.ltb_ge _ _)) by lia. done.
Qed.

Lemma mbyte_put m off size value i :
  size <> 0 -> (length value <= N.to_nat size)%nat ->
  mbyte (put m off size value) i =
    if decide (N.to_nat off <= i < N.to_nat off + length value)%nat
    then nth (i - N.to_nat off) value (N2b 0) else mbyte m i.
Proof.
  intros Hs Hv. unfold put. rewrite mbyte_Set; [|pose proof (wsize_le off size Hs)|done].
  - by rewrite mbyte_Resize.
  - pose proof (Resize_len (wsize off size) m). lia.
Qed.

Lemma mbytes_put_eq m off value n :
  n = length value -> value <> [] -> mbytes (put m off (N.of_nat n) value) (N.to_nat off) n = value.
Proof.
  intros -> Hne. assert (length value <> 0)%nat by (by destruct value).
  apply (list_eq_same_length _ _ (length value)); [done|by rewrite mbytes_len|].
  intros i x y Hi Hx Hy. unfold mbytes in Hx. rewrite list_lookup_fmap, lookup_seq_lt in Hx by done.
  injection Hx as <-. rewrite mbyte_put by lia. rewrite decide_True by lia.
  replace (N.to_nat off + i - N.to_nat off)%nat with i by lia. rewrite nth_lookup. by rewrite Hy.
Qed.

Lemma mbytes_put_ne m off size value off' n :
  size <> 0 -> (length value <= N.to_nat size)%nat ->
  (N.to_nat off + length value <= off' \/ off' + n <= N.to_nat off)%nat ->
  mbytes (put m off size value) off' n = mbytes m off' n.
Proof. intros Hs Hv Hd. apply mbytes_ext. intros i Hi. rewrite mbyte_put by done. rewrite decide_False by lia. done. Qed.

(** *** Words in memory *)

Definition mstore (m : bytes) (off v : N) : bytes := put m off 32 (paddedBytes 32 v).

Lemma mword_mstore_eq m off v : v < wordSize -> mword (mstore m off v) off = v.
Proof.
  intros Hv. unfold mword, mstore. change 32 with (N.of_nat 32) at 1. rewrite mbytes_put_eq.
  - by apply fromBytes_padded.
  - by rewrite length_padded.
  - intros E. pose proof (length_padded 32 v) as Hl. by rewrite E in Hl.
Qed.

Lemma mword_mstore_ne m off v off' : off + 32 <= off' \/ off' + 32 <= off -> mword (mstore m off v) off' = mword m off'.
Proof.
  intros Hd. unfold mword, mstore. rewrite mbytes_put_ne; [done|done|by rewrite length_padded|].
  rewrite length_padded. lia.
Qed.

Lemma mword_Resize size m off : mword (Resize size m) off = mword m off.
Proof. unfold mword. by rewrite mbytes_Resize. Qed.

Lemma mword_nil off : mword [] off = 0.
Proof.
  unfold mword, mbytes. assert (mbyte [] <$> seq (N.to_nat off) 32 = replicate 32 (N2b 0)) as ->; [|apply fromBytes_zeros].
  apply list_eq. intros i. rewrite list_lookup_fmap. destruct (decide (i < 32)%nat) as [Hi|Hi].
  - by rewrite lookup_seq_lt, lookup_replicate_2.
  - rewrite lookup_seq_ge by lia. symmetry. apply lookup_replicate_None. lia.
Qed.

Lemma mword_bound m off : mword m off < wordSize.
Proof.
  unfold mword. pose proof (fromBytes_bound (mbytes m (N.to_nat off) 32)) as H. by rewrite mbytes_len in H.
Qed.

(** The bytes of consecutive words. *)
Lemma mbytes_words m off k :
  mbytes m (N.to_nat off) (32 * S k) = paddedBytes 32 (mword m off) ++ mbytes m (N.to_nat (off + 32)) (32 * k).
Proof.
  replace (32 * S k)%nat with (32 + 32 * k)%nat by lia. rewrite mbytes_app. f_equal.
  - unfold mword. rewrite padded_fromBytes; [done|]. apply mbytes_len.
  - f_equal. lia.
Qed.

Lemma put_nothing m off value : put m off 0 value = m.
Proof. unfold put, wsize, calcMemSize. cbn. by rewrite Resize_0. Qed.

(** ** Rules for runs *)

Definition at_ (p : N) (st : list N) (m : bytes) (x : storage) : vm := {| pc := p; stack := st; mem := m; sto := x |}.

(** The stack has what the operation takes and room for what it gives. *)
Definition fits (op : opcode) (st : list N) : bool :=
  (popped op <=? length st)%nat && (length st + pushed op - popped op <=? 1024)%nat.

Section rules.
Context `{Secp256k1} (e : env) (C : bytes).
Context (Hcode : code e = C) (Hgas : forall s, metered e s = true).

(** The run from [s] ends, with an outcome that satisfies [Q]. *)
Definition leads (s : vm) (Q : outcome -> Prop) : Prop := exists n o, (forall k, loop e (n + k) s = Some o) /\ Q o.

Lemma leads_next s s' Q : step e s = Next s' -> leads s' Q -> leads s Q.
Proof.
  intros E (n & o & Hn & Ho). exists (S n), o. split; [|done]. intros k. cbn [Nat.add loop]. rewrite E. apply Hn.
Qed.

Lemma leads_halt s o (Q : outcome -> Prop) : step e s = Halt o -> Q o -> leads s Q.
Proof. intros E Ho. exists 1%nat, o. split; [|done]. intros k. cbn [Nat.add loop]. by rewrite E. Qed.

Lemma step_fits p st m x op size :
  GetOp C p = op -> fits op st = true -> wordsOf (memorySize op st) = Ok size ->
  step e (at_ p st m x) = execute e op (at_ p st m x) (Resize size m).
Proof.
  intros <- [Hp Hq]%andb_prop Hm. apply Nat.leb_le in Hp, Hq. unfold step. cbn [pc stack mem at_]. rewrite Hcode, Hm, Hgas.
  rewrite !(proj2 (Nat.ltb_ge _ _)) by lia. done.
Qed.

(** An operation that does not look at memory. *)
Lemma R_op p st m x op s' Q :
  GetOp C p = op -> fits op st = true -> memorySize op st = 0 ->
  execute e op (at_ p st m x) m = Next s' -> leads s' Q -> leads (at_ p st m x) Q.
Proof.
  intros Hop Hf Hm He. apply leads_next. rewrite (step_fits p st m x op 0 Hop Hf) by (by rewrite Hm).
  by rewrite Resize_0.
Qed.

Lemma R_push p st m x n v p' Q :
  GetOp C p = PUSH n -> fits (PUSH n) st = true ->
  fromBytes (RightPadBytes (take n (drop (N.to_nat p + 1) C)) n) = v -> p + N.of_nat n + 1 = p' ->
  leads (at_ p' (v :: st) m x) Q -> leads (at_ p st m x) Q.
Proof.
  intros Hop Hf <- <-. apply (R_op p st m x (PUSH n)); [done..|]. cbn [execute at_ pc stack mem sto]. by rewrite Hcode.
Qed.

Lemma R_jump p d st m x Q :
  GetOp C p = JUMP -> fits JUMP (d :: st) = true -> validJump C d = true ->
  leads (at_ d st m x) Q -> leads (at_ p (d :: st) m x) Q.
Proof.
  intros Hop Hf Hv. apply (R_op p _ m x JUMP); [done..|]. cbn [execute at_ stack]. unfold jumps. by rewrite Hcode, Hv.
Qed.

(** The two branches of a conditional jump. *)
Lemma R_jumpi p p' d c st m x Q :
  GetOp C p = JUMPI -> fits JUMPI (d :: c :: st) = true -> validJump C d = true -> p + 1 = p' ->
  leads (if c =? 0 then at_ p' st m x else at_ d st m x) Q -> leads (at_ p (d :: c :: st) m x) Q.
Proof.
  intros Hop Hf Hv <-. apply (R_op p _ m x JUMPI); [done..|]. cbn [execute at_ stack]. unfold jumps. rewrite Hcode, Hv.
  by destruct (c =? 0).
Qed.

Lemma R_mstore p p' off v st m x Q :
  GetOp C p = MSTORE -> fits MSTORE (off :: v :: st) = true -> off + 32 <= 549755813888 -> p + 1 = p' ->
  leads (at_ p' st (mstore m off v) x) Q -> leads (at_ p (off :: v :: st) m x) Q.
Proof.
  intros Hop Hf Hb <-. apply leads_next. by rewrite (step_fits _ _ _ _ MSTORE _ Hop Hf (wordsOf_ok off 32 Hb)).
Qed.

Lemma Get_grown m off size :
  size <> 0 -> Get (Resize (wsize off size) m) off size = mbytes m (N.to_nat off) (N.to_nat size).
Proof.
  intros Hs. rewrite Get_mbytes; [by rewrite mbytes_Resize|].
  pose proof (wsize_le off size Hs). pose proof (Resize_len (wsize off size) m). lia.
Qed.

Lemma R_mload p p' off st m x Q :
  GetOp C p = MLOAD -> fits MLOAD (off :: st) = true -> off + 32 <= 549755813888 -> p + 1 = p' ->
  leads (at_ p' (mword m off :: st) (Resize (wsize off 32) m) x) Q -> leads (at_ p (off :: st) m x) Q.
Proof.
  intros Hop Hf Hb <-. apply leads_next. rewrite (step_fits _ _ _ _ MLOAD _ Hop Hf (wordsOf_ok off 32 Hb)).
  cbn [execute at_ stack goes]. rewrite Get_grown by discriminate. change (N.to_nat 32) with 32%nat. exact eq_refl.
Qed.

Lemma R_sha3 p p' off size st m x Q :
  GetOp C p = SHA3 -> fits SHA3 (off :: size :: st) = true -> off + size <= 549755813888 -> size <> 0 -> p + 1 = p' ->
  leads (at_ p' (fromBytes (Keccak256 [mbytes m (N.to_nat off) (N.to_nat size)]) :: st) (Resize (wsize off size) m) x) Q ->
  leads (at_ p (off :: size :: st) m x) Q.
Proof.
  intros Hop Hf Hb Hs <-. apply leads_next. rewrite (step_fits _ _ _ _ SHA3 _ Hop Hf (wordsOf_ok off size Hb)).
  cbn [execute at_ stack goes]. rewrite Get_grown by exact Hs. exact eq_refl.
Qed.

Lemma R_calldatacopy p p' dst off size st m x Q :
  GetOp C p = CALLDATACOPY -> fits CALLDATACOPY (dst :: off :: size :: st) = true -> dst + size <= 549755813888 ->
  p + 1 = p' -> leads (at_ p' st (put m dst size (getData (input e) off size)) x) Q ->
  leads (at_ p (dst :: off :: size :: st) m x) Q.
Proof.
  intros Hop Hf Hb <-. apply leads_next. by rewrite (step_fits _ _ _ _ CALLDATACOPY _ Hop Hf (wordsOf_ok dst size Hb)).
Qed.

Lemma R_codecopy p p' dst off size st m x Q :
  GetOp C p = CODECOPY -> fits CODECOPY (dst :: off :: size :: st) = true -> dst + size <= 549755813888 ->
  p + 1 = p' -> leads (at_ p' st (put m dst size (getData C off size)) x) Q ->
  leads (at_ p (dst :: off :: size :: st) m x) Q.
Proof.
  intros Hop Hf Hb <-. apply leads_next. rewrite (step_fits _ _ _ _ CODECOPY _ Hop Hf (wordsOf_ok dst size Hb)).
  cbn [execute at_ stack]. by rewrite Hcode.
Qed.

Lemma R_return p off size st m x (Q : outcome -> Prop) :
  GetOp C p = RETURN -> fits RETURN (off :: size :: st) = true -> off + size <= 549755813888 -> size <> 0 ->
  Q (Stopped (mbytes m (N.to_nat off) (N.to_nat size)) x) -> leads (at_ p (off :: size :: st) m x) Q.
Proof.
  intros Hop Hf Hb Hs. apply leads_halt. rewrite (step_fits _ _ _ _ RETURN _ Hop Hf (wordsOf_ok off size Hb)).
  cbn [execute at_ stack goes]. rewrite Get_grown by exact Hs. exact eq_refl.
Qed.

(** Reverting without a reason. *)
Lemma R_revert p off st m x (Q : outcome -> Prop) :
  GetOp C p = REVERT -> fits REVERT (off :: 0 :: st) = true -> Q (Reverted []) -> leads (at_ p (off :: 0 :: st) m x) Q.
Proof.
  intros Hop Hf. apply leads_halt. rewrite (step_fits _ _ _ _ REVERT 0 Hop Hf) by reflexivity.
  rewrite Resize_0. cbn [execute at_ stack]. unfold Get. by rewrite take_0.
Qed.

Lemma R_stop p st m x (Q : outcome -> Prop) :
  GetOp C p = STOP -> fits STOP st = true -> Q (Stopped [] x) -> leads (at_ p st m x) Q.
Proof. intros Hop Hf. apply leads_halt. by rewrite (step_fits _ _ _ _ STOP 0 Hop Hf). Qed.

(** A call of the precompile, from one place in memory to another that is in
    the memory already. *)
Lemma R_call p p' g inOff inSize retOff retSize st m x Q :
  GetOp C p = CALL -> fits CALL (g :: 1 :: 0 :: inOff :: inSize :: retOff :: retSize :: st) = true ->
  inOff + inSize <= 549755813888 -> retOff + retSize <= inOff -> inSize <> 0 -> retSize <> 0 -> p + 1 = p' ->
  let ret := ecrecoverRun (mbytes m (N.to_nat inOff) (N.to_nat inSize)) in
  leads (if callMetered e (at_ p (g :: 1 :: 0 :: inOff :: inSize :: retOff :: retSize :: st) m x)
         then at_ p' (1 :: st) (Set_ (Resize (wsize inOff inSize) m) retOff retSize ret) x
         else at_ p' (0 :: st) (Resize (wsize inOff inSize) m) x) Q ->
  leads (at_ p (g :: 1 :: 0 :: inOff :: inSize :: retOff :: retSize :: st) m x) Q.
Proof.
  intros Hop Hf Hb Hr Hs Hrs <- ret. apply leads_next.
  rewrite (step_fits _ _ _ _ CALL (wsize inOff inSize) Hop Hf).
  2:{ cbn [memorySize Back nth]. rewrite N.max_r; [by apply wordsOf_ok|].
      unfold calcMemSize. destruct (N.eqb_spec retSize 0), (N.eqb_spec inSize 0); lia. }
  cbn [execute at_ stack]. assert ((1 mod 2 ^ 160 =? 1) && (0 =? 0) = true) as -> by (vm_compute; reflexivity).
  unfold goes. rewrite Get_grown by exact Hs. by destruct (callMetered e _).
Qed.
End rules.

(** With gas that may run out, a run ends the same or runs out of it. *)
Definition unmetered (e : env) : env :=
  {| code := code e; input := input e; value := value e; metered := fun _ => true;
     callMetered := callMetered e; gasLeft := gasLeft e |}.

Lemma loop_metered `{Secp256k1} e n s o :
  loop (unmetered e) n s = Some o ->
  loop e n s = Some o \/ (loop e n s = Some (Failed ErrOutOfGas) /\ exists s', metered e s' = false).
Proof.
  revert s. induction n as [|n IH]; intros s; [done|]. cbn [loop].
  assert (step e s = step (unmetered e) s \/
          (step e s = Halt (Failed ErrOutOfGas) /\ exists s', metered e s' = false)) as [->|[-> Hs]].
  - unfold step. cbn [code metered unmetered].
    destruct (_ <? _)%nat; [by left|]. destruct (_ <? _)%nat; [by left|]. destruct (wordsOf _); [|by left..].
    destruct (metered e s) eqn:E; [by left|right; by eauto].
  - destruct (step (unmetered e) s); [apply IH|by left].
  - by right.
Qed.

(** More turns change nothing once a run has ended. *)
Lemma loop_more `{Secp256k1} e n k s o : loop e n s = Some o -> loop e (n + k) s = Some o.
Proof.
  revert s. induction n as [|n IH]; intros s; [done|]. cbn [Nat.add loop]. destruct (step e s); [apply IH|done].
Qed.

Lemma leads_metered `{Secp256k1} e s Q :
  leads (unmetered e) s Q ->
  leads e s (fun o => Q o \/ (o = Failed ErrOutOfGas /\ exists s', metered e s' = false)).
Proof.
  intros (n & o & Hn & Ho). specialize (Hn 0%nat). rewrite Nat.add_0_r in Hn.
  destruct (loop_metered e n s o Hn) as [E|[E Hs]].
  - exists n, o. split; [|by left]. intros k. by apply loop_more.
  - exists n, (Failed ErrOutOfGas). split; [|by right]. intros k. by apply loop_more.
Qed.

Lemma leads_weaken `{Secp256k1} e s (Q Q' : outcome -> Prop) : (forall o, Q o -> Q' o) -> leads e s Q -> leads e s Q'.
Proof. intros HQ (n & o & Hn & Ho). exists n, o. auto. Qed.

(** [Run] of code that is there, to its end. *)
Definition ends `{Secp256k1} (e : env) (s : storage) (Q : outcome -> Prop) : Prop :=
  exists n o, (forall k, Run e (n + k) s = Some o) /\ Q o.

Lemma leads_ends `{Secp256k1} e s Q : length (code e) <> 0%nat -> leads e (start s) Q -> ends e s Q.
Proof.
  intros Hc (n & o & Hn & Ho). exists n, o. split; [|done]. intros k. unfold Run.
  by rewrite (proj2 (Nat.eqb_neq _ _) Hc).
Qed.

(** A run has one end. *)
Lemma ends_unique `{Secp256k1} e s Q n o : ends e s Q -> Run e n s = Some o -> Q o.
Proof.
  unfold ends, Run. destruct (length (code e) =? 0)%nat.
  - intros (n' & o' & Hn & Ho) [= <-]. specialize (Hn 0%nat). by injection Hn as <-.
  - intros (n' & o' & Hn & Ho) Hr. apply (loop_more e n n') in Hr. specialize (Hn n).
    rewrite Nat.add_comm, Hn in Hr. by injection Hr as <-.
Qed.
