(* ===== verification/Abi.v ===== *)
(** * The contract ABI

    The parts of the vendored [accounts/abi] that the contract's bindings use:
    the types of its arguments, the identifiers of methods, and the packing
    and unpacking of values.  Packing is proved to be undone by unpacking, for
    any list of arguments. *)
From S2P Require Import Prelude Keccak Common Crypto Sha1 Evm EvmRules.

(** ** Types and values *)

Inductive Type_ := AddressTy | BytesTy | FixedBytesTy (size : nat).
Inductive Value_ := VAddress (a : Address) | VBytes (b : bytes) | VFixed (b : bytes).

(** [Type.String], the text in a signature. *)
Fixpoint decimal (fuel n : nat) : bytes :=
  match fuel with
  | O => []
  | S fuel => (if n <? 10 then [] else decimal fuel (n / 10)) ++ [N2b (48 + N.of_nat (n mod 10))]
  end.
Definition Type_String (t : Type_) : bytes :=
  match t with AddressTy => "address" | BytesTy => "bytes" | FixedBytesTy n => "bytes" ++ decimal 2 n end.

Definition requiresLengthPrefix (t : Type_) : bool := match t with BytesTy => true | _ => false end.

(** ** Packing *)

(** [packNum] of an int that is not negative. *)
Definition packNum (n : nat) : bytes := paddedBytes 32 (U256 (N.of_nat n)).

Definition packBytesSlice (b : bytes) (l : nat) : bytes := packNum l ++ RightPadBytes b ((l + 31) / 32 * 32).

Definition typeErr : error := ETyped "fmt.Errorf" "abi: cannot use type as argument".

(** [Type.pack]: the type check, and then [packElement]. *)
Definition pack (t : Type_) (v : Value_) : result bytes :=
  match t, v with
  | AddressTy, VAddress a => Ok (LeftPadBytes (abytes a) 32)
  | BytesTy, VBytes b => Ok (packBytesSlice b (length b))
  | FixedBytesTy n, VFixed b => if length b =? n then Ok (RightPadBytes b 32) else Err typeErr
  | _, _ => Err typeErr
  end.

(** The loop of [Arguments.Pack]: the head, and the variable input behind it. *)
Fixpoint packLoop (ts : list Type_) (vs : list Value_) (inputOffset : nat) (ret variableInput : bytes) : result bytes :=
  match ts, vs with
  | t :: ts, v :: vs =>
      packed ← pack t v;
      if requiresLengthPrefix t
      then packLoop ts vs inputOffset (ret ++ packNum (inputOffset + length variableInput)) (variableInput ++ packed)
      else packLoop ts vs inputOffset (ret ++ packed) variableInput
  | _, _ => Ok (ret ++ variableInput)
  end.

Definition Arguments_Pack (ts : list Type_) (vs : list Value_) : result bytes :=
  if negb (length vs =? length ts) then Err (ETyped "fmt.Errorf" "argument count mismatch")
  else packLoop ts vs (32 * length ts) [] [].

(** ** Unpacking *)

Definition tooShort : error := ETyped "fmt.Errorf" "abi: cannot marshal in to go type: length insufficient".
Definition overBoundary : error := ETyped "fmt.Errorf" "abi: cannot marshal in to go slice: offset would go over slice boundary".
Definition tooLarge : error := ETyped "fmt.Errorf" "abi length larger than int64".

Definition slice (data : bytes) (start len : N) : bytes := take (N.to_nat len) (drop (N.to_nat start) data).

(** Where the value of a type with a length starts, and its length. *)
Definition lengthPrefixPointsTo (index : nat) (output : bytes) : result (N * N) :=
  let offsetEnd := (fromBytes (slice output (N.of_nat index) 32) + 32)%N in
  let outputLength := N.of_nat (length output) in
  if (outputLength <? offsetEnd)%N then Err overBoundary
  else if (2 ^ 63 <=? offsetEnd)%N then Err tooLarge
  else
    let len := fromBytes (slice output (offsetEnd - 32) 32) in
    let totalSize := (offsetEnd + len)%N in
    if (2 ^ 63 <=? totalSize)%N then Err tooLarge
    else if (outputLength <? totalSize)%N then Err tooShort
    else Ok (offsetEnd, len).

Definition toGoType (index : nat) (t : Type_) (output : bytes) : result Value_ :=
  if length output <? index + 32 then Err tooShort
  else
    let returnOutput := slice output (N.of_nat index) 32 in
    match t with
    | AddressTy => Ok (VAddress (BytesToAddress returnOutput))
    | BytesTy => p ← lengthPrefixPointsTo index output; Ok (VBytes (slice output (fst p) (snd p)))
    | FixedBytesTy n => Ok (VFixed (take n returnOutput))
    end.

(** [Arguments.UnpackValues], from the argument [index] on. *)
Fixpoint UnpackValues (index : nat) (ts : list Type_) (data : bytes) : result (list Value_) :=
  match ts with
  | [] => Ok []
  | t :: ts =>
      v ← toGoType (32 * index) t data;
      vs ← UnpackValues (S index) ts data;
      Ok (v :: vs)
  end.

(** ** Methods *)

Record Method := { Name : bytes; Const : bool; Inputs : list Type_; Outputs : list Type_ }.

Fixpoint join (l : list bytes) : bytes :=
  match l with [] => [] | [x] => x | x :: l => x ++ "," ++ join l end.
Definition Sig (m : Method) : bytes := Name m ++ "(" ++ join (Type_String <$> Inputs m) ++ ")".
Definition Id (m : Method) : bytes := take 4 (Keccak256 [Sig m]).

(** An [ABI]: its methods by name. *)
Definition ABI : Type := list Method.
Definition lookupMethod (abi : ABI) (name : bytes) : option Method := find (fun m => bool_decide (Name m = name)) abi.

(** [ABI.Pack], for a method that is not the constructor. *)
Definition Pack (abi : ABI) (name : bytes) (args : list Value_) : result bytes :=
  match lookupMethod abi name with
  | None => Err (ETyped "fmt.Errorf" "method not found")
  | Some m => arguments ← Arguments_Pack (Inputs m) args; Ok (Id m ++ arguments)
  end.

(** [ABI.Unpack] of a method with one output. *)
Definition Unpack (abi : ABI) (name : bytes) (output : bytes) : result Value_ :=
  if length output =? 0 then Err (ETyped "fmt.Errorf" "abi: unmarshalling empty output")
  else match lookupMethod abi name with
       | None => Err (ETyped "fmt.Errorf" "abi: could not locate named method or event")
       | Some m =>
           if negb (length output mod 32 =? 0) then Err (ETyped "fmt.Errorf" "abi: improperly formatted output")
           else vs ← UnpackValues 0 (Outputs m) output;
                match vs with
                | [v] => Ok v
                | _ => Err (ETyped "fmt.Errorf" "abi: wrong length, expected single value")
                end
       end.

(** ** The round trip *)

Definition hasType (t : Type_) (v : Value_) : Prop :=
  match t, v with
  | AddressTy, VAddress _ | BytesTy, VBytes _ => True
  | FixedBytesTy n, VFixed b => length b = n /\ n <= 32
  | _, _ => False
  end.

Lemma length_packNum n : length (packNum n) = 32.
Proof. apply length_padded. Qed.

Lemma fromBytes_packNum n : (N.of_nat n < wordSize)%N -> fromBytes (packNum n) = N.of_nat n.
Proof. intros Hn. unfold packNum. rewrite U256_small by done. by apply fromBytes_padded. Qed.

Lemma slice_app (pre l post : bytes) start len :
  start = N.of_nat (length pre) -> len = N.of_nat (length l) -> slice (pre ++ l ++ post) start len = l.
Proof. intros -> ->. unfold slice. by rewrite !Nat2N.id, drop_app_length, take_app_length. Qed.

Lemma length_pack t v b : hasType t v -> requiresLengthPrefix t = false -> pack t v = Ok b -> length b = 32.
Proof.
  destruct t, v; try done; cbn.
  - intros _ _ [= <-]. unfold LeftPadBytes. rewrite length_app, length_replicate.
    rewrite (proj1 (Nat.eqb_eq _ _) (alength _ a)). done.
  - intros [Hl Hn] _. rewrite (proj2 (Nat.eqb_eq _ _) Hl). intros [= <-]. unfold RightPadBytes.
    rewrite length_app, length_replicate. lia.
Qed.

(** What the loop makes: a head of a word for each argument, and the tail. *)
Lemma packLoop_shape ts vs off ret var data :
  Forall2 hasType ts vs -> packLoop ts vs off ret var = Ok data ->
  exists head tail, data = ret ++ head ++ var ++ tail /\ length head = 32 * length ts.
Proof.
  intros Hts. revert ret var. induction Hts as [|t v ts vs Ht Hts IH]; intros ret var; cbn [packLoop].
  - intros [= <-]. exists [], []. by rewrite app_nil_r.
  - intros (packed & Hp & Hl)%result_bind_ok_inv. destruct (requiresLengthPrefix t) eqn:Hr.
    + destruct (IH _ _ Hl) as (head & tail & -> & Hh). exists (packNum (off + length var) ++ head), (packed ++ tail).
      rewrite <- !app_assoc. split; [done|]. rewrite length_app, length_packNum. cbn. lia.
    + destruct (IH _ _ Hl) as (head & tail & -> & Hh). exists (packed ++ head), tail.
      rewrite <- !app_assoc. split; [done|]. rewrite length_app, (length_pack _ _ _ Ht Hr Hp). cbn. lia.
Qed.

(** The last 20 bytes. *)
Lemma BytesToAddress_left (a : Address) : BytesToAddress (LeftPadBytes (abytes a) 32) = a.
Proof.
  apply array_eq. unfold BytesToAddress, SetBytes, LeftPadBytes. cbn [abytes]. rewrite array_length. cbn [Nat.sub].
  rewrite length_app, length_replicate, array_length. cbn [Nat.add Nat.sub]. rewrite take_0.
  change 12 with (length (replicate 12 (N2b 0))) at 1. apply drop_app_length.
Qed.

Lemma unpack_static (pre post packed : bytes) index t v :
  hasType t v -> requiresLengthPrefix t = false -> pack t v = Ok packed -> length pre = index ->
  toGoType index t (pre ++ packed ++ post) = Ok v.
Proof.
  intros Ht Hr Hp Hi. pose proof (length_pack _ _ _ Ht Hr Hp) as Hl. unfold toGoType.
  rewrite (proj2 (Nat.ltb_ge _ _)) by (rewrite !length_app; lia).
  rewrite (slice_app pre packed post) by lia. destruct t, v; try done; cbn in Hp.
  - injection Hp as <-. by rewrite BytesToAddress_left.
  - destruct Ht as [Hlb Hn]. rewrite (proj2 (Nat.eqb_eq _ _) Hlb) in Hp. injection Hp as <-.
    unfold RightPadBytes. rewrite <- Hlb. by rewrite take_app_length.
Qed.

Lemma unpack_dynamic (pre between post b : bytes) index :
  length pre = index -> (N.of_nat (length (pre ++ packNum 0 ++ between ++ packBytesSlice b (length b) ++ post)) < 2 ^ 63)%N ->
  toGoType index BytesTy (pre ++ packNum (index + 32 + length between) ++ between ++ packBytesSlice b (length b) ++ post)
    = Ok (VBytes b).
Proof.
  intros Hi Hlim. set (at_ := index + 32 + length between).
  assert (length (packNum at_) = 32 /\ length (packNum (length b)) = 32) as [L1 L2] by (by rewrite !length_packNum).
  assert (N.of_nat (length b) < 2 ^ 63 /\ N.of_nat at_ < 2 ^ 63)%N as [Hb Hat].
  { unfold packBytesSlice, RightPadBytes in Hlim. rewrite !length_app, !length_packNum in Hlim. unfold at_. lia. }
  change (2 ^ 63)%N with 9223372036854775808%N in *.
  assert (forall n : nat, (N.of_nat n < 9223372036854775808)%N -> fromBytes (packNum n) = N.of_nat n) as Hnum.
  { intros n Hn. apply fromBytes_packNum. etransitivity; [exact Hn|reflexivity]. }
  assert (length (pre ++ packNum at_ ++ between ++ packBytesSlice b (length b) ++ post) =
          length (pre ++ packNum 0 ++ between ++ packBytesSlice b (length b) ++ post)) as Hlen
    by (rewrite !length_app, !length_packNum; done).
  unfold toGoType. rewrite (proj2 (Nat.ltb_ge _ _)) by (rewrite !length_app, length_packNum; lia).
  assert (lengthPrefixPointsTo index (pre ++ packNum at_ ++ between ++ packBytesSlice b (length b) ++ post) =
          Ok (N.of_nat (at_ + 32), N.of_nat (length b))) as ->.
  { unfold lengthPrefixPointsTo. cbv zeta. rewrite (slice_app pre (packNum at_)) by lia. rewrite Hnum by done.
    rewrite Hlen. change (2 ^ 63)%N with 9223372036854775808%N.
    assert (at_ + 32 + length b <= length (pre ++ packNum 0 ++ between ++ packBytesSlice b (length b) ++ post)) as Hin.
    { unfold packBytesSlice, RightPadBytes. rewrite !length_app, !length_packNum. unfold at_. lia. }
    rewrite (proj2 (N.ltb_ge _ _)) by lia. rewrite (proj2 (N.leb_gt _ _)) by lia.
    assert (slice (pre ++ packNum at_ ++ between ++ packBytesSlice b (length b) ++ post) (N.of_nat at_ + 32 - 32) 32 =
            packNum (length b)) as ->.
    { unfold packBytesSlice. rewrite !app_assoc, <- (app_assoc _ _ post), <- (app_assoc _ (packNum (length b))).
      apply slice_app; [rewrite !length_app, L1; unfold at_; lia|by rewrite L2]. }
    rewrite Hnum by done. rewrite (proj2 (N.leb_gt _ _)) by lia. rewrite (proj2 (N.ltb_ge _ _)) by lia.
    f_equal. f_equal. lia. }
  cbn [mbind result_bind fst snd]. do 2 f_equal. unfold packBytesSlice, RightPadBytes.
  rewrite !app_assoc. rewrite <- (app_assoc _ _ post), <- (app_assoc _ b). apply slice_app; [|done].
  rewrite !length_app, L1, L2. unfold at_. lia.
Qed.

Lemma unpack_loop ts vs index ret var data :
  Forall2 hasType ts vs -> length ret = 32 * index -> (N.of_nat (length data) < 2 ^ 63)%N ->
  packLoop ts vs (32 * (index + length ts)) ret var = Ok data -> UnpackValues index ts data = Ok vs.
Proof.
  intros Hts. revert index ret var. induction Hts as [|t v ts vs Ht Hts IH]; intros index ret var Hret Hlim; [done|].
  cbn [packLoop UnpackValues length]. intros (packed & Hp & Hl)%result_bind_ok_inv.
  replace (index + S (length ts)) with (S index + length ts) in Hl by lia.
  assert (toGoType (32 * index) t data = Ok v /\ UnpackValues (S index) ts data = Ok vs) as [-> ->]; [|done].
  destruct (requiresLengthPrefix t) eqn:Hr; (split; [|eapply IH; [| |exact Hl]; [|done]]).
  - destruct (packLoop_shape _ _ _ _ _ _ Hts Hl) as (head & tail & -> & Hh).
    destruct t, v; try done. injection Hp as <-. rewrite <- !app_assoc in *.
    replace (32 * (S index + length ts) + length var) with (32 * index + 32 + length (head ++ var))
      by (rewrite length_app; lia).
    rewrite (app_assoc head var). apply unpack_dynamic; [done|]. revert Hlim.
    rewrite !length_app, !length_packNum. lia.
  - rewrite length_app, length_packNum. lia.
  - destruct (packLoop_shape _ _ _ _ _ _ Hts Hl) as (head & tail & -> & Hh).
    rewrite <- app_assoc. by apply unpack_static.
  - rewrite length_app, (length_pack _ _ _ Ht Hr Hp). lia.
Qed.

(** What is packed is unpacked: for any list of arguments of the types
    they are declared with, in any order, packing succeeds, and unpacking the
    result gives the arguments back, as long as it is shorter than 2^63
    bytes. *)
Theorem pack_roundtrip (ts : list Type_) (vs : list Value_) :
  Forall2 hasType ts vs ->
  exists data, Arguments_Pack ts vs = Ok data /\
    ((N.of_nat (length data) < 2 ^ 63)%N -> UnpackValues 0 ts data = Ok vs).
Proof.
  intros Hts. unfold Arguments_Pack. rewrite (proj2 (Nat.eqb_eq _ _)) by (symmetry; by eapply Forall2_length).
  cbn [negb]. assert (forall off ret var, exists data, packLoop ts vs off ret var = Ok data) as Hok.
  { induction Hts as [|t v ts vs Ht Hts IH]; intros off ret var; cbn [packLoop]; [by eexists|].
    assert (exists packed, pack t v = Ok packed) as [packed ->].
    { destruct t, v; try done; cbn; [by eexists..|]. destruct Ht as [Hl _].
      rewrite (proj2 (Nat.eqb_eq _ _) Hl). by eexists. }
    cbn [mbind result_bind]. destruct (requiresLengthPrefix t); apply IH. }
  destruct (Hok (32 * length ts) [] []) as [data Hd]. exists data. split; [done|]. intros Hlim.
  by eapply (unpack_loop ts vs 0 [] []).
Qed.

Lemma pack_roundtrip_witness :
  exists data, Arguments_Pack [BytesTy; FixedBytesTy 4; AddressTy] [VBytes "a signature"; VFixed "abcd"; VAddress (zero_array 20)] = Ok data /\
    ((N.of_nat (length data) < 2 ^ 63)%N ->
     UnpackValues 0 [BytesTy; FixedBytesTy 4; AddressTy] data = Ok [VBytes "a signature"; VFixed "abcd"; VAddress (zero_array 20)]).
Proof.
  apply (pack_roundtrip [BytesTy; FixedBytesTy 4; AddressTy]).
  repeat constructor.
Defined.
