(* ===== verification/Compiled.v ===== *)
(** * The compiled registry contract

    The bytecode that [registry/contract/registry.go] carries and
    [DeployKORDRegistry] deploys, run by the virtual machine of [Evm] on calls
    packed as the bindings pack them.  Each part of the code is executed
    symbolically, by a tactic that applies the rules of [EvmRules], and the
    whole is proved to do what [Contract] says. *)
From S2P Require Import Prelude Keccak Common Crypto Sha1 Contract Evm EvmRules Abi.
Local Open Scope N_scope.

Definition KORDRegistryBin : bytes :=
  "0x6060604052341561000f57600080fd5b6102388061001e6000396000f30060606040526004361061004b5763ffffffff7c" ++
  "010000000000000000000000000000000000000000000000000000000060003504166375dfb0e08114610050578063ab2c77" ++
  "76146100a8575b600080fd5b341561005b57600080fd5b6100a6600480359060446024803590810190830135806020601f82" ++
  "0181900481020160405190810160405281815292919060208401838380828437509496506100e695505050505050565b005b" ++
  "34156100b357600080fd5b6100d473ffffffffffffffffffffffffffffffffffffffff600435166101e4565b604051908152" ++
  "60200160405180910390f35b60008060008084516041146100fa57600080fd5b602085015192506040850151915060608501" ++
  "5160001a9350601b8460ff16101561012557601b840193505b8360ff16601b1415801561013d57508360ff16601c14155b15" ++
  "61014757600080fd5b6001868585856040516000815260200160405260006040516020015260405193845260ff9092166020" ++
  "8085019190915260408085019290925260608401929092526080909201915160208103908084039060008661646e5a03f115" ++
  "156101ac57600080fd5b50506020604051035173ffffffffffffffffffffffffffffffffffffffff16600090815260208190" ++
  "5260409020959095555050505050565b73ffffffffffffffffffffffffffffffffffffffff16600090815260208190526040" ++
  "902054905600a165627a7a72305820bc3cd2f1cc7e0da514b92c0bf67d62293da625bb79164b7a48a3b7c7c58cd52c0029".

(** The code that creates the contract, and the code it leaves there. *)
Definition deployCode : bytes := FromHex KORDRegistryBin.
Definition runtimeCode : bytes := drop 30 deployCode.

(** [KORDRegistryABI], parsed. *)
Definition registryABI : ABI :=
  [ {| Name := "setGraph"; Const := false; Inputs := [FixedBytesTy 32; BytesTy]; Outputs := [] |};
    {| Name := "graph"; Const := true; Inputs := [AddressTy]; Outputs := [FixedBytesTy 32] |} ].

(** The identifiers the code compares with. *)
Definition setGraphId : N := 0x75dfb0e0.
Definition graphId : N := 0xab2c7776.

(** Where the mapping keeps the entry of an address: Solidity's place for the
    key in a mapping that is the first variable. *)
Definition slot (a : Address) : N := fromBytes (Keccak256 [LeftPadBytes (abytes a) 32 ++ replicate 32 (N2b 0)]).

(** ** Running code symbolically *)

(** A simple operation: it replaces the stack. *)
Lemma R_go `{Secp256k1} e C (Hcode : code e = C) (Hgas : forall s, metered e s = true) op st' p p' st m x Q :
  GetOp C p = op -> fits op st = true -> memorySize op st = 0 ->
  execute e op (at_ p st m x) m = goes (at_ p st m x) st' m -> p + 1 = p' ->
  leads e (at_ p' st' m x) Q -> leads e (at_ p st m x) Q.
Proof. intros Hop Hf Hm He <-. by apply (R_op e C Hcode Hgas p st m x op). Qed.

Lemma R_sstore `{Secp256k1} e C (Hcode : code e = C) (Hgas : forall s, metered e s = true) p p' loc val st m x Q :
  GetOp C p = SSTORE -> fits SSTORE (loc :: val :: st) = true -> p + 1 = p' ->
  leads e (at_ p' st m (<[loc := val]> x)) Q -> leads e (at_ p (loc :: val :: st) m x) Q.
Proof. intros Hop Hf <-. by apply (R_op e C Hcode Hgas p _ m x SSTORE). Qed.

(** Terms made of numerals, which are computed as they appear; any other term
    is left for a lemma about it. *)
Ltac numeral t :=
  lazymatch t with
  | N0 => idtac
  | Npos xH => idtac
  | Npos (xI ?p) => numeral (Npos p)
  | Npos (xO ?p) => numeral (Npos p)
  end.
Ltac ground t :=
  lazymatch t with
  | N0 => idtac
  | Npos _ => numeral t
  | wordSize => idtac
  | U256 ?a => ground a
  | bool2N ?a => ground a
  | ?a + ?b => ground a; ground b
  | ?a - ?b => ground a; ground b
  | ?a * ?b => ground a; ground b
  | ?a / ?b => ground a; ground b
  | N.land ?a ?b => ground a; ground b
  | ?a =? ?b => ground a; ground b
  | ?a <? ?b => ground a; ground b
  | (if ?b then ?x else ?y) => ground b; ground x; ground y
  end.
Ltac norm t :=
  match goal with
  | _ => let _ := match goal with _ => ground t end in eval vm_compute in t
  | _ => t
  end.

(** A choice whose condition is made of numerals. *)
Ltac decides b := ground b; let b' := eval vm_compute in b in change b with b'; cbv iota.
Ltac settle :=
  lazymatch goal with
  | |- leads _ (if ?b then _ else _) _ => try decides b
  | |- leads _ (at_ _ ((if ?b then _ else _) :: _) _ _) _ => try decides b
  | _ => idtac
  end.

Ltac byCode := vm_compute; exact eq_refl.
Ltac grows := first [exact eq_refl | lia | discriminate].

(** One operation of the code that [Hcode] names. *)
Ltac exec1 Hcode Hgas :=
  let C := lazymatch type of Hcode with code _ = ?C => C end in
  lazymatch goal with
  | |- leads ?e (at_ ?p ?st ?m ?x) ?o =>
      let op := eval vm_compute in (GetOp C p) in
      let p' := eval vm_compute in (p + 1) in
      lazymatch op with
      | PUSH ?n =>
          let p' := eval vm_compute in (p + N.of_nat n + 1) in
          let v := eval vm_compute in (fromBytes (RightPadBytes (take n (drop (N.to_nat p + 1) C)) n)) in
          apply (R_push e C Hcode Hgas p st m x n v p' o); [byCode|exact eq_refl|byCode|exact eq_refl|]
      | JUMP => apply (R_jump e C Hcode Hgas); [byCode|exact eq_refl|byCode|]
      | JUMPI =>
          apply (R_jumpi e C Hcode Hgas p p'); [byCode|exact eq_refl|byCode|exact eq_refl|]; settle
      | MSTORE => apply (R_mstore e C Hcode Hgas p p'); [byCode|exact eq_refl|grows|exact eq_refl|]
      | MLOAD => apply (R_mload e C Hcode Hgas p p'); [byCode|exact eq_refl|grows|exact eq_refl|]
      | SHA3 => apply (R_sha3 e C Hcode Hgas p p'); [byCode|exact eq_refl|grows|grows|exact eq_refl|]
      | CALLDATACOPY => apply (R_calldatacopy e C Hcode Hgas p p'); [byCode|exact eq_refl|grows|exact eq_refl|]
      | CODECOPY => apply (R_codecopy e C Hcode Hgas p p'); [byCode|exact eq_refl|grows|exact eq_refl|]
      | RETURN => apply (R_return e C Hcode Hgas); [byCode|exact eq_refl|grows|grows|]
      | REVERT => apply (R_revert e C Hcode Hgas); [byCode|exact eq_refl|]
      | STOP => apply (R_stop e C Hcode Hgas); [byCode|exact eq_refl|]
      | CALL => fail
      | SSTORE => apply (R_sstore e C Hcode Hgas p p'); [byCode|exact eq_refl|exact eq_refl|]
      | _ =>
          let r := eval cbn [execute at_ stack pc mem sto Back nth Nat.sub insert list_insert] in
            (execute e op (at_ p st m x) m) in
          lazymatch r with
          | goes _ (?t :: ?rest) _ =>
              let t' := norm t in
              apply (R_go e C Hcode Hgas op (t' :: rest) p p' st m x o);
              [byCode|exact eq_refl|exact eq_refl|exact eq_refl|exact eq_refl|]; settle
          | goes _ [] _ =>
              apply (R_go e C Hcode Hgas op [] p p' st m x o);
              [byCode|exact eq_refl|exact eq_refl|exact eq_refl|exact eq_refl|]
          end
      end
  end.

(** Words that do not wrap, and words read from memory. *)
Ltac words :=
  unfold wordSize in *;
  change (2 ^ 256) with 115792089237316195423570985008687907853269984665640564039457584007913129639936 in *; lia.
Ltac small := repeat match goal with |- context [U256 ?x] => rewrite (U256_small x) by words end.
Ltac reads :=
  repeat first
    [ rewrite mword_Resize | rewrite mword_mstore_eq by words | rewrite mword_mstore_ne by lia
    | match goal with H : mword ?m ?off = _ |- context [mword ?m ?off] => rewrite H end ].

Ltac choose := cbn [bool2N N.eqb Pos.eqb].

(** *** Bytes of words *)

Lemma land_bits x n : N.land x (N.pred (2 ^ n)) = x mod 2 ^ n.
Proof. by rewrite <- N.ones_equiv, N.land_ones. Qed.

Lemma land_255 x : x < 256 -> N.land 255 x = x.
Proof. intros Hx. change 255 with (N.pred (2 ^ 8)). rewrite N.land_comm, land_bits. by apply N.mod_small. Qed.

(** The first byte of a word of memory. *)
Lemma mword_top m off : N.shiftr (mword m off) (8 * (31 - 0)) mod 256 = b2N (mbyte m (N.to_nat off)).
Proof.
  unfold mword, mbytes. change (seq (N.to_nat off) 32) with (N.to_nat off :: seq (S (N.to_nat off)) 31).
  rewrite fmap_cons. change (?a :: ?l) with ([a] ++ l). rewrite fromBytes_app.
  pose proof (fromBytes_bound (mbyte m <$> seq (S (N.to_nat off)) 31)) as Hb.
  rewrite length_fmap, length_seq in *. rewrite N.shiftr_div_pow2.
  change (2 ^ (8 * (31 - 0))) with (256 ^ N.of_nat 31). rewrite N.div_add_l, N.div_small by done.
  unfold fromBytes. cbn [fold_left]. rewrite N.mod_small; pose proof (b2N_lt (mbyte m (N.to_nat off))); lia.
Qed.

(** Words inside something that was copied to memory. *)
Lemma mword_put_in m off size value off' :
  size <> 0 -> (length value <= N.to_nat size)%nat -> off <= off' ->
  (N.to_nat off' + 32 <= N.to_nat off + length value)%nat ->
  mword (put m off size value) off' = fromBytes (take 32 (drop (N.to_nat off' - N.to_nat off) value)).
Proof.
  intros Hs Hv Hlo Hhi. unfold mword. f_equal. apply list_eq. intros i. unfold mbytes. rewrite list_lookup_fmap.
  destruct (decide (i < 32)%nat) as [Hi|Hi].
  - rewrite lookup_seq_lt by done. cbn. rewrite mbyte_put by done. rewrite decide_True by lia.
    rewrite lookup_take_lt, lookup_drop by done. rewrite nth_lookup.
    replace (N.to_nat off' + i - N.to_nat off)%nat with (N.to_nat off' - N.to_nat off + i)%nat by lia.
    destruct (lookup_lt_is_Some_2 value (N.to_nat off' - N.to_nat off + i)) as [c Hc]; [lia|]. by rewrite Hc.
  - rewrite lookup_seq_ge, lookup_take_ge by lia. done.
Qed.

Lemma mword_put_ne m off size value off' :
  size <> 0 -> (length value <= N.to_nat size)%nat -> off' + 32 <= off -> mword (put m off size value) off' = mword m off'.
Proof. intros Hs Hv Hd. unfold mword. f_equal. apply mbytes_put_ne; [done|done|lia]. Qed.

(** Words around the place of a call's result. *)
Lemma mword_Set m inOff inSize off ret off' :
  off + 32 <= inOff -> inSize <> 0 -> length ret = 32%nat \/ ret = [] ->
  off' = off \/ off' + 32 <= off ->
  mword (Set_ (Resize (wsize inOff inSize) m) off 32 ret) off' =
    if decide (off' = off) then (if decide (ret = []) then mword m off else fromBytes ret) else mword m off'.
Proof.
  intros Hin Hs Hr Hd. unfold mword. pose proof (wsize_le inOff inSize Hs). pose proof (Resize_len (wsize inOff inSize) m).
  assert (forall i, mbyte (Set_ (Resize (wsize inOff inSize) m) off 32 ret) i =
            if decide (N.to_nat off <= i < N.to_nat off + length ret)%nat then nth (i - N.to_nat off) ret (N2b 0) else mbyte m i) as E.
  { intros i. rewrite mbyte_Set, mbyte_Resize; [done|lia|]. destruct Hr as [->| ->]; cbn; lia. }
  case_decide; [subst off'; case_decide|].
  - subst ret. f_equal. apply mbytes_ext. intros i Hi. rewrite E, decide_False; [done|cbn; lia].
  - destruct Hr as [Hr|]; [|done]. f_equal. apply list_eq. intros i. unfold mbytes. rewrite list_lookup_fmap.
    destruct (decide (i < 32)%nat).
    + rewrite lookup_seq_lt by done. cbn. rewrite E, decide_True by lia.
      replace (N.to_nat off + i - N.to_nat off)%nat with i by lia. rewrite nth_lookup.
      destruct (lookup_lt_is_Some_2 ret i) as [c Hc]; [lia|]. by rewrite Hc.
    + rewrite lookup_seq_ge by lia. symmetry. apply lookup_ge_None. lia.
  - f_equal. apply mbytes_ext. intros i Hi. rewrite E, decide_False; [done|lia].
Qed.

(** *** The call's data *)

Lemma getData_lookup data start size i :
  (i < N.to_nat size)%nat -> getData data start size !! i = Some (nth (N.to_nat start + i) data (N2b 0)).
Proof.
  intros Hi. unfold getData, RightPadBytes. cbv zeta. set (s := N.min start (N.of_nat (length data))).
  set (t := take _ (drop _ data)). assert (length t = N.to_nat (N.min size (N.of_nat (length data) - s))) as Ht.
  { unfold t. rewrite length_take, length_drop. lia. }
  destruct (decide (i < length t)%nat) as [Hlt|Hge].
  - rewrite lookup_app_l by done. unfold t. rewrite lookup_take_lt, lookup_drop by lia.
    replace (N.to_nat s + i)%nat with (N.to_nat start + i)%nat by lia.
    rewrite nth_lookup. destruct (lookup_lt_is_Some_2 data (N.to_nat start + i)) as [c ->]; [lia|done].
  - rewrite lookup_app_r by lia. rewrite lookup_replicate_2 by lia. rewrite nth_overflow; [done|lia].
Qed.

(** The four bytes that say which method is called. *)
Definition selector (input : bytes) : N := fromBytes (getData input 0 4).

Lemma selector_word data :
  N.land (fromBytes (getData data 0 32) / 26959946667150639794667015087019630673637144422540572481103610249216) 4294967295 =
  selector data.
Proof.
  change 26959946667150639794667015087019630673637144422540572481103610249216 with (2 ^ 224).
  assert (getData data 0 32 = getData data 0 4 ++ drop 4 (getData data 0 32)) as ->.
  { rewrite <- (take_drop 4 (getData data 0 32)) at 1. f_equal. apply list_eq. intros i.
    destruct (decide (i < 4)%nat).
    - rewrite lookup_take_lt, !getData_lookup by (cbn; lia). done.
    - rewrite lookup_take_ge by lia. symmetry. apply lookup_ge_None. rewrite getData_len. cbn. lia. }
  rewrite fromBytes_app. pose proof (fromBytes_bound (drop 4 (getData data 0 32))) as Hb.
  rewrite length_drop, getData_len in *. change (256 ^ N.of_nat (N.to_nat 32 - 4)) with (2 ^ 224) in *.
  rewrite N.div_add_l, N.div_small, N.add_0_r by done. fold (selector data).
  pose proof (fromBytes_bound (getData data 0 4)) as Hs. rewrite getData_len in Hs. fold (selector data) in Hs.
  change 4294967295 with (N.pred (2 ^ 32)). rewrite land_bits. by apply N.mod_small.
Qed.

(** ** The parts of the code *)

(** What the precompile returns for the words of a hash and a signature. *)
Lemma ecrecoverRun_eq `{Secp256k1} (hash : Hash) v (r s : bytes) :
  v < 256 -> length r = 32%nat -> length s = 32%nat ->
  let ret := ecrecoverRun (abytes hash ++ paddedBytes 32 v ++ r ++ s) in
  (length ret = 32%nat \/ ret = []) /\
  (if decide (ret = []) then 0 else fromBytes ret) = fromBytes (abytes (ecrecover hash v r s)).
Proof.
  intros Hv Hr Hs ret. pose proof (array_length hash) as Hh.
  set (input := abytes hash ++ paddedBytes 32 v ++ r ++ s) in *.
  assert (length input = 128%nat) as Hl by (unfold input; rewrite !length_app, length_padded; lia).
  assert (RightPadBytes input 128 = input) as Hp by (unfold RightPadBytes; rewrite Hl; apply app_nil_r).
  assert (paddedBytes 32 v = replicate 31 (N2b 0) ++ [N2b v]) as Hword.
  { apply fromBytes_inj; [by rewrite length_padded|]. rewrite fromBytes_padded, fromBytes_app, fromBytes_zeros.
    - unfold fromBytes. cbn [fold_left]. by rewrite b2N_N2b.
    - etransitivity; [exact Hv|exact eq_refl]. }
  assert (take 32 input = abytes hash) as Ht by (unfold input; by rewrite take_app_le, take_ge by lia).
  assert (drop 32 input = replicate 31 (N2b 0) ++ [N2b v] ++ r ++ s) as Hd.
  { unfold input. rewrite Hword, <- app_assoc, drop_app_ge, Hh by lia. done. }
  assert (drop 64 input = r ++ s) as Hd2.
  { change 64%nat with (32 + 32)%nat. rewrite <- drop_drop, Hd. done. }
  assert (take 32 (drop 64 input) = r) as Er by (rewrite Hd2, take_app_le, take_ge by lia; done).
  assert (take 32 (drop 96 input) = s) as Es.
  { change 96%nat with (64 + 32)%nat. rewrite <- drop_drop, Hd2, drop_app_ge, Hr by lia. apply take_ge. cbn. lia. }
  assert (take 64 (drop 64 input) = r ++ s) as Ers by (rewrite Hd2; apply take_ge; rewrite length_app; lia).
  assert (nth 63 input (N2b 0) = N2b v) as Env.
  { change 63%nat with (32 + 31)%nat. rewrite <- nth_skipn. change (skipn 32 input) with (drop 32 input). by rewrite Hd. }
  assert (take 31 (drop 32 input) = replicate 31 (N2b 0)) as Ez by (rewrite Hd; done).
  assert (ret = if negb (ValidateSignatureValues ((v + 256 - 27) mod 256) (bigBytes r) (bigBytes s)) then []
    else match Ecrecover hash (r ++ s ++ [N2b ((v + 256 - 27) mod 256)]) with
         | Ok pubKey => LeftPadBytes (drop 12 (Keccak256 [drop 1 pubKey])) 32 | _ => [] end) as ->.
  { unfold ret, ecrecoverRun. rewrite Hp, Er, Es, Env, Ez, Ers, Ht, b2N_N2b by done.
    change (forallb _ (replicate 31 (N2b 0))) with true. cbn [negb orb]. destruct (ValidateSignatureValues _ _ _); [|done].
    cbn [negb]. rewrite array_of_abytes, <- app_assoc. done. }
  unfold ecrecover. destruct (ValidateSignatureValues _ _ _); cbn [negb]; [|split; [by right|reflexivity]].
  destruct (Ecrecover _ _) as [pub| |]; [|split; [by right|reflexivity]..].
  pose proof (Keccak256_length [drop 1 pub]) as Hk. unfold PubkeyToAddress. set (key := drop 12 (Keccak256 [drop 1 pub])) in *.
  assert (length key = 20%nat) as Hkey by (unfold key; rewrite length_drop, Hk; done). clearbody key.
  assert (length (LeftPadBytes key 32) = 32%nat) as Hp2.
  { unfold LeftPadBytes. rewrite length_app, length_replicate. lia. }
  split; [by left|]. rewrite decide_False by (intros E; by rewrite E in Hp2). rewrite fromBytes_left.
  unfold BytesToAddress, SetBytes. cbn [abytes]. rewrite Hkey. done.
Qed.
#[local] Opaque leads.

Section runs.
Context `{Secp256k1} (e : env) (Hcode : code e = runtimeCode) (Hgas : forall s, metered e s = true).

Ltac run := repeat exec1 Hcode Hgas.
Ltac run_to q := repeat lazymatch goal with |- leads _ (at_ q _ _ _) _ => fail | _ => exec1 Hcode Hgas end.

Definition m0 : bytes := mstore [] 64 96.

(** From the start to the code of a method, or to a refusal. *)
Lemma dispatch s Q :
  let sel := selector (input e) in
  leads e (if N.of_nat (length (input e)) <? 4 then at_ 0x4b [] m0 s
           else if sel =? setGraphId then at_ 0x50 [sel] m0 s
           else if sel =? graphId then at_ 0xa8 [sel] m0 s else at_ 0x4b [sel] m0 s) Q ->
  leads e (start s) Q.
Proof.
  intros sel Ho. change (start s) with (at_ 0 [] [] s). run.
  destruct (N.of_nat (length (input e)) <? 4); choose; [exact Ho|].
  run. rewrite selector_word. change 1977594080 with setGraphId. fold sel.
  destruct (sel =? setGraphId); choose; [exact Ho|].
  run. change 2871818102 with graphId. rewrite (N.eqb_sym graphId).
  destruct (sel =? graphId); choose; exact Ho.
Qed.

(** A refusal, and the code of a method called with money. *)
Lemma refuses s st m (Q : outcome -> Prop) : (length st <= 1)%nat -> Q (Reverted []) -> leads e (at_ 0x4b st m s) Q.
Proof. intros Hst HQ. destruct st as [|w [|]]; [run; exact HQ..|cbn in Hst; lia]. Qed.

Lemma pays s sel m (Q : outcome -> Prop) :
  value e <> 0 -> Q (Reverted []) -> leads e (at_ 0x50 [sel] m s) Q /\ leads e (at_ 0xa8 [sel] m s) Q.
Proof. intros Hv HQ. apply N.eqb_neq in Hv. split; run; rewrite Hv; choose; run; exact HQ. Qed.

(** [setGraph], its arguments decoded: the signature is copied to memory. *)
Lemma setGraph_decodes s Q h n :
  value e = 0 -> fromBytes (getData (input e) 4 32) = h -> fromBytes (getData (input e) 36 32) = 64 ->
  fromBytes (getData (input e) 68 32) = n -> n < 4294967296 ->
  let m := mstore (mstore (Resize (wsize 64 32) m0) 64 (96 + (32 * ((n + 31) / 32) + 32))) 96 n in
  leads e (at_ 0xe6 [96; h; 166; setGraphId] (put m 128 n (getData (input e) 100 n)) s) Q ->
  leads e (at_ 0x50 [setGraphId] m0 s) Q.
Proof.
  intros Hv Hh Ho Hn Hb m Hm.
  run_to 0x5b. rewrite Hv. choose. run_to 0x6a. rewrite Hh, Ho. run_to 0x71. rewrite Hn. run_to 0x80.
  assert ((n + 31) / 32 <= n + 31) by (apply N.Div0.div_le_upper_bound; lia). small. run_to 0x81. unfold m0. reads.
  small. run_to 0x95. small. run_to 0xe6. exact Hm.
Qed.

(** A signature that is not 65 bytes long. *)
Lemma setGraph_length s h n m sel (Q : outcome -> Prop) :
  mword m 96 = n -> n <> 65 -> Q (Reverted []) -> leads e (at_ 0xe6 [96; h; 166; sel] m s) Q.
Proof. intros Hn Hl HQ. run. reads. rewrite (proj2 (N.eqb_neq 65 n)) by congruence. choose. run. exact HQ. Qed.

(** Its parts, and the byte [v]. *)
Definition recovery (v : N) : N := if v <? 27 then v + 27 else v.

Lemma setGraph_parts s h r ss v m sel Q :
  mword m 96 = 65 -> mword m 128 = r -> mword m 160 = ss -> b2N (mbyte m 192) = v ->
  (forall m', (forall off, mword m' off = mword m off) -> leads e (at_ 0x125 [0; ss; r; recovery v; 96; h; 166; sel] m' s) Q) ->
  leads e (at_ 0xe6 [96; h; 166; sel] m s) Q.
Proof.
  intros Hn Hr Hss Hv Hl. assert (v < 256) as Hb by (subst v; apply b2N_lt).
  run. rewrite Hn. choose. run_to 0x100. reads. run_to 0x107. reads. run_to 0x111. reads.
  rewrite mword_top. change (N.to_nat 192) with 192%nat. rewrite Hv. run.

  rewrite land_255 by done. unfold recovery in Hl.
  assert (forall off, mword (Resize (wsize 192 32) (Resize (wsize 160 32) (Resize (wsize 128 32)
    (Resize (wsize 96 32) m)))) off = mword m off) as Hm by (intros off; reads; done).
  destruct (N.ltb_spec v 27) as [Hlt|Hge]; choose; [|by apply Hl].
  run_to 0x125. rewrite U256_small by words. by apply Hl.
Qed.


(** The other two recovery bytes are refused. *)
Lemma setGraph_recovery s h r ss v m sel (Q : outcome -> Prop) :
  v < 256 ->
  (if (v =? 27) || (v =? 28) then leads e (at_ 0x147 [0; ss; r; v; 96; h; 166; sel] m s) Q else Q (Reverted [])) ->
  leads e (at_ 0x125 [0; ss; r; v; 96; h; 166; sel] m s) Q.
Proof.
  intros Hv Hl. run. rewrite land_255 by done. rewrite (N.eqb_sym 27).
  destruct (v =? 27); choose; [run_to 0x147|run; rewrite land_255 by done; rewrite (N.eqb_sym 28); destruct (v =? 28); choose; run_to 0x147];
    first [exact Hl|run; exact Hl].
Qed.

(** The precompile is called on the hash and the signature, and the entry of
    the address it returns is set. *)
Lemma setGraph_recovers s h r ss v m sel Q :
  v < 256 -> h < wordSize -> r < wordSize -> ss < wordSize -> mword m 64 = 224 ->
  (forall m' g, mword m' 64 = 256 -> mword m' 224 = 0 ->
     mbytes m' 256 128 = paddedBytes 32 h ++ paddedBytes 32 v ++ paddedBytes 32 r ++ paddedBytes 32 ss ->
     leads e (at_ 0x1a1 [g; 1; 0; 256; 128; 224; 32; 384; 1; 0; ss; r; v; 96; h; 166; sel] m' s) Q) ->
  leads e (at_ 0x147 [0; ss; r; v; 96; h; 166; sel] m s) Q.
Proof.
  intros Hv Hh Hr Hss Hm Hl. run_to 0x151. reads. run_to 0x160. reads. run_to 0x167. reads. run_to 0x190. reads.
  match goal with |- leads _ (at_ _ _ ?big _) _ => set (m1 := big) end.
  assert (N.land v 255 = v) as Hv' by (rewrite N.land_comm; by apply land_255).
  assert (mword m1 64 = 256 /\ mword m1 224 = 0) as [H1 H2] by (unfold m1; split; reads; done).
  assert (mword m1 256 = h /\ mword m1 288 = v /\ mword m1 320 = r /\ mword m1 352 = ss) as (H3 & H4 & H5 & H6).
  { unfold m1. rewrite Hv'. split_and!; reads; done. }
  clearbody m1. run. apply Hl; [done..|].
  change 256%nat with (N.to_nat 256). change 128%nat with (32 * 4)%nat. rewrite mbytes_words, H3.
  change (256 + 32) with 288. rewrite mbytes_words, H4. change (288 + 32) with 320. rewrite mbytes_words, H5.
  change (320 + 32) with 352. rewrite mbytes_words, H6. by rewrite app_nil_r.
Qed.

(** The address in the word that the precompile leaves. *)
Lemma address_word (a : Address) : N.land 1461501637330902918203684832716283019655932542975 (fromBytes (abytes a)) = fromBytes (abytes a).
Proof.
  change 1461501637330902918203684832716283019655932542975 with (N.pred (2 ^ 160)). rewrite N.land_comm, land_bits.
  apply N.mod_small. exact (array_bound a).
Qed.

Lemma address_small (a : Address) : fromBytes (abytes a) < wordSize.
Proof. etransitivity; [exact (array_bound a)|exact eq_refl]. Qed.

Lemma hash_small (h : Hash) : fromBytes (abytes h) < wordSize.
Proof. exact (array_bound h). Qed.

(** The place of an entry, hashed from the first two words of memory. *)
Lemma slot_words (a : Address) m :
  mword m 0 = fromBytes (abytes a) -> mword m 32 = 0 -> fromBytes (Keccak256 [mbytes m 0 64]) = slot a.
Proof.
  intros H0 H1. unfold slot. do 3 f_equal. change 64%nat with (32 * 2)%nat. change 0%nat with (N.to_nat 0) at 1.
  rewrite mbytes_words, H0. change (0 + 32) with 32. rewrite mbytes_words, H1. rewrite padded_left by (rewrite array_length; lia).
  done.
Qed.

Lemma setGraph_stores s g r ss v m h (a : Address) sel (Q : outcome -> Prop) :
  let ret := ecrecoverRun (mbytes m 256 128) in
  let s1 := at_ 0x1a1 [g; 1; 0; 256; 128; 224; 32; 384; 1; 0; ss; r; v; 96; h; 166; sel] m s in
  mword m 64 = 256 -> mword m 224 = 0 -> length ret = 32%nat \/ ret = [] ->
  (if decide (ret = []) then 0 else fromBytes ret) = fromBytes (abytes a) ->
  (if callMetered e s1 then Q (Stopped [] (<[slot a := h]> s)) else Q (Reverted [])) -> leads e s1 Q.
Proof.
  intros ret s1 Hm1 Hm2 Hret Ha HQ. unfold s1 at 1.
  apply (R_call e runtimeCode Hcode Hgas 0x1a1 0x1a2);
    [byCode|exact eq_refl|lia|lia|discriminate|discriminate|exact eq_refl|]. fold s1.
  change (N.to_nat 256) with 256%nat. change (N.to_nat 128) with 128%nat. fold ret.
  destruct (callMetered e s1); [|run; exact HQ].
  assert (forall off, off = 224 \/ off + 32 <= 224 -> mword (Set_ (Resize (wsize 256 128) m) 224 32 ret) off =
    if decide (off = 224) then fromBytes (abytes a) else mword m off) as Hm.
  { intros off Hoff. rewrite mword_Set by (lia || done || tauto). rewrite Hm2. repeat case_decide; congruence. }
  pose proof (Hm 64 ltac:(lia)) as Hm3. pose proof (Hm 224 ltac:(lia)) as Hm4. cbn [decide] in *. clearbody ret.
  revert Hm3 Hm4. generalize (Set_ (Resize (wsize 256 128) m) 224 32 ret). intros m2. rewrite decide_False, decide_True by done.
  rewrite Hm1. intros Hm3 Hm4.
  pose proof (address_small a) as Hsmall. run_to 0x1b5. reads.
  assert (U256 (256 + wordSize - 32) = 224) as -> by byCode. run_to 0x1b6. reads. run_to 0x1cc. rewrite address_word.
  run_to 0x1da.
  rewrite (slot_words a); [run; exact HQ|reads; done..].
Qed.

(** [setGraph] as a whole. *)
Definition recovered (hash : Hash) (sig : bytes) : Address :=
  ecrecover hash (recoveryByte sig) (take 32 sig) (take 32 (drop 32 sig)).

Definition written (hash : Hash) (sig : bytes) (s : storage) : outcome :=
  if wellFormed sig then Stopped [] (<[slot (recovered hash sig) := fromBytes (abytes hash)]> s) else Reverted [].

(** The precompile may be refused its gas. *)
Definition starved (o : outcome) : Prop := o = Reverted [] /\ exists s, callMetered e s = false.

Lemma recoveryByte_eq sig : recovery (b2N (nth 64 sig (N2b 0))) = recoveryByte sig.
Proof.
  unfold recovery, recoveryByte. cbv zeta. destruct (N.ltb_spec (b2N (nth 64 sig (N2b 0))) 27); [|done].
  rewrite N.mod_small by lia. done.
Qed.

Lemma recoveryByte_lt sig : recoveryByte sig < 256.
Proof.
  rewrite <- recoveryByte_eq. unfold recovery. pose proof (b2N_lt (nth 64 sig (N2b 0))).
  destruct (N.ltb_spec (b2N (nth 64 sig (N2b 0))) 27); lia.
Qed.

(** What is in memory when the arguments have been decoded. *)
Lemma setGraph_memory s (hash : Hash) (sig : bytes) Q :
  value e = 0 -> getData (input e) 4 32 = abytes hash -> fromBytes (getData (input e) 36 32) = 64 ->
  fromBytes (getData (input e) 68 32) = N.of_nat (length sig) -> N.of_nat (length sig) < 4294967296 ->
  getData (input e) 100 (N.of_nat (length sig)) = sig ->
  (forall m, mword m 96 = N.of_nat (length sig) ->
     (length sig = 65%nat -> mword m 64 = 224 /\ mword m 128 = fromBytes (take 32 sig) /\
        mword m 160 = fromBytes (take 32 (drop 32 sig)) /\ mbyte m 192 = nth 64 sig (N2b 0)) ->
     leads e (at_ 0xe6 [96; fromBytes (abytes hash); 166; setGraphId] m s) Q) ->
  leads e (at_ 0x50 [setGraphId] m0 s) Q.
Proof.
  intros Hv Hh Ho Hn Hb Hsig Hl. eapply setGraph_decodes; [done|by rewrite Hh|done|exact Hn|done|].
  rewrite Hsig. apply Hl.
  - destruct (decide (length sig = 0)%nat) as [E|E].
    + rewrite E, put_nothing. change (N.of_nat 0) with 0. reads. done.
    + rewrite mword_put_ne by lia. reads. done.
  - intros E. rewrite E. change (N.of_nat 65) with 65. split_and!.
    + rewrite mword_put_ne by lia. change (96 + (32 * ((65 + 31) / 32) + 32)) with 224. reads. done.
    + by rewrite mword_put_in by lia.
    + rewrite mword_put_in by lia. done.
    + rewrite mbyte_put by lia. rewrite decide_True by lia. done.
Qed.

Lemma setGraph_runs s (hash : Hash) (sig : bytes) :
  value e = 0 -> getData (input e) 4 32 = abytes hash -> fromBytes (getData (input e) 36 32) = 64 ->
  fromBytes (getData (input e) 68 32) = N.of_nat (length sig) -> N.of_nat (length sig) < 4294967296 ->
  getData (input e) 100 (N.of_nat (length sig)) = sig ->
  leads e (at_ 0x50 [setGraphId] m0 s) (fun o => o = written hash sig s \/ starved o).
Proof.
  intros Hv Hh Ho Hn Hb Hsig. apply (setGraph_memory s hash sig); [done..|]. intros m Hm Hparts.
  unfold written, wellFormed. destruct (Nat.eqb_spec (length sig) 65) as [E|E]; cbn [andb].
  2:{ eapply setGraph_length; [exact Hm|lia|by left]. }
  destruct (Hparts E) as (Hm1 & Hm2 & Hm3 & Hm4). eapply setGraph_parts; [by rewrite Hm, E|exact Hm2|exact Hm3|exact eq_refl|].
  intros m' Hm'. rewrite Hm4, recoveryByte_eq. pose proof (recoveryByte_lt sig) as Hrb. apply setGraph_recovery; [done|].
  destruct ((recoveryByte sig =? 27) || (recoveryByte sig =? 28)); [|by left].
  assert (length (take 32 sig) = 32%nat /\ length (take 32 (drop 32 sig)) = 32%nat) as [L1 L2].
  { rewrite !length_take, length_drop. lia. }
  assert (fromBytes (take 32 sig) < wordSize /\ fromBytes (take 32 (drop 32 sig)) < wordSize) as [B1 B2].
  { split; (eapply N.lt_le_trans; [apply fromBytes_bound|]); [rewrite L1|rewrite L2]; done. }
  apply setGraph_recovers; [done|apply hash_small|done|done|by rewrite Hm'|]. intros m2 g Ha Hz Hb2.
  rewrite !padded_fromBytes in Hb2 by (done || apply array_length).
  destruct (ecrecoverRun_eq hash (recoveryByte sig) (take 32 sig) (take 32 (drop 32 sig)) Hrb L1 L2) as [Hr1 Hr2].
  apply (setGraph_stores s g _ _ _ m2 _ (recovered hash sig)); rewrite ?Hb2; [done..|].
  destruct (callMetered e _) eqn:Hc; [by left|right]. split; [done|by eexists].
Qed.

(** [graph] reads the entry. *)
Lemma graph_runs s (a : Address) (Q : outcome -> Prop) :
  value e = 0 -> fromBytes (getData (input e) 4 32) = fromBytes (abytes a) ->
  Q (Stopped (paddedBytes 32 (GetState s (slot a))) s) -> leads e (at_ 0xa8 [graphId] m0 s) Q.
Proof.
  intros Hv Ha HQ. pose proof (address_small a) as Hs. run_to 0xb3. rewrite Hv. choose. run_to 0xcf. rewrite Ha.
  run_to 0xd0. rewrite N.land_comm, address_word. run_to 0x1fb. rewrite address_word. run_to 0x209.
  rewrite (slot_words a); [|unfold m0; reads; done..]. run_to 0xd8. unfold m0. reads. run_to 0xe5. reads.
  match goal with |- leads _ (at_ _ _ (Resize _ (mstore ?big _ _)) _) _ => generalize big end. intros m.
  run. change (N.to_nat 96) with (N.to_nat 96). rewrite mbytes_Resize. unfold mstore.
  change 32 with (N.of_nat 32) at 1. change (N.to_nat 32) with 32%nat. rewrite mbytes_put_eq; [exact HQ|by rewrite length_padded|].
  intros E. pose proof (length_padded 32 (GetState s (slot a))) as Hl. by rewrite E in Hl.
Qed.
End runs.

Section deployment.
Context `{Secp256k1} (e : env) (Hcode : code e = deployCode) (Hgas : forall s, metered e s = true).

(** The code that creates the contract returns the code to leave there, and
    accepts no money. *)
Lemma deploy_runs s (Q : outcome -> Prop) :
  Q (if value e =? 0 then Stopped runtimeCode s else Reverted []) -> leads e (start s) Q.
Proof.
  intros HQ. change (start s) with (at_ 0 [] [] s). repeat exec1 Hcode Hgas.
  destruct (value e =? 0); choose; repeat exec1 Hcode Hgas; [|exact HQ].
  assert (getData deployCode 30 568 = runtimeCode) as -> by (vm_compute; reflexivity).
  change 568 with (N.of_nat 568). change (N.to_nat (N.of_nat 568)) with 568%nat.
  rewrite mbytes_put_eq; [exact HQ|vm_compute; reflexivity|vm_compute; discriminate].
Qed.
End deployment.

(** ** Calls, packed *)

Lemma Ok_inj {A} (x y : A) : Ok x = Ok y -> x = y.
Proof. by intros [= ->]. Qed.

Lemma getData_at (data pre l post : bytes) start size :
  data = pre ++ l ++ post -> start = N.of_nat (length pre) -> size = N.of_nat (length l) -> getData data start size = l.
Proof. intros ->. apply getData_slice. Qed.

Section calls.
Context `{Secp256k1}.

(** There is gas for everything; a run without it ends so. *)
Definition gasEnough (e : env) : Prop := (forall s, metered e s = true) /\ (forall s, callMetered e s = true).
Definition outOfGas (e : env) (o : outcome) : Prop := (o = Failed ErrOutOfGas \/ o = Reverted []) /\ ~ gasEnough e.

(** A call of the contract without money, and one that sets a graph. *)
Definition calls (e : env) (name : bytes) (args : list Value_) : Prop :=
  code e = runtimeCode /\ value e = 0 /\ Pack registryABI name args = Ok (input e).
Definition setsGraph (e : env) (hash : Hash) (sig : bytes) : Prop :=
  calls e "setGraph" [VFixed (abytes hash); VBytes sig] /\ N.of_nat (length sig) < 4294967296.

Lemma Pack_setGraph (hash : Hash) (sig : bytes) :
  Pack registryABI "setGraph" [VFixed (abytes hash); VBytes sig] =
    Ok (paddedBytes 4 setGraphId ++ abytes hash ++ packNum 64 ++ packNum (length sig) ++
        RightPadBytes sig ((length sig + 31) / 32 * 32)).
Proof.
  unfold Pack. assert (lookupMethod registryABI "setGraph" = Some (nth 0 registryABI (Build_Method [] true [] []))) as -> by byCode.
  cbn [registryABI nth Inputs]. unfold Arguments_Pack. cbn [length Nat.eqb negb packLoop pack].
  rewrite array_length. cbn [Nat.eqb]. cbn [mbind result_bind requiresLengthPrefix packLoop].
  assert (Id {| Name := "setGraph"; Const := false; Inputs := [FixedBytesTy 32; BytesTy]; Outputs := [] |} = paddedBytes 4 setGraphId)
    as -> by byCode.
  unfold RightPadBytes at 1. rewrite array_length, Nat.sub_diag, app_nil_r. unfold packBytesSlice. by rewrite <- !app_assoc.
Qed.

Lemma Pack_graph (a : Address) :
  Pack registryABI "graph" [VAddress a] = Ok (paddedBytes 4 graphId ++ LeftPadBytes (abytes a) 32).
Proof.
  unfold Pack. assert (lookupMethod registryABI "graph" = Some (nth 1 registryABI (Build_Method [] true [] []))) as -> by byCode.
  cbn [registryABI nth Inputs]. unfold Arguments_Pack. cbn [length Nat.eqb negb packLoop pack mbind result_bind requiresLengthPrefix].
  assert (Id {| Name := "graph"; Const := true; Inputs := [AddressTy]; Outputs := [FixedBytesTy 32] |} = paddedBytes 4 graphId)
    as -> by byCode.
  by rewrite app_nil_r.
Qed.

(** The method of a packed call. *)
Lemma selector_Pack sel data : sel < 2 ^ 32 -> selector (paddedBytes 4 sel ++ data) = sel.
Proof.
  intros Hs. unfold selector. rewrite (getData_slice [] (paddedBytes 4 sel) data); [|done|by rewrite length_padded].
  by apply fromBytes_padded.
Qed.

(** From a run with gas to any run. *)
Lemma metered_run e s (P : outcome -> Prop) :
  length (code e) <> 0%nat -> leads (unmetered e) (start s) (fun o => P o \/ starved (unmetered e) o) ->
  ends e s (fun o => P o \/ outOfGas e o).
Proof.
  intros Hc Hl%leads_metered. apply leads_ends; [done|]. revert Hl. apply leads_weaken.
  intros o [[Ho|[-> [s' Hs]]]|[-> [s' Hs]]]; [by left|right; split; [by right|]|right; split; [by left|]].
  - intros [_ Hg]. cbn in Hs. by rewrite Hg in Hs.
  - intros [Hg _]. by rewrite Hg in Hs.
Qed.

Lemma runtimeCode_some e : code e = runtimeCode -> length (code e) <> 0%nat.
Proof. intros ->. vm_compute. discriminate. Qed.

Lemma setGraph_ends e s hash sig :
  setsGraph e hash sig -> ends e s (fun o => o = written hash sig s \/ outOfGas e o).
Proof.
  intros [(Hc & Hv & Hp) Hb]. rewrite Pack_setGraph in Hp. apply Ok_inj in Hp.
  apply metered_run; [by apply runtimeCode_some|]. apply (dispatch (unmetered e) Hc (fun _ => eq_refl)). cbn [input unmetered].
  assert (4 <= N.of_nat (length (input e))) as Hl by (rewrite <- Hp, length_app, length_padded; lia).
  rewrite (proj2 (N.ltb_ge _ _) Hl). assert (selector (input e) = setGraphId) as -> by (rewrite <- Hp; by apply selector_Pack).
  cbn [N.eqb Pos.eqb setGraphId]. pose proof (length_padded 4 setGraphId) as L0. pose proof (array_length hash) as L1.
  pose proof (length_packNum 64) as L2. pose proof (length_packNum (length sig)) as L3.
  assert (forall n : nat, N.of_nat n < 4294967296 -> fromBytes (packNum n) = N.of_nat n) as Hnum.
  { intros n Hn. apply fromBytes_packNum. etransitivity; [exact Hn|exact eq_refl]. }
  apply (setGraph_runs (unmetered e) Hc (fun _ => eq_refl)); [exact Hv|..|exact Hb|]; cbn [input unmetered]; rewrite <- Hp.
  - apply (getData_at _ (paddedBytes 4 setGraphId) (abytes hash) _ 4 32 eq_refl); lia.
  - rewrite (getData_at _ (paddedBytes 4 setGraphId ++ abytes hash) (packNum 64)
      (packNum (length sig) ++ RightPadBytes sig ((length sig + 31) / 32 * 32))); rewrite ?length_app; [done|by rewrite <- !app_assoc|lia..].
  - rewrite (getData_at _ (paddedBytes 4 setGraphId ++ abytes hash ++ packNum 64) (packNum (length sig))
      (RightPadBytes sig ((length sig + 31) / 32 * 32))); rewrite ?length_app; [by apply Hnum|by rewrite <- !app_assoc|lia..].
  - unfold RightPadBytes. apply (getData_at _ (paddedBytes 4 setGraphId ++ abytes hash ++ packNum 64 ++ packNum (length sig)) sig
      (replicate ((length sig + 31) / 32 * 32 - length sig) (N2b 0))); rewrite ?length_app; [by rewrite <- !app_assoc|lia..].
Qed.

Lemma graph_ends e s (a : Address) :
  calls e "graph" [VAddress a] ->
  ends e s (fun o => o = Stopped (paddedBytes 32 (GetState s (slot a))) s \/ outOfGas e o).
Proof.
  intros (Hc & Hv & Hp). rewrite Pack_graph in Hp. apply Ok_inj in Hp.
  apply metered_run; [by apply runtimeCode_some|]. apply (dispatch (unmetered e) Hc (fun _ => eq_refl)). cbn [input unmetered].
  assert (4 <= N.of_nat (length (input e))) as Hl by (rewrite <- Hp, length_app, length_padded; lia).
  rewrite (proj2 (N.ltb_ge _ _) Hl). assert (selector (input e) = graphId) as -> by (rewrite <- Hp; by apply selector_Pack).
  cbn [N.eqb Pos.eqb setGraphId graphId]. apply (graph_runs (unmetered e) Hc (fun _ => eq_refl) s a); [exact Hv| |by left].
  cbn [input unmetered]. rewrite <- Hp. pose proof (length_padded 4 graphId) as L0.
  rewrite (getData_at _ (paddedBytes 4 graphId) (LeftPadBytes (abytes a) 32) []).
  - apply fromBytes_left.
  - by rewrite app_nil_r.
  - lia.
  - unfold LeftPadBytes. rewrite length_app, length_replicate, array_length. done.
Qed.

Lemma deploy_ends e s :
  code e = deployCode ->
  ends e s (fun o => o = (if value e =? 0 then Stopped runtimeCode s else Reverted []) \/ outOfGas e o).
Proof.
  intros Hc. apply metered_run; [rewrite Hc; vm_compute; discriminate|]. apply (deploy_runs (unmetered e) Hc (fun _ => eq_refl)).
  by left.
Qed.

Lemma refuses_ends (e : env) (s : storage) :
  code e = runtimeCode ->
  value e <> 0 \/ (length (input e) < 4)%nat \/ (selector (input e) <> setGraphId /\ selector (input e) <> graphId) ->
  ends e s (fun o => o = Reverted [] \/ outOfGas e o).
Proof.
  intros Hc Hr. apply metered_run; [by apply runtimeCode_some|]. pose proof (fun st => refuses (unmetered e) Hc (fun _ => eq_refl) s st) as Hno.
  apply (dispatch (unmetered e) Hc (fun _ => eq_refl)). cbn [input unmetered].
  destruct (N.ltb_spec (N.of_nat (length (input e))) 4); [apply Hno; [cbn; lia|by left]|].
  destruct Hr as [Hv|[|[H1 H2]]]; [|lia|].
  - assert (forall sel m Q, Q (Reverted []) -> leads (unmetered e) (at_ 0x50 [sel] m s) Q /\ leads (unmetered e) (at_ 0xa8 [sel] m s) Q)
      as Hp by (intros sel m Q; by apply pays).
    destruct (_ =? setGraphId); [apply Hp; by left|]. destruct (_ =? graphId); [apply Hp; by left|apply Hno; [cbn; lia|by left]].
  - rewrite !(proj2 (N.eqb_neq _ _)) by done. apply Hno; [cbn; lia|by left].
Qed.

(** ** A history of calls *)

(** What a transaction leaves: anything but success is undone. *)
Definition after (o : outcome) (s : storage) : storage := match o with Stopped _ s' => s' | _ => s end.

(** The transactions that were not stopped for want of gas, in order, and the
    storage before and after. *)
Inductive mined : list (Hash * bytes) -> storage -> storage -> Prop :=
  | mined_nil s : mined [] s s
  | mined_done e hash sig n o txs s s' :
      setsGraph e hash sig -> Run e n s = Some o -> ~ outOfGas e o -> mined txs (after o s) s' ->
      mined ((hash, sig) :: txs) s s'
  | mined_outOfGas e hash sig n o txs s s' :
      setsGraph e hash sig -> Run e n s = Some o -> outOfGas e o -> mined txs (after o s) s' -> mined txs s s'.

(** No transaction wrote for another address with the same place. *)
Definition noCollision (txs : list (Hash * bytes)) (a : Address) : Prop :=
  Forall (fun tx => recovered (fst tx) (snd tx) = a \/ slot (recovered (fst tx) (snd tx)) <> slot a) txs.

Lemma GetState_insert s loc v loc' : GetState (<[loc := v]> s) loc' = if decide (loc' = loc) then v else GetState s loc'.
Proof. unfold GetState. case_decide; subst; [by rewrite lookup_insert_eq|]. by rewrite lookup_insert_ne. Qed.

Lemma after_written hash sig s m (a : Address) :
  recovered hash sig = a \/ slot (recovered hash sig) <> slot a ->
  GetState s (slot a) = fromBytes (abytes (graph m a)) ->
  GetState (after (written hash sig s) s) (slot a) = fromBytes (abytes (graph (default m (setGraph hash sig m)) a)).
Proof.
  intros Ha Hs. unfold written. rewrite setGraph_eq. destruct (wellFormed sig); [|done]. cbn [after default from_option].
  fold (recovered hash sig). unfold id. rewrite GetState_insert, graph_insert.
  destruct Ha as [->|Hne]; [by rewrite !decide_True|]. rewrite !decide_False by congruence. done.
Qed.

Lemma mined_represents txs s s' m (a : Address) :
  mined txs s s' -> noCollision txs a -> GetState s (slot a) = fromBytes (abytes (graph m a)) ->
  GetState s' (slot a) = fromBytes (abytes (graph (Contract.execute txs m) a)).
Proof.
  intros Hm. revert m. induction Hm as [s|e hash sig n o txs s s' He Hr Hg Hm IH|e hash sig n o txs s s' He Hr Hg Hm IH]; intros m Hc Hs.
  - done.
  - apply Forall_cons in Hc as [Hc Hcs]. cbn [Contract.execute foldl fst snd] in *. apply IH; [done|].
    destruct (ends_unique _ _ _ _ _ (setGraph_ends e s hash sig He) Hr) as [->|]; [|done]. by apply after_written.
  - apply IH; [done|]. by destruct Hg as [[-> | ->] _].
Qed.
End calls.

Section properties.
Context `{Secp256k1}.

(** The compiled contract does what its source says.  A call of
    [setGraph] without money, packed as the bindings pack it, always ends; if
    gas lasts, it reverts exactly when the Solidity function throws, and
    otherwise it changes one place of the storage, that of the address the
    function writes for, to the hash. *)
Theorem setGraph_code (e : env) (s : storage) (m : graphs) (hash : Hash) (sig : bytes) :
  setsGraph e hash sig ->
  ends e s (fun o =>
    match setGraph hash sig m with
    | None => o = Reverted []
    | Some m' => exists a, m' = <[a := hash]> m /\ o = Stopped [] (<[slot a := fromBytes (abytes hash)]> s)
    end \/ outOfGas e o).
Proof.
  intros He. destruct (setGraph_ends e s hash sig He) as (n & o & Hn & Ho). exists n, o. split; [done|].
  destruct Ho as [->|]; [left|by right]. rewrite setGraph_eq. unfold written. destruct (wellFormed sig); [|done].
  by eexists.
Qed.

(** C12: over any history of transactions that set graphs, from the empty
    storage, some with too little gas, the compiled contract returns for
    every address what the Solidity contract's mapping holds after those that
    had enough: 32 bytes and nothing else changed.  Two addresses whose
    places in storage have the same hash are the only exception. *)
Theorem history_code (txs : list (Hash * bytes)) (s : storage) (a : Address) (e : env) :
  mined txs ∅ s -> noCollision txs a -> calls e "graph" [VAddress a] ->
  ends e s (fun o => o = Stopped (abytes (graph (Contract.execute txs ∅) a)) s \/ outOfGas e o).
Proof.
  intros Hm Hc He. destruct (graph_ends e s a He) as (n & o & Hn & Ho). exists n, o. split; [done|].
  assert (GetState ∅ (slot a) = fromBytes (abytes (graph ∅ a))) as H0.
  { unfold GetState, graph. rewrite !lookup_empty. reflexivity. }
  rewrite (mined_represents txs ∅ s ∅ a Hm Hc H0) in Ho. by rewrite padded_fromBytes in Ho by apply array_length.
Qed.

(** Everything else is refused: a call with money, with less than four
    bytes, or of a method that is neither of the two, reverts and changes
    nothing, unless it runs out of gas before. *)
Theorem code_refuses (e : env) (s : storage) :
  code e = runtimeCode ->
  value e <> 0 \/ (length (input e) < 4)%nat \/ (selector (input e) <> setGraphId /\ selector (input e) <> graphId) ->
  ends e s (fun o => o = Reverted [] \/ outOfGas e o).
Proof. apply refuses_ends. Qed.

(** Deploying: the creation code, sent without money, returns the runtime
    code and stores nothing; with money it reverts. *)
Theorem deploy_code (e : env) (s : storage) :
  code e = deployCode ->
  ends e s (fun o => o = (if value e =? 0 then Stopped runtimeCode s else Reverted []) \/ outOfGas e o).
Proof. apply deploy_ends. Qed.
End properties.

(** ** Witnesses *)

Section witnesses.
Import Toy.

(** A call with gas for everything. *)
Definition plainCall (c inp : bytes) (val : N) : env :=
  {| code := c; input := inp; value := val; metered := fun _ => true; callMetered := fun _ => true; gasLeft := fun _ => 1000000 |}.
Definition packed (name : bytes) (args : list Value_) : bytes :=
  match Pack registryABI name args with Ok b => b | _ => [] end.
Definition setCall : env := plainCall runtimeCode (packed "setGraph" [VFixed (abytes h1); VBytes (sigOf h1)]) 0.
Definition graphCall : env := plainCall runtimeCode (packed "graph" [VAddress owner]) 0.

Lemma setCall_sets : setsGraph setCall h1 (sigOf h1).
Proof. repeat split; vm_compute; exact eq_refl. Qed.

Lemma enough c inp val o : ~ outOfGas (plainCall c inp val) o.
Proof. intros [_ Hn]. by apply Hn. Qed.

Lemma setGraph_code_witness :
  setsGraph setCall h1 (sigOf h1) /\
  ends setCall ∅ (fun o =>
    match setGraph h1 (sigOf h1) ∅ with
    | None => o = Reverted []
    | Some m' => exists a, m' = <[a := h1]> ∅ /\ o = Stopped [] (<[slot a := fromBytes (abytes h1)]> ∅)
    end \/ outOfGas setCall o).
Proof. split; [exact setCall_sets|]. apply (setGraph_code setCall ∅ ∅ h1 (sigOf h1)), setCall_sets. Defined.

(** The owner sets a graph, and it is read. *)
Lemma history_code_witness :
  exists s, mined [(h1, sigOf h1)] ∅ s /\ noCollision [(h1, sigOf h1)] owner /\ calls graphCall "graph" [VAddress owner] /\
    graph (Contract.execute [(h1, sigOf h1)] ∅) owner = h1 /\
    ends graphCall s (fun o => o = Stopped (abytes (graph (Contract.execute [(h1, sigOf h1)] ∅) owner)) s \/ outOfGas graphCall o).
Proof.
  eexists. assert (mined [(h1, sigOf h1)] ∅ (<[slot owner := fromBytes (abytes h1)]> ∅)) as Hm.
  { refine (mined_done setCall h1 (sigOf h1) 400 (Stopped [] _) [] ∅ _ setCall_sets _ (enough _ _ _ _) (mined_nil _)).
    vm_compute. exact eq_refl. }
  assert (noCollision [(h1, sigOf h1)] owner) as Hc.
  { constructor; [left|constructor]. apply (bool_decide_eq_true_1 (recovered h1 (sigOf h1) = owner)). vm_compute. exact eq_refl. }
  assert (calls graphCall "graph" [VAddress owner]) as He by (repeat split; vm_compute; exact eq_refl).
  split; [exact Hm|]. split; [exact Hc|]. split; [exact He|].
  split; [apply (bool_decide_eq_true_1 (graph (Contract.execute [(h1, sigOf h1)] ∅) owner = h1)); vm_compute; exact eq_refl|].
  exact (history_code [(h1, sigOf h1)] _ owner graphCall Hm Hc He).
Defined.

Lemma code_refuses_witness :
  ends (plainCall runtimeCode "abc" 5) ∅ (fun o => o = Reverted [] \/ outOfGas (plainCall runtimeCode "abc" 5) o).
Proof. apply (code_refuses (plainCall runtimeCode "abc" 5) ∅ eq_refl). left. discriminate. Defined.

Lemma deploy_code_witness :
  ends (plainCall deployCode [] 0) ∅
    (fun o => o = (if value (plainCall deployCode [] 0) =? 0 then Stopped runtimeCode ∅ else Reverted []) \/
              outOfGas (plainCall deployCode [] 0) o).
Proof. exact (deploy_code (plainCall deployCode [] 0) ∅ eq_refl). Defined.
End witnesses.
