(* ===== verification/Registry.v ===== *)
(** * Registries

    Package [registry] and the implementations of its interface: the client
    of the Ethereum contract with its wait for a receipt, the deployment of
    the contract, the lazily connected registry of the node ([kord/meta.go])
    and the in-memory registry of [testutil].  The interface is a class, with
    the laws its users rely on as a second class. *)
From S2P Require Import Prelude Keccak Common Crypto Contract.

(** ** The interface *)

(** A Go channel, by identity. *)
Abbreviation chan := nat.

(** A subscription is identified by the address it watches and its channel;
    [None] is the nil interface value. *)
Abbreviation Subscription := (option (Address * chan)).

Class Registry (R : Type) := {
  Graph : Address -> prog R Hash;
  SetGraph : Hash -> bytes -> prog R unit;
  SubscribeGraph : Address -> chan -> prog R Subscription;
}.

(** What a registry promises: there is a view, the hash of every identity,
    that [Graph] reports and never changes; subscribing does not change it
    either; and a [SetGraph] that succeeds changes one entry, to the hash it
    was given, for the identity the signature writes for.  One that fails has
    changed nothing, or that one entry (its transaction may have been mined
    all the same). *)
Class RegistryLaws (R : Type) `{Secp256k1} `{!Registry R} := {
  view : R -> Address -> Hash;
  Graph_view : forall a r res r', Graph a r = (res, r') ->
    (forall b, view r' b = view r b) /\ (forall h, res = Ok h -> h = view r a);
  SubscribeGraph_view : forall a c r res r', SubscribeGraph a c r = (res, r') ->
    forall b, view r' b = view r b;
  SetGraph_view : forall hash sig r r', SetGraph hash sig r = (Ok tt, r') ->
    exists a, writesFor hash sig a /\
      forall b, view r' b = if decide (b = a) then hash else view r b;
  SetGraph_any : forall hash sig r res r', SetGraph hash sig r = (res, r') ->
    (forall b, view r' b = view r b) \/
    exists a, writesFor hash sig a /\
      forall b, view r' b = if decide (b = a) then hash else view r b;
}.

(** ** registry.go: the developer's key and contract *)

(** An error is a panic, when the package is initialised. *)
Definition mustKey (hex : bytes) : result (array 32) :=
  match HexToECDSA hex with Ok key => Ok key | Err _ => Panic "mustKey" | Panic p => Panic p end.
Definition devKeyHex : bytes := "476e921a198fd2744f270da0bb80dce2dab24e9105473d9bb19e540fcbd04bb0".
Definition DevKey : array 32 := match mustKey devKeyHex with Ok key => key | _ => zero_array 32 end.
Definition DevAddr `{Secp256k1} : Address := addressOf DevKey.
Definition DevContractAddr : Address := HexToAddress "0x241be96854Fc2f0172dAA660EE7A14410957C15d".

Lemma DevKey_ok : mustKey devKeyHex = Ok DevKey.
Proof. vm_compute. reflexivity. Qed.

(** ** registry.go: the client of the contract *)
Module Client.
(** A receipt, as far as the client reads it. *)
Record Receipt := { Status : bool; ContractAddress : Address }.

Definition NotFound : error := EVar "ethereum.NotFound".
Definition blockTimeout : nat := 50.

(** What the [select] of [do] receives: a new head, with the answer the
    node gives to [TransactionReceipt] at that moment; the feed
    subscription's error (nil when its channel is closed); or the closing of
    the client. *)
Inductive event :=
  | Head (receipt : result Receipt)
  | SubErr (err : option error)
  | Closed.

Definition timeoutErr : error :=
  EMsg "failed to get transaction receipt after 50 blocks".

(** The loop, over the events in the order they are received; [None] is a
    loop still waiting when there are no more of them.  The receipt is a
    pointer, nil when the subscription ends without an error. *)
Fixpoint doLoop (count : nat) (evs : list event) : option (result (option Receipt)) :=
  match evs with
  | [] => None
  | Head receipt :: evs =>
      let count := S count in
      if (blockTimeout <? count)%nat then Some (Err timeoutErr)
      else match receipt with
           | Ok r => if negb (Status r) then Some (Err (EMsg "transaction failed"))
                     else Some (Ok (Some r))
           | Err e => if decide (e = NotFound) then doLoop count evs else Some (Err e)
           | Panic p => Some (Panic p)
           end
  | SubErr (Some e) :: _ => Some (Err e)
  | SubErr None :: _ => Some (Ok None)
  | Closed :: _ => Some (Err (EMsg "client closed"))
  end.

(** [do]: [f] submits the transaction. *)
Definition do (f : result unit) (evs : list event) : option (result (option Receipt)) :=
  match f with
  | Ok _ => doLoop 0 evs
  | Err e => Some (Err e)
  | Panic p => Some (Panic p)
  end.

(** What reaches the goroutine of [subscribeBlocks]: a new head, again with the
    answer to [TransactionReceipt] at that moment; the failure of the
    subscription, on a channel that nobody receives from; the closing of the
    channel of heads, and of the client. *)
Inductive chainEvent :=
  | NewHead (receipt : result Receipt)
  | SubscriptionFailed (err : error)
  | HeadsClosed
  | CloseClient.

(** The events of a call of [do], relayed by that goroutine while it is [on]. *)
Fixpoint subscribeBlocks (on : bool) (evs : list chainEvent) : list event :=
  match evs with
  | [] => []
  | NewHead r :: evs => if on then Head r :: subscribeBlocks on evs else subscribeBlocks on evs
  | SubscriptionFailed _ :: evs => subscribeBlocks on evs
  | HeadsClosed :: evs => subscribeBlocks false evs
  | CloseClient :: evs => Closed :: subscribeBlocks false evs
  end.

(** [setGraph]: the receipt is not looked at. *)
Definition setGraph (submit : result unit) (evs : list event) : option (result unit) :=
  match do submit evs with
  | Some r => Some (_ ← r; Ok tt)
  | None => None
  end.

(** [deployRegistry]: [code] is the answer to [CodeAt], whose error is taken
    for the absence of code. *)
Definition deployRegistry (code : result bytes) (addr : Address)
    (submit : result unit) (evs : list event) : option (result Address) :=
  if match code with Ok data => negb (bool_decide (data = [])) | _ => false end
  then Some (Ok addr)
  else match do submit evs with
       | Some (Ok (Some receipt)) => Some (Ok (ContractAddress receipt))
       | Some (Ok None) => Some (Panic "nil pointer dereference")
       | Some (Err e) => Some (Err e)
       | Some (Panic p) => Some (Panic p)
       | None => None
       end.

(** [Deploy]: dialling, then the client, then the deployment. *)
Definition Deploy (dial newClient : result unit) (code : result bytes) (addr : Address)
    (submit : result unit) (evs : list event) : option (result Address) :=
  match (_ ← dial; newClient) with
  | Ok _ => deployRegistry code addr submit evs
  | Err e => Some (Err e)
  | Panic p => Some (Panic p)
  end.

Definition isHead (e : event) : bool := match e with Head _ => true | _ => false end.
Definition pending (e : event) : Prop := e = Head (Err NotFound).

(** ** The loop *)

Lemma doLoop_pending n evs rest :
  Forall pending evs -> n + length evs <= blockTimeout ->
  doLoop n (evs ++ rest) = doLoop (n + length evs) rest.
Proof.
  intros H. revert n. induction H as [|e evs -> _ IH]; intros n Hn; cbn [doLoop app length] in *.
  - by rewrite Nat.add_0_r.
  - destruct (Nat.ltb_spec blockTimeout (S n)) as [?|_]; [lia|].
    rewrite decide_True by done. rewrite IH by lia. f_equal. lia.
Qed.

(** Every answer of the loop: the pending heads before it, and the event
    that ended it. *)
Lemma doLoop_inv n evs r :
  doLoop n evs = Some r ->
  exists pre e post, evs = pre ++ e :: post /\ Forall pending pre /\ n + length pre <= blockTimeout `max` n /\
    (forall n', n' = n + length pre -> doLoop n' [e] = Some r).
Proof.
  revert n. induction evs as [|e evs IH]; intros n Hr; [done|].
  assert (doLoop n [e] = Some r \/ (e = Head (Err NotFound) /\ S n <= blockTimeout /\ doLoop (S n) evs = Some r))
    as [He|(-> & Hn & Hrec)].
  { cbn [doLoop] in *. destruct e as [[rc|err|p]|[e|]|]; auto.
    all: destruct (Nat.ltb_spec blockTimeout (S n)) as [?|?]; auto; case_decide; subst; auto. }
  - exists [], e, evs. split_and!; [done|constructor|simpl; lia|]. intros n' ->. cbn [length].
    by rewrite Nat.add_0_r.
  - destruct (IH _ Hrec) as (pre & e & post & -> & Hp & Hl & He).
    exists (Head (Err NotFound) :: pre), e, post.
    split_and!; [done|by constructor|simpl; lia|]. intros n' ->. apply He. simpl. lia.
Qed.

Lemma doLoop_success n evs r :
  n <= blockTimeout ->
  doLoop n evs = Some (Ok (Some r)) <->
  exists pre post, evs = pre ++ Head (Ok r) :: post /\ Forall pending pre /\
    n + length pre < blockTimeout /\ Status r = true.
Proof.
  intros Hn. split.
  - intros (pre & e & post & -> & Hp & Hl & He)%doLoop_inv. exists pre, post.
    specialize (He _ eq_refl). cbn [doLoop] in He.
    destruct e as [[rc|err|p]|[e|]|]; try done.
    + destruct (Nat.ltb_spec blockTimeout (S (n + length pre))); [done|].
      destruct (Status rc) eqn:Hs; [|done]. injection He as <-. split_and!; [done..|lia|done].
    + destruct (_ <? _); [done|]. by case_decide.
    + by destruct (_ <? _).
  - intros (pre & post & -> & Hp & Hl & Hs). rewrite doLoop_pending by (done || lia). cbn [doLoop].
    destruct (Nat.ltb_spec blockTimeout (S (n + length pre))); [lia|]. by rewrite Hs.
Qed.

Lemma doLoop_total n evs :
  n <= blockTimeout -> blockTimeout < n + length (filter (fun e => isHead e = true) evs) ->
  is_Some (doLoop n evs).
Proof.
  revert n. induction evs as [|e evs IH]; intros n Hn Hl; cbn [doLoop] in *; [simpl in Hl; lia|].
  destruct e as [[rc|err|p]|[e|]|]; try by eexists.
  - destruct (_ <? _); [by eexists|]. by destruct (negb _); eexists.
  - destruct (Nat.ltb_spec blockTimeout (S n)); [by eexists|].
    case_decide; [|by eexists]. apply IH; [lia|].
    rewrite filter_cons_True in Hl by done. simpl in Hl. lia.
  - destruct (_ <? _); by eexists.
Qed.

Lemma do_success evs r :
  do (Ok tt) evs = Some (Ok (Some r)) <->
  exists pre post, evs = pre ++ Head (Ok r) :: post /\ Forall pending pre /\
    length pre < 50 /\ Status r = true.
Proof. apply (doLoop_success 0). unfold blockTimeout. lia. Qed.
End Client.

(** ** The registry of the node, when its transactions are mined promptly

    The client on a chain whose next block carries the client's transaction:
    [Graph] reads the contract, and the head the loop receives comes with the
    receipt of the execution of [setGraph].  Updates are never delivered:
    [SubscribeGraph] is the [TODO] that returns a nil subscription. *)
Module Prompt.
Section prompt.
Context `{Secp256k1}.

Definition receiptOf (after : option graphs) : Client.Receipt :=
  {| Client.Status := match after with Some _ => true | None => false end;
     Client.ContractAddress := zeroAddress |}.

Definition SetGraph (hash : Hash) (sig : bytes) : prog graphs unit := fun m =>
  let after := setGraph hash sig m in
  (default (Panic "blocked") (Client.setGraph (Ok tt) [Client.Head (Ok (receiptOf after))]),
   default m after).

#[global] Instance registry : Registry graphs := {
  Graph a := fun m => (Ok (graph m a), m);
  Registry.SetGraph := SetGraph;
  SubscribeGraph _ _ := mret None;
}.

#[global] Program Instance registry_laws : RegistryLaws graphs := {
  view := graph;
}.
Next Obligation. intros a m res m' [= <- <-]. split; [done|]. by intros h [= ->]. Qed.
Next Obligation. by intros a c m res m' [= <- <-]. Qed.
Next Obligation.
  intros hash sig m m'. unfold Registry.SetGraph; simpl. unfold SetGraph.
  destruct (setGraph hash sig m) as [m1|] eqn:Hg; [|by intros [=]]. intros [= <-].
  by apply setGraph_authenticated_inv.
Qed.
Next Obligation.
  intros hash sig m res m'. unfold Registry.SetGraph; simpl. unfold SetGraph.
  destruct (setGraph hash sig m) as [m1|] eqn:Hg; intros [= _ <-]; [right|by left].
  by apply setGraph_authenticated_inv.
Qed.
End prompt.
End Prompt.

(** ** kord/meta.go: the lazily connected registry *)
Module Lazy.
Section lazy.
Context {R E : Type} `{Secp256k1} `{!Registry R}.

(** [stack.Attach] and [registry.NewClient] on the environment. *)
Context (connect : prog E R).

Record state := { inner : option R; env : E }.

(** [registry()]: connect on first use, and keep the connection. *)
Definition registry : prog state unit := fun s =>
  match inner s with
  | Some _ => (Ok tt, s)
  | None =>
      match connect (env s) with
      | (Ok r, e) => (Ok tt, {| inner := Some r; env := e |})
      | (Err err, e) => (Err err, {| inner := None; env := e |})
      | (Panic p, e) => (Panic p, {| inner := None; env := e |})
      end
  end.

(** A call on the connected registry. *)
Definition call {A} (m : prog R A) : prog state A := fun s =>
  match inner s with
  | Some r => let (x, r) := m r in (x, {| inner := Some r; env := env s |})
  | None => (Panic "nil pointer dereference", s)
  end.

Definition Graph (kordID : Address) : prog state Hash := _ ← registry; call (Registry.Graph kordID).
Definition SetGraph (graph : Hash) (sig : bytes) : prog state unit :=
  _ ← registry; call (Registry.SetGraph graph sig).
Definition SubscribeGraph (kordID : Address) (updates : chan) : prog state Subscription :=
  _ ← registry; call (Registry.SubscribeGraph kordID updates).

#[global] Instance lazyRegistry : Registry state := {
  Registry.Graph := Graph; Registry.SetGraph := SetGraph;
  Registry.SubscribeGraph := SubscribeGraph;
}.

(** Every method is a call once [registry] has run. *)
Lemma call_inv {A} (m : prog R A) s res s' :
  (_ ← registry; call m) s = (res, s') ->
  (exists r r', inner s' = Some r' /\ m r = (res, r') /\
     ((inner s = Some r /\ env s' = env s) \/
      (inner s = None /\ connect (env s) = (Ok r, env s')))) \/
  (inner s = None /\ inner s' = None /\ (forall a, res <> Ok a) /\
   exists err, connect (env s) = (err, env s') /\ forall r, err <> Ok r).
Proof.
  destruct s as [[r|] e]; unfold mbind, prog_bind, registry, call; simpl.
  - destruct (m r) as [x r'] eqn:Hm. intros [= <- <-]. left. exists r, r'. simpl. auto 6.
  - destruct (connect e) as [[r|err|p] e'] eqn:Hc; cbn.
    + destruct (m r) as [x r'] eqn:Hm. intros [= <- <-]. left. exists r, r'. simpl. auto 6.
    + intros [= <- <-]. right. naive_solver.
    + intros [= <- <-]. right. naive_solver.
Qed.

(** ** The laws, when connecting shows the view the environment has *)
Context `{!RegistryLaws R} (envView : E -> Address -> Hash).
Context (connect_view : forall e res e', connect e = (res, e') ->
  (forall b, envView e' b = envView e b) /\
  (forall r, res = Ok r -> forall b, view r b = envView e b)).

Definition lazyView (s : state) : Address -> Hash :=
  match inner s with Some r => view r | None => envView (env s) end.

(** A call either reached the registry, from a state with the same view, or
    failed to connect and changed nothing. *)
Lemma call_view {A} (m : prog R A) s res s' :
  (_ ← registry; call m) s = (res, s') ->
  (exists r r', m r = (res, r') /\ (forall b, view r b = lazyView s b) /\
     (forall b, lazyView s' b = view r' b)) \/
  ((forall b, lazyView s' b = lazyView s b) /\ forall a, res <> Ok a).
Proof.
  intros [(r & r' & Hs' & Hm & Hr) | (Hs & Hs' & He & err & Hc & _)]%call_inv.
  - left. exists r, r'. unfold lazyView. rewrite Hs'. split; [done|]. split; [|done].
    destruct Hr as [[-> _] | [-> Hc]]; [done|]. by apply (connect_view _ _ _ Hc).
  - right. unfold lazyView. rewrite Hs, Hs'. split; [|done]. apply (connect_view _ _ _ Hc).
Qed.

#[local] Program Instance lazyRegistry_laws : RegistryLaws state := { view := lazyView }.
Next Obligation.
  intros a s res s' [(r & r' & Hm & Hv & Hv') | [Hv He]]%call_view.
  - destruct (Graph_view _ _ _ _ Hm) as [Hb Hg]. split.
    + intros b. by rewrite Hv', Hb.
    + intros h Hh. by rewrite (Hg h Hh).
  - split; [done|]. intros h Hh. by destruct (He h).
Qed.
Next Obligation.
  intros a c s res s' [(r & r' & Hm & Hv & Hv') | [Hv He]]%call_view b; [|done].
  by rewrite Hv', (SubscribeGraph_view _ _ _ _ _ Hm).
Qed.
Next Obligation.
  intros hash sig s s' [(r & r' & Hm & Hv & Hv') | [Hv He]]%call_view; [|by destruct (He tt)].
  destruct (SetGraph_view _ _ _ _ Hm) as (a & Ha & Hb). exists a. split; [done|].
  intros b. by rewrite Hv', Hb, Hv.
Qed.
Next Obligation.
  intros hash sig s res s' [(r & r' & Hm & Hv & Hv') | [Hv He]]%call_view; [|by left].
  destruct (SetGraph_any _ _ _ _ _ Hm) as [Hb | (a & Ha & Hb)].
  - left. intros b. by rewrite Hv', Hb, Hv.
  - right. exists a. split; [done|]. intros b. by rewrite Hv', Hb, Hv.
Qed.
End lazy.
End Lazy.

(** ** testutil: the registry in memory *)
Module Test.
(** [sent] records the sends on the subscribers' channels, in order. *)
Record registry := {
  hashes : graphs; subs : gmap Address (gset chan); sent : list (chan * Hash);
}.

Definition NewTestRegistry : registry := {| hashes := ∅; subs := ∅; sent := [] |}.

Section test.
Context `{Secp256k1}.

Definition Graph (kordID : Address) : prog registry Hash := fun r =>
  (Ok (graph (hashes r) kordID), r).

(** [SigToPub] is [Ecrecover] with the key parsed. *)
Definition SetGraph (hash : Hash) (sig : bytes) : prog registry unit := fun r =>
  match signer hash sig with
  | Ok kordID =>
      (Ok tt, {| hashes := <[kordID := hash]> (hashes r); subs := subs r;
                 sent := sent r ++ ((fun sub => (sub, hash)) <$>
                           elements (default ∅ (subs r !! kordID))) |})
  | Err e => (Err e, r)
  | Panic p => (Panic p, r)
  end.

Definition SubscribeGraph (kordID : Address) (updates : chan) : prog registry Subscription := fun r =>
  (Ok (Some (kordID, updates)),
   {| hashes := hashes r; sent := sent r;
      subs := <[kordID := {[updates]} ∪ default ∅ (subs r !! kordID)]> (subs r) |}).

(** [RegistrySubscription.Close]. *)
Definition Close (sub : Address * chan) : prog registry unit := fun r =>
  (Ok tt, {| hashes := hashes r; sent := sent r;
             subs := alter (fun s => s ∖ {[snd sub]}) (fst sub) (subs r) |}).

#[global] Instance testRegistry : Registry registry := {
  Registry.Graph := Graph; Registry.SetGraph := SetGraph;
  Registry.SubscribeGraph := SubscribeGraph;
}.

Lemma signer_authorised hash sig a : signer hash sig = Ok a -> authorised hash sig a.
Proof.
  intros Hs. unfold authorised. rewrite canonicalSig_low; [done| |]; revert Hs;
    unfold signer, Ecrecover, RecoverPubkey, checkSignature;
    destruct (array_of (n:=32) hash); try done;
    destruct (array_of (n:=65) sig) as [s|] eqn:Hl; try done; cbn [mbind result_bind].
  - intros _. apply array_of_length in Hl. rewrite <- Hl. apply array_length.
  - destruct (N.leb_spec 4 (b2N (nth 64 sig (N2b 0)))); [done|]. intros _. done.
Qed.

#[global] Program Instance testRegistry_laws : RegistryLaws registry := {
  view := fun r => graph (hashes r);
}.
Next Obligation. intros a r res r' [= <- <-]. split; [done|]. by intros h [= ->]. Qed.
Next Obligation. by intros a c r res r' [= <- <-]. Qed.
Next Obligation.
  intros hash sig r r'. unfold Registry.SetGraph; simpl. unfold SetGraph.
  destruct (signer hash sig) as [a|e|p] eqn:Hs; [|done..]. intros [= <-].
  exists a. split; [left; by apply signer_authorised|]. intros b. apply graph_insert.
Qed.
Next Obligation.
  intros hash sig r res r'. unfold Registry.SetGraph; simpl. unfold SetGraph.
  destruct (signer hash sig) as [a|e|p] eqn:Hs; intros [= _ <-]; [right|by left..].
  exists a. split; [left; by apply signer_authorised|]. intros b. apply graph_insert.
Qed.
End test.
End Test.

(** ** The properties of the registries *)

(** C40: waiting for a receipt ends: once the 51st head has arrived [do] has
    returned; and it returns a receipt exactly when one with a successful
    status is reported at one of the first 50 heads, every head before it
    having found none. *)
Theorem do_waits_50_blocks (evs : list Client.event) :
  (50 < length (filter (fun e => Client.isHead e = true) evs) -> is_Some (Client.do (Ok tt) evs)) /\
  (forall r, Client.do (Ok tt) evs = Some (Ok (Some r)) <->
    exists pre post, evs = pre ++ Client.Head (Ok r) :: post /\ Forall Client.pending pre /\
      length pre < 50 /\ Client.Status r = true).
Proof.
  split.
  - intros Hl. apply Client.doLoop_total; unfold Client.blockTimeout; lia.
  - intros r. apply Client.do_success.
Qed.

(** A lost subscription is not noticed: once the subscription to new heads
    has failed, which delivers no more of them, a call that waits for its
    receipt never returns, neither with the receipt nor with the timeout of 50
    blocks, until somebody closes the client; and nothing else ends it. *)
Theorem lost_heads_hang (pre post : list Client.chainEvent) (err : error) :
  Forall (fun e => e = Client.NewHead (Err Client.NotFound)) pre -> length pre <= 50 ->
  Forall (fun e => match e with Client.NewHead _ | Client.CloseClient => False | _ => True end) post ->
  let evs := pre ++ Client.SubscriptionFailed err :: post in
  Client.do (Ok tt) (Client.subscribeBlocks true evs) = None /\
  Client.do (Ok tt) (Client.subscribeBlocks true (evs ++ [Client.CloseClient])) = Some (Err (EMsg "client closed")).
Proof.
  intros Hpre Hlen Hpost evs.
  assert (forall on tl, Client.subscribeBlocks on (post ++ tl) = Client.subscribeBlocks on tl \/
                        Client.subscribeBlocks on (post ++ tl) = Client.subscribeBlocks false tl) as Hquiet.
  { induction Hpost as [|e post He _ IH]; intros on tl; [by left|].
    destruct e; try done; cbn [app Client.subscribeBlocks]; [apply IH|]. right. by destruct (IH false tl). }
  assert (forall tl, Client.subscribeBlocks true (pre ++ tl) =
                     replicate (length pre) (Client.Head (Err Client.NotFound)) ++ Client.subscribeBlocks true tl) as Hheads.
  { clear Hlen. induction Hpre as [|e pre -> _ IH]; intros tl; [done|]. cbn. by rewrite IH. }
  assert (Forall Client.pending (replicate (length pre) (Client.Head (Err Client.NotFound)))) as Hp
    by (by apply Forall_replicate).
  unfold evs. rewrite <- app_assoc, !Hheads. cbn [app Client.subscribeBlocks]. split.
  - rewrite <- (app_nil_r post). destruct (Hquiet true []) as [-> | ->]; cbn [Client.subscribeBlocks];
      unfold Client.do; rewrite Client.doLoop_pending by (done || (rewrite length_replicate; unfold Client.blockTimeout; lia)); done.
  - destruct (Hquiet true [Client.CloseClient]) as [-> | ->]; cbn [Client.subscribeBlocks];
      unfold Client.do; rewrite Client.doLoop_pending by (done || (rewrite length_replicate; unfold Client.blockTimeout; lia)); done.
Qed.

(** Deploying is idempotent and complete: [deployRegistry] returns an
    address exactly when the configured address already has code (and it is
    that address, with no transaction sent), or there is none and the
    deployment's receipt arrives in time (and it is the receipt's address). *)
Theorem deployRegistry_spec (code : result bytes) (addr a : Address) (evs : list Client.event) :
  Client.deployRegistry code addr (Ok tt) evs = Some (Ok a) <->
  (exists data, code = Ok data /\ data <> [] /\ a = addr) \/
  ((forall data, code = Ok data -> data = []) /\
   exists pre r post, evs = pre ++ Client.Head (Ok r) :: post /\ Forall Client.pending pre /\
     length pre < 50 /\ Client.Status r = true /\ a = Client.ContractAddress r).
Proof.
  unfold Client.deployRegistry.
  destruct (match code with Ok data => negb (bool_decide (data = [])) | _ => false end) eqn:E.
  - destruct code as [data|e|p]; try done. rewrite negb_true_iff, bool_decide_eq_false in E.
    split; [intros [= <-]; left; eauto|]. intros [(d & [= <-] & _ & ->)|(Hd & _)]; [done|].
    by destruct E; apply Hd.
  - assert (forall data, code = Ok data -> data = []) as Hd.
    { intros d ->. by rewrite negb_false_iff, bool_decide_eq_true in E. }
    split.
    + intros Ha. destruct (Client.do (Ok tt) evs) as [[[r|]|e|p]|] eqn:Hr; try done.
      injection Ha as <-. apply Client.do_success in Hr as (pre & post & -> & ?). right. split; [done|].
      exists pre, r, post. naive_solver.
    + intros [(d & -> & Hn & _)|(_ & pre & r & post & Heq & Hp & Hl & Hs & ->)];
        [by destruct Hn; apply Hd|].
      by rewrite (proj2 (Client.do_success evs r)) by eauto 6.
Qed.

(** The test registry, on every branch of [SetGraph]: a signature that
    does not recover is an error that changes nothing; otherwise the signer's
    entry, and no other, becomes the hash, and the hash is sent once to each
    channel subscribed to the signer, and to no other channel. *)
Theorem test_SetGraph_spec `{Secp256k1} (hash : Hash) (sig : bytes) (r : Test.registry) :
  match Test.SetGraph hash sig r with
  | (Ok _, r') =>
      exists a new, signer hash sig = Ok a /\
        (forall b, graph (Test.hashes r') b = if decide (b = a) then hash else graph (Test.hashes r) b) /\
        Test.sent r' = Test.sent r ++ new /\ NoDup new /\ Test.subs r' = Test.subs r /\
        (forall c h, (c, h) ∈ new <-> h = hash /\ exists S, Test.subs r !! a = Some S /\ c ∈ S)
  | (_, r') => r' = r /\ forall a, signer hash sig <> Ok a
  end.
Proof.
  unfold Test.SetGraph. destruct (signer hash sig) as [a|e|p] eqn:Hs; [|done..].
  eexists a, _. split_and!; [done|intros b; apply graph_insert|reflexivity| |done|].
  - apply (NoDup_fmap_2 (fun sub => (sub, hash))), NoDup_elements.
  - intros c h. rewrite list_elem_of_fmap. setoid_rewrite elem_of_elements. split.
    + intros (c' & [= -> ->] & Hc). split; [done|]. destruct (Test.subs r !! a) as [S|]; [|done].
      by exists S.
    + intros [-> (S & -> & Hc)]. by exists c.
Qed.

(** The node connects to Ethereum at most once: after one successful
    call of any kind there is a connection, and from then on no sequence of
    calls, whatever their outcomes, dials again. *)
Theorem lazy_connects_once {R E} `{!Registry R} (connect : prog E R)
    (calls : list (Address + (Hash * bytes) + (Address * chan))) (s : Lazy.state (R:=R) (E:=E)) :
  let run c := match c with
    | inl (inl a) => fun s => snd (Lazy.Graph connect a s)
    | inl (inr (h, sig)) => fun s => snd (Lazy.SetGraph connect h sig s)
    | inr (a, c) => fun s => snd (Lazy.SubscribeGraph connect a c s)
    end in
  (is_Some (Lazy.inner s) ->
    is_Some (Lazy.inner (foldl (flip run) s calls)) /\ Lazy.env (foldl (flip run) s calls) = Lazy.env s) /\
  (forall a h s', Lazy.Graph connect a s = (Ok h, s') -> is_Some (Lazy.inner s')).
Proof.
  intros run. split.
  - revert s. induction calls as [|c calls IH]; intros s Hs; [done|]. cbn [foldl].
    assert (forall A (m : prog R A) res s', (_ ← Lazy.registry connect; Lazy.call m) s = (res, s') ->
      is_Some (Lazy.inner s') /\ Lazy.env s' = Lazy.env s) as Hcall.
    { intros A m res s' [(r & r' & -> & _ & [[_ ?]|[Hn _]])|(Hn & _)]%Lazy.call_inv;
        [by eauto|rewrite Hn in Hs; by destruct Hs..]. }
    assert (is_Some (Lazy.inner (run c s)) /\ Lazy.env (run c s) = Lazy.env s) as [H1 H2].
    { destruct c as [[a|[h sig]]|[a ch]]; simpl; eapply Hcall, surjective_pairing. }
    destruct (IH _ H1) as [? H3]. split; [done|]. etrans; [exact H3|exact H2].
  - intros a h s' [(r & r' & -> & _)|(_ & _ & He & _)]%Lazy.call_inv; [done|]. by destruct (He h).
Qed.

(** ** Witnesses *)

Definition okReceipt : Client.Receipt := {| Client.Status := true; Client.ContractAddress := zeroAddress |}.

Lemma do_waits_50_blocks_witness :
  is_Some (Client.do (Ok tt) (replicate 51 (Client.Head (Err Client.NotFound)))) /\
  Client.do (Ok tt) (replicate 49 (Client.Head (Err Client.NotFound)) ++ [Client.Head (Ok okReceipt)])
    = Some (Ok (Some okReceipt)).
Proof.
  split.
  - apply (proj1 (do_waits_50_blocks (replicate 51 (Client.Head (Err Client.NotFound))))).
    apply Nat.ltb_lt. vm_compute. reflexivity.
  - apply (proj2 (do_waits_50_blocks _) okReceipt).
    exists (replicate 49 (Client.Head (Err Client.NotFound))), [].
    split; [reflexivity|]. split; [by apply Forall_replicate|]. split; [|reflexivity].
    apply Nat.ltb_lt. vm_compute. reflexivity.
Defined.

Lemma lost_heads_hang_witness :
  Client.do (Ok tt) (Client.subscribeBlocks true
    ([Client.NewHead (Err Client.NotFound)] ++ [Client.SubscriptionFailed (EMsg "connection lost")])) = None.
Proof.
  apply (lost_heads_hang [Client.NewHead (Err Client.NotFound)] [] (EMsg "connection lost")).
  - by repeat constructor.
  - apply Nat.leb_le. vm_compute. reflexivity.
  - constructor.
Defined.

Section lazy_witness.
Import Toy.

(** A node that counts its connections, and connects to an empty contract. *)
Definition dial : prog nat graphs := fun n => (Ok ∅, S n).

Lemma lazy_connects_once_witness :
  let s := {| Lazy.inner := Some (∅ : graphs); Lazy.env := 1 |} in
  let s' := snd (Lazy.Graph dial owner s) in
  is_Some (Lazy.inner s') /\ Lazy.env s' = 1.
Proof.
  apply (proj1 (lazy_connects_once dial [inl (inl owner)]
                  {| Lazy.inner := Some (∅ : graphs); Lazy.env := 1 |})).
  by eexists.
Defined.
End lazy_witness.
