(* ===== verification/Bindings.v ===== *)
(** * The contract's bindings

    The generated bindings of [registry/contract/registry.go] with the parts
    of the vendored [accounts/abi/bind] they are made of, the client of
    [registry/registry.go] that is built on them, and a node for them to talk
    to: the backend's methods are an interface, and [Chain] implements it with
    the virtual machine of [Evm].  The client is proved, against that node and
    the compiled contract, to do what [Contract] says. *)
From S2P Require Import Prelude Keccak Common Crypto Sha1 Contract Evm EvmRules Abi Compiled Registry.

(** ** accounts/abi/bind *)

(** [ethereum.CallMsg], and a transaction: [types.Transaction]. *)
Record CallMsg := { CallFrom : Address; CallTo : option Address; CallValue : N; CallData : bytes }.
Record Transaction := {
  TxNonce : N; TxTo : option Address; TxValue : N; TxGas : N; TxGasPrice : N; TxData : bytes; TxSignature : bytes;
}.
#[global] Instance transaction_eq_dec : EqDecision Transaction.
Proof. solve_decision. Defined.

Definition WithSignature (tx : Transaction) (sig : bytes) : Transaction :=
  {| TxNonce := TxNonce tx; TxTo := TxTo tx; TxValue := TxValue tx; TxGas := TxGas tx;
     TxGasPrice := TxGasPrice tx; TxData := TxData tx; TxSignature := sig |}.

(** [ContractCaller], [PendingContractCaller] and [ContractTransactor]. *)
Class ContractBackend (B : Type) := {
  CodeAt : Address -> prog B bytes;
  CallContract : CallMsg -> prog B bytes;
  PendingCodeAt : Address -> prog B bytes;
  PendingCallContract : CallMsg -> prog B bytes;
  PendingNonceAt : Address -> prog B N;
  SuggestGasPrice : prog B N;
  EstimateGas : CallMsg -> prog B N;
  SendTransaction : Transaction -> prog B unit;
}.

Definition ErrNoCode : error := EVar "bind.ErrNoCode".

(** [SignerFn], the options, and a bound contract; a nil backend is [false]. *)
Definition SignerFn : Type := Address -> Transaction -> result Transaction.
Record CallOpts := { Pending : bool; From_ : Address }.
Record TransactOpts := {
  From : Address; Nonce : option N; Signer : option SignerFn;
  Value : option N; GasPrice : option N; GasLimit : N;
}.
Record BoundContract := { address : Address; abi : ABI; caller : bool; transactor : bool; filterer : bool }.
Definition NewBoundContract (address : Address) (abi : ABI) (caller transactor filterer : bool) : BoundContract :=
  {| address := address; abi := abi; caller := caller; transactor := transactor; filterer := filterer |}.

(** [CreateAddress], with the list of the address and the nonce encoded: a
    list is at most 30 bytes. *)
Fixpoint minimalBytes (fuel : nat) (n : N) : bytes :=
  match fuel with
  | O => []
  | S fuel => if (n =? 0)%N then [] else minimalBytes fuel (n / 256)%N ++ [N2b (n mod 256)]
  end.
Definition rlpUint (n : N) : bytes :=
  if (n =? 0)%N then [N2b 128] else if (n <? 128)%N then [N2b n]
  else let b := minimalBytes 8 n in N2b (128 + N.of_nat (length b)) :: b.
Definition CreateAddress (b : Address) (nonce : N) : Address :=
  let payload := N2b (128 + 20) :: abytes b ++ rlpUint nonce in
  BytesToAddress (drop 12 (Keccak256 [N2b (192 + N.of_nat (length payload)) :: payload])).

Definition wrapping (what : bytes) {B A} (m : prog B A) : prog B A := fun b =>
  match m b with
  | (Err e, b') => (Err (EWrap "fmt.Errorf" what e), b')
  | x => x
  end.

Section bind.
Context {B : Type} `{!ContractBackend B}.

(** A method of a backend that may be nil. *)
Definition on {A} (there : bool) (m : prog B A) : prog B A :=
  if there then m else gopanic "nil pointer dereference".

(** [BoundContract.Call], with a result of one value. *)
Definition Call (c : BoundContract) (opts : option CallOpts) (method : bytes) (params : list Value_) : prog B Value_ :=
  let opts := default {| Pending := false; From_ := zeroAddress |} opts in
  input ← lift (Pack (abi c) method params);
  let msg := {| CallFrom := From_ opts; CallTo := Some (address c); CallValue := 0; CallData := input |} in
  output ← on (caller c) (if Pending opts then PendingCallContract msg else CallContract msg);
  _ ← (if length output =? 0
       then code ← (if Pending opts then PendingCodeAt (address c) else CodeAt (address c));
            if length code =? 0 then throw ErrNoCode else mret tt
       else mret tt);
  lift (Unpack (abi c) method output).

(** [BoundContract.transact]. *)
Definition transact (c : BoundContract) (opts : TransactOpts) (contract : option Address) (input : bytes) :
    prog B Transaction :=
  let value := default 0%N (Value opts) in
  nonce ← match Nonce opts with
          | None => wrapping "failed to retrieve account nonce: " (on (transactor c) (PendingNonceAt (From opts)))
          | Some n => mret (n mod 2 ^ 64)%N
          end;
  gasPrice ← match GasPrice opts with
             | None => wrapping "failed to suggest gas price: " (on (transactor c) SuggestGasPrice)
             | Some p => mret p
             end;
  gasLimit ← (if (GasLimit opts =? 0)%N
              then _ ← match contract with
                       | None => mret tt
                       | Some _ => code ← on (transactor c) (PendingCodeAt (address c));
                                   if length code =? 0 then throw ErrNoCode else mret tt
                       end;
                   wrapping "failed to estimate gas needed: " (on (transactor c)
                     (EstimateGas {| CallFrom := From opts; CallTo := contract; CallValue := value; CallData := input |}))
              else mret (GasLimit opts));
  let rawTx := {| TxNonce := nonce; TxTo := (fun _ => address c) <$> contract; TxValue := value; TxGas := gasLimit;
                  TxGasPrice := gasPrice; TxData := input; TxSignature := [] |} in
  match Signer opts with
  | None => throw (EMsg "no signer to authorize the transaction with")
  | Some sign =>
      signedTx ← lift (sign (From opts) rawTx);
      _ ← on (transactor c) (SendTransaction signedTx);
      mret signedTx
  end.

(** [BoundContract.Transact] and [Transfer]. *)
Definition Transact (c : BoundContract) (opts : TransactOpts) (method : bytes) (params : list Value_) : prog B Transaction :=
  input ← lift (Pack (abi c) method params);
  transact c opts (Some (address c)) input.
Definition Transfer (c : BoundContract) (opts : TransactOpts) : prog B Transaction := transact c opts (Some (address c)) [].

(** [DeployContract], of an ABI without a constructor. *)
Definition DeployContract (opts : TransactOpts) (abi : ABI) (bytecode : bytes) (params : list Value_) :
    prog B (Address * Transaction * BoundContract) :=
  let c := NewBoundContract zeroAddress abi true true true in
  input ← lift (Arguments_Pack [] params);
  tx ← transact c opts None (bytecode ++ input);
  let address := CreateAddress (From opts) (TxNonce tx) in
  mret (address, tx, NewBoundContract address abi true true true).

(** ** registry/contract/registry.go *)

Record KORDRegistryCaller := { callerContract : BoundContract }.
Record KORDRegistryTransactor := { transactorContract : BoundContract }.
Record KORDRegistryFilterer := { filtererContract : BoundContract }.
Record KORDRegistry := {
  KCaller : KORDRegistryCaller; KTransactor : KORDRegistryTransactor; KFilterer : KORDRegistryFilterer;
}.
Record KORDRegistrySession := { Contract : KORDRegistry; CallOpts_ : CallOpts; TransactOpts_ : TransactOpts }.
Record KORDRegistryCallerSession := { CContract : KORDRegistryCaller; CCallOpts : CallOpts }.
Record KORDRegistryTransactorSession := { TContract : KORDRegistryTransactor; TTransactOpts : TransactOpts }.
Record KORDRegistryRaw := { RContract : KORDRegistry }.
Record KORDRegistryCallerRaw := { CRContract : KORDRegistryCaller }.
Record KORDRegistryTransactorRaw := { TRContract : KORDRegistryTransactor }.

Definition bindKORDRegistry (address : Address) (caller transactor filterer : bool) : BoundContract :=
  NewBoundContract address registryABI caller transactor filterer.

Definition bound (contract : BoundContract) : KORDRegistry :=
  {| KCaller := {| callerContract := contract |}; KTransactor := {| transactorContract := contract |};
     KFilterer := {| filtererContract := contract |} |}.

Definition NewKORDRegistry (address : Address) : KORDRegistry := bound (bindKORDRegistry address true true true).
Definition NewKORDRegistryCaller (address : Address) : KORDRegistryCaller :=
  {| callerContract := bindKORDRegistry address true false false |}.
Definition NewKORDRegistryTransactor (address : Address) : KORDRegistryTransactor :=
  {| transactorContract := bindKORDRegistry address false true false |}.
Definition NewKORDRegistryFilterer (address : Address) : KORDRegistryFilterer :=
  {| filtererContract := bindKORDRegistry address false false true |}.

Definition DeployKORDRegistry (auth : TransactOpts) : prog B (Address * Transaction * KORDRegistry) :=
  r ← DeployContract auth registryABI (FromHex KORDRegistryBin) [];
  mret (r.1.1, r.1.2, bound r.2).

(** The raw methods. *)
Definition Raw_Call (r : KORDRegistryRaw) := Call (callerContract (KCaller (RContract r))).
Definition Raw_Transfer (r : KORDRegistryRaw) := Transfer (transactorContract (KTransactor (RContract r))).
Definition Raw_Transact (r : KORDRegistryRaw) := Transact (transactorContract (KTransactor (RContract r))).
Definition CallerRaw_Call (r : KORDRegistryCallerRaw) := Call (callerContract (CRContract r)).
Definition TransactorRaw_Transfer (r : KORDRegistryTransactorRaw) := Transfer (transactorContract (TRContract r)).
Definition TransactorRaw_Transact (r : KORDRegistryTransactorRaw) := Transact (transactorContract (TRContract r)).

(** An output of 32 bytes, set into the array [ret0]. *)
Definition toBytes32 (v : Value_) : result Hash :=
  match v with
  | VFixed b => match array_of b with Some h => Ok h | None => Panic "reflect: call of reflect.Copy" end
  | _ => Err (ETyped "fmt.Errorf" "abi: cannot unmarshal in to")
  end.

Definition Caller_Graph (r : KORDRegistryCaller) (opts : option CallOpts) (kordID : Address) : prog B Hash :=
  out ← Call (callerContract r) opts "graph" [VAddress kordID];
  lift (toBytes32 out).
Definition Session_Graph (s : KORDRegistrySession) (kordID : Address) : prog B Hash :=
  Caller_Graph (KCaller (Contract s)) (Some (CallOpts_ s)) kordID.
Definition CallerSession_Graph (s : KORDRegistryCallerSession) (kordID : Address) : prog B Hash :=
  Caller_Graph (CContract s) (Some (CCallOpts s)) kordID.

Definition Transactor_SetGraph (r : KORDRegistryTransactor) (opts : TransactOpts) (hash : Hash) (sig : bytes) :
    prog B Transaction :=
  Transact (transactorContract r) opts "setGraph" [VFixed (abytes hash); VBytes sig].
Definition Session_SetGraph (s : KORDRegistrySession) (hash : Hash) (sig : bytes) : prog B Transaction :=
  Transactor_SetGraph (KTransactor (Contract s)) (TransactOpts_ s) hash sig.
Definition TransactorSession_SetGraph (s : KORDRegistryTransactorSession) (hash : Hash) (sig : bytes) : prog B Transaction :=
  Transactor_SetGraph (TContract s) (TTransactOpts s) hash sig.
End bind.

(** ** registry/registry.go *)
Section client.
Context {B : Type} `{!ContractBackend B} `{Secp256k1}.

(** [HomesteadSigner.Hash]: what of a transaction is signed. *)
Context (sigHash : Transaction -> Hash).

(** [bind.NewKeyedTransactor]. *)
Definition NewKeyedTransactor (key : array 32) : TransactOpts :=
  let keyAddr := addressOf key in
  {| From := keyAddr; Nonce := None; Value := None; GasPrice := None; GasLimit := 0;
     Signer := Some (fun address tx =>
       if bool_decide (address <> keyAddr) then Err (EMsg "not authorized to sign this account")
       else signature ← Sign (abytes (sigHash tx)) key; Ok (WithSignature tx signature)) |}.

Definition GenesisGasLimit : N := 4712388.

Record Config := { Key : option (array 32); ContractAddr : Address }.
Definition DefaultConfig : Config := {| Key := Some DevKey; ContractAddr := DevContractAddr |}.
Record Client := { registry : KORDRegistrySession; transactOpts : TransactOpts }.

(** [NewClient]: [generated] is the key of [crypto.GenerateKey], [heads] the
    subscription to new heads and [close] the closing of the RPC client. *)
Definition NewClient (generated : result (array 32)) (heads : prog B unit) (close : B -> B) (config : Config) : prog B Client :=
  key ← lift (match Key config with Some k => Ok k | None => generated end);
  let keyed := NewKeyedTransactor key in
  let opts := {| From := From keyed; Nonce := Nonce keyed; Signer := Signer keyed; Value := Value keyed;
                 GasPrice := GasPrice keyed; GasLimit := GenesisGasLimit |} in
  let session := {| Contract := NewKORDRegistry (ContractAddr config);
                    CallOpts_ := {| Pending := false; From_ := zeroAddress |}; TransactOpts_ := opts |} in
  err ← try heads;
  match err with
  | Ok _ => mret {| registry := session; transactOpts := opts |}
  | Err e => _ ← modify close; throw e
  | Panic p => gopanic p
  end.

Definition Client_Graph (c : Client) (kordID : Address) : prog B Hash := Session_Graph (registry c) kordID.

(** [SetGraph]: the transaction, and then the events until there is a receipt. *)
Definition Client_SetGraph (c : Client) (graph : Hash) (sig : bytes) (evs : list Registry.Client.event) :
    B -> option (result unit) * B := fun b =>
  let (tx, b) := Session_SetGraph (registry c) graph sig b in
  (Client.setGraph (_ ← tx; Ok tt) evs, b).

(** [deployRegistry], on a node that answers [CodeAt]. *)
Definition Client_deployRegistry (c : Client) (addr : Address) (evs : list Registry.Client.event) :
    B -> option (result Address) * B := fun b =>
  let (code, b) := CodeAt addr b in
  match code with
  | Ok (_ :: _) => (Some (Ok addr), b)
  | _ => let (r, b) := DeployKORDRegistry (transactOpts c) b in
         (Client.deployRegistry code addr (_ ← r; Ok tt) evs, b)
  end.
End client.

(** ** A node *)
Module Chain.
Section chain.
Context `{Secp256k1}.

(** The code and the storage of accounts, and the transactions waiting. *)
Record account := { Code : bytes; Storage : storage }.
Record chain := { accounts : gmap Address account; pool : list Transaction }.
Definition accountAt (c : chain) (a : Address) : account := default {| Code := []; Storage := ∅ |} (accounts c !! a).

(** What a node answers of itself, and the gas that runs have. *)
Record gas := { isMetered : vm -> bool; isCallMetered : vm -> bool; isLeft : vm -> N; forCode : bytes -> bool }.
Record node := {
  pendingCode : chain -> Address -> result bytes; pendingCall : chain -> CallMsg -> result bytes;
  pendingNonce : chain -> Address -> result N; gasPrice : chain -> result N; estimate : chain -> CallMsg -> result N;
  accepts : chain -> Transaction -> result unit;
  callGas : CallMsg -> gas; txGas : Transaction -> gas;
}.
Context (nd : node).

Definition envOf (g : gas) (code data : bytes) (val : N) : env :=
  {| code := code; input := data; value := val; metered := isMetered g; callMetered := isCallMetered g; gasLeft := isLeft g |}.

(** [PublicBlockChainAPI.Call]: what the virtual machine answers is returned
    whether or not it failed; a run that takes longer than [turns] is
    cancelled and answers nothing. *)
Definition callContract (turns : nat) (c : chain) (msg : CallMsg) : result bytes :=
  match CallTo msg with
  | None => Err (EMsg "contract creation")
  | Some a =>
      let acct := accountAt c a in
      match Run (envOf (callGas nd msg) (Code acct) (CallData msg) (CallValue msg)) turns (Storage acct) with
      | Some (Stopped ret _) | Some (Reverted ret) => Ok ret
      | _ => Ok []
      end
  end.

#[global] Instance backend (turns : nat) : ContractBackend chain := {
  CodeAt a := fun c => (Ok (Code (accountAt c a)), c);
  CallContract msg := fun c => (callContract turns c msg, c);
  PendingCodeAt a := fun c => (pendingCode nd c a, c);
  PendingCallContract msg := fun c => (pendingCall nd c msg, c);
  PendingNonceAt a := fun c => (pendingNonce nd c a, c);
  SuggestGasPrice := fun c => (gasPrice nd c, c);
  EstimateGas msg := fun c => (estimate nd c msg, c);
  SendTransaction tx := fun c =>
    match accepts nd c tx with
    | Ok _ => (Ok tt, {| accounts := accounts c; pool := pool c ++ [tx] |})
    | r => (r, c)
    end;
}.

(** [ApplyTransaction] of a transaction from [sender], with its receipt. *)
Inductive mines (c : chain) (sender : Address) (tx : Transaction) : chain -> Client.Receipt -> Prop :=
  | mines_call a n o :
      TxTo tx = Some a ->
      Run (envOf (txGas nd tx) (Code (accountAt c a)) (TxData tx) (TxValue tx)) n (Storage (accountAt c a)) = Some o ->
      o <> Unmodelled ->
      mines c sender tx
        {| accounts := <[a := {| Code := Code (accountAt c a); Storage := after o (Storage (accountAt c a)) |}]> (accounts c);
           pool := filter (fun t => t <> tx) (pool c) |}
        {| Client.Status := match o with Stopped _ _ => true | _ => false end; Client.ContractAddress := zeroAddress |}
  | mines_create n o :
      let a := CreateAddress sender (TxNonce tx) in
      TxTo tx = None -> accounts c !! a = None ->
      Run (envOf (txGas nd tx) (TxData tx) [] (TxValue tx)) n ∅ = Some o -> o <> Unmodelled ->
      mines c sender tx
        {| accounts := match o with
                       | Stopped ret s =>
                           if forCode (txGas nd tx) ret then <[a := {| Code := ret; Storage := s |}]> (accounts c)
                           else accounts c
                       | _ => accounts c
                       end;
           pool := filter (fun t => t <> tx) (pool c) |}
        {| Client.Status := match o with Stopped ret _ => forCode (txGas nd tx) ret | _ => false end;
           Client.ContractAddress := a |}.
End chain.
End Chain.

(** ** Submitting on a node *)
Section submitting.
Context `{Secp256k1} (nd : Chain.node).
Definition submitted (ch : Chain.chain) (tx : Transaction) : Chain.chain :=
  {| Chain.accounts := Chain.accounts ch; Chain.pool := Chain.pool ch ++ [tx] |}.

(** [transact] either adds one transaction, the one it returns, or fails and
    leaves the node as it was. *)
Lemma transact_inv turns c opts contract input ch r ch' :
  @transact Chain.chain (Chain.backend nd turns) c opts contract input ch = (r, ch') ->
  (exists raw sign tx, Signer opts = Some sign /\ sign (From opts) raw = Ok tx /\
     TxTo raw = (fun _ => address c) <$> contract /\ TxValue raw = default 0%N (Value opts) /\ TxData raw = input /\
     TxSignature raw = [] /\ Chain.accepts nd ch tx = Ok tt /\ r = Ok tx /\ ch' = submitted ch tx) \/
  (ch' = ch /\ forall tx, r <> Ok tx).
Proof.
  unfold transact. intros E.
  assert (forall (A A' : Type) (m : prog Chain.chain A) (k : A -> prog Chain.chain A'), (forall s, snd (m s) = s) ->
    forall s x, (a ← m; k a) s = x ->
      (exists a, k a s = x) \/ (snd x = s /\ forall a, fst x <> Ok a)) as Hbind.
  { intros A A' m k Hm s x <-. unfold mbind, prog_bind. specialize (Hm s). destruct (m s) as [[a|e|p] s']; cbn in Hm; subst s'.
    - left. by exists a.
    - by right.
    - by right. }
  assert (forall A w (m : prog Chain.chain A), (forall s, snd (m s) = s) -> forall s, snd (wrapping w m s) = s) as Hwrap.
  { intros A w m Hm s. unfold wrapping. specialize (Hm s). by destruct (m s) as [[]]. }
  assert (forall A b (m : prog Chain.chain A), (forall s, snd (m s) = s) -> forall s, snd (on b m s) = s) as Hon
    by (intros A [] m Hm s; [apply Hm|done]).
  apply Hbind in E as [[nonce E]|E]; [|by right|by intros s; destruct (Nonce opts); [|apply Hwrap, Hon]].
  apply Hbind in E as [[price E]|E]; [|by right|by intros s; destruct (GasPrice opts); [|apply Hwrap, Hon]].
  apply Hbind in E as [[limit E]|E]; [|by right|].
  2:{ intros s. destruct (_ =? 0)%N; [|done]. unfold mbind at 1, prog_bind at 1. destruct contract; cbn.
      - unfold mbind, prog_bind, on. destruct (transactor c); [|done]. cbn. destruct (Chain.pendingCode nd s (address c)); [|done..].
        destruct (length a0 =? 0); [done|]. cbn. by apply (Hwrap _ _ (fun s => (Chain.estimate nd s _, s))).
      - by apply Hwrap, Hon. }
  destruct (Signer opts) as [sign|]; [|right; by injection E as <- <-].
  unfold mbind at 1, prog_bind at 1, lift at 1 in E. destruct (sign _ _) as [tx|e|p] eqn:Hs; [|right; by injection E as <- <-..].
  unfold mbind, prog_bind, on in E. destruct (transactor c); [|right; by injection E as <- <-]. cbn in E.
  destruct (Chain.accepts nd ch tx) as [[]|e|p] eqn:Ha; [|right; by injection E as <- <-..].
  injection E as <- <-. left. eexists _, sign, tx. split; [done|]. split; [exact Hs|]. done.
Qed.

(** The client that [NewClient] makes. *)
Context (sigHash : Transaction -> Hash).

Definition sessionOf (key : array 32) (addr : Address) : KORDRegistrySession :=
  {| Contract := NewKORDRegistry addr; CallOpts_ := {| Pending := false; From_ := zeroAddress |};
     TransactOpts_ := {| From := addressOf key; Nonce := None; Signer := Signer (NewKeyedTransactor sigHash key);
                         Value := None; GasPrice := None; GasLimit := GenesisGasLimit |} |}.
Definition clientOf (key : array 32) (addr : Address) : Client :=
  {| registry := sessionOf key addr; transactOpts := TransactOpts_ (sessionOf key addr) |}.

Lemma NewClient_ok generated heads close config ch cl ch' :
  NewClient (B := Chain.chain) sigHash generated heads close config ch = (Ok cl, ch') ->
  exists key, (Key config = Some key \/ generated = Ok key) /\ cl = clientOf key (ContractAddr config).
Proof.
  unfold NewClient, mbind, prog_bind, lift. intros E.
  destruct (match Key config with Some k => Ok k | None => generated end) as [key|e|p] eqn:Hk; [|done..].
  exists key. split; [destruct (Key config); [left; congruence|by right]|].
  unfold try in E. destruct (heads ch) as [[[]|e|p] s]; [|done..]. by injection E as <- _.
Qed.

Lemma keyed_sign key sign raw tx :
  Signer (NewKeyedTransactor sigHash key) = Some sign -> sign (addressOf key) raw = Ok tx ->
  exists sig, Sign (abytes (sigHash raw)) key = Ok sig /\ tx = WithSignature raw sig.
Proof.
  intros [= <-]. rewrite bool_decide_eq_false_2 by tauto.
  intros (sig & Hs & [= <-])%result_bind_ok_inv. by exists sig.
Qed.

(** A transaction to a contract, without money, with the key's signature. *)
Definition signedCall (key : array 32) (addr : Address) (data : bytes) (tx : Transaction) : Prop :=
  TxTo tx = Some addr /\ TxValue tx = 0%N /\ TxData tx = data /\
  exists raw sig, TxSignature raw = [] /\ Sign (abytes (sigHash raw)) key = Ok sig /\ tx = WithSignature raw sig.

Lemma SetGraph_inv turns key addr hash sig ch r ch' :
  @Session_SetGraph Chain.chain (Chain.backend nd turns) (sessionOf key addr) hash sig ch = (r, ch') ->
  (exists tx data, Pack registryABI "setGraph" [VFixed (abytes hash); VBytes sig] = Ok data /\
     signedCall key addr data tx /\ Chain.accepts nd ch tx = Ok tt /\ r = Ok tx /\ ch' = submitted ch tx) \/
  (ch' = ch /\ forall tx, r <> Ok tx).
Proof.
  unfold Session_SetGraph, Transactor_SetGraph, Transact. cbn [sessionOf NewKORDRegistry bound Contract KTransactor transactorContract].
  cbn [abi bindKORDRegistry NewBoundContract]. rewrite Pack_setGraph. set (data := paddedBytes 4 _ ++ _).
  unfold mbind, prog_bind, lift. intros [(raw & sign & tx & Hsign & Hs & Hto & Hv & Hd & Hraw & Ha & -> & ->)|?]%transact_inv; [left|by right].
  exists tx, data. split; [done|]. destruct (keyed_sign key sign raw tx Hsign Hs) as (sg & Hsg & ->).
  split; [|by split]. split; [exact Hto|]. split; [exact Hv|]. split; [exact Hd|]. by exists raw, sg.
Qed.

(** *** Calls that read *)

Definition gasFor (g : Chain.gas) : Prop := (forall s, Chain.isMetered g s = true) /\ (forall s, Chain.isCallMetered g s = true).

Lemma gasFor_enough g code data val o : gasFor g -> ~ outOfGas (Chain.envOf g code data val) o.
Proof. intros Hg [_ Hn]. by apply Hn. Qed.

Definition hasContract (ch : Chain.chain) (addr : Address) (s : storage) : Prop :=
  Chain.accountAt ch addr = {| Chain.Code := runtimeCode; Chain.Storage := s |}.

Lemma Unpack_graph (b : bytes) (h : Hash) : b = abytes h -> Unpack registryABI "graph" b = Ok (VFixed b).
Proof.
  intros ->. pose proof (array_length h) as Hl. unfold Unpack. rewrite Hl. cbn [Nat.eqb].
  assert (lookupMethod registryABI "graph" = Some (nth 1 registryABI (Build_Method [] true [] []))) as -> by byCode.
  change (negb (32 mod 32 =? 0)) with false. cbn [registryABI nth Outputs UnpackValues].
  unfold toGoType. rewrite Hl. change (32 <? 32 * 0 + 32) with false. cbn [mbind result_bind]. unfold slice.
  change (N.to_nat (N.of_nat (32 * 0))) with 0. change (N.to_nat 32) with 32. rewrite drop_0.
  rewrite (take_ge (abytes h) 32) by lia. by rewrite take_ge by lia.
Qed.

Lemma Graph_runs key addr (a : Address) ch s :
  hasContract ch addr s -> (forall msg, gasFor (Chain.callGas nd msg)) ->
  exists n, forall k, @Session_Graph Chain.chain (Chain.backend nd (n + k)) (sessionOf key addr) a ch =
    (Ok (BytesToHash (paddedBytes 32 (GetState s (slot a)))), ch).
Proof.
  intros Hc Hg. unfold Session_Graph, Caller_Graph, Call.
  cbn [sessionOf NewKORDRegistry bound Contract KCaller callerContract CallOpts_ default from_option Pending From_].
  cbn [abi address caller bindKORDRegistry NewBoundContract on]. rewrite Pack_graph.
  set (data := paddedBytes 4 graphId ++ _).
  cbv [id]. cbn [Pending From_]. set (msg := {| CallFrom := zeroAddress; CallTo := Some addr; CallValue := 0; CallData := data |}).
  assert (calls (Chain.envOf (Chain.callGas nd msg) runtimeCode data 0) "graph" [VAddress a]) as He
    by (split; [done|split; [done|apply Pack_graph]]).
  destruct (graph_ends _ s a He) as (n & o & Hn & Ho). exists n. intros k.
  assert (o = Stopped (paddedBytes 32 (GetState s (slot a))) s) as -> by (destruct Ho as [|Ho]; [done|by apply gasFor_enough in Ho]).
  assert (Chain.callContract nd (n + k) ch msg = Ok (paddedBytes 32 (GetState s (slot a)))) as Hcall.
  { unfold Chain.callContract. cbn [CallTo CallData CallValue msg]. rewrite Hc. cbn [Chain.Code Chain.Storage]. by rewrite Hn. }
  unfold mbind, prog_bind, lift. cbn [CallContract Chain.backend]. fold msg. rewrite Hcall.
  pose proof (length_padded 32 (GetState s (slot a))) as Hl. rewrite Hl. change (32 =? 0) with false. cbn [mret prog_ret].
  assert (paddedBytes 32 (GetState s (slot a)) = abytes (BytesToHash (paddedBytes 32 (GetState s (slot a))))) as Heq.
  { unfold BytesToHash, SetBytes. cbn [abytes]. rewrite Hl. by rewrite Nat.sub_diag, take_0, drop_0. }
  rewrite (Unpack_graph _ _ Heq). unfold toBytes32. rewrite Heq at 1. by rewrite array_of_abytes.
Qed.

(** What the client reads, when the contract's storage represents a mapping. *)
Lemma Graph_represents key addr (a : Address) ch s m :
  hasContract ch addr s -> (forall msg, gasFor (Chain.callGas nd msg)) ->
  GetState s (slot a) = fromBytes (abytes (graph m a)) ->
  exists n, forall k, @Session_Graph Chain.chain (Chain.backend nd (n + k)) (sessionOf key addr) a ch = (Ok (graph m a), ch).
Proof.
  intros Hc Hg Hs. destruct (Graph_runs key addr a ch s Hc Hg) as [n Hn]. exists n. intros k. rewrite Hn, Hs.
  rewrite padded_fromBytes by apply array_length. do 2 f_equal. apply SetBytes_full.
Qed.

(** *** Transactions that are mined *)

Lemma accountAt_insert accts p a acct b :
  Chain.accountAt {| Chain.accounts := <[a := acct]> accts; Chain.pool := p |} b =
    if decide (b = a) then acct else Chain.accountAt {| Chain.accounts := accts; Chain.pool := p |} b.
Proof.
  unfold Chain.accountAt. cbn [Chain.accounts]. case_decide; subst; [by rewrite lookup_insert_eq|]. by rewrite lookup_insert_ne.
Qed.

Lemma mines_SetGraph ch sender key addr tx (hash : Hash) (sig : bytes) data ch' rc s :
  hasContract ch addr s -> signedCall key addr data tx -> (N.of_nat (length sig) < 4294967296)%N ->
  Pack registryABI "setGraph" [VFixed (abytes hash); VBytes sig] = Ok data ->
  gasFor (Chain.txGas nd tx) -> Chain.mines nd ch sender tx ch' rc ->
  hasContract ch' addr (after (written hash sig s) s) /\ Client.Status rc = wellFormed sig.
Proof.
  intros Hc (Hto & Hv & Hd & _) Hl Hp Hg Hm. destruct Hm as [a n o Ha Hr Hu|n o a Ha]; [|by rewrite Hto in Ha].
  rewrite Hto in Ha. injection Ha as <-. rewrite Hc in Hr |- *. cbn [Chain.Code Chain.Storage] in *. rewrite Hv, Hd in Hr.
  assert (setsGraph (Chain.envOf (Chain.txGas nd tx) runtimeCode data 0) hash sig) as He by (split; [split; [done|by split]|done]).
  destruct (ends_unique _ _ _ _ _ (setGraph_ends _ s hash sig He) Hr) as [->|Ho]; [|by apply gasFor_enough in Ho].
  split; [unfold hasContract; by rewrite accountAt_insert, decide_True by done|].
  cbn [Client.Status]. unfold written. by destruct (wellFormed sig).
Qed.
End submitting.

(** ** The properties *)
Section properties.
Context `{Secp256k1} (nd : Chain.node) (sigHash : Transaction -> Hash).

(** C11: the client on a node with the compiled contract is the registry that
    the rest of the system relies on.  When the transaction that [SetGraph]
    submits is mined with enough gas, [SetGraph] answers what the promptly
    mined registry [Prompt] answers, an error exactly when the contract throws,
    and from then on [Graph] of any address answers what it answers there,
    if it did before, unless the address shares its place with the signer. *)
Theorem client_refines_prompt turns generated heads close config ch0 cl ch (hash : Hash) (sig : bytes)
    (m : graphs) (s : storage) (a sender : Address) tx ch1 rc ch2 :
  NewClient (B := Chain.chain) sigHash generated heads close config ch0 = (Ok cl, ch) ->
  hasContract ch (ContractAddr config) s -> GetState s (slot a) = fromBytes (abytes (graph m a)) ->
  (N.of_nat (length sig) < 4294967296)%N -> noCollision [(hash, sig)] a ->
  @Session_SetGraph Chain.chain (Chain.backend nd turns) (registry cl) hash sig ch = (Ok tx, ch1) ->
  gasFor (Chain.txGas nd tx) -> (forall msg, gasFor (Chain.callGas nd msg)) -> Chain.mines nd ch1 sender tx ch2 rc ->
  let (res, m') := Prompt.SetGraph hash sig m in
  @Client_SetGraph Chain.chain (Chain.backend nd turns) cl hash sig [Client.Head (Ok rc)] ch = (Some res, ch1) /\
  exists s', hasContract ch2 (ContractAddr config) s' /\ GetState s' (slot a) = fromBytes (abytes (graph m' a)) /\
    exists n, forall k, @Client_Graph Chain.chain (Chain.backend nd (n + k)) cl a ch2 = (Ok (graph m' a), ch2).
Proof.
  intros (key & _ & ->)%NewClient_ok Hc Hs Hl Hnc Hset Hg Hcg Hm. cbn [registry clientOf] in Hset.
  destruct (SetGraph_inv _ _ _ _ _ _ _ _ _ _ Hset) as [(tx' & data & Hp & Hsig & _ & [= <-] & ->)|[_ Hne]]; [|by destruct (Hne tx)].
  destruct (mines_SetGraph nd sigHash (submitted ch tx) sender key (ContractAddr config) tx hash sig data ch2 rc s) as [Hc2 Hst]; try done.
  unfold Prompt.SetGraph. apply Forall_cons in Hnc as [Hnc _]. cbn [fst snd] in Hnc.
  pose proof (after_written hash sig s m a Hnc Hs) as Hs'. rewrite setGraph_eq in *. split.
  - unfold Client_SetGraph. cbn [registry clientOf]. rewrite Hset. unfold Client.setGraph, Client.do. cbn [mbind result_bind Client.doLoop].
    rewrite Hst. change (Client.blockTimeout <? 1) with false. by destruct (wellFormed sig).
  - eexists. split; [exact Hc2|]. split; [exact Hs'|]. unfold Client_Graph. cbn [registry clientOf]. by eapply Graph_represents.
Qed.

(** C14: a client configured with an address that has no contract is told that
    its graphs are set: the transaction of [SetGraph], for any hash and any
    signature, is mined successfully and [SetGraph] returns no error, but
    nothing is stored anywhere, and [Graph] fails with [ErrNoCode].  (The
    transaction's fixed gas limit skips the check for code.) *)
Theorem wrong_address_succeeds turns generated heads close config ch0 cl ch (hash : Hash) (sig : bytes)
    (a sender : Address) tx ch1 rc ch2 :
  NewClient (B := Chain.chain) sigHash generated heads close config ch0 = (Ok cl, ch) ->
  Chain.accountAt ch (ContractAddr config) = {| Chain.Code := []; Chain.Storage := ∅ |} ->
  @Session_SetGraph Chain.chain (Chain.backend nd turns) (registry cl) hash sig ch = (Ok tx, ch1) ->
  Chain.mines nd ch1 sender tx ch2 rc ->
  @Client_SetGraph Chain.chain (Chain.backend nd turns) cl hash sig [Client.Head (Ok rc)] ch = (Some (Ok tt), ch1) /\
  (forall b, Chain.accountAt ch2 b = Chain.accountAt ch b) /\
  @Client_Graph Chain.chain (Chain.backend nd turns) cl a ch2 = (Err ErrNoCode, ch2).
Proof.
  intros (key & _ & ->)%NewClient_ok Hc Hset Hm. cbn [registry clientOf] in Hset.
  destruct (SetGraph_inv _ _ _ _ _ _ _ _ _ _ Hset) as [(tx' & data & _ & Hsig & _ & [= <-] & ->)|[_ Hne]]; [|by destruct (Hne tx)].
  destruct Hsig as (Hto & Hv & Hd & _).
  assert (Client.Status rc = true /\ forall b, Chain.accountAt ch2 b = Chain.accountAt ch b) as [Hst Hacc].
  { destruct Hm as [b n o Hb Hr _|n o b Hb]; [|by rewrite Hto in Hb]. rewrite Hto in Hb. injection Hb as <-.
    change (Chain.accountAt (submitted ch tx)) with (Chain.accountAt ch) in *. rewrite Hc in Hr |- *.
    injection Hr as <-. split; [done|]. intros b. rewrite accountAt_insert. by case_decide; subst. }
  split; [|split; [exact Hacc|]].
  - unfold Client_SetGraph. cbn [registry clientOf]. rewrite Hset. unfold Client.setGraph, Client.do. cbn [mbind result_bind Client.doLoop].
    by rewrite Hst.
  - unfold Client_Graph, Session_Graph, Caller_Graph, Call.
    cbn [registry clientOf sessionOf NewKORDRegistry bound Contract KCaller callerContract CallOpts_ default from_option].
    cbn [abi address caller bindKORDRegistry NewBoundContract on]. rewrite Pack_graph. cbv [id]. cbn [Pending From_].
    unfold mbind, prog_bind, lift. cbn [CallContract CodeAt Chain.backend]. unfold Chain.callContract. cbn [CallTo].
    rewrite !Hacc, !Hc. unfold Run, Chain.envOf. cbn [Chain.Code code length Nat.eqb]. rewrite Hacc, Hc. done.
Qed.

(** C13: deploying works: when no code is at the configured address, the
    transaction that [deployRegistry] sends, mined with enough gas, leaves
    the compiled contract at the address that is returned, which is the
    receipt's and the one computed from the sender and the nonce; and every
    graph there is the zero hash, for any client. *)
Theorem deploy_then_empty turns generated heads close config ch0 cl ch (addr : Address) tx ch1 rc ch2 new r :
  NewClient (B := Chain.chain) sigHash generated heads close config ch0 = (Ok cl, ch) ->
  Chain.Code (Chain.accountAt ch addr) = [] ->
  @DeployKORDRegistry Chain.chain (Chain.backend nd turns) (transactOpts cl) ch = (Ok (new, tx, r), ch1) ->
  gasFor (Chain.txGas nd tx) -> Chain.forCode (Chain.txGas nd tx) runtimeCode = true ->
  (forall msg, gasFor (Chain.callGas nd msg)) -> Chain.mines nd ch1 (From (transactOpts cl)) tx ch2 rc ->
  @Client_deployRegistry Chain.chain (Chain.backend nd turns) cl addr [Client.Head (Ok rc)] ch = (Some (Ok new), ch1) /\
  hasContract ch2 new ∅ /\ r = NewKORDRegistry new /\
  forall key a, exists n, forall k,
    @Session_Graph Chain.chain (Chain.backend nd (n + k)) (sessionOf sigHash key new) a ch2 = (Ok zeroHash, ch2).
Proof.
  intros (key & _ & ->)%NewClient_ok Hcode Hdep Hg Hfc Hcg Hm.
  assert (exists raw sg, tx = WithSignature raw sg /\ TxTo raw = None /\ TxValue raw = 0%N /\ TxData raw = deployCode /\
    new = CreateAddress (addressOf key) (TxNonce tx) /\ r = NewKORDRegistry new /\ ch1 = submitted ch tx) as
    (raw & sg & -> & Hto & Hv & Hd & Hnew & -> & ->).
  { unfold DeployKORDRegistry, DeployContract in Hdep. unfold mbind at 1, prog_bind at 1 in Hdep.
    destruct ((_ ← lift _; _) ch) as [[[[n t] b]|e|p] c'] eqn:E in Hdep; [|done..]. injection Hdep as <- <- <- <-.
    apply bind_ok_inv in E as (inp & c0 & [= <- <-] & E). apply bind_ok_inv in E as (t' & c1 & E & E').
    injection E' as <- <- <- <-. apply transact_inv in E as [(raw & sign & t2 & Hs & Hsign & Hto & Hv & Hd & _ & _ & [= <-] & ->)|[_ Hne]];
      [|by destruct (Hne t')].
    destruct (keyed_sign sigHash key sign raw t' Hs Hsign) as (sg & _ & ->). exists raw, sg. by split_and!. }
  assert (hasContract ch2 new ∅ /\ Client.Status rc = true /\ Client.ContractAddress rc = new) as (Hc2 & Hst & Hca).
  { destruct Hm as [b n o Hb|n o b Hb Hnone Hr _]; [cbn in Hb; congruence|]. cbn [WithSignature TxData TxValue] in Hr. rewrite Hd, Hv in Hr.
    destruct (ends_unique _ _ _ _ _ (deploy_ends (Chain.envOf (Chain.txGas nd (WithSignature raw sg)) deployCode [] 0) ∅ eq_refl) Hr) as [->|Ho];
      [|by apply gasFor_enough in Ho].
    cbn [value Chain.envOf N.eqb Client.Status Client.ContractAddress]. rewrite Hfc. subst new. split_and!; [|done..].
    unfold hasContract. by rewrite accountAt_insert, decide_True. }
  split; [|split; [done|split; [done|]]].
  - unfold Client_deployRegistry. cbn [CodeAt Chain.backend]. rewrite Hcode, Hdep. unfold Client.deployRegistry, Client.do.
    change (negb (bool_decide ([] = []))) with false. cbn [mbind result_bind Client.doLoop]. rewrite Hst.
    change (Client.blockTimeout <? 1) with false. cbn. by rewrite Hca.
  - intros k2 a. destruct (Graph_represents nd sigHash k2 new a ch2 ∅ ∅ Hc2 Hcg) as [n Hn].
    { unfold GetState, graph. rewrite !lookup_empty. reflexivity. }
    exists n. intros k. rewrite Hn. unfold graph. by rewrite lookup_empty.
Qed.

(** Submitting is all or nothing.  [SetGraph] either adds to the node one
    transaction, the one it returns: to the contract, without money, with the
    packed arguments, and with a signature of the client's key; or it returns
    an error and the node is as it was. *)
Theorem SetGraph_submits turns generated heads close config ch0 cl ch (hash : Hash) (sig : bytes) r ch1 :
  NewClient (B := Chain.chain) sigHash generated heads close config ch0 = (Ok cl, ch) ->
  @Session_SetGraph Chain.chain (Chain.backend nd turns) (registry cl) hash sig ch = (r, ch1) ->
  match r with
  | Ok tx =>
      ch1 = submitted ch tx /\ Chain.accepts nd ch tx = Ok tt /\
      exists key data, (Key config = Some key \/ generated = Ok key) /\ signedCall sigHash key (ContractAddr config) data tx /\
        Pack registryABI "setGraph" [VFixed (abytes hash); VBytes sig] = Ok data
  | _ => ch1 = ch
  end.
Proof.
  intros (key & Hkey & ->)%NewClient_ok [(tx & data & Hp & Hs & Ha & -> & ->)|[-> Hne]]%SetGraph_inv.
  - split; [done|]. split; [done|]. by exists key, data.
  - destruct r as [tx| |]; [by destruct (Hne tx)|done..].
Qed.

(** Money sent to the contract comes back: whatever the amount, the
    transaction of [Transfer] fails and the storage is as before. *)
Theorem transfer_refused turns (key : array 32) (addr sender : Address) (s : storage) (value price : option N) (limit : N)
    ch tx ch1 ch2 rc :
  hasContract ch addr s ->
  @TransactorRaw_Transfer Chain.chain (Chain.backend nd turns) {| TRContract := NewKORDRegistryTransactor addr |}
    {| From := addressOf key; Nonce := None; Signer := Signer (NewKeyedTransactor sigHash key);
       Value := value; GasPrice := price; GasLimit := limit |} ch = (Ok tx, ch1) ->
  Chain.mines nd ch1 sender tx ch2 rc ->
  Client.Status rc = false /\ hasContract ch2 addr s.
Proof.
  intros Hc Ht Hm. unfold TransactorRaw_Transfer, Transfer in Ht.
  cbn [TRContract NewKORDRegistryTransactor transactorContract bindKORDRegistry NewBoundContract address] in Ht.
  apply transact_inv in Ht as [(raw & sign & t & Hs & Hsign & Hto & Hv & Hd & _ & _ & [= <-] & ->)|[_ Hne]]; [|by destruct (Hne tx)].
  destruct (keyed_sign sigHash key sign raw tx Hs Hsign) as (sg & _ & ->).
  destruct Hm as [b n o Hb Hr _|n o b Hb]; cbn [WithSignature TxTo TxData TxValue] in *; [|cbn in Hto; congruence].
  rewrite Hto in Hb. injection Hb as <-. cbn [submitted Chain.accountAt Chain.accounts] in *.
  change (Chain.accountAt (submitted ch _) addr) with (Chain.accountAt ch addr) in *. rewrite Hc in Hr |- *.
  cbn [Chain.Code Chain.Storage] in *. rewrite Hd in Hr.
  destruct (ends_unique _ _ _ _ _ (refuses_ends (Chain.envOf (Chain.txGas nd (WithSignature raw sg)) runtimeCode [] (TxValue raw)) s eq_refl
      (or_intror (or_introl (Nat.lt_0_succ 3)))) Hr) as [->|[[->| ->] _]];
    (split; [done|]; unfold hasContract; by rewrite accountAt_insert, decide_True).
Qed.
End properties.

(** ** Witnesses *)

Section witnesses.
Import Toy.

(** A node with gas for everything, and a client with a contract. *)
Definition freeGas : Chain.gas :=
  {| Chain.isMetered := fun _ => true; Chain.isCallMetered := fun _ => true; Chain.isLeft := fun _ => 1000000%N; Chain.forCode := fun _ => true |}.
Definition freeNode : Chain.node :=
  {| Chain.pendingCode := fun _ _ => Ok []; Chain.pendingCall := fun _ _ => Ok []; Chain.pendingNonce := fun _ _ => Ok 7%N;
     Chain.gasPrice := fun _ => Ok 1%N; Chain.estimate := fun _ _ => Ok 21000%N; Chain.accepts := fun _ _ => Ok tt;
     Chain.callGas := fun _ => freeGas; Chain.txGas := fun _ => freeGas |}.
Definition hashOf (tx : Transaction) : Hash := BytesToHash (TxData tx).
Definition there : Address := BytesToAddress "a registry".
Definition config0 : Config := {| Key := Some key; ContractAddr := there |}.
Definition deployed : Chain.chain :=
  {| Chain.accounts := <[there := {| Chain.Code := runtimeCode; Chain.Storage := ∅ |}]> ∅; Chain.pool := [] |}.
Definition empty : Chain.chain := {| Chain.accounts := ∅; Chain.pool := [] |}.
Definition noTx : Transaction :=
  {| TxNonce := 0; TxTo := None; TxValue := 0; TxGas := 0; TxGasPrice := 0; TxData := []; TxSignature := [] |}.
Definition setting (ch : Chain.chain) : result Transaction * Chain.chain :=
  @Session_SetGraph Chain.chain (Chain.backend freeNode 400) (sessionOf hashOf key there) h1 (sigOf h1) ch.
Definition txOf (r : result Transaction * Chain.chain) : Transaction := match fst r with Ok tx => tx | _ => noTx end.

Lemma made ch : NewClient (B := Chain.chain) hashOf (Err (EMsg "no entropy")) (mret tt) id config0 ch = (Ok (clientOf hashOf key there), ch).
Proof. exact eq_refl. Qed.

Lemma client_refines_prompt_witness :
  exists rc ch2, Chain.mines freeNode (snd (setting deployed)) owner (txOf (setting deployed)) ch2 rc /\
    let (res, m') := Prompt.SetGraph h1 (sigOf h1) ∅ in
    @Client_SetGraph Chain.chain (Chain.backend freeNode 400) (clientOf hashOf key there) h1 (sigOf h1) [Client.Head (Ok rc)] deployed =
      (Some res, snd (setting deployed)) /\
    exists s', hasContract ch2 there s' /\ GetState s' (slot owner) = fromBytes (abytes (graph m' owner)) /\
      exists n, forall k, @Client_Graph Chain.chain (Chain.backend freeNode (n + k)) (clientOf hashOf key there) owner ch2 = (Ok (graph m' owner), ch2).
Proof.
  assert (exists ch2 rc, Chain.mines freeNode (snd (setting deployed)) owner (txOf (setting deployed)) ch2 rc) as (ch2 & rc & Hm).
  { eexists _, _. refine (Chain.mines_call freeNode _ owner _ there 400 (Stopped [] _) _ _ _); [vm_compute; exact eq_refl|vm_compute; exact eq_refl|discriminate]. }
  exists rc, ch2. split; [exact Hm|].
  refine (client_refines_prompt freeNode hashOf 400 _ _ _ config0 deployed _ deployed h1 (sigOf h1) ∅ ∅ owner owner
            (txOf (setting deployed)) (snd (setting deployed)) _ _ (made deployed) _ _ _ _ _ _ _ Hm).
  - vm_compute. exact eq_refl.
  - vm_compute. exact eq_refl.
  - vm_compute. exact eq_refl.
  - constructor; [left|constructor]. apply (bool_decide_eq_true_1 (recovered h1 (sigOf h1) = owner)). vm_compute. exact eq_refl.
  - vm_compute. exact eq_refl.
  - by split.
  - by split.
Defined.

Lemma wrong_address_succeeds_witness :
  exists rc ch2, Chain.mines freeNode (snd (setting empty)) owner (txOf (setting empty)) ch2 rc /\
    @Client_SetGraph Chain.chain (Chain.backend freeNode 400) (clientOf hashOf key there) h1 (sigOf h1) [Client.Head (Ok rc)] empty =
      (Some (Ok tt), snd (setting empty)).
Proof.
  assert (exists ch2 rc, Chain.mines freeNode (snd (setting empty)) owner (txOf (setting empty)) ch2 rc) as (ch2 & rc & Hm).
  { eexists _, _. refine (Chain.mines_call freeNode _ owner _ there 1 (Stopped [] _) _ _ _); [vm_compute; exact eq_refl..|discriminate]. }
  exists rc, ch2. split; [exact Hm|].
  refine (proj1 (wrong_address_succeeds freeNode hashOf 400 _ _ _ config0 empty _ empty h1 (sigOf h1) owner owner
            (txOf (setting empty)) (snd (setting empty)) _ _ (made empty) _ _ Hm)); vm_compute; exact eq_refl.
Defined.

(** Deploying with the client, and sending money to the contract. *)
Definition deploying : result (Address * Transaction * KORDRegistry) * Chain.chain :=
  @DeployKORDRegistry Chain.chain (Chain.backend freeNode 400) (transactOpts (clientOf hashOf key there)) empty.
Definition deployTx : Transaction := match fst deploying with Ok r => r.1.2 | _ => noTx end.
Definition newAddress : Address := match fst deploying with Ok r => r.1.1 | _ => zeroAddress end.

Lemma deploy_then_empty_witness :
  exists rc ch2, Chain.mines freeNode (snd deploying) owner deployTx ch2 rc /\ hasContract ch2 newAddress ∅.
Proof.
  assert (exists ch2 rc, Chain.mines freeNode (snd deploying) owner deployTx ch2 rc) as (ch2 & rc & Hm).
  { eexists _, _. refine (Chain.mines_create freeNode _ owner _ 40 (Stopped _ _) _ _ _ _); [vm_compute; exact eq_refl..|discriminate]. }
  exists rc, ch2. split; [exact Hm|].
  refine (proj1 (proj2 (deploy_then_empty freeNode hashOf 400 _ _ _ config0 empty _ empty there deployTx (snd deploying) rc ch2
            newAddress (NewKORDRegistry newAddress) (made empty) _ _ _ _ _ Hm))); [vm_compute; exact eq_refl|vm_compute; exact eq_refl|by split|done|by split].
Defined.

Lemma SetGraph_submits_witness :
  snd (setting deployed) = submitted deployed (txOf (setting deployed)).
Proof.
  assert (@Session_SetGraph Chain.chain (Chain.backend freeNode 400) (registry (clientOf hashOf key there)) h1 (sigOf h1) deployed =
          (Ok (txOf (setting deployed)), snd (setting deployed))) as E by (vm_compute; exact eq_refl).
  exact (proj1 (SetGraph_submits freeNode hashOf 400 _ _ _ config0 deployed _ deployed h1 (sigOf h1) _ _ (made deployed) E)).
Defined.

Definition transferring : result Transaction * Chain.chain :=
  @TransactorRaw_Transfer Chain.chain (Chain.backend freeNode 400) {| TRContract := NewKORDRegistryTransactor there |}
    {| From := addressOf key; Nonce := None; Signer := Signer (NewKeyedTransactor hashOf key);
       Value := Some 5%N; GasPrice := None; GasLimit := GenesisGasLimit |} deployed.

Lemma transfer_refused_witness :
  exists rc ch2, Chain.mines freeNode (snd transferring) owner (txOf transferring) ch2 rc /\
    Client.Status rc = false /\ hasContract ch2 there ∅.
Proof.
  assert (exists ch2 rc, Chain.mines freeNode (snd transferring) owner (txOf transferring) ch2 rc) as (ch2 & rc & Hm).
  { eexists _, _. refine (Chain.mines_call freeNode _ owner _ there 40 (Reverted []) _ _ _); [vm_compute; exact eq_refl..|discriminate]. }
  exists rc, ch2. split; [exact Hm|].
  refine (transfer_refused freeNode hashOf 400 key there owner ∅ (Some 5%N) None GenesisGasLimit deployed (txOf transferring)
            (snd transferring) ch2 rc _ _ Hm); vm_compute; exact eq_refl.
Defined.
End witnesses.
