(* ===== verification/Testnet.v ===== *)
(** * The networks of [cli/node.go]

    A node runs on one of two chains: the test network of
    [testnetGenesisBlock], or the development chain of the vendored
    [DeveloperGenesisBlock].  This file has their genesis blocks, how the gas
    limit moves from one block to the next ([CalcGasLimit]), what the pool
    takes ([validateTx]), what goes into a block ([commitTransactions]) and
    when a block is sealed ([Seal] of [consensus/clique]); and, on these, what
    becomes of the calls of the registry's client, which all have the gas limit
    that [NewClient] gives them.

    The state of the accounts is a parameter: of what the pool knows, and of
    what a transaction does within the gas it has.  A transaction may also be
    refused or dropped for reasons that are not modelled (a full pool, a
    replacement).  The miners are nodes of this program, which leave the target
    of the gas limit at its default. *)
From S2P Require Import Prelude Keccak Common Crypto Contract Evm Abi Compiled Registry Bindings.

#[local] Open Scope N_scope.

(** ** Genesis blocks *)

(** [params.CliqueConfig] and [params.ChainConfig]. *)
Record CliqueConfig := { Period : N; Epoch : N }.
Record ChainConfig := {
  ChainId : N; HomesteadBlock : option N; DAOForkBlock : option N; DAOForkSupport : bool;
  EIP150Block : option N; EIP150Hash : Hash; EIP155Block : option N; EIP158Block : option N;
  ByzantiumBlock : option N; Clique : option CliqueConfig;
}.

Definition AllCliqueProtocolChanges : ChainConfig :=
  {| ChainId := 1337; HomesteadBlock := Some 0; DAOForkBlock := None; DAOForkSupport := false;
     EIP150Block := Some 0; EIP150Hash := zero_array 32; EIP155Block := Some 0; EIP158Block := Some 0;
     ByzantiumBlock := Some 0; Clique := Some {| Period := 0; Epoch := 30000 |} |}.

Record Genesis := {
  genesisConfig : ChainConfig; Timestamp : N; ExtraData : bytes; genesisLimit : N; Difficulty : N; Alloc : gmap Address N;
}.

Definition withChainId (c : ChainConfig) (id : N) : ChainConfig :=
  {| ChainId := id; HomesteadBlock := HomesteadBlock c; DAOForkBlock := DAOForkBlock c; DAOForkSupport := DAOForkSupport c;
     EIP150Block := EIP150Block c; EIP150Hash := EIP150Hash c; EIP155Block := EIP155Block c; EIP158Block := EIP158Block c;
     ByzantiumBlock := ByzantiumBlock c; Clique := Clique c |}.
Definition withPeriod (c : ChainConfig) (p : N) : ChainConfig :=
  {| ChainId := ChainId c; HomesteadBlock := HomesteadBlock c; DAOForkBlock := DAOForkBlock c; DAOForkSupport := DAOForkSupport c;
     EIP150Block := EIP150Block c; EIP150Hash := EIP150Hash c; EIP155Block := EIP155Block c; EIP158Block := EIP158Block c;
     ByzantiumBlock := ByzantiumBlock c; Clique := (fun q => {| Period := p; Epoch := Epoch q |}) <$> Clique c |}.

(** [hexutil.MustDecode]. *)
Definition MustDecode (input : bytes) : result bytes :=
  match Decode input with Ok b => Ok b | _ => Panic "hexutil.MustDecode" end.

Definition manyWei : N := 2 ^ 256 - 9.

Definition testnetSigner : Address := HexToAddress "0xb813999c1df85bb411dfd70b76635e834abc5fb8".
Definition testnetGenesisBlock : result Genesis :=
  extra ← MustDecode "0x0000000000000000000000000000000000000000000000000000000000000000b813999c1df85bb411dfd70b76635e834abc5fb80000000000000000000000000000000000000000000000000000000000000000000000000000000000000000000000000000000000000000000000000000000000";
  Ok {| genesisConfig := withChainId AllCliqueProtocolChanges 1035; Timestamp := 1518829335; ExtraData := extra;
        genesisLimit := 4700000; Difficulty := 1;
        Alloc := {[testnetSigner := manyWei]} |}.

Definition DeveloperGenesisBlock (period : N) (faucet : Address) : Genesis :=
  {| genesisConfig := withPeriod AllCliqueProtocolChanges period; Timestamp := 0;
     ExtraData := replicate 32 (N2b 0) ++ abytes faucet ++ replicate 65 (N2b 0);
     genesisLimit := 6283185; Difficulty := 1;
     Alloc := <[faucet := manyWei]> (list_to_map ((fun i => (BytesToAddress [N2b i], 1)) <$> [1; 2; 3; 4; 5; 6; 7; 8])) |}.

(** The signers in the extra data of the genesis block, as [snapshot] takes them. *)
Definition extraVanity : nat := 32.
Definition extraSeal : nat := 65.
Fixpoint takeSigners (n : nat) (b : bytes) : list Address :=
  match n with
  | O => []
  | S n => default zeroAddress (array_of (take 20 b)) :: takeSigners n (drop 20 b)
  end.
Definition genesisSigners (g : Genesis) : list Address :=
  takeSigners ((length (ExtraData g) - extraVanity - extraSeal) / AddressLength) (drop extraVanity (ExtraData g)).

(** What of a header matters here. *)
Record Header := { Number : N; hGasLimit : N; GasUsed : N }.

(** [Genesis.ToBlock]. *)
Definition ToBlock (g : Genesis) : Header :=
  {| Number := 0; hGasLimit := if genesisLimit g =? 0 then GenesisGasLimit else genesisLimit g; GasUsed := 0 |}.

(** ** The gas limit of the next block *)

Definition u64 (n : N) : N := n mod 2 ^ 64.
Definition sub64 (a b : N) : N := u64 (a + 2 ^ 64 - b).
Definition MinGasLimit : N := 5000.
Definition TargetGasLimit : N := GenesisGasLimit.
Definition GasLimitBoundDivisor : N := 1024.

Definition CalcGasLimit (parent : Header) : N :=
  let contrib := u64 (GasUsed parent + GasUsed parent / 2) / GasLimitBoundDivisor in
  let decay := sub64 (hGasLimit parent / GasLimitBoundDivisor) 1 in
  let limit := u64 (sub64 (hGasLimit parent) decay + contrib) in
  let limit := if limit <? MinGasLimit then MinGasLimit else limit in
  if limit <? TargetGasLimit then
    let limit := u64 (hGasLimit parent + decay) in
    if TargetGasLimit <? limit then TargetGasLimit else limit
  else limit.

(** ** The pool *)

Definition TxGas_ : N := 21000.
Definition TxGasContractCreation : N := 53000.
Definition MaxUint64 : N := 2 ^ 64 - 1.

Definition vmOutOfGas : error := EVar "vm.ErrOutOfGas".
Definition IntrinsicGas (data : bytes) (contractCreation homestead : bool) : result N :=
  let gas := if contractCreation && homestead then TxGasContractCreation else TxGas_ in
  if bool_decide (length data = 0%nat) then Ok gas
  else let nz := N.of_nat (length (filter (fun c => c <> N2b 0) data)) in
       if (MaxUint64 - gas) / 68 <? nz then Err vmOutOfGas
       else let gas := u64 (gas + u64 (nz * 68)) in
            let z := N.of_nat (length data) - nz in
            if (MaxUint64 - gas) / 4 <? z then Err vmOutOfGas else Ok (u64 (gas + u64 (z * 4))).

Definition ErrOversizedData : error := EVar "core.ErrOversizedData".
Definition ErrGasLimit : error := EVar "core.ErrGasLimit".
Definition ErrInvalidSender : error := EVar "core.ErrInvalidSender".
Definition ErrUnderpriced : error := EVar "core.ErrUnderpriced".
Definition ErrNonceTooLow : error := EVar "core.ErrNonceTooLow".
Definition ErrInsufficientFunds : error := EVar "core.ErrInsufficientFunds".
Definition ErrIntrinsicGas : error := EVar "core.ErrIntrinsicGas".

(** What the pool knows: the sizes and senders of transactions, its local
    accounts, its lowest price, and the state of the accounts. *)
Record view := {
  Size : Transaction -> N; Sender : Transaction -> result Address; locals : Address -> bool; lowest : N;
  GetNonce : Address -> N; GetBalance : Address -> N; homestead : bool;
}.

(** [validateTx]; a value is never negative here. *)
Definition validateTx (v : view) (currentMaxGas : N) (tx : Transaction) (local : bool) : result unit :=
  if 32 * 1024 <? Size v tx then Err ErrOversizedData
  else if currentMaxGas <? TxGas tx then Err ErrGasLimit
  else match Sender v tx with
       | Err _ => Err ErrInvalidSender
       | Panic p => Panic p
       | Ok from =>
           if negb (local || locals v from) && (TxGasPrice tx <? lowest v) then Err ErrUnderpriced
           else if TxNonce tx <? GetNonce v from then Err ErrNonceTooLow
           else if GetBalance v from <? TxValue tx + TxGasPrice tx * TxGas tx then Err ErrInsufficientFunds
           else intrGas ← IntrinsicGas (TxData tx) (bool_decide (TxTo tx = None)) (homestead v);
                if TxGas tx <? intrGas then Err ErrIntrinsicGas else Ok tt
       end.

(** ** Blocks *)

(** What becomes of a transaction when it is executed: it is refused before its gas is
    bought (whether or not the later ones of its sender are dropped with it),
    it fails after that, or it uses some of its gas. *)
Inductive applied := Refused (pop : bool) | Failed | Used (gas : N).

(** Transactions use at least half of what they cost before they run, and at most the gas they have. *)
Definition meters (apply : Transaction -> applied) : Prop :=
  forall tx gas, apply tx = Used gas -> TxGas_ / 2 <= gas <= TxGas tx.

(** [commitTransactions]: the transactions of the block and the gas they use,
    given those that are pending in their order; [popped] are the senders that are left out. *)
Section commit.
Context (from : Transaction -> Address) (apply : Transaction -> applied).
Fixpoint commitTransactions (popped : list Address) (gp : N) (txs : list Transaction) : list Transaction * N :=
  match txs with
  | [] => ([], 0)
  | tx :: rest =>
      if gp <? TxGas_ then ([], 0)
      else if bool_decide (from tx ∈ popped) then commitTransactions popped gp rest
      else match apply tx with
           | Refused pop => commitTransactions (if pop then from tx :: popped else popped) gp rest
           | Failed => if gp <? TxGas tx then commitTransactions (from tx :: popped) gp rest
                       else commitTransactions popped (gp - TxGas tx) rest
           | Used gas => if gp <? TxGas tx then commitTransactions (from tx :: popped) gp rest
                         else let '(l, n) := commitTransactions popped (gp - gas) rest in (tx :: l, gas + n)
           end
  end.
End commit.

Definition errUnknownBlock : error := EVar "clique.errUnknownBlock".
Definition errWaitTransactions : error := EVar "clique.errWaitTransactions".
Definition errUnauthorized : error := EVar "clique.errUnauthorized".

(** [Clique.Seal]: whether the block is sealed, when nothing stops it; the
    signers and those who signed recently are in the snapshot of the parent. *)
Definition Seal (c : CliqueConfig) (signers : list Address) (recents : list (N * Address)) (signer : Address)
    (signFn : result unit) (number : N) (txs : list Transaction) : result bool :=
  if number =? 0 then Err errUnknownBlock
  else if (Period c =? 0) && bool_decide (length txs = 0%nat) then Err errWaitTransactions
  else if bool_decide (signer ∉ signers) then Err errUnauthorized
  else let limit := N.of_nat (length signers) / 2 + 1 in
       if existsb (fun '(seen, recent) => bool_decide (recent = signer) && ((number <? limit) || (number - limit <? seen))) recents
       then Ok false
       else _ ← signFn; Ok true.

(** ** A network of nodes that mine on one chain *)

(** The blocks after the genesis block, the latest first, and the pool. *)
Record net := { blocks : list (Header * list Transaction); pool : list Transaction }.

Inductive event := Submits (tx : Transaction) (r : result unit) | Drops (tx : Transaction) | Seals (r : result bool).

Section network.
Context (g : Genesis).

Definition start : net := {| blocks := []; pool := [] |}.
Definition head (s : net) : Header := match blocks s with (h, _) :: _ => h | [] => ToBlock g end.

Inductive step (s : net) : event -> net -> Prop :=
  (** A transaction arrives, and the pool takes it or not, for reasons of [validateTx] or others. *)
  | step_submit v local other tx :
      let r := (_ ← validateTx v (hGasLimit (head s)) tx local; other) in
      step s (Submits tx r) (if is_ok r then {| blocks := blocks s; pool := pool s ++ [tx] |} else s)
  | step_drop tx : step s (Drops tx) {| blocks := blocks s; pool := filter (fun t => t <> tx) (pool s) |}
  (** [commitNewWork] makes a block on the head, and the engine seals it or not. *)
  | step_seal from apply order c signers recents signer signFn :
      Clique (genesisConfig g) = Some c -> meters apply -> order ⊆+ pool s ->
      let number := Number (head s) + 1 in
      let limit := CalcGasLimit (head s) in
      let work := commitTransactions from apply [] limit order in
      let r := Seal c signers recents signer signFn number (fst work) in
      step s (Seals r)
        (match r with
         | Ok true => {| blocks := ({| Number := number; hGasLimit := limit; GasUsed := snd work |}, fst work) :: blocks s;
                         pool := filter (fun t => (t ∉ fst work) /\ (TxGas t <= limit)) (pool s) |}
         | _ => s
         end).

Inductive steps : net -> list event -> net -> Prop :=
  | steps_refl s : steps s [] s
  | steps_cons s e s' es s'' : step s e s' -> steps s' es s'' -> steps s (e :: es) s''.
End network.

(** ** What the parts do *)

(** The pool takes no transaction with more gas than the limit of the head. *)
Lemma validateTx_refuses v limit tx local :
  limit < TxGas tx -> validateTx v limit tx local = Err ErrOversizedData \/ validateTx v limit tx local = Err ErrGasLimit.
Proof.
  intros H. unfold validateTx. destruct (32 * 1024 <? Size v tx); [by left|]. right.
  apply N.ltb_lt in H. by rewrite H.
Qed.
Lemma validateTx_limit v limit tx local : TxGas tx <= limit -> validateTx v limit tx local <> Err ErrGasLimit.
Proof.
  intros H. unfold validateTx. destruct (32 * 1024 <? Size v tx); [done|]. apply N.ltb_ge in H. rewrite H.
  destruct (Sender v tx) as [from|e|p]; [|done..]. repeat (case_match; [done|]). unfold IntrinsicGas.
  repeat case_match; cbn; try done; case_match; done.
Qed.

Section committing.
Context (from : Transaction -> Address) (apply : Transaction -> applied) (Hm : meters apply).

(** The gas of a block is within its limit, and its transactions are pending ones. *)
Lemma commit_within popped gp txs : snd (commitTransactions from apply popped gp txs) <= gp.
Proof.
  revert popped gp. induction txs as [|tx txs IH]; intros popped gp; cbn [commitTransactions snd]; [lia|].
  destruct (gp <? TxGas_); [cbn; lia|]. destruct (bool_decide _); [apply IH|].
  destruct (apply tx) as [pop| |gas] eqn:Ha; [apply IH|..]; destruct (N.ltb_spec gp (TxGas tx)) as [|Hg]; try apply IH.
  - etrans; [apply IH|lia].
  - specialize (IH popped (gp - gas)). destruct (commitTransactions _ _ _ _ _) as [l n]. cbn [snd] in *.
    apply Hm in Ha. lia.
Qed.
Lemma commit_subset popped gp txs : Forall (fun tx => tx ∈ txs) (fst (commitTransactions from apply popped gp txs)).
Proof.
  revert popped gp. induction txs as [|tx txs IH]; intros popped gp; cbn [commitTransactions fst]; [constructor|].
  assert (forall p g, Forall (fun t => t ∈ tx :: txs) (fst (commitTransactions from apply p g txs))) as IH'.
  { intros p g. eapply Forall_impl; [apply IH|]. intros t Ht. by right. }
  destruct (gp <? TxGas_); [constructor|]. destruct (bool_decide _); [apply IH'|].
  destruct (apply tx) as [pop| |gas]; [apply IH'|..]; destruct (gp <? TxGas tx); try apply IH'.
  specialize (IH' popped (gp - gas)). destruct (commitTransactions _ _ _ _ _) as [l n]. cbn [fst] in *. constructor; [left|done].
Qed.

(** Of transactions that all have the gas limit [G], none fits in less, and
    one leaves no room for another. *)
Context (G : N).
Lemma commit_none popped gp txs :
  Forall (fun tx => TxGas tx = G) txs -> gp < G -> fst (commitTransactions from apply popped gp txs) = [].
Proof.
  intros Hall. revert popped gp. induction Hall as [|tx txs Htx _ IH]; intros popped gp Hg; cbn [commitTransactions]; [done|].
  destruct (gp <? TxGas_); [done|]. destruct (bool_decide _); [by apply IH|].
  rewrite <- Htx in Hg. apply N.ltb_lt in Hg as Hlt. rewrite Hlt. rewrite Htx in Hg. destruct (apply tx); by apply IH.
Qed.
Lemma commit_one popped gp txs :
  Forall (fun tx => TxGas tx = G) txs -> gp < G + TxGas_ / 2 ->
  (length (fst (commitTransactions from apply popped gp txs)) <= 1)%nat.
Proof.
  intros Hall. revert popped gp. induction Hall as [|tx txs Htx Hall IH]; intros popped gp Hg; cbn [commitTransactions fst length]; [lia|].
  destruct (gp <? TxGas_); [cbn; lia|]. destruct (bool_decide _); [by apply IH|].
  destruct (apply tx) as [pop| |gas] eqn:Ha; [by apply IH|..]; destruct (N.ltb_spec gp (TxGas tx)) as [|Hge]; try by apply IH.
  - apply IH. lia.
  - apply Hm in Ha. pose proof (commit_none popped (gp - gas) txs Hall ltac:(lia)) as E.
    destruct (commitTransactions _ _ _ _ _) as [l n]. cbn [fst] in *. subst l. cbn. lia.
Qed.
End committing.

(** ** The gas limit of a chain *)

#[local] Ltac Zify.zify_post_hook ::= Z.div_mod_to_equations.

(** No block uses this much. *)
Definition huge : N := 2 ^ 62.

(** [CalcGasLimit], where nothing wraps. *)
Lemma CalcGasLimit_eq h :
  1024 <= hGasLimit h -> hGasLimit h <= 2 ^ 63 -> GasUsed h <= huge ->
  let contrib := (GasUsed h + GasUsed h / 2) / 1024 in
  let decay := hGasLimit h / 1024 - 1 in
  let limit := N.max 5000 (hGasLimit h - decay + contrib) in
  CalcGasLimit h = if limit <? GenesisGasLimit then N.min GenesisGasLimit (hGasLimit h + decay) else limit.
Proof.
  unfold CalcGasLimit, u64, sub64, u64, MinGasLimit, TargetGasLimit, GasLimitBoundDivisor, GenesisGasLimit, huge.
  generalize (hGasLimit h), (GasUsed h). intros l u H1 H2 H3. cbn zeta.
  change (2 ^ 63) with 9223372036854775808 in *. change (2 ^ 62) with 4611686018427387904 in *.
  change (2 ^ 64) with 18446744073709551616 in *.
  rewrite (N.mod_small (u + u / 2)) by lia.
  assert ((l / 1024 + 18446744073709551616 - 1) mod 18446744073709551616 = l / 1024 - 1) as ->.
  { replace (l / 1024 + 18446744073709551616 - 1) with (l / 1024 - 1 + 1 * 18446744073709551616) by lia.
    rewrite N.Div0.mod_add. apply N.mod_small. lia. }
  assert ((l + 18446744073709551616 - (l / 1024 - 1)) mod 18446744073709551616 = l - (l / 1024 - 1)) as ->.
  { replace (l + 18446744073709551616 - (l / 1024 - 1)) with (l - (l / 1024 - 1) + 1 * 18446744073709551616) by lia.
    rewrite N.Div0.mod_add. apply N.mod_small. lia. }
  rewrite !N.mod_small by lia.
  generalize (l - (l / 1024 - 1) + (u + u / 2) / 1024), (l + (l / 1024 - 1)). intros a b.
  destruct (N.ltb_spec a 5000);
  repeat (match goal with |- context [if ?x <? ?y then _ else _] => destruct (N.ltb_spec x y) end); lia.
Qed.

(** A limit that has come to the target stays there or above. *)
Lemma CalcGasLimit_floor h :
  GenesisGasLimit <= hGasLimit h <= 2 ^ 63 -> GasUsed h <= huge -> GenesisGasLimit <= CalcGasLimit h <= 2 ^ 63.
Proof.
  intros [H1 H2] H3. rewrite CalcGasLimit_eq by (unfold GenesisGasLimit in *; lia). cbn zeta.
  unfold GenesisGasLimit, huge in *. change (2 ^ 63) with 9223372036854775808 in *. change (2 ^ 62) with 4611686018427387904 in *.
  match goal with |- context [if ?x <? ?y then _ else _] => destruct (N.ltb_spec x y) end; lia.
Qed.

(** Below the target it grows as much as it can, whatever the blocks use. *)
Lemma CalcGasLimit_grows h :
  1024 <= hGasLimit h <= 4709181 -> GasUsed h <= hGasLimit h ->
  CalcGasLimit h = N.min GenesisGasLimit (hGasLimit h + (hGasLimit h / 1024 - 1)).
Proof.
  intros [H1 H2] H3. rewrite CalcGasLimit_eq by (unfold huge; lia). cbn zeta. unfold GenesisGasLimit in *.
  destruct (N.ltb_spec (N.max 5000 (hGasLimit h - (hGasLimit h / 1024 - 1) + (GasUsed h + GasUsed h / 2) / 1024)) 4712388); lia.
Qed.

(** At the target it stays while the blocks are at most two thirds full. *)
Definition twoThirds : N := 3140000.
Lemma CalcGasLimit_stays h : hGasLimit h = GenesisGasLimit -> GasUsed h <= twoThirds -> CalcGasLimit h = GenesisGasLimit.
Proof.
  intros H1 H2. rewrite CalcGasLimit_eq by (rewrite ?H1; unfold GenesisGasLimit, huge, twoThirds in *; lia). cbn zeta.
  rewrite H1. unfold GenesisGasLimit, twoThirds in *.
  match goal with |- context [if ?x <? ?y then _ else _] => destruct (N.ltb_spec x y) end; lia.
Qed.

(** The limits of the first blocks of the test network, and what comes after. *)
Definition testnetLimit (n : nat) (limit : N) : Prop :=
  match n with
  | 0%nat => limit = 4700000
  | 1%nat => limit = 4704588
  | 2%nat => limit = 4709181
  | _ => GenesisGasLimit <= limit <= 2 ^ 63
  end.

Lemma testnetLimit_next n h :
  testnetLimit n (hGasLimit h) -> GasUsed h <= hGasLimit h -> GasUsed h <= huge -> testnetLimit (S n) (CalcGasLimit h).
Proof.
  intros Hl Hu Hh. destruct n as [|[|[|n]]]; cbn [testnetLimit] in *.
  3: rewrite CalcGasLimit_grows by (rewrite ?Hl in *; lia); rewrite Hl; by split.
  1-2: rewrite CalcGasLimit_grows by (rewrite ?Hl in *; lia); by rewrite Hl.
  by apply CalcGasLimit_floor.
Qed.

(** ** Histories *)
Section histories.
Context (g : Genesis).
Abbreviation head_ := (head g).

(** A step either keeps the blocks, and puts no transaction into the pool but one
    that was submitted, or adds the block that is made on the head. *)
Lemma net_step_inv s e s' : step g s e s' ->
  (blocks s' = blocks s /\
   forall tx, tx ∈ pool s' -> tx ∈ pool s \/ (exists r, e = Submits tx r)) \/
  (exists from apply order,
     let work := commitTransactions from apply [] (CalcGasLimit (head_ s)) order in
     e = Seals (Ok true) /\ meters apply /\ order ⊆+ pool s /\
     blocks s' = ({| Number := Number (head_ s) + 1; hGasLimit := CalcGasLimit (head_ s); GasUsed := snd work |}, fst work) :: blocks s /\
     (forall tx, tx ∈ pool s' -> tx ∈ pool s)).
Proof.
  intros [v local other tx r|tx|from apply order c signers recents signer signFn Hc Hm Ho number limit work r].
  - left. destruct (is_ok r); [|by eauto]. cbn. split; [done|]. intros t [|Ht]%elem_of_app; [by left|].
    apply list_elem_of_singleton in Ht as ->. right. by exists r.
  - left. cbn. split; [done|]. intros t [_ Ht]%list_elem_of_filter. by left.
  - destruct r as [[|]|er|p] eqn:Hr; [|by left; eauto..].
    right. exists from, apply, order. cbn. split; [done|]. do 2 (split; [done|]). split; [done|].
    by intros t [_ Ht]%list_elem_of_filter.
Qed.

(** Blocks are within their limits and are added at the head. *)
Lemma steps_blocks s es s' : steps g s es s' -> exists bs, blocks s' = bs ++ blocks s /\
  Forall (fun b => GasUsed (fst b) <= hGasLimit (fst b)) bs.
Proof.
  induction 1 as [s|s e s1 es s2 Hs _ (bs & -> & Hb)]; [by exists []|].
  apply net_step_inv in Hs as [[-> _]|(from & apply & order & _ & Hm & _ & -> & _)]; [by exists bs|].
  eexists (bs ++ [_]). rewrite <- app_assoc. split; [done|]. apply Forall_app_2; [done|]. constructor; [|done]. cbn. by apply commit_within.
Qed.

(** What holds of the heads: by induction over the blocks of a history. *)
Definition within (s : net) : Prop := Forall (fun b => GasUsed (fst b) <= huge) (blocks s).

Lemma steps_ind_blocks (P : nat -> Header -> Prop) :
  P 0%nat (ToBlock g) ->
  (forall n h u, P n h -> GasUsed h <= huge -> u <= CalcGasLimit h -> u <= huge ->
     P (S n) {| Number := Number h + 1; hGasLimit := CalcGasLimit h; GasUsed := u |}) ->
  forall es s, steps g start es s -> within s -> P (length (blocks s)) (head_ s).
Proof.
  intros H0 HS.
  assert (forall s es s', steps g s es s' -> P (length (blocks s)) (head_ s) -> within s' -> P (length (blocks s')) (head_ s')) as H.
  { intros s es s' Hst. induction Hst as [s|s e s1 es s2 Hs Hst IH]; [done|]. intros HP Hw. apply IH; [|done].
    apply net_step_inv in Hs as [[Hb _]|(from & apply & order & _ & Hm & _ & Hb & _)].
    - unfold head. by rewrite Hb.
    - unfold head at 1. rewrite Hb. cbn [length].
      assert (Forall (fun b => GasUsed (fst b) <= huge) (blocks s1)) as Hw1.
      { destruct (steps_blocks _ _ _ Hst) as (bs & Hbs & _). unfold within in Hw. rewrite Hbs in Hw. by apply Forall_app in Hw as [_ ?]. }
      rewrite Hb in Hw1. apply Forall_cons in Hw1 as [Hu Hw1]. apply HS; [done| |by apply commit_within|exact Hu].
      unfold head. destruct (blocks s) as [|[h txs] ?]; [done|]. by apply Forall_cons in Hw1 as [? _]. }
  intros es s Hs. apply (H start es s Hs H0).
Qed.
End histories.

Lemma testnet_extra :
  MustDecode "0x0000000000000000000000000000000000000000000000000000000000000000b813999c1df85bb411dfd70b76635e834abc5fb80000000000000000000000000000000000000000000000000000000000000000000000000000000000000000000000000000000000000000000000000000000000" =
  Ok (replicate 32 (N2b 0) ++ abytes testnetSigner ++ replicate 65 (N2b 0)).
Proof. vm_compute. reflexivity. Qed.
Lemma testnet_genesis : exists g, testnetGenesisBlock = Ok g /\ ToBlock g = {| Number := 0; hGasLimit := 4700000; GasUsed := 0 |} /\
  Clique (genesisConfig g) = Some {| Period := 0; Epoch := 30000 |} /\
  ExtraData g = replicate 32 (N2b 0) ++ abytes testnetSigner ++ replicate 65 (N2b 0) /\ Alloc g = {[testnetSigner := manyWei]}.
Proof. unfold testnetGenesisBlock. rewrite testnet_extra. by eexists. Qed.

(** C16: the gas limit on the networks of the program.  On the test network the
    first blocks have limits below the gas of every call of the registry's
    client, whatever these blocks hold, and from the third block on no limit
    is below it: before that block the pool refuses every such call, and
    after it the pool never refuses one for its gas.  On the development chain
    it never does. *)
Theorem client_gas_limits (g : Genesis) (es : list event) (s : net) :
  steps g start es s -> within s ->
  let n := length (blocks s) in
  let limit := hGasLimit (head g s) in
  (testnetGenesisBlock = Ok g ->
     testnetLimit n limit /\
     forall v tx local, TxGas tx = GenesisGasLimit ->
       ((n < 3)%nat -> is_ok (validateTx v limit tx local) = false) /\
       ((3 <= n)%nat -> validateTx v limit tx local <> Err ErrGasLimit)) /\
  ((exists period faucet, g = DeveloperGenesisBlock period faucet) ->
     forall v tx local, TxGas tx = GenesisGasLimit -> validateTx v limit tx local <> Err ErrGasLimit).
Proof.
  intros Hs Hw n limit. split.
  - intros Hg. destruct testnet_genesis as (g' & Hg' & H0 & _). rewrite Hg in Hg'. injection Hg' as <-.
    assert (testnetLimit n limit /\ (GasUsed (head g s) <= hGasLimit (head g s))) as [Hl _].
    { refine (steps_ind_blocks g (fun n h => testnetLimit n (hGasLimit h) /\ (GasUsed h <= hGasLimit h)) _ _ es s Hs Hw).
      - rewrite H0. by split.
      - intros m h u [Hm Hu] Hh Hle Hh'. split; [|exact Hle]. by apply testnetLimit_next. }
    split; [exact Hl|]. intros v tx local Htx. split; intros Hn.
    + assert (limit < TxGas tx) as H.
      { rewrite Htx. unfold GenesisGasLimit. destruct n as [|[|[|n']]]; [by rewrite Hl..|lia]. }
      by destruct (validateTx_refuses v limit tx local H) as [-> | ->].
    + apply validateTx_limit. rewrite Htx. destruct n as [|[|[|n']]]; [lia..|]. apply Hl.
  - intros (period & faucet & ->) v tx local Htx. apply validateTx_limit. rewrite Htx.
    refine (proj1 (steps_ind_blocks _ (fun _ h => GenesisGasLimit <= hGasLimit h <= 2 ^ 63) _ _ es s Hs Hw)).
    + by split.
    + intros m h u Hl Hh _ _. by apply CalcGasLimit_floor.
Qed.

(** ** The registry's client on these networks *)

Section client.
Context `{Secp256k1} (nd : Chain.node) (sigHash : Transaction -> Hash).

(** A transaction that [transact] makes has the gas limit of the options, when there is one. *)
Lemma transact_gas turns c opts contract input ch tx ch' :
  @transact Chain.chain (Chain.backend nd turns) c opts contract input ch = (Ok tx, ch') ->
  GasLimit opts <> 0 ->
  (forall sign raw t, Signer opts = Some sign -> sign (From opts) raw = Ok t -> TxGas t = TxGas raw) ->
  TxGas tx = GasLimit opts.
Proof.
  intros E Hl Hsign. unfold transact in E. apply bind_ok_inv in E as (nonce & s1 & _ & E).
  apply bind_ok_inv in E as (price & s2 & _ & E). apply N.eqb_neq in Hl. rewrite Hl in E.
  rewrite (bind_ok _ _ s2 (GasLimit opts) s2) in E by done.
  destruct (Signer opts) as [sign|] eqn:Hs; [|done]. apply bind_ok_inv in E as (t & s3 & Ht & E).
  apply bind_ok_inv in E as (u & s4 & _ & E). injection E as <- _. unfold lift in Ht. injection Ht as Ht _.
  by rewrite (Hsign _ _ _ eq_refl Ht).
Qed.

(** The calls of a client of [NewClient] have [GenesisGasLimit], so a node
    that refuses it leaves [SetGraph] with an error and itself as it was. *)
Lemma SetGraph_refused turns generated heads close config ch0 cl ch (hash : Hash) (sig : bytes) r ch1 :
  (forall ch tx, TxGas tx = GenesisGasLimit -> Chain.accepts nd ch tx <> Ok tt) ->
  NewClient (B := Chain.chain) sigHash generated heads close config ch0 = (Ok cl, ch) ->
  @Session_SetGraph Chain.chain (Chain.backend nd turns) (registry cl) hash sig ch = (r, ch1) ->
  ch1 = ch /\ forall tx, r <> Ok tx.
Proof.
  intros Hrefuse (key & _ & ->)%NewClient_ok E.
  destruct (SetGraph_inv nd sigHash _ _ _ _ _ _ _ _ E) as [(tx & data & Hp & _ & Ha & -> & ->)|?]; [|done]. exfalso.
  apply (Hrefuse ch tx); [|done]. unfold Session_SetGraph, Transactor_SetGraph, Transact in E.
  apply bind_ok_inv in E as (input & s & _ & E).
  apply transact_gas in E; [exact E|done|]. intros sign raw t Hs Ht.
  by destruct (keyed_sign sigHash key sign raw t Hs Ht) as (sg & _ & ->).
Qed.
End client.

(** Only calls of the registry's client are submitted. *)
Definition onlyClients (es : list event) : Prop := forall tx r, Submits tx r ∈ es -> TxGas tx = GenesisGasLimit.

(** C15: the test network does not start by itself.  When nothing but calls of the
    registry's client is submitted, the pool refuses each of them and the
    chain stays at its genesis block, as the engine seals no empty blocks; so
    [SetGraph] fails on every such node, whoever calls it, and the node is as
    it was.  It takes transactions of another kind, in three blocks. *)
Theorem testnet_stalls (g : Genesis) (es : list event) (s : net) :
  testnetGenesisBlock = Ok g -> steps g start es s -> onlyClients es ->
  s = start /\ (forall tx r, Submits tx r ∈ es -> is_ok r = false) /\
  forall `{Secp256k1} (nd : Chain.node) sigHash (v : Chain.chain -> view) local turns generated heads close config ch0 cl ch (hash : Hash) (sig : bytes) r ch1,
    (forall ch tx, Chain.accepts nd ch tx = validateTx (v ch) (hGasLimit (head g s)) tx local) ->
    NewClient (B := Chain.chain) sigHash generated heads close config ch0 = (Ok cl, ch) ->
    @Session_SetGraph Chain.chain (Chain.backend nd turns) (registry cl) hash sig ch = (r, ch1) ->
    ch1 = ch /\ forall tx, r <> Ok tx.
Proof.
  intros Hg Hs Hc. destruct testnet_genesis as (g' & Hg' & H0 & Hcl & _). rewrite Hg in Hg'. injection Hg' as <-.
  assert (forall v tx local, TxGas tx = GenesisGasLimit -> is_ok (validateTx v (hGasLimit (head g start)) tx local) = false) as Hrefuse.
  { intros v tx local Htx. unfold head. cbn [start blocks]. rewrite H0. cbn [hGasLimit].
    by destruct (validateTx_refuses v 4700000 tx local ltac:(by rewrite Htx)) as [-> | ->]. }
  assert (forall s0 es s', steps g s0 es s' -> s0 = start -> onlyClients es ->
    s' = start /\ forall tx r, Submits tx r ∈ es -> is_ok r = false) as Hind.
  { induction 1 as [s0|s0 e s1 es1 s2 Hst _ IH]; intros -> Hcs; [split; [done|]; by intros tx r ?%elem_of_nil|].
    assert (s1 = start /\ forall tx r, e = Submits tx r -> is_ok r = false) as [-> He].
    { inversion Hst as [v local other tx r|tx|from apply order c signers recents signer signFn Hcq Hm Ho number limit work r]; subst.
      - assert (is_ok r = false) as Hr.
        { subst r. specialize (Hrefuse v tx local (Hcs _ _ (list_elem_of_here _ _))). by destruct (validateTx _ _ _ _). }
        rewrite Hr. split; [done|]. by intros t r' [= _ <-].
      - done.
      - assert (order = []) as -> by (by apply submseteq_nil_r in Ho). rewrite Hcl in Hcq. injection Hcq as <-.
        assert (r = Err errWaitTransactions) as Hr by (subst r number; unfold head; cbn [start blocks]; by rewrite H0).
        rewrite Hr. split; [done|]. by intros t r' [=]. }
    destruct (IH eq_refl) as [-> Hes]; [intros t r' Hin; eapply Hcs; by right|]. split; [done|].
    intros tx r [Heq|Hin]%elem_of_cons; [by eapply He|by eapply Hes]. }
  destruct (Hind start es s Hs eq_refl Hc) as [-> Hall]. split; [done|]. split; [exact Hall|].
  intros. eapply SetGraph_refused; [|eassumption..]. intros c tx Htx E.
  match goal with H : forall ch tx, Chain.accepts _ _ _ = _ |- _ => rewrite H in E end.
  specialize (Hrefuse (v c) tx local Htx). by rewrite E in Hrefuse.
Qed.

(** C17: one call in a block.  On a chain whose gas limit has come to its target,
    with blocks at most two thirds full and no transactions but calls of the
    registry's client, which each ask for all the gas of a block, a block
    holds at most one of them: in as many blocks as there are, at most that
    many calls take effect, however many are waiting. *)
Theorem one_call_per_block (g : Genesis) (s s' : net) (es : list event) (bs : list (Header * list Transaction)) :
  steps g s es s' -> onlyClients es -> Forall (fun tx => TxGas tx = GenesisGasLimit) (pool s) ->
  hGasLimit (head g s) = GenesisGasLimit -> GasUsed (head g s) <= twoThirds ->
  blocks s' = bs ++ blocks s -> Forall (fun b => GasUsed (fst b) <= twoThirds) bs ->
  Forall (fun b => length (snd b) <= 1)%nat bs /\ (length (concat (snd <$> bs)) <= length bs)%nat.
Proof.
  intros Hs Hc Hp Hl Hu Hb Hbs.
  assert (Forall (fun b => length (snd b) <= 1)%nat bs) as H1.
  { revert bs Hb Hbs. induction Hs as [s|s e s1 es s2 Hst Hs IH]; intros bs Hb Hbs.
    { apply (app_inv_tail (blocks s) [] bs) in Hb as <-. constructor. }
    assert (onlyClients es) as Hc' by (intros tx r Hin; eapply Hc; by right).
    apply net_step_inv in Hst as [[Hb1 Hp1]|(from & apply & order & -> & Hm & Ho & Hb1 & Hp1)].
    - unfold head in *. rewrite Hb1 in *. apply IH; try done.
      apply Forall_forall. intros tx [Hin|[r ->]]%Hp1; [by eapply Forall_forall in Hp|]. eapply Hc. left.
    - destruct (steps_blocks _ _ _ _ Hs) as (bs2 & Hb2 & _). set (b := (_, _)) in Hb1.
      assert (bs = bs2 ++ [b]) as ->.
      { apply (app_inv_tail (blocks s)). rewrite <- Hb, Hb2, Hb1. by rewrite <- app_assoc. }
      apply Forall_app in Hbs as [Hbs2 [Hbu _]%Forall_cons]. pose proof (CalcGasLimit_stays _ Hl Hu) as Hcalc.
      apply Forall_app_2.
      + apply IH; try done.
        * apply Forall_forall. intros tx Hin%Hp1. by eapply Forall_forall in Hp.
        * unfold head. rewrite Hb1. exact Hcalc.
        * unfold head. rewrite Hb1. exact Hbu.
      + apply Forall_singleton. subst b. cbn [snd]. rewrite Hcalc. apply (commit_one from apply Hm GenesisGasLimit).
        * apply Forall_forall. intros tx Hin. eapply Forall_forall in Hp; [done|]. by eapply elem_of_submseteq.
        * by vm_compute. }
  split; [exact H1|]. clear -H1. induction H1 as [|b bs Hb _ IH]; [done|]. cbn. rewrite length_app. lia.
Qed.

(** Who starts a chain: in the genesis block of either network there is one
    signer, and all the money but a wei for each of the precompiled contracts
    is its own. *)
Theorem genesis_signer (g : Genesis) :
  testnetGenesisBlock = Ok g \/ (exists period faucet, g = DeveloperGenesisBlock period faucet) ->
  exists a, genesisSigners g = [a] /\ Alloc g !! a = Some manyWei /\ forall b w, b <> a -> Alloc g !! b = Some w -> w = 1.
Proof.
  assert (forall g a, ExtraData g = replicate 32 (N2b 0) ++ abytes a ++ replicate 65 (N2b 0) -> genesisSigners g = [a]) as Hsig.
  { intros g' a E. unfold genesisSigners, extraVanity, extraSeal, AddressLength. rewrite E.
    rewrite !length_app, !length_replicate, array_length. change ((32 + (20 + 65) - 32 - 65) / 20)%nat with 1%nat.
    cbn [takeSigners]. rewrite drop_app_length' by done. rewrite take_app_length' by (by rewrite array_length).
    by rewrite array_of_abytes. }
  intros [Hg|(period & faucet & ->)].
  - destruct testnet_genesis as (g' & Hg' & _ & _ & He & Ha). rewrite Hg in Hg'. injection Hg' as <-. exists testnetSigner.
    split; [by apply Hsig|]. rewrite Ha. split; [apply lookup_singleton_eq|].
    intros b w Hb [E _]%lookup_singleton_Some. by destruct Hb.
  - exists faucet. split; [by apply Hsig|]. cbn [Alloc DeveloperGenesisBlock]. split; [apply lookup_insert_eq|].
    intros b w Hb. rewrite lookup_insert_ne by done.
    intros Hw%elem_of_list_to_map_2. apply list_elem_of_fmap in Hw as (i & [= -> ->] & _). done.
Qed.

(** ** Witnesses *)

Section witnesses.

Definition testnet : Genesis :=
  match testnetGenesisBlock with Ok g => g | _ => DeveloperGenesisBlock 0 zeroAddress end.
Lemma testnet_is : testnetGenesisBlock = Ok testnet.
Proof. unfold testnet. destruct testnet_genesis as (g & -> & _). reflexivity. Defined.

(** The signer has money, and the transactions are its own. *)
Definition aView : view :=
  {| Size := fun _ => 110; Sender := fun _ => Ok testnetSigner; locals := fun _ => false; lowest := 0;
     GetNonce := fun _ => 0; GetBalance := fun _ => manyWei; homestead := true |}.
Definition transfer : Transaction :=
  {| TxNonce := 0; TxTo := Some zeroAddress; TxValue := 1; TxGas := 21000; TxGasPrice := 1; TxData := []; TxSignature := [] |}.
Definition call (nonce : N) : Transaction :=
  {| TxNonce := nonce; TxTo := Some zeroAddress; TxValue := 0; TxGas := GenesisGasLimit; TxGasPrice := 1; TxData := []; TxSignature := [] |}.
Definition uses (tx : Transaction) : applied := Used 21000.
Definition sender (_ : Transaction) : Address := testnetSigner.
Definition clique : CliqueConfig := {| Period := 0; Epoch := 30000 |}.

Definition uses_ (tx : Transaction) : applied := if TxGas tx <? 21000 then Failed else uses tx.
Lemma uses_meters : meters uses_.
Proof.
  intros tx gas. unfold uses_, uses. destruct (N.ltb_spec (TxGas tx) 21000); [done|]. intros [= <-]. unfold TxGas_. split; [done|lia].
Defined.

(** A transfer of the signer's is submitted and sealed in a block. *)
Definition afterTransfer : net :=
  {| blocks := [({| Number := 1; hGasLimit := 4704588; GasUsed := 21000 |}, [transfer])]; pool := [] |}.
Lemma a_block : steps testnet start [Submits transfer (Ok tt); Seals (Ok true)] afterTransfer.
Proof.
  refine (steps_cons _ _ _ _ _ _ (step_submit testnet start aView true (Ok tt) transfer) _).
  refine (steps_cons _ _ _ _ _ _ (step_seal testnet _ sender uses_ [transfer] clique [testnetSigner] [] testnetSigner (Ok tt)
            _ uses_meters _) _).
  - vm_compute. reflexivity.
  - apply (submseteq_skip transfer [] []), submseteq_nil.
  - exact (steps_refl testnet afterTransfer).
Defined.
Lemma client_gas_limits_witness :
  within afterTransfer /\ hGasLimit (head testnet afterTransfer) = 4704588 /\ is_ok (validateTx aView (hGasLimit (head testnet afterTransfer)) (call 1) true) = false.
Proof.
  assert (within afterTransfer) as Hw by (apply (Forall_cons_2 _ _ []); [vm_compute; discriminate|apply Forall_nil_2]).
  split; [exact Hw|].
  destruct (client_gas_limits testnet _ afterTransfer a_block Hw) as [H _]. destruct (H testnet_is) as [Hl Hr].
  split; [exact Hl|]. apply (Hr aView (call 1) true eq_refl). cbn. lia.
Defined.

(** A call is refused, and no block is sealed. *)
Lemma testnet_stalls_witness :
  steps testnet start [Submits (call 0) (Err ErrGasLimit); Seals (Err errWaitTransactions)] start /\
  start = start /\ is_ok (Err ErrGasLimit : result unit) = false.
Proof.
  assert (steps testnet start [Submits (call 0) (Err ErrGasLimit); Seals (Err errWaitTransactions)] start) as Hs.
  { refine (steps_cons _ _ _ _ _ _ (step_submit testnet start aView true (Ok tt) (call 0)) _).
    refine (steps_cons _ _ _ _ _ _ (step_seal testnet _ sender uses_ [] clique [testnetSigner] [] testnetSigner (Ok tt)
              _ uses_meters _) _).
    - vm_compute. reflexivity.
    - apply submseteq_nil.
    - exact (steps_refl testnet start). }
  split; [exact Hs|].
  destruct (testnet_stalls testnet _ start testnet_is Hs) as (E & H & _).
  - intros tx r [[= -> ->]|[[=]|[]%elem_of_nil]%elem_of_cons]%elem_of_cons. reflexivity.
  - split; [exact E|]. apply (H (call 0)). left.
Defined.

(** Two calls wait; a block takes one. *)
Definition full : net :=
  {| blocks := [({| Number := 3; hGasLimit := GenesisGasLimit; GasUsed := 21000 |}, [])]; pool := [call 0; call 1] |}.
Definition drained : net :=
  {| blocks := ({| Number := 4; hGasLimit := GenesisGasLimit; GasUsed := 21000 |}, [call 0]) :: blocks full; pool := [call 1] |}.
Lemma one_call_per_block_witness :
  steps testnet full [Seals (Ok true)] drained /\
  (length (concat (snd <$> [({| Number := 4; hGasLimit := GenesisGasLimit; GasUsed := 21000 |}, [call 0])])) <= 1)%nat.
Proof.
  assert (steps testnet full [Seals (Ok true)] drained) as Hs.
  { refine (steps_cons _ _ _ _ _ _ (step_seal testnet full sender uses_ [call 0; call 1] clique [testnetSigner] [] testnetSigner (Ok tt)
              _ uses_meters _) _).
    - vm_compute. reflexivity.
    - reflexivity.
    - exact (steps_refl testnet drained). }
  split; [exact Hs|].
  refine (proj2 (one_call_per_block testnet full drained _ [_] Hs _ _ _ _ _ _)).
  - intros tx r [[=]|[]%elem_of_nil]%elem_of_cons.
  - repeat constructor.
  - reflexivity.
  - vm_compute. discriminate.
  - reflexivity.
  - apply (Forall_cons_2 _ _ []); [vm_compute; discriminate|apply Forall_nil_2].
Defined.

Lemma genesis_signer_witness : testnetGenesisBlock = Ok testnet /\ exists a, genesisSigners testnet = [a].
Proof.
  split; [exact testnet_is|]. destruct (genesis_signer testnet (or_introl testnet_is)) as (a & H & _). exists a. exact H.
Defined.
End witnesses.
