(* ===== verification/Claim.v ===== *)
(** * Claims

    [api/types.go] and [verifyClaim] of [api/graphql.go]: a claim, the
    identifier its issuer signs, the check of the signature, and the three
    forms a claim travels in: the JSON object of strings, the record written
    to a graph as quads, and the input of the GraphQL mutation.  The text of
    JSON strings is the standard library's business and is not modelled: a
    JSON object is the record of its string members. *)
From S2P Require Import Prelude Keccak Common Crypto Contract.

(** [ID] embeds an address. *)
Definition HexToID (s : bytes) : Address := HexToAddress s.

Record Claim := {
  Issuer : Address; Subject : Address; Property : bytes; claim : bytes; Signature : bytes;
}.
#[global] Instance Claim_eq_dec : EqDecision Claim.
Proof. solve_decision. Defined.

(** [crypto.Keccak256Hash]. *)
Definition Keccak256Hash (data : list bytes) : Hash := SetBytes (zero_array 32) (Keccak256 data).

Definition Claim_ID (c : Claim) : Hash :=
  Keccak256Hash [abytes (Issuer c); abytes (Subject c); Property c; claim c].

(** The JSON form: [claimJSON]. *)
Record claimJSON := {
  jsonID : bytes; jsonIssuer : bytes; jsonSubject : bytes; jsonProperty : bytes;
  jsonClaim : bytes; jsonSignature : bytes;
}.

Definition MarshalJSON (c : Claim) : claimJSON :=
  {| jsonID := Hash_Hex (Claim_ID c); jsonIssuer := Address_Hex (Issuer c);
     jsonSubject := Address_Hex (Subject c); jsonProperty := Property c;
     jsonClaim := claim c; jsonSignature := Encode (Signature c) |}.

(** The member [id] is not read back: it is computed. *)
Definition UnmarshalJSON (v : claimJSON) : Claim :=
  {| Issuer := HexToID (jsonIssuer v); Subject := HexToID (jsonSubject v);
     Property := jsonProperty v; claim := jsonClaim v; Signature := FromHex (jsonSignature v) |}.

(** The form written to a graph: [claimQuad]; the first three fields are IRIs. *)
Record claimQuad := {
  quadID : bytes; quadIssuer : bytes; quadSubject : bytes; quadProperty : bytes;
  quadClaim : bytes; quadSignature : bytes;
}.

Definition Quad (c : Claim) : claimQuad :=
  {| quadID := Hash_Hex (Claim_ID c); quadIssuer := Address_Hex (Issuer c);
     quadSubject := Address_Hex (Subject c); quadProperty := Property c;
     quadClaim := claim c; quadSignature := Encode (Signature c) |}.

Definition ToClaim (c : claimQuad) : Claim :=
  {| Issuer := HexToID (quadIssuer c); Subject := HexToID (quadSubject c);
     Property := quadProperty c; claim := quadClaim c; Signature := FromHex (quadSignature c) |}.

(** The input of the mutation: built by the client's [CreateClaim], read by
    the resolver of the same name. *)
Record ClaimInput := {
  inGraph : bytes; inIssuer : bytes; inSubject : bytes; inProperty : bytes;
  inClaim : bytes; inSignature : bytes;
}.

Definition claimInput (graph : bytes) (c : Claim) : ClaimInput :=
  {| inGraph := graph; inIssuer := Address_Hex (Issuer c); inSubject := Address_Hex (Subject c);
     inProperty := Property c; inClaim := claim c; inSignature := Encode (Signature c) |}.

Definition ofInput (v : ClaimInput) : Claim :=
  {| Issuer := HexToID (inIssuer v); Subject := HexToID (inSubject v);
     Property := inProperty v; claim := inClaim v; Signature := FromHex (inSignature v) |}.

Definition verifyClaim `{Secp256k1} (c : Claim) : bool :=
  match signer (Claim_ID c) (Signature c) with
  | Ok a => bool_decide (a = Issuer c)
  | _ => false
  end.

(** ** Identifiers *)

Lemma Keccak256Hash_bytes data : abytes (Keccak256Hash data) = Keccak256 data.
Proof. simpl. by rewrite Keccak256_length, take_0, drop_0. Qed.

(** The identifier hashes the concatenation of the four parts. *)
Lemma Claim_ID_concat c :
  Claim_ID c = Keccak256Hash [abytes (Issuer c) ++ abytes (Subject c) ++ Property c ++ claim c].
Proof.
  apply array_eq. unfold Claim_ID. rewrite !Keccak256Hash_bytes, Keccak256_concat. simpl.
  by rewrite app_nil_r.
Qed.

(** A collision of the hash function. *)
Definition collision (x y : bytes) : Prop := x <> y /\ Keccak256 [x] = Keccak256 [y].

Lemma Keccak256Hash_inj x y : Keccak256Hash [x] = Keccak256Hash [y] -> x = y \/ collision x y.
Proof.
  intros E. apply (f_equal abytes) in E. rewrite !Keccak256Hash_bytes in E.
  destruct (decide (x = y)); [by left|]. by right.
Qed.

(** The fixed-width parts can be told apart. *)
Lemma app_array_inj {n} (a b : array n) (l l' : bytes) :
  abytes a ++ l = abytes b ++ l' -> a = b /\ l = l'.
Proof.
  intros E. apply app_inj_1 in E as [E ->]; [|by rewrite !array_length].
  split; [by apply array_eq|done].
Qed.

Section verify.
Context `{Secp256k1}.

Lemma verifyClaim_true c :
  verifyClaim c = true <-> signer (Claim_ID c) (Signature c) = Ok (Issuer c).
Proof.
  unfold verifyClaim. destruct (signer _ _) as [a|e|p]; [|done..].
  rewrite bool_decide_eq_true. split; [by intros ->|by intros [= ->]].
Qed.

Lemma verifyClaim_ID c d :
  Claim_ID c = Claim_ID d -> Issuer c = Issuer d -> Signature c = Signature d ->
  verifyClaim c = verifyClaim d.
Proof. unfold verifyClaim. by intros -> -> ->. Qed.
End verify.

Lemma ToClaim_Quad c : ToClaim (Quad c) = c.
Proof. destruct c. unfold ToClaim, Quad, HexToID. simpl. by autorewrite with hex. Qed.

Lemma ofInput_claimInput graph c : ofInput (claimInput graph c) = c.
Proof. destruct c. unfold ofInput, claimInput, HexToID. simpl. by autorewrite with hex. Qed.

(** ** The properties of claims *)

Section properties.
Context `{Secp256k1}.

(** A claim survives every form it travels in: the JSON object, the
    record written to a graph and the input of the mutation all read back
    as the same claim, whatever its strings and its signature; so its
    identifier and the verdict on its signature do not depend on the way
    it came. *)
Theorem claim_roundtrips (c : Claim) (graph : bytes) :
  UnmarshalJSON (MarshalJSON c) = c /\ ToClaim (Quad c) = c /\ ofInput (claimInput graph c) = c /\
  verifyClaim (ofInput (claimInput graph c)) = verifyClaim c.
Proof.
  split_and!; [|apply ToClaim_Quad|apply ofInput_claimInput|by rewrite ofInput_claimInput].
  destruct c. unfold UnmarshalJSON, MarshalJSON, HexToID. simpl. by autorewrite with hex.
Qed.

(** C31: the signature check is sound and complete for honest keys: a claim
    signed by [Sign] over its identifier verifies exactly when it names the
    signer's address as its issuer. *)
Theorem verifyClaim_signed `{!Secp256k1Laws} (key : array 32) (c : Claim) :
  Sign (Claim_ID c) key = Ok (Signature c) ->
  verifyClaim c = true <-> Issuer c = addressOf key.
Proof.
  intros Hs%signer_Sign. rewrite verifyClaim_true, Hs. split; [by intros [=]|by intros ->].
Qed.

(** What an identifier binds: two claims with the same identifier have
    the same issuer, the same subject and the same property and claim run
    together, unless they exhibit a collision of Keccak-256. *)
Theorem claim_id_binds (c d : Claim) :
  Claim_ID c = Claim_ID d ->
  (Issuer c = Issuer d /\ Subject c = Subject d /\ Property c ++ claim c = Property d ++ claim d) \/
  (exists x y, collision x y).
Proof.
  rewrite !Claim_ID_concat. intros [E|Hc]%Keccak256Hash_inj; [left|right; eauto].
  apply app_array_inj in E as [-> E]. by apply app_array_inj in E as [-> E].
Qed.

(** And what it does not bind: where the property ends and the claim
    begins.  Moving bytes across that boundary gives a different claim
    with the same identifier, for which the same signature verifies: an
    issuer's signature on one claim is a signature on another. *)
Theorem claim_boundary_unbound (issuer subject : Address) (p moved v sig : bytes) :
  moved <> [] ->
  let c := {| Issuer := issuer; Subject := subject; Property := p ++ moved; claim := v;
              Signature := sig |} in
  let d := {| Issuer := issuer; Subject := subject; Property := p; claim := moved ++ v;
              Signature := sig |} in
  c <> d /\ Claim_ID c = Claim_ID d /\ verifyClaim c = verifyClaim d.
Proof.
  intros Hm c d. assert (Claim_ID c = Claim_ID d) as E.
  { rewrite !Claim_ID_concat. simpl. by rewrite <- app_assoc. }
  split_and!; [|done|by apply verifyClaim_ID]. intros [= Hp].
  apply Hm. by apply (app_inv_head p); rewrite app_nil_r.
Qed.
End properties.

Section witnesses.
Import Toy.

Definition subject : Address := HexToAddress "0x5aaeb6053f3e94c9b9a09f33669435e7ef1beaed".
Definition aClaim : Claim :=
  {| Issuer := addressOf key; Subject := subject; Property := "name"; claim := "Ann";
     Signature := abytes (twice key) ++ [N2b 0] |}.

Lemma verifyClaim_signed_witness :
  Sign (Claim_ID aClaim) key = Ok (Signature aClaim) /\ verifyClaim aClaim = true.
Proof.
  assert (Sign (Claim_ID aClaim) key = Ok (Signature aClaim)) as H by (vm_compute; reflexivity).
  split; [exact H|]. apply (verifyClaim_signed key aClaim H). reflexivity.
Defined.

Definition shifted : Claim :=
  {| Issuer := addressOf key; Subject := subject; Property := "na"; claim := "meAnn";
     Signature := Signature aClaim |}.

Lemma claim_id_binds_witness :
  Claim_ID aClaim = Claim_ID shifted /\
  ((Issuer aClaim = Issuer shifted /\ Subject aClaim = Subject shifted /\
    Property aClaim ++ claim aClaim = Property shifted ++ claim shifted) \/
   (exists x y, collision x y)).
Proof.
  assert (Claim_ID aClaim = Claim_ID shifted) as E by (apply array_eq; vm_compute; reflexivity).
  split; [exact E|]. exact (claim_id_binds aClaim shifted E).
Defined.

(** "name: Ann" signed by its issuer is also "na: meAnn". *)
Lemma claim_boundary_unbound_witness :
  aClaim <> shifted /\ Claim_ID aClaim = Claim_ID shifted /\
  verifyClaim aClaim = verifyClaim shifted.
Proof.
  apply (claim_boundary_unbound (addressOf key) subject "na" "me" "Ann" (Signature aClaim)).
  discriminate.
Defined.
End witnesses.
