(* ===== verification/Quad.v ===== *)
(** * Quads

    The vendored package [quad] and the hashes of [graph/values.go]: values,
    their N-Quads text, the identifier of a value (the SHA-1 of its text), the
    parsing of raw text, and the JSON form in which [kord graph load] and
    [kord dapp deploy] send quads to a node.  The constructors are those of
    the values that reach a graph of go-kord: claims and dapps are IRIs and
    strings, and the N-Quads reader and the JSON form yield these five only
    (never the native integers, floats, booleans and times). *)
From S2P Require Import Prelude Sha1.

Inductive Value :=
  | IRI (s : bytes)
  | BNode (s : bytes)
  | String (s : bytes)
  | TypedString (value type : bytes)
  | LangString (value lang : bytes).
#[global] Instance Value_eq_dec : EqDecision Value.
Proof. solve_decision. Defined.

Definition quote : ascii := N2b 34.
Definition backslash : ascii := N2b 92.

(** [escaper.Replace]. *)
Definition escapeChar (c : ascii) : bytes :=
  if decide (c = backslash) then [backslash; backslash]
  else if decide (c = quote) then [backslash; quote]
  else if decide (c = N2b 10) then [backslash; "n"%char]
  else if decide (c = N2b 13) then [backslash; "r"%char]
  else if decide (c = N2b 9) then [backslash; "t"%char]
  else [c].
Definition escaper (s : bytes) : bytes := s ≫= escapeChar.

Definition quoted (s : bytes) : bytes := quote :: escaper s ++ [quote].
Definition bracketed (s : bytes) : bytes := "<"%char :: s ++ [">"%char].

(** [Value.String]. *)
Definition Value_String (v : Value) : bytes :=
  match v with
  | IRI s => bracketed s
  | BNode s => "_:" ++ s
  | String s => quoted s
  | TypedString s t => quoted s ++ "^^" ++ bracketed t
  | LangString s l => quoted s ++ "@" ++ l
  end.

Definition StringOf (v : option Value) : bytes :=
  match v with Some v => Value_String v | None => [] end.

(** [strings.Index]. *)
Fixpoint Index (s sub : bytes) : option nat :=
  if bool_decide (take (length sub) s = sub) then Some 0
  else match s with [] => None | _ :: s => S <$> Index s sub end.

Definition lastByte (s : bytes) : ascii := List.last s (N2b 0).

(** The text strictly between positions [i] and [j]: [v[i:j]]. *)
Definition slice (i j : nat) (v : bytes) : bytes := take (j - i) (drop i v).

Definition typedMark : bytes := [quote; "^"; "^"; "<"]%char.
Definition langMark : bytes := [quote; "@"]%char.

Definition indexPos (s sub : bytes) : option nat :=
  match Index s sub with Some (S i) => Some (S i) | _ => None end.

Definition StringToValue (v : bytes) : option Value :=
  let n := length v in
  let first := nth 0 v (N2b 0) in
  if n =? 0 then None
  else if negb (2 <? n) then Some (String v)
  else if bool_decide (first = "<"%char) && bool_decide (lastByte v = ">"%char)
  then Some (IRI (slice 1 (n - 1) v))
  else if bool_decide (first = quote) && bool_decide (lastByte v = quote)
  then Some (String (slice 1 (n - 1) v))
  else if bool_decide (take 2 v = "_:") then Some (BNode (drop 2 v))
  else
    match indexPos v typedMark, bool_decide (first = quote) && bool_decide (lastByte v = ">"%char) with
    | Some i, true => Some (TypedString (slice 1 i v) (slice (i + 4) (n - 1) v))
    | _, _ =>
        match indexPos v langMark, bool_decide (first = quote) && negb (bool_decide (lastByte v = quote)) with
        | Some i, true => Some (LangString (slice 1 i v) (drop (i + 2) v))
        | _, _ => Some (String v)
        end
    end.

Definition ToString (v : option Value) : bytes :=
  match v with Some (String s) => s | _ => StringOf v end.

(** ** Quads *)

Inductive Direction := Subject | Predicate | Object | Label.
Definition Directions : list Direction := [Subject; Predicate; Object; Label].

Record Quad := { qSubject : option Value; qPredicate : option Value;
                 qObject : option Value; qLabel : option Value }.
#[global] Instance Quad_eq_dec : EqDecision Quad.
Proof. solve_decision. Defined.

Definition Quad_Get (q : Quad) (d : Direction) : option Value :=
  match d with Subject => qSubject q | Predicate => qPredicate q
             | Object => qObject q | Label => qLabel q end.

(** The JSON object of a quad: [rawQuad]; the label is left out when empty,
    and an absent member reads as the empty string. *)
Record rawQuad := { rawSubject : bytes; rawPredicate : bytes; rawObject : bytes; rawLabel : bytes }.

Definition MarshalJSON (q : Quad) : rawQuad :=
  {| rawSubject := ToString (qSubject q); rawPredicate := ToString (qPredicate q);
     rawObject := ToString (qObject q); rawLabel := ToString (qLabel q) |}.

Definition MakeRaw (subject predicate object label : bytes) : Quad :=
  let v s := if bool_decide (s = []) then None else StringToValue s in
  {| qSubject := v subject; qPredicate := v predicate; qObject := v object; qLabel := v label |}.

Definition UnmarshalJSON (r : rawQuad) : Quad :=
  MakeRaw (rawSubject r) (rawPredicate r) (rawObject r) (rawLabel r).

(** ** Hashes *)

Abbreviation ValueHash := (array 20).

Definition HashOf (v : option Value) : ValueHash :=
  match v with None => zero_array 20 | Some v => sha1 (Value_String v) end.
#[global] Arguments HashOf : simpl never.

Definition Valid (h : ValueHash) : bool := negb (bool_decide (h = zero_array 20)).

Record QuadHash := { hSubject : ValueHash; hPredicate : ValueHash;
                     hObject : ValueHash; hLabel : ValueHash }.
#[global] Instance QuadHash_eq_dec : EqDecision QuadHash.
Proof. solve_decision. Defined.

Definition Dirs (q : QuadHash) : list ValueHash := [hSubject q; hPredicate q; hObject q; hLabel q].

(** The hash of every direction; a missing value leaves the zero hash. *)
Definition hashQuad (q : Quad) : QuadHash :=
  {| hSubject := HashOf (qSubject q); hPredicate := HashOf (qPredicate q);
     hObject := HashOf (qObject q); hLabel := HashOf (qLabel q) |}.

(** ** The text of a value determines it *)

(** Read an escaped text up to the quote that ends it. *)
Fixpoint unquote (s : bytes) : option (bytes * bytes) :=
  match s with
  | [] => None
  | c :: s' =>
      if decide (c = quote) then Some ([], s')
      else if decide (c = backslash) then
        match s' with
        | [] => None
        | d :: s'' =>
            let e := if decide (d = "n"%char) then N2b 10
                     else if decide (d = "r"%char) then N2b 13
                     else if decide (d = "t"%char) then N2b 9 else d in
            match unquote s'' with Some (a, r) => Some (e :: a, r) | None => None end
        end
      else match unquote s' with Some (a, r) => Some (c :: a, r) | None => None end
  end.

Lemma unquote_escapeChar c s :
  unquote (escapeChar c ++ s) =
    match unquote s with Some (a, r) => Some (c :: a, r) | None => None end.
Proof. by all_bytes c. Qed.

Lemma unquote_escaper s r : unquote (escaper s ++ quote :: r) = Some (s, r).
Proof.
  induction s as [|c s IH]; [done|]. unfold escaper. cbn [mbind list_bind].
  fold (escaper s). rewrite <- app_assoc, unquote_escapeChar. by rewrite IH.
Qed.

Lemma quoted_inj s t r r' : quoted s ++ r = quoted t ++ r' -> s = t /\ r = r'.
Proof.
  unfold quoted. simpl. rewrite <- !app_assoc. simpl. intros [= E].
  apply (f_equal unquote) in E. rewrite !unquote_escaper in E. by injection E.
Qed.

Lemma bracketed_inj s t : bracketed s = bracketed t -> s = t.
Proof. unfold bracketed. intros [= E]. by apply app_inj_tail in E as [-> _]. Qed.

Lemma Value_String_inj v w : Value_String v = Value_String w -> v = w.
Proof.
  destruct v as [s|s|s|s t|s l], w as [s'|s'|s'|s' t'|s' l'];
    cbn [Value_String String.list_ascii_of_string app];
    try discriminate; intros E.
  - by apply bracketed_inj in E as ->.
  - by injection E as ->.
  - rewrite <- (app_nil_r (quoted s)), <- (app_nil_r (quoted s')) in E.
    by apply quoted_inj in E as [-> _].
  - rewrite <- (app_nil_r (quoted s)) in E. by apply quoted_inj in E as [_ E].
  - rewrite <- (app_nil_r (quoted s)) in E. by apply quoted_inj in E as [_ E].
  - rewrite <- (app_nil_r (quoted s')) in E. by apply quoted_inj in E as [_ E].
  - apply quoted_inj in E as [-> E]. injection E as E. by apply app_inj_tail in E as [-> _].
  - by apply quoted_inj in E as [_ E].
  - rewrite <- (app_nil_r (quoted s')) in E. by apply quoted_inj in E as [_ E].
  - by apply quoted_inj in E as [_ E].
  - apply quoted_inj in E as [-> E]. by injection E as ->.
Qed.

(** Two different values with the same hash. *)
Definition hashCollision (v w : Value) : Prop := v <> w /\ HashOf (Some v) = HashOf (Some w).

(** ** Which values survive the JSON form *)

Definition transport (v : option Value) : option Value :=
  let s := ToString v in if bool_decide (s = []) then None else StringToValue s.

(** Text that [escaper] leaves alone. *)
Definition plainText (s : bytes) : bool := forallb (fun c => bool_decide (escapeChar c = [c])) s.

Definition headIn (s : bytes) (l : bytes) : bool :=
  match s with [] => false | c :: _ => bool_decide (c ∈ l) end.

Definition transportable (v : Value) : bool :=
  match v with
  | IRI s | BNode s => negb (bool_decide (s = []))
  | String s => negb (bool_decide (s = [])) && negb (headIn s ["<"; "_"; quote]%char)
  | TypedString s t => plainText s && negb (headIn s ["^"%char])
  | LangString s l => plainText s && negb (headIn s ["@"%char]) && bool_decide (quote ∉ l)
  end.

Lemma plainText_escaper s : plainText s = true -> escaper s = s.
Proof.
  unfold plainText. rewrite forallb_forall. intros H.
  induction s as [|c s IH]; [done|]. unfold escaper. cbn [mbind list_bind]. fold (escaper s).
  rewrite IH by (intros; apply H; by right).
  by rewrite (bool_decide_eq_true_1 _ (H c (or_introl eq_refl))).
Qed.

Lemma plainText_quote s : plainText s = true -> quote ∉ s.
Proof.
  unfold plainText. rewrite forallb_forall. intros H Hin%list_elem_of_In. by apply H in Hin.
Qed.

Lemma lastByte_app s c : lastByte (s ++ [c]) = c.
Proof. apply List.last_last. Qed.

Lemma lastByte_snoc c s d : lastByte (c :: s ++ [d]) = d.
Proof. apply (lastByte_app (c :: s)). Qed.

(** A mark that starts with a quote is first found at the first quote. *)
Lemma Index_skip s r m :
  quote ∉ s -> Index (s ++ r) (quote :: m) = (fun i => length s + i) <$> Index r (quote :: m).
Proof.
  induction s as [|c s IH]; intros Hq; [cbn [app]; by destruct (Index r _)|].
  apply not_elem_of_cons in Hq as [Hc Hq]. simpl. rewrite bool_decide_false by congruence.
  rewrite IH by done. by destruct (Index r _).
Qed.

Lemma Index_none s m : quote ∉ s -> Index s (quote :: m) = None.
Proof.
  induction s as [|c s IH]; intros Hq; [done|].
  apply not_elem_of_cons in Hq as [Hc Hq]. simpl. rewrite bool_decide_false by congruence.
  by rewrite IH.
Qed.

(** The index of a mark in a quoted text [q s q rest], past the first byte. *)
Lemma Index_quoted s rest c m :
  quote ∉ s -> c <> quote -> headIn s [c] = false ->
  indexPos (quote :: s ++ quote :: rest) (quote :: c :: m) =
    if bool_decide (take (S (length m)) rest = c :: m) then Some (S (length s))
    else match Index rest (quote :: c :: m) with Some i => Some (S (S (length s + i))) | None => None end.
Proof.
  intros Hs Hc Hh. unfold indexPos.
  assert (bool_decide (take (length (quote :: c :: m)) (quote :: s ++ quote :: rest) = quote :: c :: m)
          = false) as H0.
  { apply bool_decide_eq_false. simpl. destruct s as [|d s]; simpl; [by intros [=]|].
    intros [= -> _]. simpl in Hh. by rewrite bool_decide_eq_false, list_elem_of_singleton in Hh. }
  cbn [Index]. rewrite H0, Index_skip by done. cbn [Index length take].
  destruct (bool_decide (take (S (length m)) rest = c :: m)) eqn:E.
  - rewrite bool_decide_true by (f_equal; exact (bool_decide_eq_true_1 _ E)). simpl. do 2 f_equal. lia.
  - rewrite bool_decide_false; [|intros [= E']; by rewrite bool_decide_eq_false in E].
    destruct (Index rest (quote :: c :: m)) as [i|]; [|done]. simpl. do 3 f_equal. lia.
Qed.

Lemma slice_mid a s r : slice (length a) (length a + length s) (a ++ s ++ r) = s.
Proof.
  unfold slice. rewrite drop_app_length. replace (_ - _) with (length s) by lia.
  apply take_app_length.
Qed.

Lemma slice_inner c s d : slice 1 (length (c :: s ++ [d]) - 1) (c :: s ++ [d]) = s.
Proof.
  replace (length (c :: s ++ [d]) - 1) with (length [c] + length s)
    by (simpl; rewrite length_app; simpl; lia).
  apply (slice_mid [c] s [d]).
Qed.

Lemma transport_IRI s : s <> [] -> transport (Some (IRI s)) = Some (IRI s).
Proof.
  intros Hs. unfold transport, ToString, StringOf, Value_String. cbv zeta.
  rewrite bool_decide_false by done. unfold StringToValue, bracketed. cbv zeta.
  assert (2 < length ("<"%char :: s ++ [">"%char])) as Hl
    by (destruct s; [done|simpl; rewrite length_app; simpl; lia]).
  rewrite (proj2 (Nat.eqb_neq _ 0)), (proj2 (Nat.ltb_lt 2 _) Hl) by lia. cbn [negb nth].
  rewrite lastByte_snoc, !bool_decide_true by done. cbn [andb].
  by rewrite slice_inner.
Qed.

Lemma transport_BNode s : s <> [] -> transport (Some (BNode s)) = Some (BNode s).
Proof.
  intros Hs. unfold transport, ToString, StringOf, Value_String. cbn [String.list_ascii_of_string app].
  cbv zeta. rewrite bool_decide_false by done. unfold StringToValue. cbv zeta.
  destruct s as [|c s]; [done|]. cbn [length Nat.eqb Nat.ltb Nat.leb negb nth].
  rewrite !(bool_decide_false ("_"%char = _)) by done. cbn [andb take drop].
  by rewrite bool_decide_true by done.
Qed.

Lemma transport_String s :
  transportable (String s) = true -> transport (Some (String s)) = Some (String s).
Proof.
  simpl. rewrite andb_true_iff, !negb_true_iff, bool_decide_eq_false. intros [Hs Hh].
  unfold transport, ToString. cbv zeta. rewrite bool_decide_false by done.
  destruct s as [|c s]; [done|]. cbn [headIn] in Hh. rewrite bool_decide_eq_false in Hh.
  unfold StringToValue. cbv zeta. cbn [length Nat.eqb nth].
  destruct (negb _); [done|].
  assert (c <> "<"%char /\ c <> "_"%char /\ c <> quote) as (H1 & H2 & H3)
    by (split_and!; intros ->; apply Hh; set_solver).
  rewrite !(bool_decide_false (c = _)) by done. cbn [andb].
  rewrite (bool_decide_false (take 2 _ = _)) by (cbn [take String.list_ascii_of_string]; by intros [=]).
  destruct (indexPos _ _); by destruct (indexPos _ _).
Qed.

(** The first two bytes of a quoted text are not a blank node's. *)
Lemma StringToValue_quoted s rest :
  2 < length (quote :: s ++ quote :: rest) ->
  lastByte (quote :: s ++ quote :: rest) <> quote ->
  StringToValue (quote :: s ++ quote :: rest) =
    let v := quote :: s ++ quote :: rest in
    let n := length v in
    match indexPos v typedMark, bool_decide (lastByte v = ">"%char) with
    | Some i, true => Some (TypedString (slice 1 i v) (slice (i + 4) (n - 1) v))
    | _, _ => match indexPos v langMark with
              | Some i => Some (LangString (slice 1 i v) (drop (i + 2) v))
              | None => Some (String v)
              end
    end.
Proof.
  intros Hl Hq. unfold StringToValue. cbv zeta.
  rewrite (proj2 (Nat.eqb_neq _ 0)), (proj2 (Nat.ltb_lt 2 _) Hl) by lia. cbn [negb nth].
  rewrite (bool_decide_false (quote = "<"%char)), (bool_decide_true (quote = quote)) by done.
  rewrite (bool_decide_false (lastByte _ = quote)) by done. cbn [andb negb].
  rewrite (bool_decide_false (take 2 _ = _)) by (cbn [take String.list_ascii_of_string]; by intros [=]).
  set (v := quote :: s ++ quote :: rest).
  destruct (indexPos v typedMark), (bool_decide (lastByte v = ">"%char)), (indexPos v langMark); done.
Qed.

Lemma quoted_plain s rest : plainText s = true -> quoted s ++ rest = quote :: s ++ quote :: rest.
Proof. intros Hs. unfold quoted. rewrite plainText_escaper by done. simpl. by rewrite <- app_assoc. Qed.

Lemma transport_TypedString s t :
  transportable (TypedString s t) = true ->
  transport (Some (TypedString s t)) = Some (TypedString s t).
Proof.
  simpl. rewrite andb_true_iff, negb_true_iff. intros [Hs Hh].
  unfold transport, ToString, StringOf, Value_String. cbv zeta.
  rewrite quoted_plain by done. rewrite bool_decide_false by done.
  set (rest := "^^" ++ bracketed t).
  assert (lastByte (quote :: s ++ quote :: rest) = ">"%char) as Hlast.
  { replace (quote :: s ++ quote :: rest) with (quote :: (s ++ quote :: "^^<" ++ t) ++ [">"%char]);
      [by rewrite lastByte_snoc|]. unfold rest, bracketed. simpl. by rewrite <- app_assoc. }
  rewrite StringToValue_quoted;
    [|simpl; rewrite length_app; simpl; lia|by rewrite Hlast].
  cbv zeta. unfold typedMark. rewrite Index_quoted by (by apply plainText_quote || done).
  rewrite bool_decide_true by done. rewrite (bool_decide_true (lastByte _ = _)) by done.
  cbv iota. do 2 f_equal.
  - apply (slice_mid [quote] s (quote :: rest)).
  - replace (quote :: s ++ quote :: rest) with ((quote :: s ++ quote :: "^^<") ++ t ++ [">"%char])
      by (unfold rest, bracketed; simpl; by rewrite <- app_assoc).
    replace (S (length s) + 4) with (length (quote :: s ++ quote :: "^^<"))
      by (simpl; rewrite length_app; simpl; lia).
    replace (length ((quote :: s ++ quote :: "^^<") ++ t ++ [">"%char]) - 1)
      with (length (quote :: s ++ quote :: "^^<") + length t)
      by (rewrite !length_app; simpl; lia).
    apply slice_mid.
Qed.

Lemma transport_LangString s l :
  transportable (LangString s l) = true ->
  transport (Some (LangString s l)) = Some (LangString s l).
Proof.
  simpl. rewrite !andb_true_iff, negb_true_iff, bool_decide_eq_true. intros [[Hs Hh] Hl].
  unfold transport, ToString, StringOf, Value_String. cbv zeta.
  rewrite quoted_plain by done. rewrite bool_decide_false by done.
  assert (quote ∉ "@"%char :: l) as Hl' by (rewrite not_elem_of_cons; by split).
  assert (lastByte (quote :: s ++ quote :: "@" ++ l) <> quote) as Hlast.
  { replace (quote :: s ++ quote :: "@" ++ l) with ((quote :: s ++ [quote]) ++ "@"%char :: l)
      by (simpl; by rewrite <- app_assoc).
    destruct (exists_last (l := "@"%char :: l)) as (l' & c & E); [done|]. rewrite E, app_assoc.
    rewrite lastByte_app. intros ->. apply Hl'. rewrite E. set_solver. }
  rewrite StringToValue_quoted; [|simpl; rewrite length_app; simpl; lia|done].
  cbv zeta.
  assert (indexPos (quote :: s ++ quote :: "@" ++ l) typedMark = None) as ->.
  { unfold indexPos, typedMark. cbn [Index].
    destruct (bool_decide _); [done|]. rewrite Index_skip by (by apply plainText_quote).
    cbn [Index]. rewrite bool_decide_false by (simpl; by intros [=]).
    rewrite Index_none by done. done. }
  unfold langMark. rewrite Index_quoted by (by apply plainText_quote || done).
  rewrite bool_decide_true by done. do 2 f_equal.
  - apply (slice_mid [quote] s (quote :: "@" ++ l)).
  - replace (quote :: s ++ quote :: "@" ++ l) with ((quote :: s ++ quote :: "@") ++ l)
      by (simpl; by rewrite <- app_assoc).
    replace (S (length s) + 2) with (length (quote :: s ++ quote :: "@"))
      by (simpl; rewrite length_app; simpl; lia).
    apply drop_app_length.
Qed.

Lemma transport_ok v : transportable v = true -> transport (Some v) = Some v.
Proof.
  destruct v; intros Hv.
  - apply transport_IRI. by simpl in Hv; rewrite negb_true_iff, bool_decide_eq_false in Hv.
  - apply transport_BNode. by simpl in Hv; rewrite negb_true_iff, bool_decide_eq_false in Hv.
  - by apply transport_String.
  - by apply transport_TypedString.
  - by apply transport_LangString.
Qed.

Lemma UnmarshalJSON_transport q :
  UnmarshalJSON (MarshalJSON q) =
    {| qSubject := transport (qSubject q); qPredicate := transport (qPredicate q);
       qObject := transport (qObject q); qLabel := transport (qLabel q) |}.
Proof. reflexivity. Qed.

(** ** The properties of quads *)

(** A quad sent as JSON arrives as the same quad when each of its values
    is a non-empty IRI or blank node, a non-empty string that does not start
    with [<], [_] or a double quote, or a typed or tagged string free of
    escapes; the hashes the store files it under are then the same too. *)
Theorem quad_json_roundtrip (q : Quad) :
  (forall d v, Quad_Get q d = Some v -> transportable v = true) ->
  UnmarshalJSON (MarshalJSON q) = q /\ hashQuad (UnmarshalJSON (MarshalJSON q)) = hashQuad q.
Proof.
  intros Hq. assert (UnmarshalJSON (MarshalJSON q) = q) as ->; [|done].
  rewrite UnmarshalJSON_transport.
  assert (forall d, transport (Quad_Get q d) = Quad_Get q d) as H.
  { intros d. destruct (Quad_Get q d) as [v|] eqn:E; [|done]. by eapply transport_ok, Hq. }
  destruct q. f_equal; [apply (H Subject)|apply (H Predicate)|apply (H Object)|apply (H Label)].
Qed.

(** And the strings it does not carry: a string in angle brackets arrives
    as an IRI, a string in double quotes loses them, a string that starts
    with [_:] arrives as a blank node, and an empty string does not arrive at
    all; so a literal loaded into a graph can become a reference to a node. *)
Theorem quad_json_mangles (s : bytes) :
  s <> [] ->
  transport (Some (String (bracketed s))) = Some (IRI s) /\
  transport (Some (String (quote :: s ++ [quote]))) = Some (String s) /\
  transport (Some (String ("_:" ++ s))) = Some (BNode s) /\
  transport (Some (String [])) = None.
Proof.
  intros Hs. split_and!; [exact (transport_IRI s Hs)| |exact (transport_BNode s Hs)|done].
  unfold transport, ToString. cbv zeta. rewrite bool_decide_false by done.
  unfold StringToValue. cbv zeta.
  assert (2 < length (quote :: s ++ [quote])) as Hl
    by (destruct s; [done|simpl; rewrite length_app; simpl; lia]).
  rewrite (proj2 (Nat.eqb_neq _ 0)), (proj2 (Nat.ltb_lt 2 _) Hl) by lia. cbn [negb nth].
  rewrite lastByte_snoc, (bool_decide_false (quote = "<"%char)), !(bool_decide_true (quote = quote)) by done. cbn [andb].
  by rewrite slice_inner.
Qed.

(** The identifier of a value is as good as SHA-1: two values with the
    same hash are the same value, unless their N-Quads texts are a collision
    of SHA-1; no two different values share a text. *)
Theorem value_hash_identifies (v w : Value) :
  HashOf (Some v) = HashOf (Some w) ->
  v = w \/ (Value_String v <> Value_String w /\ sha1 (Value_String v) = sha1 (Value_String w)).
Proof.
  intros E. destruct (decide (Value_String v = Value_String w)) as [Hs|Hs].
  - left. by apply Value_String_inj.
  - by right.
Qed.

(** ** Witnesses *)

Definition aQuad : Quad :=
  {| qSubject := Some (IRI "kord://0xab/dapp"); qPredicate := Some (IRI "dapp:manifestHash");
     qObject := Some (String "d1de9994b4d039f6548d191eb26786769f580809256b4685ef316805265ea162");
     qLabel := None |}.

Lemma quad_json_roundtrip_witness :
  (forall d v, Quad_Get aQuad d = Some v -> transportable v = true) /\
  UnmarshalJSON (MarshalJSON aQuad) = aQuad /\
  hashQuad (UnmarshalJSON (MarshalJSON aQuad)) = hashQuad aQuad.
Proof.
  assert (forall d v, Quad_Get aQuad d = Some v -> transportable v = true) as H
    by (intros [] v [= <-]; vm_compute; reflexivity).
  split; [exact H|]. exact (quad_json_roundtrip aQuad H).
Defined.

Lemma quad_json_mangles_witness :
  transport (Some (String "<x>")) = Some (IRI "x") /\
  transport (Some (String (quote :: "x" ++ [quote]))) = Some (String "x").
Proof.
  assert (String.list_ascii_of_string "x" <> []) as H by discriminate.
  destruct (quad_json_mangles "x" H) as (H1 & H2 & _). split; [exact H1|exact H2].
Defined.

Lemma value_hash_identifies_witness :
  HashOf (Some (IRI "a")) = HashOf (Some (IRI "a")) /\
  (IRI "a" = IRI "a" \/ (Value_String (IRI "a") <> Value_String (IRI "a") /\
    sha1 (Value_String (IRI "a")) = sha1 (Value_String (IRI "a")))).
Proof. split; [reflexivity|]. apply (value_hash_identifies (IRI "a") (IRI "a")). reflexivity. Defined.
