(* ===== verification/Sql.v ===== *)
(** * The SQL graph store

    [runTx] of [db/graph.go] inside the vendored quad store that calls it: the
    split of a list of deltas into node and quad updates
    ([graph/log/graphlog.go]), the transaction with its deletions and its
    rollback ([ApplyDeltas]) and the columns of a value ([NodeValues],
    [NameOf]) of [graph/sql/quadstore.go], and the writers that turn quads
    into deltas.  The two tables are modelled with the constraints the
    registration of [db/graph.go] asks for: the primary key of [nodes], the
    conditional unique indexes of [quads], its NOT NULL columns. *)
From stdpp Require Import sorting.
From S2P Require Import Prelude Sha1 Quad.

(** ** Rows *)

(** Does a file of SQLite hold this hash?  The zero hash is written as NULL. *)
Definition SQLValue (h : ValueHash) : option ValueHash := if Valid h then Some h else None.

(** The value columns of [nodes] that the five kinds of values use; a column
    that is not inserted is NULL. *)
Record columns := { value_string : option bytes; datatype : option bytes;
                    language : option bytes; iri : option bool; bnode : option bool }.
#[global] Instance columns_eq_dec : EqDecision columns.
Proof. solve_decision. Defined.

Record nodeRow := { refs : Z; cols : columns }.
#[global] Instance nodeRow_eq_dec : EqDecision nodeRow.
Proof. solve_decision. Defined.

(** [strings.Replace(s, "\u0000", `\x00`, -1)] and back. *)
Definition nul : ascii := N2b 0.
Definition escapedNul : bytes := [backslash; "x"%char; "0"%char; "0"%char].
Definition escapeNullByte (s : bytes) : bytes :=
  s ≫= fun c => if decide (c = nul) then escapedNul else [c].

Fixpoint unescapeNullByte (s : bytes) : bytes :=
  match s with
  | [] => []
  | c :: s' =>
      match s with
      | a :: b :: d :: e :: s'' =>
          if decide ([a; b; d; e] = escapedNul) then nul :: unescapeNullByte s''
          else c :: unescapeNullByte s'
      | _ => c :: unescapeNullByte s'
      end
  end.

(** [NodeValues]: the columns a value is inserted with. *)
Definition NodeValues (v : Value) : columns :=
  match v with
  | IRI s => {| value_string := Some s; datatype := None; language := None;
                iri := Some true; bnode := None |}
  | BNode s => {| value_string := Some s; datatype := None; language := None;
                  iri := None; bnode := Some true |}
  | String s => {| value_string := Some (escapeNullByte s); datatype := None; language := None;
                   iri := None; bnode := None |}
  | TypedString s t => {| value_string := Some (escapeNullByte s); datatype := Some t;
                          language := None; iri := None; bnode := None |}
  | LangString s l => {| value_string := Some (escapeNullByte s); datatype := None;
                         language := Some l; iri := None; bnode := None |}
  end.

(** The value [NameOf] makes of a row. *)
Definition rowValue (c : columns) : option Value :=
  match value_string c with
  | None => None
  | Some str =>
      if default false (iri c) then Some (IRI str)
      else if default false (bnode c) then Some (BNode str)
      else match language c, datatype c with
           | Some l, _ => Some (LangString (unescapeNullByte str) l)
           | None, Some t => Some (TypedString (unescapeNullByte str) t)
           | None, None => Some (String (unescapeNullByte str))
           end
  end.

(** ** Tables *)

(** A row of [quads], whose first three columns are NOT NULL. *)
Abbreviation quadRow := (ValueHash * ValueHash * ValueHash * option ValueHash)%type.

(** [keyless] are the rows of [nodes] with a NULL key, which SQLite allows and
    never considers equal. *)
Record db := { nodes : gmap ValueHash nodeRow; keyless : list nodeRow; quads : gset quadRow }.

Definition emptyDB : db := {| nodes := ∅; keyless := []; quads := ∅ |}.

(** [sqlite3.ErrConstraint] and its extended codes. *)
Definition ErrConstraint : Z := 19.
Definition ErrConstraintPrimaryKey : Z := 1555.
Definition ErrConstraintUnique : Z := 2067.
Definition ErrConstraintNotNull : Z := 1299.

(** [isUniqueErr]. *)
Definition isUniqueErr (err : error) : bool :=
  match err with
  | ESqlite code ext =>
      (code =? ErrConstraint)%Z && ((ext =? ErrConstraintUnique)%Z || (ext =? ErrConstraintPrimaryKey)%Z)
  | _ => false
  end.

(** [INSERT INTO nodes(refs, hash, ...) VALUES (...)]. *)
Definition insertNode (r : Z) (hash : ValueHash) (c : columns) : prog db unit := fun d =>
  let row := {| refs := r; cols := c |} in
  match SQLValue hash with
  | None => (Ok tt, {| nodes := nodes d; keyless := row :: keyless d; quads := quads d |})
  | Some h =>
      match nodes d !! h with
      | Some _ => (Err (ESqlite ErrConstraint ErrConstraintPrimaryKey), d)
      | None => (Ok tt, {| nodes := <[h := row]> (nodes d); keyless := keyless d; quads := quads d |})
      end
  end.

Definition withRefs (f : Z -> Z) (row : nodeRow) : nodeRow := {| refs := f (refs row); cols := cols row |}.

(** [UPDATE nodes SET refs = f(refs) WHERE hash = $2]: nothing matches NULL. *)
Definition updateNode (f : Z -> Z) (hash : ValueHash) : prog db unit := fun d =>
  match SQLValue hash with
  | None => (Ok tt, d)
  | Some h => (Ok tt, {| nodes := alter (withRefs f) h (nodes d); keyless := keyless d; quads := quads d |})
  end.

(** The row of a quad, when its NOT NULL columns are set. *)
Definition quadRowOf (q : QuadHash) : option quadRow :=
  match SQLValue (hSubject q), SQLValue (hPredicate q), SQLValue (hObject q) with
  | Some s, Some p, Some o => Some (s, p, o, SQLValue (hLabel q))
  | _, _, _ => None
  end.

(** [INSERT INTO quads(...)]. *)
Definition insertQuad (q : QuadHash) : prog db unit := fun d =>
  match quadRowOf q with
  | None => (Err (ESqlite ErrConstraint ErrConstraintNotNull), d)
  | Some r =>
      if bool_decide (r ∈ quads d) then (Err (ESqlite ErrConstraint ErrConstraintUnique), d)
      else (Ok tt, {| nodes := nodes d; keyless := keyless d; quads := {[r]} ∪ quads d |})
  end.

(** [DELETE FROM quads WHERE ...], with the number of rows deleted. *)
Definition deleteQuad (q : QuadHash) : prog db nat := fun d =>
  match quadRowOf q with
  | None => (Ok 0, d)
  | Some r =>
      if bool_decide (r ∈ quads d)
      then (Ok 1, {| nodes := nodes d; keyless := keyless d; quads := quads d ∖ {[r]} |})
      else (Ok 0, d)
  end.

(** [DELETE FROM nodes WHERE refs <= 0]. *)
Definition deleteUnused : prog db unit := fun d =>
  (Ok tt, {| nodes := filter (fun hr => (0 < refs (snd hr))%Z) (nodes d);
             keyless := filter (fun r => (0 < refs r)%Z) (keyless d); quads := quads d |}).

(** ** Deltas *)

Record Delta := { dQuad : Quad; Action : Z }.
Definition Add : Z := 1.
Definition Delete : Z := -1.

Record NodeUpdate := { nHash : ValueHash; nVal : Value; RefInc : Z }.
Record QuadUpdate := { Ind : nat; uQuad : QuadHash; Del : bool }.
Record Deltas := { IncNode : list NodeUpdate; DecNode : list NodeUpdate;
                   QuadAdd : list QuadUpdate; QuadDel : list QuadUpdate }.
Record IgnoreOpts := { IgnoreDup : bool; IgnoreMissing : bool }.

(** One value of a delta: its node is created on first sight, and its count
    moves by [dn]. *)
Definition addNode (dn : Z) (m : gmap ValueHash NodeUpdate) (v : option Value) : gmap ValueHash NodeUpdate :=
  match v with
  | None => m
  | Some v =>
      let h := HashOf (Some v) in
      let n := default {| nHash := h; nVal := v; RefInc := 0 |} (m !! h) in
      <[h := {| nHash := nHash n; nVal := nVal n; RefInc := RefInc n + dn |}]> m
  end.

(** The loop over the deltas. *)
Fixpoint splitLoop (i : nat) (ds : list Delta) (m : gmap ValueHash NodeUpdate)
    (qadd qdel : list QuadUpdate) : result (gmap ValueHash NodeUpdate * list QuadUpdate * list QuadUpdate) :=
  match ds with
  | [] => Ok (m, qadd, qdel)
  | d :: ds =>
      if negb (Action d =? Add)%Z && negb (Action d =? Delete)%Z then Panic "unknown action"
      else
        let dn := Action d in
        let m := foldl (addNode dn) m (Quad_Get (dQuad d) <$> Directions) in
        let u := {| Ind := i; uQuad := hashQuad (dQuad d); Del := (Action d =? Delete)%Z |} in
        if Del u then splitLoop (S i) ds m qadd (qdel ++ [u])
        else splitLoop (S i) ds m (qadd ++ [u]) qdel
  end.

(** [bytes.Compare(a, b) <= 0]. *)
Fixpoint bytesLe (a b : bytes) : bool :=
  match a, b with
  | [], _ => true
  | _ :: _, [] => false
  | c :: a, d :: b => (b2N c <? b2N d)%N || ((b2N c =? b2N d)%N && bytesLe a b)
  end.
Definition hashLe (m n : NodeUpdate) : Prop := bytesLe (nHash m) (nHash n) = true.
#[global] Instance hashLe_dec : RelDecision hashLe.
Proof. intros m n. unfold hashLe. apply _. Defined.

Definition SplitDeltas (ds : list Delta) : result Deltas :=
  '(m, qadd, qdel) ← splitLoop 0 ds ∅ [] [];
  let ns := snd <$> map_to_list m in
  Ok {| IncNode := merge_sort hashLe (filter (fun n => (0 <= RefInc n)%Z) ns);
        DecNode := merge_sort hashLe (filter (fun n => (RefInc n < 0)%Z) ns);
        QuadAdd := qadd; QuadDel := qdel |}.

(** ** runTx *)

Definition ErrQuadExists : error := EVar "graph.ErrQuadExists".
Definition ErrQuadNotExist : error := EVar "graph.ErrQuadNotExist".
Definition DeltaError (e : error) : error := EWrap "graph.DeltaError" [] e.

(** The decimal digits of a non-positive reference count do not matter. *)
Definition invalidRefInc : error := ETyped "fmt.Errorf" "invalid node.RefInc: %d".
Definition unexpectedDelete : error := ETyped "fmt.Errorf" "unexpected quad delete: %v".

Fixpoint txNodes (ns : list NodeUpdate) : prog db unit :=
  match ns with
  | [] => mret tt
  | n :: ns =>
      if (RefInc n <? 0)%Z then throw invalidRefInc
      else
        res ← try (insertNode (RefInc n) (nHash n) (NodeValues (nVal n)));
        _ ← (match res with
             | Err e => if isUniqueErr e then updateNode (fun _ => RefInc n) (nHash n) else throw e
             | _ => mret tt
             end);
        txNodes ns
  end.

Fixpoint txQuads (opts : IgnoreOpts) (qs : list QuadUpdate) : prog db unit :=
  match qs with
  | [] => mret tt
  | d :: qs =>
      if Del d then throw unexpectedDelete
      else
        res ← try (insertQuad (uQuad d));
        _ ← (match res with
             | Err e =>
                 if isUniqueErr e
                 then if negb (IgnoreDup opts) then throw (DeltaError ErrQuadExists) else mret tt
                 else throw e
             | _ => mret tt
             end);
        txQuads opts qs
  end.

Definition runTx (ns : list NodeUpdate) (qs : list QuadUpdate) (opts : IgnoreOpts) : prog db unit :=
  _ ← txNodes ns; txQuads opts qs.

(** ** ApplyDeltas *)

(** The quad deletions; [fix_] counts the references to give back. *)
Fixpoint txDeletes (opts : IgnoreOpts) (qs : list QuadUpdate) (fix_ : gmap ValueHash Z) :
    prog db (gmap ValueHash Z) :=
  match qs with
  | [] => mret fix_
  | d :: qs =>
      affected ← deleteQuad (uQuad d);
      if negb (affected =? 1)%nat then
        if negb (IgnoreMissing opts) then throw (DeltaError ErrQuadNotExist)
        else txDeletes opts qs
               (foldl (fun m h => if Valid h then <[h := (default 0 (m !! h) + 1)%Z]> m else m)
                      fix_ (Dirs (uQuad d)))
      else txDeletes opts qs fix_
  end.

Fixpoint txDecNodes (fix_ : gmap ValueHash Z) (ns : list NodeUpdate) : prog db unit :=
  match ns with
  | [] => mret tt
  | n :: ns =>
      let inc := (RefInc n + default 0 (fix_ !! nHash n))%Z in
      _ ← (if (inc =? 0)%Z then mret tt else updateNode (fun r => r + inc)%Z (nHash n));
      txDecNodes fix_ ns
  end.

Definition applyTx (d : Deltas) (opts : IgnoreOpts) : prog db unit :=
  _ ← runTx (IncNode d) (QuadAdd d) opts;
  fix_ ← txDeletes opts (QuadDel d) ∅;
  if bool_decide (DecNode d = []) then mret tt
  else _ ← txDecNodes fix_ (DecNode d); deleteUnused.

(** On an error the transaction is rolled back. *)
Definition rollback {S A} (m : prog S A) : prog S A := fun s =>
  match m s with
  | (Ok a, s') => (Ok a, s')
  | (r, _) => (r, s)
  end.

Definition ApplyDeltas (ds : list Delta) (opts : IgnoreOpts) : prog db unit :=
  deltas ← lift (SplitDeltas ds); rollback (applyTx deltas opts).

(** [NameOf], without its cache. *)
Definition NameOf (d : db) (h : ValueHash) : option Value :=
  if Valid h then row ← nodes d !! h; rowValue (cols row) else None.

(** ** Writers: writer/single.go and graph/quadwriter.go *)

Definition delta (a : Z) (q : Quad) : Delta := {| dQuad := q; Action := a |}.

(** The options [NewQuadWriter("single", qs, nil)] yields: duplicates are
    ignored, missing quads are not. *)
Definition defaultOpts : IgnoreOpts := {| IgnoreDup := true; IgnoreMissing := false |}.

Definition AddQuadSet (set : list Quad) : prog db unit := ApplyDeltas (delta Add <$> set) defaultOpts.
Definition RemoveQuad (q : Quad) : prog db unit := ApplyDeltas [delta Delete q] defaultOpts.

(** ** Null bytes *)

(** The text does not hold the four characters [\x00] themselves. *)
Definition noEscapedNul (s : bytes) : bool := bool_decide (Index s escapedNul = None).

Lemma escapeNullByte_cons c s :
  escapeNullByte (c :: s) = (if decide (c = nul) then escapedNul else [c]) ++ escapeNullByte s.
Proof. reflexivity. Qed.

(** The escaped text starts with a plain character only where the text does. *)
Lemma escapeNullByte_take n l s :
  take n (escapeNullByte s) = l -> backslash ∉ l -> length l = n -> take n s = l.
Proof.
  revert l s. induction n as [|n IH]; intros l s Ht Hb Hl; [by destruct l|].
  destruct s as [|c s]; [by subst l|]. rewrite escapeNullByte_cons in Ht.
  case_decide as Hc; simpl in Ht.
  - subst l. destruct Hb. apply elem_of_cons. by left.
  - destruct l as [|d l]; [done|]. injection Ht as -> Ht. simpl. f_equal.
    apply IH; [done| |by injection Hl]. set_solver.
Qed.

Lemma unescape_cons c s :
  take 4 (c :: s) <> escapedNul -> unescapeNullByte (c :: s) = c :: unescapeNullByte s.
Proof.
  intros Hn. destruct s as [|b [|d [|e s]]]; try done.
  simpl. rewrite decide_False by done. done.
Qed.

Lemma unescape_escapeNullByte s :
  noEscapedNul s = true -> unescapeNullByte (escapeNullByte s) = s.
Proof.
  unfold noEscapedNul. rewrite bool_decide_eq_true. induction s as [|c s IH]; [done|]. intros Hn.
  simpl in Hn. destruct (bool_decide _) eqn:E; [done|]. rewrite bool_decide_eq_false in E.
  destruct (Index s escapedNul); [done|]. rewrite escapeNullByte_cons.
  case_decide as Hc; [subst; simpl; by rewrite IH|]. cbn [app].
  rewrite unescape_cons; [by rewrite IH|]. simpl. intros [= Hb Ht]. apply E. simpl. f_equal; [done|].
  apply (escapeNullByte_take 3); [done| |done]. by apply (bool_decide_eq_true_1 (backslash ∉ _)).
Qed.

(** The values whose columns give them back. *)
Definition storable (v : Value) : bool :=
  match v with
  | IRI _ | BNode _ => true
  | String s | TypedString s _ | LangString s _ => noEscapedNul s
  end.

Lemma rowValue_NodeValues v : storable v = true -> rowValue (NodeValues v) = Some v.
Proof. destruct v; simpl; try done; unfold rowValue; simpl; intros; by rewrite unescape_escapeNullByte. Qed.

(** ** Splitting additions *)

Definition valuesOf (q : Quad) : list Value := omap id (Quad_Get q <$> Directions).

(** How many times the hash [h] occurs among the values [vs]. *)
Definition occ (h : ValueHash) (vs : list Value) : nat :=
  length (filter (fun v => HashOf (Some v) = h) vs).

Lemma occ_app h vs ws : occ h (vs ++ ws) = occ h vs + occ h ws.
Proof. unfold occ. by rewrite filter_app, length_app. Qed.

Lemma occ_one h v : occ h [v] = if decide (HashOf (Some v) = h) then 1 else 0.
Proof.
  unfold occ. case_decide; [by rewrite filter_cons_True|by rewrite filter_cons_False].
Qed.

Lemma occ_pos v vs : v ∈ vs -> 0 < occ (HashOf (Some v)) vs.
Proof.
  intros Hv. unfold occ. assert (v ∈ filter (fun w => HashOf (Some w) = HashOf (Some v)) vs) as Hin
    by (by apply list_elem_of_filter).
  destruct (filter _ vs); [by apply elem_of_nil in Hin|]. simpl. lia.
Qed.

Lemma occ_zero h vs : (forall v, v ∈ vs -> HashOf (Some v) <> h) -> occ h vs = 0.
Proof.
  intros H. unfold occ. rewrite list_filter_none; [done|]. by apply Forall_forall.
Qed.

(** What is known of the nodes collected from the values [vs]. *)
Definition nodesFor (vs : list Value) (m : gmap ValueHash NodeUpdate) : Prop :=
  (forall h n, m !! h = Some n ->
     nHash n = h /\ HashOf (Some (nVal n)) = h /\ RefInc n = Z.of_nat (occ h vs) /\ nVal n ∈ vs) /\
  (forall v, v ∈ vs -> is_Some (m !! HashOf (Some v))).

Lemma addNode_nodesFor vs m v :
  nodesFor vs m ->
  nodesFor (vs ++ match v with Some v => [v] | None => [] end) (addNode 1 m v).
Proof.
  destruct v as [v|]; [|by rewrite app_nil_r]. intros [H1 H2]. unfold addNode. split.
  - intros h n. rewrite occ_app, occ_one. destruct (decide (HashOf (Some v) = h)) as [<-|Hne].
    + rewrite lookup_insert_eq. destruct (m !! HashOf (Some v)) as [n0|] eqn:E;
        cbn [default from_option id nHash nVal RefInc]; intros [= <-]; cbn [nHash nVal RefInc].
      * destruct (H1 _ _ E) as (? & ? & ? & ?). rewrite elem_of_app. split_and!; [done..|lia|by left].
      * rewrite elem_of_app, list_elem_of_singleton, (occ_zero _ vs);
          [split_and!; [done..|by right]|].
        intros w Hw Hc. destruct (H2 w Hw) as [n Hn]. rewrite Hc in Hn. congruence.
    + rewrite lookup_insert_ne by done. intros Hn. destruct (H1 _ _ Hn) as (? & ? & ? & ?).
      rewrite elem_of_app. split_and!; [done..|lia|by left].
  - intros w [Hw|Hw%list_elem_of_singleton]%elem_of_app.
    + destruct (decide (HashOf (Some v) = HashOf (Some w))) as [<-|Hne];
        [rewrite lookup_insert_eq|rewrite lookup_insert_ne by done]; eauto.
    + subst. rewrite lookup_insert_eq. eauto.
Qed.

Lemma foldl_addNode_nodesFor os vs m :
  nodesFor vs m -> nodesFor (vs ++ omap id os) (foldl (addNode 1) m os).
Proof.
  revert vs m. induction os as [|o os IH]; intros vs m H; simpl; [by rewrite app_nil_r|].
  apply (addNode_nodesFor _ _ o), IH in H. destruct o as [v|]; simpl in *.
  - by rewrite <- app_assoc in H.
  - by rewrite app_nil_r in H.
Qed.

(** The quad updates of a list of quads, numbered from [i]. *)
Fixpoint addUpdates (i : nat) (qs : list Quad) : list QuadUpdate :=
  match qs with
  | [] => []
  | q :: qs => {| Ind := i; uQuad := hashQuad q; Del := false |} :: addUpdates (S i) qs
  end.

Lemma splitLoop_adds i qs vs m qadd qdel :
  nodesFor vs m ->
  exists m', splitLoop i (delta Add <$> qs) m qadd qdel = Ok (m', qadd ++ addUpdates i qs, qdel) /\
    nodesFor (vs ++ (qs ≫= valuesOf)) m'.
Proof.
  revert i vs m qadd. induction qs as [|q qs IH]; intros i vs m qadd H.
  - exists m. rewrite !app_nil_r. done.
  - apply (foldl_addNode_nodesFor (Quad_Get q <$> Directions)) in H.
    cbn [fmap list_fmap splitLoop delta Action dQuad]. simpl negb.
    destruct (IH (S i) _ _ (qadd ++ [{| Ind := i; uQuad := hashQuad q; Del := false |}]) H) as (m' & Hs & Hm).
    exists m'. simpl Del. cbv zeta. change (Delete =? Delete)%Z with true. simpl.
    split; [etransitivity; [exact Hs|by rewrite <- app_assoc]|]. by rewrite <- app_assoc in Hm.
Qed.

(** The node updates of a set of additions. *)
Definition updatesFor (vs : list Value) (ns : list NodeUpdate) : Prop :=
  NoDup (nHash <$> ns) /\
  Forall (fun n => HashOf (Some (nVal n)) = nHash n /\ RefInc n = Z.of_nat (occ (nHash n) vs) /\ nVal n ∈ vs) ns /\
  (forall v, v ∈ vs -> HashOf (Some v) ∈ (nHash <$> ns)).

Lemma updatesFor_perm vs ns ns' : Permutation ns ns' -> updatesFor vs ns -> updatesFor vs ns'.
Proof.
  intros Hp (H1 & H2 & H3). split_and!; [by rewrite <- Hp..|].
  intros v Hv. rewrite <- Hp. by apply H3.
Qed.

Lemma nodesFor_updates vs m : nodesFor vs m -> updatesFor vs (snd <$> map_to_list m).
Proof.
  intros [H1 H2].
  assert (nHash <$> (snd <$> map_to_list m) = fst <$> map_to_list m) as Hk.
  { rewrite <- list_fmap_compose. apply list_fmap_ext. intros i [h n] Hin%list_elem_of_lookup_2%elem_of_map_to_list.
    simpl. by apply H1 in Hin as [? _]. }
  split_and!.
  - rewrite Hk. apply NoDup_fst_map_to_list.
  - rewrite Forall_fmap, Forall_forall. intros [h n] Hin%elem_of_map_to_list. simpl.
    destruct (H1 _ _ Hin) as (? & ? & ? & ?). by subst.
  - intros v [n Hn]%H2. rewrite Hk. apply list_elem_of_fmap. exists (HashOf (Some v), n).
    split; [done|]. by apply elem_of_map_to_list.
Qed.

Lemma SplitDeltas_adds qs :
  exists ns, SplitDeltas (delta Add <$> qs) =
    Ok {| IncNode := ns; DecNode := []; QuadAdd := addUpdates 0 qs; QuadDel := [] |} /\
    updatesFor (qs ≫= valuesOf) ns.
Proof.
  destruct (splitLoop_adds 0 qs [] ∅ [] []) as (m & Hs & Hm).
  { split; [intros h n Hn; by rewrite lookup_empty in Hn|by intros v Hv%elem_of_nil]. }
  apply nodesFor_updates in Hm. unfold SplitDeltas. rewrite Hs. simpl in *.
  set (ns := snd <$> map_to_list m) in *.
  assert (filter (fun n => (0 <= RefInc n)%Z) ns = ns) as Hinc.
  { apply list_filter_all. destruct Hm as (_ & Hf & _). eapply Forall_impl; [exact Hf|]. simpl. intros; lia. }
  assert (filter (fun n => (RefInc n < 0)%Z) ns = []) as Hdec.
  { apply list_filter_none. destruct Hm as (_ & Hf & _). eapply Forall_impl; [exact Hf|]. simpl. intros; lia. }
  eexists. split; [by rewrite Hdec|]. rewrite Hinc.
  eapply updatesFor_perm; [|exact Hm]. symmetry. apply merge_sort_Permutation.
Qed.

Lemma updatesFor_nonneg vs ns : updatesFor vs ns -> Forall (fun n => (0 <= RefInc n)%Z) ns.
Proof. intros (_ & H & _). eapply Forall_impl; [exact H|]. simpl. intros; lia. Qed.

(** ** The effect of additions *)

(** Insert a node, or overwrite the count of the one that is there. *)
Definition putNode (d : db) (n : NodeUpdate) : db :=
  match SQLValue (nHash n) with
  | None => {| nodes := nodes d; quads := quads d;
               keyless := {| refs := RefInc n; cols := NodeValues (nVal n) |} :: keyless d |}
  | Some h =>
      {| nodes := <[h := {| refs := RefInc n;
                           cols := default (NodeValues (nVal n)) (cols <$> nodes d !! h) |}]> (nodes d);
         keyless := keyless d; quads := quads d |}
  end.

Lemma txNodes_put ns d :
  Forall (fun n => (0 <= RefInc n)%Z) ns -> txNodes ns d = (Ok tt, foldl putNode d ns).
Proof.
  intros H. revert d. induction H as [|n ns Hn _ IH]; intros d; [done|]. cbn [txNodes foldl].
  rewrite (proj2 (Z.ltb_ge _ 0) Hn).
  unfold mbind, prog_bind, try, insertNode, putNode, updateNode.
  destruct (SQLValue (nHash n)) as [h|]; [|apply IH].
  destruct (nodes d !! h) as [row|] eqn:E; simpl; [|apply IH].
  assert (alter (withRefs (fun _ => RefInc n)) h (nodes d)
          = <[h := {| refs := RefInc n; cols := cols row |}]> (nodes d)) as ->; [|apply IH].
  apply map_eq. intros h'. destruct (decide (h' = h)) as [->|Hne].
  - by rewrite lookup_alter_eq, lookup_insert_eq, E.
  - by rewrite lookup_alter_ne, lookup_insert_ne.
Qed.

Lemma SQLValue_Some h h' : SQLValue h = Some h' <-> h = h' /\ Valid h = true.
Proof. unfold SQLValue. destruct (Valid h); naive_solver. Qed.

Lemma putNode_lookup d n h :
  nodes (putNode d n) !! h =
    if decide (nHash n = h /\ Valid h = true)
    then Some {| refs := RefInc n; cols := default (NodeValues (nVal n)) (cols <$> nodes d !! h) |}
    else nodes d !! h.
Proof.
  unfold putNode, SQLValue. destruct (Valid (nHash n)) eqn:E; cbn [nodes];
    destruct (decide (nHash n = h /\ Valid h = true)) as [[Hh Hv]|Hd].
  - subst h. by rewrite lookup_insert_eq.
  - rewrite lookup_insert_ne; [done|]. intros Hh. apply Hd. by subst h.
  - congruence.
  - done.
Qed.

Lemma putNodes_quads ns d : quads (foldl putNode d ns) = quads d.
Proof.
  revert d. induction ns as [|n ns IH]; intros d; [done|]. simpl. rewrite IH.
  unfold putNode. by destruct (SQLValue _).
Qed.

(** All the rows after a list of node updates with distinct hashes. *)
Lemma putNodes_lookup ns d h :
  NoDup (nHash <$> ns) ->
  (h ∉ nHash <$> ns -> nodes (foldl putNode d ns) !! h = nodes d !! h) /\
  (forall n, n ∈ ns -> nHash n = h -> Valid h = true ->
     nodes (foldl putNode d ns) !! h =
       Some {| refs := RefInc n; cols := default (NodeValues (nVal n)) (cols <$> nodes d !! h) |}).
Proof.
  revert d. induction ns as [|n ns IH]; intros d; [by split; [|intros n Hn%elem_of_nil]|].
  cbn [fmap list_fmap foldl]. intros [Hn Hnd]%NoDup_cons. destruct (IH (putNode d n) Hnd) as [IH1 IH2].
  split.
  - rewrite not_elem_of_cons. intros [Hh Hns]. rewrite IH1, putNode_lookup by done.
    rewrite decide_False; [done|]. by intros [<- _].
  - intros n' [Heq|Hn']%elem_of_cons Hh Hv; [subst n'|].
    + rewrite IH1 by (by rewrite <- Hh). by rewrite putNode_lookup, decide_True.
    + rewrite (IH2 n' Hn' Hh Hv), putNode_lookup, decide_False; [done|].
      intros [Hc _]. apply Hn. rewrite Hc, <- Hh. by apply list_elem_of_fmap_2.
Qed.

(** The rows a list of quads adds, when all of them are complete. *)
Definition rowsOf (qs : list Quad) : option (list quadRow) := mapM (fun q => quadRowOf (hashQuad q)) qs.

Definition withQuads (rows : list quadRow) (d : db) : db :=
  {| nodes := nodes d; keyless := keyless d; quads := list_to_set rows ∪ quads d |}.

Lemma insertQuad_row q r d :
  quadRowOf q = Some r ->
  insertQuad q d = if bool_decide (r ∈ quads d)
                   then (Err (ESqlite ErrConstraint ErrConstraintUnique), d)
                   else (Ok tt, withQuads [r] d).
Proof.
  intros Hr. unfold insertQuad. rewrite Hr. case_bool_decide; [done|]. unfold withQuads. simpl.
  by rewrite union_empty_r_L.
Qed.

Lemma withQuads_app rows1 rows2 d : withQuads rows2 (withQuads rows1 d) = withQuads (rows1 ++ rows2) d.
Proof. unfold withQuads. simpl. f_equal. set_solver. Qed.

Lemma withQuads_in r d : r ∈ quads d -> withQuads [r] d = d.
Proof. intros Hr. destruct d. unfold withQuads. simpl in *. f_equal. set_solver. Qed.

(** With duplicates ignored every complete quad ends up in the table. *)
Lemma txQuads_ignore opts i qs rows d :
  IgnoreDup opts = true -> rowsOf qs = Some rows ->
  txQuads opts (addUpdates i qs) d = (Ok tt, withQuads rows d).
Proof.
  intros Hopt. revert i rows d. unfold rowsOf. induction qs as [|q qs IH]; intros i rows d.
  - intros [= <-]. simpl. unfold withQuads. simpl. destruct d; simpl. by rewrite union_empty_l_L.
  - cbn [mapM]. destruct (quadRowOf (hashQuad q)) as [r|] eqn:Hr; [|done]. cbn [mbind option_bind].
    destruct (mapM _ qs) as [rs|]; [|done]. intros [= <-].
    cbn [addUpdates txQuads Del uQuad]. unfold mbind, prog_bind, try.
    rewrite (insertQuad_row _ _ _ Hr). case_bool_decide as Hin.
    + simpl. rewrite Hopt. simpl. rewrite (IH _ _ _ eq_refl). f_equal.
      change (r :: rs) with ([r] ++ rs). by rewrite <- withQuads_app, withQuads_in.
    + simpl. rewrite (IH _ _ _ eq_refl). by rewrite withQuads_app.
Qed.

(** None of these rows is in the table, or twice in the list. *)
Definition fresh (rows : list quadRow) (d : db) : Prop := NoDup rows /\ Forall (fun r => r ∉ quads d) rows.
#[global] Instance fresh_dec rows d : Decision (fresh rows d).
Proof. unfold fresh. apply _. Defined.

Lemma fresh_cons r rows d :
  r ∉ quads d -> fresh (r :: rows) d <-> fresh rows (withQuads [r] d).
Proof.
  intros Hr. unfold fresh, withQuads. rewrite NoDup_cons, Forall_cons, !Forall_forall. simpl. set_solver.
Qed.

(** With duplicates refused, all go in or the first repeated one is an error. *)
Lemma txQuads_strict opts i qs rows d :
  IgnoreDup opts = false -> rowsOf qs = Some rows ->
  if decide (fresh rows d)
  then txQuads opts (addUpdates i qs) d = (Ok tt, withQuads rows d)
  else exists d', txQuads opts (addUpdates i qs) d = (Err (DeltaError ErrQuadExists), d').
Proof.
  intros Hopt. revert i rows d. unfold rowsOf. induction qs as [|q qs IH]; intros i rows d.
  - intros [= <-]. rewrite decide_True by (split; constructor).
    simpl. unfold withQuads. simpl. destruct d; simpl. by rewrite union_empty_l_L.
  - cbn [mapM]. destruct (quadRowOf (hashQuad q)) as [r|] eqn:Hr; [|done]. cbn [mbind option_bind].
    destruct (mapM _ qs) as [rs|]; [|done]. intros [= <-].
    cbn [addUpdates txQuads Del uQuad]. unfold mbind, prog_bind, try.
    rewrite (insertQuad_row _ _ _ Hr). destruct (decide (r ∈ quads d)) as [Hin|Hin].
    + rewrite (bool_decide_true (r ∈ quads d)) by done. simpl. rewrite Hopt. simpl.
      rewrite decide_False; [by eexists|]. intros [_ Hn]. by apply Forall_inv in Hn.
    + rewrite (bool_decide_false (r ∈ quads d)) by done. simpl.
      specialize (IH (S i) rs (withQuads [r] d) eq_refl). pose proof (fresh_cons r rs d Hin) as Hiff.
      destruct (decide (fresh rs (withQuads [r] d))) as [Hf|Hf].
      * rewrite decide_True by (by apply Hiff). rewrite IH. by rewrite withQuads_app.
      * rewrite decide_False by (by rewrite Hiff). done.
Qed.

Lemma txQuads_ok opts i qs d u d' :
  txQuads opts (addUpdates i qs) d = (Ok u, d') ->
  exists rows, rowsOf qs = Some rows /\ d' = withQuads rows d.
Proof.
  unfold rowsOf. revert i d. induction qs as [|q qs IH]; intros i d.
  - intros [= _ <-]. exists []. split; [done|]. unfold withQuads. simpl. destruct d; simpl.
    by rewrite union_empty_l_L.
  - cbn [addUpdates txQuads Del uQuad mapM]. unfold mbind at 1 2, prog_bind, try.
    destruct (quadRowOf (hashQuad q)) as [r|] eqn:Hr.
    2:{ unfold insertQuad. rewrite Hr. by intros [=]. }
    rewrite (insertQuad_row _ _ _ Hr). cbn [mbind option_bind]. case_bool_decide as Hin; simpl.
    + destruct (IgnoreDup opts); [|by intros [=]]. simpl. intros (rows & -> & ->)%IH.
      exists (r :: rows). split; [done|]. change (r :: rows) with ([r] ++ rows).
      by rewrite <- withQuads_app, withQuads_in.
    + intros (rows & -> & ->)%IH. exists (r :: rows). split; [done|]. by rewrite withQuads_app.
Qed.

(** ** Applying additions *)

Lemma ApplyDeltas_adds_eq qs opts d :
  exists ns, updatesFor (qs ≫= valuesOf) ns /\
    ApplyDeltas (delta Add <$> qs) opts d =
      match txQuads opts (addUpdates 0 qs) (foldl putNode d ns) with
      | (Ok _, d') => (Ok tt, d')
      | (r, _) => (r, d)
      end.
Proof.
  destruct (SplitDeltas_adds qs) as (ns & Hs & Hns). exists ns. split; [done|].
  unfold ApplyDeltas. rewrite Hs. erewrite bind_ok by reflexivity.
  unfold rollback, applyTx, runTx. cbn [IncNode QuadAdd QuadDel DecNode].
  rewrite bind_assoc, (bind_ok _ _ _ _ _ (txNodes_put ns d (updatesFor_nonneg _ _ Hns))).
  unfold mbind, prog_bind. by destruct (txQuads opts _ _) as [[[]|e|p] d'].
Qed.

(** Whatever the deltas, an error or a panic leaves the database alone. *)
Lemma ApplyDeltas_error ds opts d res d' :
  ApplyDeltas ds opts d = (res, d') -> is_ok res = false -> d' = d.
Proof.
  unfold ApplyDeltas, mbind, prog_bind, lift, rollback.
  destruct (SplitDeltas ds) as [x|e|p]; [|by intros [= <- <-]..].
  destruct (applyTx x opts d) as [[u|e|p] d1]; by intros [= <- <-].
Qed.

(** Adding quads never panics. *)
Lemma txQuads_no_panic opts i qs d p d' : txQuads opts (addUpdates i qs) d <> (Panic p, d').
Proof.
  revert i d. induction qs as [|q qs IH]; intros i d; [done|].
  cbn [addUpdates txQuads Del uQuad]. unfold mbind at 1 2, prog_bind, try, insertQuad.
  destruct (quadRowOf _); [case_bool_decide|]; cbn; [destruct (IgnoreDup opts); cbn|..]; try done; apply IH.
Qed.

Lemma AddQuadSet_no_panic qs d p d' : AddQuadSet qs d <> (Panic p, d').
Proof.
  intros E. destruct (ApplyDeltas_adds_eq qs defaultOpts d) as (ns & _ & Heq).
  pose proof (eq_trans (eq_sym Heq) E) as H. clear Heq E.
  destruct (txQuads _ _ _) as [[u|e|p'] d0] eqn:Hq; [done..|]. by apply txQuads_no_panic in Hq.
Qed.

(** ** The invariant of a graph *)

Definition rowHashes (r : quadRow) : list ValueHash :=
  let '(s, p, o, l) := r in [s; p; o] ++ option_list l.

(** Every node is stored under the hash of a value with its columns, and
    every hash in a quad is the key of a node. *)
Record wf (d : db) : Prop := {
  wf_nodes : forall h row, nodes d !! h = Some row ->
    exists v, HashOf (Some v) = h /\ cols row = NodeValues v;
  wf_quads : forall r h, r ∈ quads d -> h ∈ rowHashes r -> is_Some (nodes d !! h);
}.

Lemma wf_empty : wf emptyDB.
Proof.
  split; [intros h row; simpl; by rewrite lookup_empty|]. intros r h Hr. by apply elem_of_empty in Hr.
Qed.

Lemma putNodes_invalid ns d h :
  Valid h = false -> nodes (foldl putNode d ns) !! h = nodes d !! h.
Proof.
  intros Hv. revert d. induction ns as [|m ns IH]; intros d; [done|]. simpl.
  rewrite IH, putNode_lookup, decide_False; [done|]. intros [_ ?]. congruence.
Qed.

Lemma putNodes_wf vs ns d :
  updatesFor vs ns -> wf d -> wf (foldl putNode d ns) /\
  (forall v, v ∈ vs -> Valid (HashOf (Some v)) = true -> exists row,
     nodes (foldl putNode d ns) !! HashOf (Some v) = Some row /\
     refs row = Z.of_nat (occ (HashOf (Some v)) vs)).
Proof.
  intros (Hnd & Hall & Hin) [Hwn Hwq]. rewrite Forall_forall in Hall.
  assert (forall h row, nodes d !! h = Some row -> is_Some (nodes (foldl putNode d ns) !! h)) as Hkeep.
  { intros h row Hh. destruct (putNodes_lookup ns d h Hnd) as [P1 P2].
    destruct (decide (h ∈ nHash <$> ns)) as [(n & -> & Hn)%list_elem_of_fmap|Hn].
    - destruct (Valid (nHash n)) eqn:Hv; [by rewrite (P2 n)|].
      rewrite putNodes_invalid by done. by eexists.
    - rewrite P1 by done. by eexists. }
  split; [split|].
  - intros h row. destruct (putNodes_lookup ns d h Hnd) as [P1 P2].
    destruct (decide (h ∈ nHash <$> ns)) as [(n & -> & Hn)%list_elem_of_fmap|Hn].
    + destruct (Valid (nHash n)) eqn:Hv.
      * rewrite (P2 n) by done. intros [= <-]. simpl.
        destruct (nodes d !! nHash n) as [row|] eqn:E; simpl; [by apply Hwn|].
        exists (nVal n). split; [|done]. by apply Hall.
      * rewrite putNodes_invalid by done. apply Hwn.
    + rewrite P1 by done. by apply Hwn.
  - intros r h. rewrite putNodes_quads. intros Hr Hh. destruct (Hwq r h Hr Hh) as [row Hrow]. by eapply Hkeep.
  - intros v Hv Hvalid. apply Hin in Hv as (n & Hn & Hns)%list_elem_of_fmap.
    destruct (putNodes_lookup ns d (HashOf (Some v)) Hnd) as [_ P2].
    rewrite (P2 n) by done. eexists. split; [done|]. simpl. destruct (Hall n Hns) as (_ & -> & _).
    by rewrite Hn.
Qed.

Lemma HashOf_valid o h : SQLValue (HashOf o) = Some h -> exists v, o = Some v /\ HashOf (Some v) = h.
Proof.
  rewrite SQLValue_Some. intros [<- Hv]. destruct o as [v|]; [by exists v|].
  exfalso. revert Hv. unfold Valid, HashOf. by rewrite bool_decide_true.
Qed.

(** The hashes of a quad's row are those of its values. *)
Lemma quadRowOf_hashes q r h :
  quadRowOf (hashQuad q) = Some r -> h ∈ rowHashes r ->
  exists v, v ∈ valuesOf q /\ HashOf (Some v) = h /\ Valid h = true.
Proof.
  unfold quadRowOf. intros Hr Hh.
  destruct (SQLValue (hSubject (hashQuad q))) as [s|] eqn:Hs; [|done].
  destruct (SQLValue (hPredicate (hashQuad q))) as [p|] eqn:Hp; [|done].
  destruct (SQLValue (hObject (hashQuad q))) as [o|] eqn:Ho; [|done]. injection Hr as <-.
  assert (exists dir, SQLValue (HashOf (Quad_Get q dir)) = Some h) as [dir Hd].
  { unfold rowHashes in Hh. cbn [app] in Hh. rewrite !elem_of_cons in Hh.
    destruct Hh as [->|[->|[->|Hl]]];
      [by exists Subject|by exists Predicate|by exists Object|].
    exists Label. change (hLabel (hashQuad q)) with (HashOf (qLabel q)) in Hl. simpl.
    destruct (SQLValue (HashOf (qLabel q))) as [l|]; [|by apply elem_of_nil in Hl].
    by apply list_elem_of_singleton in Hl as ->. }
  destruct (HashOf_valid _ _ Hd) as (v & Hv & Hvh). exists v. split_and!.
  - unfold valuesOf. apply list_elem_of_omap. exists (Some v). split; [|done]. rewrite <- Hv.
    apply list_elem_of_fmap_2. destruct dir; set_solver.
  - done.
  - by apply SQLValue_Some in Hd as [<- ?].
Qed.

Lemma rowsOf_hashes qs rows r h :
  rowsOf qs = Some rows -> r ∈ rows -> h ∈ rowHashes r ->
  exists v, v ∈ (qs ≫= valuesOf) /\ HashOf (Some v) = h /\ Valid h = true.
Proof.
  unfold rowsOf. intros Hrows Hr Hh. apply mapM_Some_1 in Hrows.
  apply list_elem_of_lookup_1 in Hr as [i Hi].
  destruct (Forall2_lookup_r _ _ _ _ _ Hrows Hi) as (q & Hq & Hqr).
  destruct (quadRowOf_hashes q r h Hqr Hh) as (v & Hv & ? & ?). exists v. split; [|done].
  apply list_elem_of_bind. exists q. split; [done|]. by eapply list_elem_of_lookup_2.
Qed.

Lemma withQuads_wf rows d :
  wf d -> (forall r h, r ∈ rows -> h ∈ rowHashes r -> is_Some (nodes d !! h)) -> wf (withQuads rows d).
Proof.
  intros [Hn Hq] Hrows. split; [exact Hn|]. intros r h. simpl.
  rewrite elem_of_union, elem_of_list_to_set. intros [Hr|Hr]; eauto.
Qed.

(** All that additions do to a well-formed graph, on success. *)
Lemma additions_wf qs ns rows d :
  wf d -> updatesFor (qs ≫= valuesOf) ns -> rowsOf qs = Some rows ->
  wf (withQuads rows (foldl putNode d ns)).
Proof.
  intros Hwf Hns Hrows. destruct (putNodes_wf _ _ _ Hns Hwf) as [Hwf' Hv].
  apply withQuads_wf; [done|]. intros r h Hr Hh.
  destruct (rowsOf_hashes _ _ _ _ Hrows Hr Hh) as (v & Hin & <- & Hval).
  destruct (Hv v Hin Hval) as (row & Hrow & _). eauto.
Qed.

(** The rows of a list of quads are the rows of its quads, one for each. *)
Lemma rowsOf_elem qs rows r :
  rowsOf qs = Some rows -> r ∈ rows <-> exists q, q ∈ qs /\ quadRowOf (hashQuad q) = Some r.
Proof.
  unfold rowsOf. intros Hrows%mapM_Some_1. split.
  - intros [i Hi]%list_elem_of_lookup_1.
    destruct (Forall2_lookup_r _ _ _ _ _ Hrows Hi) as (q & Hq & Hr).
    exists q. split; [by eapply list_elem_of_lookup_2|done].
  - intros (q & [i Hi]%list_elem_of_lookup_1 & Hr).
    destruct (Forall2_lookup_l _ _ _ _ _ Hrows Hi) as (r' & Hi' & Hr').
    assert (r' = r) as -> by congruence. by eapply list_elem_of_lookup_2.
Qed.

Lemma rowsOf_each qs rows q :
  rowsOf qs = Some rows -> q ∈ qs -> exists r, quadRowOf (hashQuad q) = Some r.
Proof.
  unfold rowsOf. intros Hrows%mapM_Some_1 [i Hi]%list_elem_of_lookup_1.
  destruct (Forall2_lookup_l _ _ _ _ _ Hrows Hi) as (r & _ & Hr). by exists r.
Qed.

(** A successful addition to a well-formed graph. *)
Lemma AddQuadSet_ok qs d d' :
  AddQuadSet qs d = (Ok tt, d') -> wf d ->
  exists rows, rowsOf qs = Some rows /\ wf d' /\ forall r, r ∈ quads d' <-> r ∈ quads d \/ r ∈ rows.
Proof.
  intros Ha Hwf. destruct (ApplyDeltas_adds_eq qs defaultOpts d) as (ns & Hns & Heq).
  pose proof (eq_trans (eq_sym Heq) Ha) as H. clear Heq Ha.
  destruct (txQuads _ _ _) as [[[]|e|p] d0] eqn:Hq; try done. injection H as <-.
  destruct (txQuads_ok _ _ _ _ _ _ Hq) as (rows & Hrows & ->). exists rows. split; [done|].
  split; [by eapply additions_wf|]. intros r. unfold withQuads. cbn [quads].
  rewrite elem_of_union, elem_of_list_to_set, putNodes_quads. tauto.
Qed.

(** A node of a well-formed graph reads back as the value it is filed under. *)
Lemma wf_NameOf d v :
  wf d -> is_Some (nodes d !! HashOf (Some v)) -> Valid (HashOf (Some v)) = true -> storable v = true ->
  NameOf d (HashOf (Some v)) = Some v \/ exists w, hashCollision v w.
Proof.
  intros Hwf [row Hrow] Hval Hst. destruct (wf_nodes _ Hwf _ _ Hrow) as (w & Hw & Hc).
  destruct (decide (v = w)) as [<-|Hne].
  - left. unfold NameOf. rewrite Hval, Hrow. simpl. rewrite Hc. by apply rowValue_NodeValues.
  - right. by exists w.
Qed.

(** ** The properties of the store *)

(** C28: adding quads, the way claims, dapps and loaded files are written: when
    every quad is complete, the transaction succeeds whatever is already
    there; the quads of the graph are then the old ones and the new ones; the
    graph stays well formed; and every value of the new quads reads back,
    unless its text holds an escaped null byte or SHA-1 has a collision. *)
Theorem AddQuadSet_spec (qs : list Quad) (rows : list quadRow) (d : db) :
  wf d -> rowsOf qs = Some rows ->
  exists d', AddQuadSet qs d = (Ok tt, d') /\ wf d' /\
    (forall r, r ∈ quads d' <-> r ∈ quads d \/ r ∈ rows) /\
    (forall v, v ∈ (qs ≫= valuesOf) -> Valid (HashOf (Some v)) = true -> storable v = true ->
       NameOf d' (HashOf (Some v)) = Some v \/ exists w, hashCollision v w).
Proof.
  intros Hwf Hrows. destruct (ApplyDeltas_adds_eq qs defaultOpts d) as (ns & Hns & Heq).
  rewrite (txQuads_ignore defaultOpts 0 qs rows _ eq_refl Hrows) in Heq.
  pose proof (additions_wf _ _ _ _ Hwf Hns Hrows) as Hwf'.
  eexists. split; [exact Heq|]. split; [done|]. split.
  - intros r. simpl. rewrite elem_of_union, elem_of_list_to_set, putNodes_quads. tauto.
  - intros v Hv Hval. destruct (putNodes_wf _ _ _ Hns Hwf) as [_ Hp].
    destruct (Hp v Hv Hval) as (row & Hrow & _). apply wf_NameOf; [done| |done]. eauto.
Qed.

(** With duplicates refused, a list of complete quads is added whole when
    all of its rows are new and different, and otherwise not at all: the
    error is a delta error for an existing quad, and the database is the one
    before, nodes included. *)
Theorem ApplyDeltas_strict (qs : list Quad) (rows : list quadRow) (d : db) (opts : IgnoreOpts) :
  IgnoreDup opts = false -> rowsOf qs = Some rows ->
  if decide (fresh rows d)
  then exists d', ApplyDeltas (delta Add <$> qs) opts d = (Ok tt, d') /\
         forall r, r ∈ quads d' <-> r ∈ quads d \/ r ∈ rows
  else ApplyDeltas (delta Add <$> qs) opts d = (Err (DeltaError ErrQuadExists), d).
Proof.
  intros Hopt Hrows. destruct (ApplyDeltas_adds_eq qs opts d) as (ns & Hns & ->).
  pose proof (txQuads_strict opts 0 qs rows (foldl putNode d ns) Hopt Hrows) as Hq.
  assert (fresh rows (foldl putNode d ns) <-> fresh rows d) as Hf
    by (unfold fresh; by rewrite putNodes_quads).
  destruct (decide (fresh rows d)) as [Hd|Hd].
  - rewrite decide_True in Hq by (by apply Hf). rewrite Hq. eexists. split; [done|].
    intros r. simpl. rewrite elem_of_union, elem_of_list_to_set, putNodes_quads. tauto.
  - rewrite decide_False in Hq by (by rewrite Hf). destruct Hq as [d' ->]. done.
Qed.

(** C29: additions keep a graph well formed whatever their outcome: after any
    list of quads, complete or not, repeated or not, under any options, every
    node is still filed under the hash of its value and every hash of a quad
    still has a node; and if the outcome is an error, nothing changed. *)
Theorem additions_keep_wf (qs : list Quad) (opts : IgnoreOpts) (d : db) (res : result unit) (d' : db) :
  wf d -> ApplyDeltas (delta Add <$> qs) opts d = (res, d') ->
  wf d' /\ (is_ok res = false -> d' = d) /\ (is_ok res = true <-> is_Some (rowsOf qs) /\
    (IgnoreDup opts = true \/ forall rows, rowsOf qs = Some rows -> fresh rows d)).
Proof.
  intros Hwf. destruct (ApplyDeltas_adds_eq qs opts d) as (ns & Hns & ->).
  destruct (rowsOf qs) as [rows|] eqn:Hrows.
  - pose proof (additions_wf _ _ _ _ Hwf Hns Hrows) as Hwf'. destruct (IgnoreDup opts) eqn:Hopt.
    + rewrite (txQuads_ignore _ _ _ _ _ Hopt Hrows). intros [= <- <-]. naive_solver.
    + pose proof (txQuads_strict opts 0 qs rows (foldl putNode d ns) Hopt Hrows) as Hq.
      assert (fresh rows (foldl putNode d ns) <-> fresh rows d) as Hf
        by (unfold fresh; by rewrite putNodes_quads).
      case_decide as Hd.
      * rewrite Hq. intros [= <- <-]. rewrite Hf in Hd. naive_solver.
      * destruct Hq as [d0 ->]. rewrite Hf in Hd. intros [= <- <-]. split_and!; [done..|].
        split; [done|]. intros [_ [?|H]]; [done|]. by destruct Hd; apply H.
  - destruct (txQuads opts (addUpdates 0 qs) _) as [[u|e|p] d0] eqn:Hq.
    { destruct (txQuads_ok _ _ _ _ _ _ Hq) as (rows & ? & _). congruence. }
    all: intros [= <- <-]; split_and!; [done..|]; split; [done|]; by intros [[? [=]] _].
Qed.

(** The reference count of a node is not maintained: after a successful
    addition the count of every node the new quads mention is the number of
    times they mention it, whatever it was before, where the count of the
    references in the table would be the sum. *)
Theorem refs_overwritten (qs : list Quad) (d d' : db) (v : Value) :
  wf d -> AddQuadSet qs d = (Ok tt, d') ->
  v ∈ (qs ≫= valuesOf) -> Valid (HashOf (Some v)) = true ->
  exists row, nodes d' !! HashOf (Some v) = Some row /\
    refs row = Z.of_nat (occ (HashOf (Some v)) (qs ≫= valuesOf)).
Proof.
  intros Hwf Ha Hv Hval. unfold AddQuadSet in Ha.
  destruct (ApplyDeltas_adds_eq qs defaultOpts d) as (ns & Hns & Heq). rewrite Heq in Ha.
  destruct (txQuads _ _ _) as [[[]|e|p] d0] eqn:Hq; try done. injection Ha as ->.
  destruct (txQuads_ok _ _ _ _ _ _ Hq) as (rows & _ & ->). simpl.
  destruct (putNodes_wf _ _ _ Hns Hwf) as [_ Hp]. by apply Hp.
Qed.

(** Strings with the four characters [\x00] are not kept apart from
    strings with a null byte: for any text they are stored in the same
    columns, and both read back as the null byte. *)
Theorem escaped_nul_confused (s : bytes) :
  String (escapedNul ++ s) <> String (nul :: s) /\
  NodeValues (String (escapedNul ++ s)) = NodeValues (String (nul :: s)) /\
  (noEscapedNul s = true -> rowValue (NodeValues (String (escapedNul ++ s))) = Some (String (nul :: s))).
Proof.
  assert (NodeValues (String (escapedNul ++ s)) = NodeValues (String (nul :: s))) as E.
  { unfold NodeValues. do 2 f_equal. }
  split_and!; [by intros [=]|done|]. intros Hs. rewrite E. unfold rowValue, NodeValues.
  cbn [value_string iri bnode language datatype default from_option id].
  rewrite escapeNullByte_cons, decide_True by done.
  change (unescapeNullByte (escapedNul ++ escapeNullByte s)) with (nul :: unescapeNullByte (escapeNullByte s)).
  by rewrite unescape_escapeNullByte.
Qed.

(** ** Witnesses *)

Definition spo (s p o : bytes) : Quad :=
  {| qSubject := Some (IRI s); qPredicate := Some (IRI p); qObject := Some (IRI o); qLabel := None |}.
Definition rowsFrom (qs : list Quad) : list quadRow := default [] (rowsOf qs).
Definition q1 : Quad := spo "alice" "knows" "bob".
Definition q2 : Quad := spo "alice" "knows" "carol".

(** Run a program and keep the state. *)
Definition after {S A} (m : prog S A) (s : S) : S := snd (m s).

Lemma rows_q1 : rowsOf [q1] = Some (rowsFrom [q1]).
Proof.
  assert (bool_decide (rowsOf [q1] = None) = false) as H by (vm_compute; reflexivity).
  apply bool_decide_eq_false_1 in H. unfold rowsFrom. by destruct (rowsOf [q1]).
Qed.

(** And so a node still in use can be deleted: after adding two quads
    about the same subject one at a time and removing the second, the first
    quad is still in the table but its subject has no node and no name. *)
Theorem refs_drop_live_node :
  let d := after (RemoveQuad q2) (after (AddQuadSet [q2]) (after (AddQuadSet [q1]) emptyDB)) in
  (exists r, rowsOf [q1] = Some [r] /\ r ∈ quads d) /\
  nodes d !! HashOf (Some (IRI "alice")) = None /\
  NameOf d (HashOf (Some (IRI "alice"))) = None /\ ~ wf d.
Proof.
  intros d. set (h := HashOf (Some (IRI "alice"))).
  assert (forallb (fun r => bool_decide (r ∈ quads d /\ h ∈ rowHashes r)) (rowsFrom [q1]) = true
          /\ length (rowsFrom [q1]) = 1) as [Hin Hlen] by (split; vm_compute; reflexivity).
  assert (nodes d !! h = None) as Hnone by (vm_compute; reflexivity).
  assert (NameOf d h = None) as Hname by (vm_compute; reflexivity).
  pose proof rows_q1 as Hr. clearbody d h. revert Hin Hlen Hr. generalize (rowsFrom [q1]).
  intros [|r [|? ?]] Hin [=] Hr. cbn [forallb] in Hin. apply andb_prop in Hin as [Hin _].
  apply bool_decide_eq_true_1 in Hin as [Hin Hh].
  split; [exact (ex_intro _ r (conj Hr Hin))|]. split; [exact Hnone|]. split; [exact Hname|].
  intros Hwf. destruct (wf_quads _ Hwf r h Hin Hh) as [row Hrow]. congruence.
Qed.

Lemma AddQuadSet_spec_witness :
  exists d', AddQuadSet [q1] emptyDB = (Ok tt, d') /\ wf d' /\
    (forall r, r ∈ quads d' <-> r ∈ quads emptyDB \/ r ∈ rowsFrom [q1]) /\
    (forall v, v ∈ ([q1] ≫= valuesOf) -> Valid (HashOf (Some v)) = true -> storable v = true ->
       NameOf d' (HashOf (Some v)) = Some v \/ exists w, hashCollision v w).
Proof. exact (AddQuadSet_spec [q1] (rowsFrom [q1]) emptyDB wf_empty rows_q1). Defined.

Definition strictOpts : IgnoreOpts := {| IgnoreDup := false; IgnoreMissing := false |}.

Lemma ApplyDeltas_strict_witness :
  IgnoreDup strictOpts = false /\
  if decide (fresh (rowsFrom [q1]) emptyDB)
  then exists d', ApplyDeltas (delta Add <$> [q1]) strictOpts emptyDB = (Ok tt, d') /\
         forall r, r ∈ quads d' <-> r ∈ quads emptyDB \/ r ∈ rowsFrom [q1]
  else ApplyDeltas (delta Add <$> [q1]) strictOpts emptyDB = (Err (DeltaError ErrQuadExists), emptyDB).
Proof.
  split; [reflexivity|].
  exact (ApplyDeltas_strict [q1] (rowsFrom [q1]) emptyDB strictOpts eq_refl rows_q1).
Defined.

Lemma additions_keep_wf_witness :
  let run := ApplyDeltas (delta Add <$> [q1; q1]) strictOpts emptyDB in
  wf emptyDB /\ is_ok (fst run) = false /\ snd run = emptyDB.
Proof.
  intros run. split; [exact wf_empty|].
  assert (is_ok (fst run) = false) as H by (vm_compute; reflexivity). split; [exact H|].
  exact (proj1 (proj2 (additions_keep_wf [q1; q1] strictOpts emptyDB (fst run) (snd run)
                         wf_empty (surjective_pairing run))) H).
Defined.

Lemma refs_overwritten_witness :
  let d := after (AddQuadSet [q1]) emptyDB in
  AddQuadSet [q1] emptyDB = (Ok tt, d) /\
  exists row, nodes d !! HashOf (Some (IRI "alice")) = Some row /\
    refs row = Z.of_nat (occ (HashOf (Some (IRI "alice"))) ([q1] ≫= valuesOf)).
Proof.
  intros d. assert (fst (AddQuadSet [q1] emptyDB) = Ok tt) as H by (vm_compute; reflexivity).
  assert (AddQuadSet [q1] emptyDB = (Ok tt, d)) as Ha
    by (rewrite <- H; apply surjective_pairing).
  split; [exact Ha|]. apply (refs_overwritten [q1] emptyDB d (IRI "alice") wf_empty Ha).
  - by left.
  - vm_compute. reflexivity.
Defined.
