(* ===== verification/Db.v ===== *)
(** * The Swarm-backed database driver

    [db/db.go].  First the sequential operations on files: [fetchHash],
    [fetchDB] and [Commit].  Then the concurrent life of one database: the
    goroutine that follows the registry's updates, the connections opened and
    closed by callers, and the two mutexes, as a transition system whose steps
    are the critical sections of the code and the calls between them.  The
    distributed storage (Swarm's DPA) and SQLite's own locking are not part of
    the repository's code: storage is the class [DPA], and a SQLite connection
    is a handle on the file that was at the path when it was opened. *)
From S2P Require Import Prelude Keccak Common Contract.

(** ** Storage *)

(** What [dpa.Retrieve] returns: the answer to [Size], the bytes that can be
    read, and the error that ends them ([None] is the end of the file). *)
Record reader := { rSize : error + nat; rData : bytes; rErr : option error }.

Class DPA (D : Type) := {
  Retrieve : D -> Hash -> reader;
  Store : bytes -> prog D bytes;
}.

(** A reader that yields [data] and all of it. *)
Definition completeReader (data : bytes) : reader :=
  {| rSize := inr (length data); rData := data; rErr := None |}.

(** What Swarm documents: what has been stored can be retrieved by its key,
    a 32-byte hash that is not zero, and storing more does not lose it. *)
Class DPALaws (D : Type) `{DPA D} := {
  Store_Retrieve : forall data d key d', Store data d = (Ok key, d') ->
    length key = 32 /\ BytesToHash key <> zeroHash /\
    Retrieve d' (BytesToHash key) = completeReader data;
  Store_keeps : forall data d r d' h x, Store data d = (r, d') ->
    Retrieve d h = completeReader x -> Retrieve d' h = completeReader x;
}.

(** ** Files *)

(** A path: a temporary file, or a database in the driver's directory. *)
Inductive path := Tmp (n : nat) | DbPath (name : bytes).
#[global] Instance path_eq_dec : EqDecision path.
Proof. solve_decision. Defined.
#[global] Instance path_countable : Countable path.
Proof.
  refine (inj_countable' (fun p => match p with Tmp n => inl n | DbPath b => inr b end)
            (fun s => match s with inl n => Tmp n | inr b => DbPath b end) _).
  by intros [].
Defined.

(** Names point to files; a file stays readable by who has it open after its
    name is gone.  [freshFile] numbers the files, and the temporary names. *)
Record FS := { names : gmap path nat; contents : gmap nat bytes; freshFile : nat }.

Definition content (fs : FS) (p : path) : option bytes := i ← names fs !! p; contents fs !! i.

(** [ioutil.TempFile]: a new, empty file under a new name. *)
Definition TempFile (err : option error) : prog FS nat := fun fs =>
  match err with
  | Some e => (Err e, fs)
  | None =>
      let n := freshFile fs in
      (Ok n, {| names := <[Tmp n := n]> (names fs); contents := <[n := []]> (contents fs);
                freshFile := S n |})
  end.

(** Write at the end of file [n]. *)
Definition appendFile (n : nat) (data : bytes) (fs : FS) : FS :=
  {| names := names fs; contents := alter (fun c => c ++ data) n (contents fs);
     freshFile := freshFile fs |}.

Definition Remove (p : path) (fs : FS) : FS :=
  {| names := delete p (names fs); contents := contents fs; freshFile := freshFile fs |}.

(** [os.Rename]: [dst] points to the file of [src], atomically. *)
Definition Rename (err : option error) (src dst : path) : prog FS unit := fun fs =>
  match err, names fs !! src with
  | Some e, _ => (Err e, fs)
  | None, None => (Err (EVar "os.ErrNotExist"), fs)
  | None, Some i =>
      (Ok tt, {| names := <[dst := i]> (delete src (names fs)); contents := contents fs;
                 freshFile := freshFile fs |})
  end.

(** [io.Copy(dst, io.LimitReader(reader, size))]. *)
Definition copyLimited (size : nat) (r : reader) : bytes * option error :=
  if (size <=? length (rData r))%nat then (take size (rData r), None) else (rData r, rErr r).

Definition shortCopy : error := ETyped "fmt.Errorf" "failed to fetch database, expected %d bytes, copied %d".

(** Failures of the file system, chosen by the environment. *)
Record faults := { tempErr : option error; renameErr : option error }.
Definition noFaults : faults := {| tempErr := None; renameErr := None |}.

Section files.
Context {D : Type} `{DPA D}.

Definition fetchHash (dpa : D) (hash : Hash) (dst : nat) : prog FS unit :=
  if EmptyHash hash then mret tt
  else
    let reader := Retrieve dpa hash in
    match rSize reader with
    | inl e => throw e
    | inr size =>
        let (data, err) := copyLimited size reader in
        _ ← modify (appendFile dst data);
        match err with
        | Some e => throw e
        | None => if negb (length data =? size)%nat then throw shortCopy else mret tt
        end
    end.

Definition fetchDB (f : faults) (dpa : D) (hash : Hash) (p : path) : prog FS unit :=
  tmp ← TempFile (tempErr f);
  res ← try (fetchHash dpa hash tmp);
  match res with
  | Err e => _ ← modify (Remove (Tmp tmp)); throw e
  | _ =>
      res ← try (Rename (renameErr f) (Tmp tmp) p);
      match res with
      | Err e => _ ← modify (Remove (Tmp tmp)); throw e
      | _ => mret tt
      end
  end.

(** [Commit]: the state is the storage; the file is read and stored. *)
Definition Commit (fs : FS) (name : bytes) : prog D Hash :=
  match content fs (DbPath name) with
  | None => throw (EVar "os.ErrNotExist")
  | Some data => key ← Store data; mret (BytesToHash key)
  end.

(** ** What is fetched *)

(** The content a hash stands for, when it can be fetched. *)
Definition fetched (dpa : D) (hash : Hash) : result bytes :=
  if EmptyHash hash then Ok []
  else
    let reader := Retrieve dpa hash in
    match rSize reader with
    | inl e => Err e
    | inr size =>
        let (data, err) := copyLimited size reader in
        match err with
        | Some e => Err e
        | None => if negb (length data =? size)%nat then Err shortCopy else Ok data
        end
    end.

(** The temporary names of a file system are those below [freshFile]. *)
Definition fsOk (fs : FS) : Prop :=
  (forall n i, names fs !! Tmp n = Some i -> n < freshFile fs) /\
  (forall p i, names fs !! p = Some i -> is_Some (contents fs !! i)) /\
  (forall i c, contents fs !! i = Some c -> i < freshFile fs).

Lemma fsOk_names fs p i : fsOk fs -> names fs !! p = Some i -> i < freshFile fs.
Proof. intros (_ & H2 & H3) Hp. destruct (H2 _ _ Hp) as [c Hc]. by eapply H3. Qed.

Lemma fetchHash_spec dpa hash n fs :
  contents fs !! n = Some [] ->
  exists data, fetchHash dpa hash n fs =
    (match fetched dpa hash with Ok _ => Ok tt | Err e => Err e | Panic p => Panic p end,
     appendFile n data fs) /\ (forall c, fetched dpa hash = Ok c -> c = data).
Proof.
  intros Hn. assert (forall fs, appendFile n [] fs = fs) as Hnil.
  { intros [nm ct fr]. unfold appendFile. simpl. f_equal. apply map_eq. intros i.
    rewrite lookup_alter. case_decide; [subst|done]. destruct (ct !! i); [|done]. simpl.
    by rewrite app_nil_r. }
  unfold fetchHash, fetched. destruct (EmptyHash hash).
  { exists []. rewrite Hnil. split; [done|]. by intros c [= <-]. }
  destruct (rSize (Retrieve dpa hash)) as [e|size]; [exists []; rewrite Hnil; by split; [reflexivity|]|].
  destruct (copyLimited size (Retrieve dpa hash)) as [data err]. exists data.
  rewrite (bind_ok _ _ fs tt (appendFile n data fs)) by reflexivity.
  destruct err as [e|]; [by split; [reflexivity|]|].
  destruct (negb (length data =? size)%nat); (split; [reflexivity|]); [done|]. by intros c [= ->].
Qed.

Lemma fetched_no_panic dpa hash p : fetched dpa hash <> Panic p.
Proof.
  unfold fetched. destruct (EmptyHash hash); [done|].
  destruct (rSize _); [done|]. destruct (copyLimited _ _) as [data [e|]]; [done|]. by destruct (negb _).
Qed.

(** A hash whose content can all be retrieved is fetched. *)
Lemma fetched_complete dpa hash data :
  hash <> zeroHash -> Retrieve dpa hash = completeReader data -> fetched dpa hash = Ok data.
Proof.
  intros Hnz Hr. unfold fetched.
  assert (EmptyHash hash = false) as -> by (by apply bool_decide_eq_false).
  rewrite Hr. cbn [completeReader rSize]. unfold copyLimited. cbn [completeReader rData].
  by rewrite Nat.leb_refl, take_ge, Nat.eqb_refl.
Qed.

(** [fetchDB] is atomic: the name moves to a new file with all of the
    content, or no name moves; the files that are open stay as they are. *)
Lemma fetchDB_spec f dpa hash name fs :
  fsOk fs ->
  let (res, fs') := fetchDB f dpa hash (DbPath name) fs in
  fsOk fs' /\ (forall i c, contents fs !! i = Some c -> contents fs' !! i = Some c) /\
  match res with
  | Ok _ => exists data, fetched dpa hash = Ok data /\
      names fs' = <[DbPath name := freshFile fs]> (names fs) /\
      contents fs' !! freshFile fs = Some data
  | Err e => names fs' = names fs /\
      (tempErr f = Some e \/ fetched dpa hash = Err e \/ renameErr f = Some e)
  | Panic _ => False
  end.
Proof.
  intros Hok. pose proof Hok as (Hn & Hc & Hf). unfold fetchDB, TempFile.
  destruct (tempErr f) as [e|]; [by split_and!; auto|].
  set (n := freshFile fs).
  set (fs1 := {| names := <[Tmp n := n]> (names fs); contents := <[n := []]> (contents fs);
                 freshFile := S n |}).
  destruct (fetchHash_spec dpa hash n fs1) as (data & Hfetch & Hdata);
    [simpl; by rewrite lookup_insert_eq|].
  assert (names fs !! Tmp n = None) as Hfree.
  { destruct (names fs !! Tmp n) as [i|] eqn:E; [|done]. apply Hn in E. unfold n in E. lia. }
  assert (contents fs !! n = None) as Hfree2.
  { destruct (contents fs !! n) as [c|] eqn:E; [|done]. apply Hf in E. unfold n in E. lia. }
  assert (forall i, contents (appendFile n data fs1) !! i =
            if decide (i = n) then Some data else contents fs !! i) as Hcont.
  { intros i. simpl. case_decide; [subst|by rewrite lookup_alter_ne, lookup_insert_ne].
    by rewrite lookup_alter_eq, lookup_insert_eq. }
  assert (forall nm, (forall m i, nm !! Tmp m = Some i -> m < S n) ->
            (forall p i, nm !! p = Some i -> i = n \/ exists p', names fs !! p' = Some i) ->
            fsOk {| names := nm; contents := contents (appendFile n data fs1); freshFile := S n |}) as Hok'.
  { intros nm H1 H2. split_and!; [done| |]; simpl names; simpl freshFile; cbn [contents].
    - intros p i Hp. rewrite Hcont. case_decide; [by eexists|].
      destruct (H2 _ _ Hp) as [?|[p' Hp']]; [done|]. by eapply Hc.
    - intros i c. rewrite Hcont. case_decide; [subst; lia|]. intros Hi%Hf. unfold n. lia. }
  assert (forall i c, contents fs !! i = Some c -> contents (appendFile n data fs1) !! i = Some c) as Hkeep.
  { intros i c Hi. rewrite Hcont, decide_False; [done|]. intros ->. congruence. }
  assert (delete (Tmp n) (names fs1) = names fs) as Hdel by (simpl; by rewrite delete_insert_id).
  assert (fsOk (Remove (Tmp n) (appendFile n data fs1))) as Hrem.
  { apply (Hok' (delete (Tmp n) (names fs1))); rewrite Hdel.
    - intros m i Hm%Hn. unfold n. lia.
    - eauto. }
  rewrite (bind_ok _ _ fs n fs1) by reflexivity.
  destruct (fetched dpa hash) as [c|e|p] eqn:E; [| |by destruct (fetched_no_panic _ _ _ E)];
    rewrite (bind_try _ _ _ _ _ Hfetch) by done.
  2:{ split_and!; [exact Hrem|exact Hkeep|exact Hdel|auto]. }
  specialize (Hdata c eq_refl) as ->.
  destruct (renameErr f) as [e|] eqn:Hre.
  { rewrite (bind_try _ _ _ (Err e) (appendFile n data fs1)) by done.
    split_and!; [exact Hrem|exact Hkeep|exact Hdel|auto]. }
  set (fs2 := {| names := <[DbPath name := n]> (delete (Tmp n) (names fs1));
                 contents := contents (appendFile n data fs1); freshFile := S n |}).
  rewrite (bind_try _ _ _ (Ok tt) fs2).
  2:{ unfold Rename. cbn [names appendFile fs1]. by rewrite lookup_insert_eq. }
  2:{ done. }
  unfold fs2. rewrite Hdel. cbn [names contents].
  split_and!; [|exact Hkeep|exists data; split_and!; [done..|]].
  - apply (Hok' (<[DbPath name := n]> (names fs))).
    + intros m i. rewrite lookup_insert_ne by done. intros Hm%Hn. unfold n. lia.
    + intros p i. destruct (decide (p = DbPath name)) as [->|Hp].
      * rewrite lookup_insert_eq. intros [= ->]. by left.
      * rewrite lookup_insert_ne by done. eauto.
  - rewrite Hcont. by rewrite decide_True.
Qed.
End files.

(** ** The life of one database

    All the steps below are of one name; other names share only the mutex of
    the driver, which [openDB] and the final deletion hold for one critical
    section each. *)

(** Where the goroutine of a [db] is: waiting in its [select]; about to fetch
    an update; about to reopen the connections; running the deferred
    function up to [db.close]; inside [db.close] with the mutex held; about to
    delete the entry of the driver's map; ended. *)
Inductive gopc := Idle | Fetching (hash : Hash) | Reopening | Leaving | Closing | Deleting | Ended.
#[global] Instance gopc_eq_dec : EqDecision gopc.
Proof. solve_decision. Defined.

(** A [db]: its connections ([None] is the nil map), whether a goroutine holds
    [connsMtx] across steps, and its goroutine. *)
Record dbObj := { conns : option (gset nat); locked : bool; pc : gopc }.

(** A caller of [Driver.Open] between its calls: it has the [db]; it has a
    connection that is not registered yet. *)
Inductive opener := HasDB (id : nat) | HasConn (id conn : nat).

(** [handles] maps each connection to the file its current SQLite connection
    has open; [leaked] lists the files of the connections that were replaced
    and never closed. *)
Record sys := {
  fs : FS; dbs : option nat; objs : gmap nat dbObj; openers : gmap nat opener;
  handles : gmap nat nat; leaked : list nat; fresh : nat; crashed : bool;
}.

Inductive label :=
  | LOpen (caller : nat) (hash : Hash) (f : faults)
  | LSqlite (caller : nat) (err : option error)
  | LAdd (caller : nat)
  | LUpdate (id : nat) (hash : Hash)
  | LUpdatesClosed (id : nat)
  | LFetch (id : nat) (f : faults)
  | LReopen (id : nat) (order : list nat) (failAt : option nat)
  | LClose (id : nat)
  | LCloseConn (id conn : nat)
  | LCloseEnd (id : nat)
  | LDelete (id : nat)
  | LConnClose (id conn : nat).

Section system.
Context {D : Type} `{DPA D} (dpa : D) (name : bytes).

Definition dbPath : path := DbPath name.

Definition withFS (x : FS) (s : sys) : sys :=
  {| fs := x; dbs := dbs s; objs := objs s; openers := openers s; handles := handles s;
     leaked := leaked s; fresh := fresh s; crashed := crashed s |}.
Definition withDbs (x : option nat) (s : sys) : sys :=
  {| fs := fs s; dbs := x; objs := objs s; openers := openers s; handles := handles s;
     leaked := leaked s; fresh := fresh s; crashed := crashed s |}.
Definition withObj (id : nat) (o : dbObj) (s : sys) : sys :=
  {| fs := fs s; dbs := dbs s; objs := <[id := o]> (objs s); openers := openers s;
     handles := handles s; leaked := leaked s; fresh := fresh s; crashed := crashed s |}.
Definition withOpener (c : nat) (o : option opener) (s : sys) : sys :=
  {| fs := fs s; dbs := dbs s; objs := objs s;
     openers := match o with Some o => <[c := o]> (openers s) | None => delete c (openers s) end;
     handles := handles s; leaked := leaked s; fresh := fresh s; crashed := crashed s |}.
Definition withHandles (h : gmap nat nat) (l : list nat) (s : sys) : sys :=
  {| fs := fs s; dbs := dbs s; objs := objs s; openers := openers s; handles := h;
     leaked := l; fresh := fresh s; crashed := crashed s |}.
Definition bump (s : sys) : sys :=
  {| fs := fs s; dbs := dbs s; objs := objs s; openers := openers s; handles := handles s;
     leaked := leaked s; fresh := S (fresh s); crashed := crashed s |}.
Definition crash (s : sys) : sys :=
  {| fs := fs s; dbs := dbs s; objs := objs s; openers := openers s; handles := handles s;
     leaked := leaked s; fresh := fresh s; crashed := true |}.

Definition setPc (id : nat) (o : dbObj) (p : gopc) (s : sys) : sys :=
  withObj id {| conns := conns o; locked := locked o; pc := p |} s.

(** [conn.sqliteConn.Store] of a connection opened on the path's file. *)
Definition restore (file : nat) (s : sys) (c : nat) : sys :=
  withHandles (<[c := file]> (handles s))
              (leaked s ++ match handles s !! c with Some i => [i] | None => [] end) s.

(** The steps, one function each: [None] is a step that cannot be taken now,
    because the goroutine is elsewhere or because it waits for a mutex. *)

(** [openDB]: find the [db], or fetch it and make one with its goroutine. *)
Definition stepOpen (c : nat) (hash : Hash) (f : faults) (s : sys) : option sys :=
  match openers s !! c with
  | Some _ => None
  | None =>
      match dbs s with
      | Some id => Some (withOpener c (Some (HasDB id)) s)
      | None =>
          match fetchDB f dpa hash dbPath (fs s) with
          | (Ok _, fs') =>
              let id := fresh s in
              let db := {| conns := Some ∅; locked := false; pc := Idle |} in
              Some (bump (withOpener c (Some (HasDB id)) (withDbs (Some id)
                     (withObj id db (withFS fs' s)))))
          | (_, fs') => Some (withFS fs' s)
          end
      end
  end.

(** [newConn] up to [addConn]: SQLite opens the file the path names now. *)
Definition stepSqlite (c : nat) (err : option error) (s : sys) : option sys :=
  match openers s !! c, err with
  | Some (HasDB id), None =>
      match names (fs s) !! dbPath with
      | Some file =>
          let conn := fresh s in
          Some (bump (withOpener c (Some (HasConn id conn))
                 (withHandles (<[conn := file]> (handles s)) (leaked s) s)))
      | None => Some (withOpener c None s)
      end
  | Some (HasDB id), Some _ => Some (withOpener c None s)
  | _, _ => None
  end.

(** [addConn]: to write to a nil map is a panic. *)
Definition stepAdd (c : nat) (s : sys) : option sys :=
  match openers s !! c with
  | Some (HasConn id conn) =>
      match objs s !! id with
      | Some o =>
          if locked o then None
          else match conns o with
               | None => Some (crash s)
               | Some m => Some (withOpener c None (withObj id
                    {| conns := Some ({[conn]} ∪ m); locked := false; pc := pc o |} s))
               end
      | None => None
      end
  | _ => None
  end.

(** The [select] of the goroutine receives a hash, or finds the channel closed. *)
Definition stepUpdate (id : nat) (hash : Hash) (s : sys) : option sys :=
  match objs s !! id with
  | Some o => if decide (pc o = Idle) then Some (setPc id o (Fetching hash) s) else None
  | None => None
  end.
Definition stepUpdatesClosed (id : nat) (s : sys) : option sys :=
  match objs s !! id with
  | Some o => if decide (pc o = Idle) then Some (setPc id o Leaving s) else None
  | None => None
  end.

(** The goroutine fetches the update; on an error it returns. *)
Definition stepFetch (id : nat) (f : faults) (s : sys) : option sys :=
  match objs s !! id with
  | Some o =>
      match pc o with
      | Fetching hash =>
          match fetchDB f dpa hash dbPath (fs s) with
          | (Ok _, fs') => Some (setPc id o Reopening (withFS fs' s))
          | (_, fs') => Some (setPc id o Leaving (withFS fs' s))
          end
      | _ => None
      end
  | None => None
  end.

(** [reopenConns], over the connections in some order, up to the first that
    fails to open. *)
Definition stepReopen (id : nat) (order : list nat) (failAt : option nat) (s : sys) : option sys :=
  match objs s !! id with
  | Some o =>
      if negb (bool_decide (pc o = Reopening)) || locked o
         || negb (bool_decide (Permutation order (elements (default ∅ (conns o))))) then None
      else
        match names (fs s) !! dbPath with
        | None => None
        | Some file =>
            match failAt with
            | None => Some (setPc id o Idle (foldl (restore file) s order))
            | Some k => if (k <? length order)%nat
                        then Some (setPc id o Leaving (foldl (restore file) s (take k order)))
                        else None
            end
        end
  | None => None
  end.

(** [db.close] takes [connsMtx]... *)
Definition stepClose (id : nat) (s : sys) : option sys :=
  match objs s !! id with
  | Some o => if decide (pc o = Leaving) then
                if locked o then None
                else Some (withObj id {| conns := conns o; locked := true; pc := Closing |} s)
              else None
  | None => None
  end.

(** ...closes each connection, which takes the same mutex in [removeConn]... *)
Definition stepCloseConn (id conn : nat) (s : sys) : option sys :=
  match objs s !! id with
  | Some o => if decide (pc o = Closing /\ conn ∈ default ∅ (conns o)) then
                if locked o then None
                else Some (withObj id {| conns := (fun m => m ∖ {[conn]}) <$> conns o;
                                         locked := locked o; pc := Closing |} s)
              else None
  | None => None
  end.

(** ...and sets the map to nil once there is no connection left. *)
Definition stepCloseEnd (id : nat) (s : sys) : option sys :=
  match objs s !! id with
  | Some o => if decide (pc o = Closing /\ default ∅ (conns o) = ∅)
              then Some (withObj id {| conns := None; locked := false; pc := Deleting |} s)
              else None
  | None => None
  end.

(** The end of the deferred function: the entry of the driver's map goes. *)
Definition stepDelete (id : nat) (s : sys) : option sys :=
  match objs s !! id with
  | Some o => if decide (pc o = Deleting) then Some (withDbs None (setPc id o Ended s)) else None
  | None => None
  end.

(** [Conn.Close] by a user of the connection. *)
Definition stepConnClose (id conn : nat) (s : sys) : option sys :=
  match objs s !! id with
  | Some o =>
      if locked o then None
      else if decide (conn ∈ default ∅ (conns o)) then
             Some (withObj id {| conns := (fun m => m ∖ {[conn]}) <$> conns o;
                                 locked := false; pc := pc o |} s)
           else None
  | None => None
  end.

(** One step; a crashed process takes none. *)
Definition step (l : label) (s : sys) : option sys :=
  if crashed s then None else
  match l with
  | LOpen c hash f => stepOpen c hash f s
  | LSqlite c err => stepSqlite c err s
  | LAdd c => stepAdd c s
  | LUpdate id hash => stepUpdate id hash s
  | LUpdatesClosed id => stepUpdatesClosed id s
  | LFetch id f => stepFetch id f s
  | LReopen id order failAt => stepReopen id order failAt s
  | LClose id => stepClose id s
  | LCloseConn id conn => stepCloseConn id conn s
  | LCloseEnd id => stepCloseEnd id s
  | LDelete id => stepDelete id s
  | LConnClose id conn => stepConnClose id conn s
  end.

Definition init (f : FS) : sys :=
  {| fs := f; dbs := None; objs := ∅; openers := ∅; handles := ∅; leaked := []; fresh := 0;
     crashed := false |}.

(** Run a schedule; [None] when a step of it is not enabled. *)
Fixpoint run (ls : list label) (s : sys) : option sys :=
  match ls with [] => Some s | l :: ls => s' ← step l s; run ls s' end.

Inductive reachable (f : FS) : sys -> Prop :=
  | reach_init : reachable f (init f)
  | reach_step s l s' : reachable f s -> step l s = Some s' -> reachable f s'.
End system.

Ltac unfold_step :=
  unfold step, stepOpen, stepSqlite, stepAdd, stepUpdate, stepUpdatesClosed, stepFetch, stepReopen,
    stepClose, stepCloseConn, stepCloseEnd, stepDelete, stepConnClose.

(** ** The invariant *)

Record inv (name : bytes) (s : sys) : Prop := {
  inv_live : forall id, dbs s = Some id -> exists o, objs s !! id = Some o /\ pc o <> Ended;
  inv_one : forall id o, objs s !! id = Some o -> pc o <> Ended -> dbs s = Some id;
  inv_lock : forall id o, objs s !! id = Some o -> locked o = true <-> pc o = Closing;
  inv_nil : forall id o, objs s !! id = Some o -> conns o = None <-> pc o = Deleting \/ pc o = Ended;
  inv_fresh : forall id o, objs s !! id = Some o -> id < fresh s;
  inv_fs : fsOk (fs s);
  inv_path : forall id o, objs s !! id = Some o -> is_Some (names (fs s) !! DbPath name);
}.

(** The invariant does not look at callers, handles or crashes. *)
Lemma inv_ext name s s' :
  fs s' = fs s -> dbs s' = dbs s -> objs s' = objs s -> fresh s <= fresh s' -> inv name s -> inv name s'.
Proof.
  intros E1 E2 E3 E4 [H1 H2 H3 H4 H5 H6 H7]. split; rewrite ?E1, ?E2, ?E3; try done.
  intros id o Ho. specialize (H5 id o Ho). lia.
Qed.

(** Looking up after an insertion. *)
Lemma insert_cases (m : gmap nat dbObj) i x j y :
  <[i := x]> m !! j = Some y -> (j = i /\ y = x) \/ (j <> i /\ m !! j = Some y).
Proof.
  destruct (decide (j = i)) as [->|Hne]; [rewrite lookup_insert_eq|rewrite lookup_insert_ne by done];
    naive_solver.
Qed.

(** Replacing a live object by one in a consistent state. *)
Lemma inv_withObj name id o o' s :
  inv name s -> objs s !! id = Some o -> pc o <> Ended -> pc o' <> Ended ->
  (locked o' = true <-> pc o' = Closing) -> (conns o' = None <-> pc o' = Deleting \/ pc o' = Ended) ->
  inv name (withObj id o' s).
Proof.
  intros [] Ho Hlive Hlive' Hlock Hnil.
  split; simpl; [| | | | |done|].
  - intros id' Hd. destruct (decide (id' = id)) as [->|Hne]; [rewrite lookup_insert_eq; eauto|].
    rewrite lookup_insert_ne by done. eauto.
  - intros id' o1 [[-> ->]|[_ Ho1]]%insert_cases; eauto.
  - intros id' o1 [[-> ->]|[_ Ho1]]%insert_cases; eauto.
  - intros id' o1 [[-> ->]|[_ Ho1]]%insert_cases; eauto.
  - intros id' o1 [[-> ->]|[_ Ho1]]%insert_cases; eauto.
  - intros id' o1 [[-> ->]|[_ Ho1]]%insert_cases; eauto.
Qed.

Lemma inv_setPc name id o p s :
  inv name s -> objs s !! id = Some o -> pc o <> Ended -> pc o <> Closing -> pc o <> Deleting ->
  p <> Closing -> p <> Deleting -> p <> Ended -> inv name (setPc id o p s).
Proof.
  intros Hinv Ho H1 H2 H3 H4 H5 H6. apply (inv_withObj _ id o); try done.
  - simpl. by rewrite (inv_lock _ _ Hinv _ _ Ho).
  - simpl. rewrite (inv_nil _ _ Hinv _ _ Ho). naive_solver.
Qed.

(** Fetching leaves the names of the databases that are there. *)
Lemma inv_withFS name (fs' : FS) s :
  inv name s -> fsOk fs' ->
  (is_Some (names (fs s) !! DbPath name) -> is_Some (names fs' !! DbPath name)) -> inv name (withFS fs' s).
Proof. intros [] H1 H2. split; simpl; eauto. Qed.

Lemma restores_keep file order s :
  let s' := foldl (restore file) s order in
  fs s' = fs s /\ dbs s' = dbs s /\ objs s' = objs s /\ openers s' = openers s /\ fresh s' = fresh s /\
  crashed s' = crashed s.
Proof.
  revert s. induction order as [|c order IH]; intros s; [by split_and!|].
  destruct (IH (restore file s c)) as (? & ? & ? & ? & ? & ?). by split_and!.
Qed.

(** A new [db], when the driver's map has none: all the others have ended. *)
Lemma inv_newDB name c s :
  inv name s -> is_Some (names (fs s) !! DbPath name) -> dbs s = None ->
  inv name (bump (withOpener c (Some (HasDB (fresh s))) (withDbs (Some (fresh s))
    (withObj (fresh s) {| conns := Some ∅; locked := false; pc := Idle |} s)))).
Proof.
  intros [_ Hone Hlock Hnil Hfresh Hfs _] Hpath Hdbs.
  assert (forall id o, objs s !! id = Some o -> pc o = Ended) as Hended.
  { intros id o Ho. destruct (decide (pc o = Ended)) as [|Hne]; [done|].
    apply (Hone id o Ho) in Hne. congruence. }
  split; simpl; [| | | | |done|done].
  - intros id [= <-]. rewrite lookup_insert_eq. by eexists.
  - intros id o [[-> ->]|[_ Ho]]%insert_cases; [done|]. intros Hne. by apply Hended in Ho.
  - intros id o [[-> ->]|[_ Ho]]%insert_cases; [done|]. eauto.
  - intros id o [[-> ->]|[_ Ho]]%insert_cases; [naive_solver|]. eauto.
  - intros id o [[-> ->]|[_ Ho]]%insert_cases; [lia|]. apply Hfresh in Ho. lia.
Qed.

(** The last step of the goroutine: the entry goes, and the object is dead. *)
Lemma inv_delete name id o s :
  inv name s -> objs s !! id = Some o -> pc o = Deleting -> inv name (withDbs None (setPc id o Ended s)).
Proof.
  intros Hinv Ho Hp.
  pose proof (inv_lock _ _ Hinv _ _ Ho) as H1. pose proof (inv_nil _ _ Hinv _ _ Ho) as H2.
  rewrite Hp in H1, H2.
  assert (dbs s = Some id) as Hdbs by (apply (inv_one _ _ Hinv id o Ho); by rewrite Hp).
  destruct Hinv as [_ Hone Hlock Hnil Hfresh Hfs Hpath]. split; simpl; [done| | | | |done|].
  - intros id' o1 [[-> ->]|[Hne Ho1]]%insert_cases; [done|]. intros Hl.
    apply (Hone id' o1 Ho1) in Hl. congruence.
  - intros id' o1 [[-> ->]|[Hne Ho1]]%insert_cases; [|eauto]. simpl. naive_solver.
  - intros id' o1 [[-> ->]|[Hne Ho1]]%insert_cases; [|eauto]. simpl. naive_solver.
  - intros id' o1 [[-> ->]|[Hne Ho1]]%insert_cases; eauto.
  - intros id' o1 [[-> ->]|[Hne Ho1]]%insert_cases; eauto.
Qed.

Section preservation.
Context {D : Type} `{DPA D} (dpa : D) (name : bytes).

Lemma fetchDB_inv hash f s res fs' :
  inv name s -> fetchDB f dpa hash (DbPath name) (fs s) = (res, fs') ->
  inv name (withFS fs' s) /\ (forall u, res = Ok u -> is_Some (names fs' !! DbPath name)).
Proof.
  intros Hinv E. pose proof (fetchDB_spec f dpa hash name (fs s) (inv_fs _ _ Hinv)) as Hspec.
  rewrite E in Hspec. destruct Hspec as (Hok & _ & Hres). destruct res as [u|e|p]; [| |done].
  - destruct Hres as (data & _ & Hn & _).
    assert (is_Some (names fs' !! DbPath name)) as Hs by (rewrite Hn, lookup_insert_eq; by eexists).
    split; [by apply inv_withFS|done].
  - destruct Hres as (Hn & _). split; [|done]. apply inv_withFS; [done..|]. by rewrite Hn.
Qed.

Lemma step_inv l s s' : inv name s -> step dpa name l s = Some s' -> inv name s'.
Proof.
  intros Hinv. unfold_step. destruct (crashed s); [done|].
  destruct l as [c hash f|c err|c|id hash|id|id f|id order failAt|id|id conn|id|id|id conn].
  - destruct (openers s !! c); [done|]. destruct (dbs s) as [id|] eqn:Hdbs.
    { intros [= <-]. by apply (inv_ext _ s). }
    destruct (fetchDB f dpa hash (dbPath name) (fs s)) as [res fs'] eqn:Hf.
    destruct (fetchDB_inv _ _ _ _ _ Hinv Hf) as [Hinv' Hpath].
    destruct res as [u|e|p]; intros [= <-]; [|exact Hinv'..].
    exact (inv_newDB name c (withFS fs' s) Hinv' (Hpath u eq_refl) Hdbs).
  - destruct (openers s !! c) as [[id|id conn]|]; [|done..]. destruct err.
    { intros [= <-]. by apply (inv_ext _ s). }
    destruct (names (fs s) !! dbPath name); intros [= <-]; apply (inv_ext _ s); simpl; auto.
  - destruct (openers s !! c) as [[id|id conn]|]; [done| |done].
    destruct (objs s !! id) as [o|] eqn:Ho; [|done]. destruct (locked o) eqn:Hl; [done|].
    destruct (conns o) as [m|] eqn:Hc; intros [= <-]; [|by apply (inv_ext _ s)].
    apply (inv_ext _ (withObj id {| conns := Some ({[conn]} ∪ m); locked := false; pc := pc o |} s));
      [done..|].
    pose proof (inv_lock _ _ Hinv _ _ Ho) as H1. pose proof (inv_nil _ _ Hinv _ _ Ho) as H2.
    rewrite Hl in H1. rewrite Hc in H2.
    apply (inv_withObj _ id o); simpl; naive_solver.
  - destruct (objs s !! id) as [o|] eqn:Ho; [|done]. case_decide as Hp; [|done]. intros [= <-].
    apply inv_setPc; rewrite ?Hp; done.
  - destruct (objs s !! id) as [o|] eqn:Ho; [|done]. case_decide as Hp; [|done]. intros [= <-].
    apply inv_setPc; rewrite ?Hp; done.
  - destruct (objs s !! id) as [o|] eqn:Ho; [|done]. destruct (pc o) as [|hash| | | | |] eqn:Hp; try done.
    destruct (fetchDB f dpa hash (dbPath name) (fs s)) as [res fs'] eqn:Hf.
    destruct (fetchDB_inv _ _ _ _ _ Hinv Hf) as [Hinv' _].
    destruct res; intros [= <-]; apply inv_setPc; rewrite ?Hp; done.
  - destruct (objs s !! id) as [o|] eqn:Ho; [|done].
    destruct (negb (bool_decide (pc o = Reopening)) || locked o || _) eqn:Hg; [done|].
    apply orb_false_iff in Hg as [[Hg _]%orb_false_iff _].
    apply negb_false_iff, bool_decide_eq_true in Hg.
    destruct (names (fs s) !! dbPath name) as [file|]; [|done].
    assert (forall l p, p <> Closing -> p <> Deleting -> p <> Ended ->
              inv name (setPc id o p (foldl (restore file) s l))) as Hset.
    { intros l p H1 H2 H3. destruct (restores_keep file l s) as (E1 & E2 & E3 & _ & E5 & _).
      apply inv_setPc; rewrite ?Hg; try done; [|by rewrite E3].
      apply (inv_ext _ s); [done..|by rewrite E5|done]. }
    destruct failAt as [k|]; [destruct (_ <? _)%nat; [|done]|]; intros [= <-]; by apply Hset.
  - destruct (objs s !! id) as [o|] eqn:Ho; [|done]. case_decide as Hp; [|done].
    destruct (locked o) eqn:Hl; [done|]. intros [= <-].
    pose proof (inv_nil _ _ Hinv _ _ Ho) as H2. rewrite Hp in H2.
    apply (inv_withObj _ id o); simpl; rewrite ?Hp; naive_solver.
  - destruct (objs s !! id) as [o|] eqn:Ho; [|done]. case_decide as Hp; [|done].
    pose proof (inv_lock _ _ Hinv _ _ Ho) as H1. destruct (locked o); [done|].
    destruct Hp as [Hp _]. naive_solver.
  - destruct (objs s !! id) as [o|] eqn:Ho; [|done]. case_decide as Hp; [|done]. intros [= <-].
    destruct Hp as [Hp _]. apply (inv_withObj _ id o); simpl; rewrite ?Hp; naive_solver.
  - destruct (objs s !! id) as [o|] eqn:Ho; [|done]. case_decide as Hp; [|done]. intros [= <-].
    by apply inv_delete.
  - destruct (objs s !! id) as [o|] eqn:Ho; [|done]. destruct (locked o) eqn:Hl; [done|].
    case_decide as Hin; [|done]. intros [= <-].
    pose proof (inv_lock _ _ Hinv _ _ Ho) as H1. pose proof (inv_nil _ _ Hinv _ _ Ho) as H2.
    rewrite Hl in H1. destruct (conns o) as [m|]; simpl in Hin; [|set_solver].
    apply (inv_withObj _ id o); simpl; naive_solver.
Qed.

Lemma init_inv f : fsOk f -> inv name (init f).
Proof. intros Hf. split; simpl; try done; intros id o Ho; by rewrite lookup_empty in Ho. Qed.

Lemma reachable_inv f s : fsOk f -> reachable dpa name f s -> inv name s.
Proof. intros Hf. induction 1; [by apply init_inv|by eapply step_inv]. Qed.
End preservation.

(** ** Closing with open connections *)

(** The goroutine of [id] is inside [db.close], holding the mutex, with
    connections still to close. *)
Definition wedged (id : nat) (m : gset nat) (s : sys) : Prop :=
  objs s !! id = Some {| conns := Some m; locked := true; pc := Closing |} /\ m <> ∅ /\ dbs s = Some id.

Section wedge.
Context {D : Type} `{DPA D} (dpa : D) (name : bytes).

Lemma wedged_ext id m s s' : objs s' !! id = objs s !! id -> dbs s' = dbs s -> wedged id m s -> wedged id m s'.
Proof. unfold wedged. by intros -> ->. Qed.

Lemma wedged_withObj id m id' o s : id' <> id -> wedged id m s -> wedged id m (withObj id' o s).
Proof. intros Hne. apply wedged_ext; [|done]. simpl. by rewrite lookup_insert_ne. Qed.

(** The object of another name in the same map, when it has one, is dead. *)
Lemma wedged_other id m id' o s :
  inv name s -> wedged id m s -> objs s !! id' = Some o -> pc o <> Ended ->
  id' = id /\ o = {| conns := Some m; locked := true; pc := Closing |}.
Proof.
  intros Hinv (Ho & _ & Hd) Ho' Hl. pose proof (inv_one _ _ Hinv id' o Ho' Hl). 
  assert (id' = id) as -> by congruence. split; congruence.
Qed.

Lemma wedged_step id m l s s' :
  inv name s -> wedged id m s -> step dpa name l s = Some s' -> wedged id m s'.
Proof.
  intros Hinv Hw. pose proof Hw as (Ho & Hm & Hd). unfold_step. destruct (crashed s); [done|].
  assert (forall id' o, objs s !! id' = Some o -> locked o = false -> id' <> id) as Hne.
  { intros id' o Ho' Hl ->. rewrite Ho in Ho'. by injection Ho' as <-. }
  destruct l as [c hash f|c err|c|id' hash|id'|id' f|id' order failAt|id'|id' conn|id'|id'|id' conn].
  - destruct (openers s !! c); [done|]. rewrite Hd. intros [= <-]. by apply (wedged_ext _ _ s).
  - destruct (openers s !! c) as [[id'|id' conn]|]; [|done..]. destruct err.
    { intros [= <-]. by apply (wedged_ext _ _ s). }
    destruct (names (fs s) !! dbPath name); intros [= <-]; by apply (wedged_ext _ _ s).
  - destruct (openers s !! c) as [[id'|id' conn]|]; [done| |done].
    destruct (objs s !! id') as [o|] eqn:Ho'; [|done]. destruct (locked o) eqn:Hl; [done|].
    destruct (conns o); intros [= <-]; [|by apply (wedged_ext _ _ s)].
    apply (wedged_ext _ _ (withObj id' {| conns := Some ({[conn]} ∪ g); locked := false; pc := pc o |} s));
      [done..|]. apply wedged_withObj; eauto.
  - destruct (objs s !! id') as [o|] eqn:Ho'; [|done]. case_decide as Hp; [|done].
    destruct (wedged_other id m id' o s Hinv Hw Ho') as [_ ->]; [by rewrite Hp|done].
  - destruct (objs s !! id') as [o|] eqn:Ho'; [|done]. case_decide as Hp; [|done].
    destruct (wedged_other id m id' o s Hinv Hw Ho') as [_ ->]; [by rewrite Hp|done].
  - destruct (objs s !! id') as [o|] eqn:Ho'; [|done]. destruct (pc o) as [|h| | | | |] eqn:Hp; try done.
    destruct (wedged_other id m id' o s Hinv Hw Ho') as [_ ->]; [by rewrite Hp|done].
  - destruct (objs s !! id') as [o|] eqn:Ho'; [|done].
    destruct (negb (bool_decide (pc o = Reopening)) || locked o || _) eqn:Hg; [done|].
    apply orb_false_iff in Hg as [[Hg _]%orb_false_iff _].
    apply negb_false_iff, bool_decide_eq_true in Hg.
    destruct (wedged_other id m id' o s Hinv Hw Ho') as [_ ->]; [by rewrite Hg|done].
  - destruct (objs s !! id') as [o|] eqn:Ho'; [|done]. case_decide as Hp; [|done].
    destruct (wedged_other id m id' o s Hinv Hw Ho') as [_ ->]; [by rewrite Hp|done].
  - destruct (objs s !! id') as [o|] eqn:Ho'; [|done]. case_decide as Hp; [|done].
    destruct (locked o) eqn:Hl; [done|]. intros [= <-]. apply wedged_withObj; eauto.
  - destruct (objs s !! id') as [o|] eqn:Ho'; [|done]. case_decide as Hp; [|done].
    destruct Hp as [Hp Hempty].
    destruct (wedged_other id m id' o s Hinv Hw Ho') as [_ ->]; [by rewrite Hp|done].
  - destruct (objs s !! id') as [o|] eqn:Ho'; [|done]. case_decide as Hp; [|done].
    destruct (wedged_other id m id' o s Hinv Hw Ho') as [_ ->]; [by rewrite Hp|done].
  - destruct (objs s !! id') as [o|] eqn:Ho'; [|done]. destruct (locked o) eqn:Hl; [done|].
    case_decide; [|done]. intros [= <-]. apply wedged_withObj; eauto.
Qed.

Lemma wedged_run id m ls s s' :
  inv name s -> wedged id m s -> run dpa name ls s = Some s' -> wedged id m s'.
Proof.
  revert s. induction ls as [|l ls IH]; intros s Hinv Hw; simpl; [by intros [= <-]|].
  destruct (step dpa name l s) as [s1|] eqn:E; [|done]. simpl. apply IH.
  - by eapply step_inv.
  - by eapply wedged_step.
Qed.

(** Replacing the connections one by one gives each the new file. *)
Lemma restores_handles file order s :
  NoDup order ->
  (forall c, handles (foldl (restore file) s order) !! c =
     if decide (c ∈ order) then Some file else handles s !! c) /\
  leaked (foldl (restore file) s order) = leaked s ++ omap (fun c => handles s !! c) order.
Proof.
  revert s. induction order as [|c order IH]; intros s Hnd.
  - split; [intros c; rewrite decide_False; [done|by apply not_elem_of_nil]|]. simpl. by rewrite app_nil_r.
  - apply NoDup_cons in Hnd as [Hc Hnd]. destruct (IH (restore file s c) Hnd) as [IH1 IH2]. simpl. split.
    + intros c'. rewrite IH1. simpl. destruct (decide (c' ∈ order)) as [Hin|Hin].
      * rewrite decide_True; [done|by right].
      * destruct (decide (c' = c)) as [->|Hne].
        -- rewrite lookup_insert_eq, decide_True; [done|by left].
        -- rewrite lookup_insert_ne, decide_False; [done| |done]. set_solver.
    + rewrite IH2. simpl. rewrite <- app_assoc. f_equal.
      assert (omap (fun c0 => <[c:=file]> (handles s) !! c0) order = omap (fun c0 => handles s !! c0) order) as ->.
      { apply list_omap_ext, Forall_Forall2_diag, Forall_forall. intros c' Hc'.
        rewrite lookup_insert_ne; [done|]. by intros ->. }
      by destruct (handles s !! c).
Qed.
End wedge.

(** The steps of an update, one by one. *)
Section steps.
Context {D : Type} `{DPA D} (dpa : D) (name : bytes).

Definition withPc (o : dbObj) (p : gopc) : dbObj := {| conns := conns o; locked := locked o; pc := p |}.

Lemma setPc_lookup id o p s : objs (setPc id o p s) !! id = Some (withPc o p).
Proof. simpl. by rewrite lookup_insert_eq. Qed.

Lemma step_update s id o hash :
  crashed s = false -> objs s !! id = Some o -> pc o = Idle ->
  step dpa name (LUpdate id hash) s = Some (setPc id o (Fetching hash) s).
Proof. intros Hcr Ho Hp. unfold_step. by rewrite Hcr, Ho, decide_True. Qed.

Lemma step_fetch s id o hash f res fs' :
  crashed s = false -> objs s !! id = Some o -> pc o = Fetching hash ->
  fetchDB f dpa hash (DbPath name) (fs s) = (res, fs') ->
  step dpa name (LFetch id f) s =
    Some (setPc id o (if is_ok res then Reopening else Leaving) (withFS fs' s)).
Proof. intros Hcr Ho Hp Hf. unfold_step; unfold dbPath. rewrite Hcr, Ho, Hp, Hf. by destruct res. Qed.

Lemma step_reopen s id o m file :
  crashed s = false -> objs s !! id = Some o -> pc o = Reopening -> locked o = false ->
  conns o = Some m -> names (fs s) !! DbPath name = Some file ->
  step dpa name (LReopen id (elements m) None) s =
    Some (setPc id o Idle (foldl (restore file) s (elements m))).
Proof.
  intros Hcr Ho Hp Hl Hc Hn. unfold_step; unfold dbPath. rewrite Hcr, Ho, Hl, Hc. simpl.
  by rewrite !bool_decide_true, Hn.
Qed.

Lemma step_close s id o :
  crashed s = false -> objs s !! id = Some o -> pc o = Leaving -> locked o = false ->
  step dpa name (LClose id) s = Some (withObj id {| conns := conns o; locked := true; pc := Closing |} s).
Proof. intros Hcr Ho Hp Hl. unfold_step. by rewrite Hcr, Ho, decide_True, Hl. Qed.

Lemma run_cons l ls s s' : step dpa name l s = Some s' -> run dpa name (l :: ls) s = run dpa name ls s'.
Proof. simpl. by intros ->. Qed.
End steps.

(** What can be retrieved can be retrieved after any number of stores. *)
Lemma stored_later `{DPALaws D} (others : list bytes) d hash data :
  Retrieve d hash = completeReader data ->
  Retrieve (foldl (fun d x => snd (Store x d)) d others) hash = completeReader data.
Proof.
  revert d. induction others as [|x others IH]; intros d Hr; [done|].
  simpl. apply IH. eapply Store_keeps; [apply surjective_pairing|done].
Qed.

(** ** The properties of the driver *)

Section properties.
Context {D : Type} `{DPA D}.

(** C21: fetching a database is all or nothing: on success the name points
    to a new file that holds exactly the content of the hash (none for the
    empty hash), on an error every name is where it was and no temporary
    name is left; either way the files that are open keep their content,
    and the error is the first that occurred, a short copy included. *)
Theorem fetchDB_atomic (f : faults) (dpa : D) (hash : Hash) (name : bytes) (fs : FS) :
  fsOk fs ->
  let (res, fs') := fetchDB f dpa hash (DbPath name) fs in
  fsOk fs' /\ (forall i c, contents fs !! i = Some c -> contents fs' !! i = Some c) /\
  match res with
  | Ok _ => exists data, fetched dpa hash = Ok data /\ content fs' (DbPath name) = Some data /\
      (forall p, p <> DbPath name -> names fs' !! p = names fs !! p)
  | Err e => names fs' = names fs /\
      (tempErr f = Some e \/ fetched dpa hash = Err e \/ renameErr f = Some e)
  | Panic _ => False
  end.
Proof.
  intros Hok. pose proof (fetchDB_spec f dpa hash name fs Hok) as Hs.
  destruct (fetchDB f dpa hash (DbPath name) fs) as [[u|e|p] fs']; [|done..].
  destruct Hs as (Hok' & Hkeep & data & Hd & Hn & Hc). split_and!; [done..|].
  exists data. split_and!; [done| |].
  - unfold content. rewrite Hn, lookup_insert_eq. exact Hc.
  - intros p Hp. by rewrite Hn, lookup_insert_ne.
Qed.

(** What one node commits another node fetches: after a successful
    [Commit], and any number of other commits, fetching the hash it
    returned puts the committed content under any name. *)
Theorem commit_fetch_roundtrip `{!DPALaws D} (fsA fsB : FS) (name name' : bytes) (data : bytes)
    (others : list bytes) (dpa dpa' : D) (hash : Hash) :
  content fsA (DbPath name) = Some data -> Commit fsA name dpa = (Ok hash, dpa') -> fsOk fsB ->
  let later := foldl (fun d x => snd (Store x d)) dpa' others in
  exists fs', fetchDB noFaults later hash (DbPath name') fsB = (Ok tt, fs') /\
    content fs' (DbPath name') = Some data.
Proof.
  intros Hc Hcommit Hok later. unfold Commit in Hcommit. rewrite Hc in Hcommit.
  apply bind_ok_inv in Hcommit as (key & d1 & Hst & [= <- ->]).
  destruct (Store_Retrieve _ _ _ _ Hst) as (_ & Hnz & Hr).
  assert (Retrieve later (BytesToHash key) = completeReader data) as Hl.
  { by apply stored_later. }
  pose proof (fetched_complete later _ _ Hnz Hl) as Hf.
  pose proof (fetchDB_spec noFaults later (BytesToHash key) name' fsB Hok) as Hs.
  destruct (fetchDB noFaults later (BytesToHash key) (DbPath name') fsB) as [[[]|e|p] fs'];
    destruct Hs as (_ & _ & Hs); [| |done].
  - destruct Hs as (x & Hx & Hn & Hx'). exists fs'. split; [done|].
    unfold content. rewrite Hn, lookup_insert_eq. simpl. congruence.
  - destruct Hs as (_ & [?|[He|?]]); [done| |done]. congruence.
Qed.

Context (dpa : D) (name : bytes).

(** C20: at any moment at most one goroutine follows a database: in every
    reachable state the live goroutine is that of the entry in the driver's
    map, there is none when there is no entry, and the file of an entry
    exists. *)
Theorem one_live_goroutine (f : FS) (s : sys) :
  fsOk f -> reachable dpa name f s ->
  (forall id o, objs s !! id = Some o -> pc o <> Ended -> dbs s = Some id) /\
  (forall id, dbs s = Some id -> exists o, objs s !! id = Some o /\ pc o <> Ended /\
     is_Some (content (fs s) (DbPath name))).
Proof.
  intros Hf Hr. pose proof (reachable_inv dpa name f s Hf Hr) as Hinv. split.
  - apply (inv_one _ _ Hinv).
  - intros id Hd. destruct (inv_live _ _ Hinv id Hd) as (o & Ho & Hl). exists o. split_and!; [done..|].
    destruct (inv_path _ _ Hinv id o Ho) as [i Hi]. unfold content. rewrite Hi. simpl.
    by apply (proj1 (proj2 (inv_fs _ _ Hinv)) _ _ Hi).
Qed.

(** A whole update, from the select and back to it. *)
Lemma update_runs (f : FS) (s : sys) (id : nat) (m : gset nat) (hash : Hash) (fl : faults) (data : bytes) :
  fsOk f -> reachable dpa name f s -> crashed s = false ->
  objs s !! id = Some {| conns := Some m; locked := false; pc := Idle |} ->
  fetched dpa hash = Ok data -> tempErr fl = None -> renameErr fl = None ->
  exists s' file, run dpa name [LUpdate id hash; LFetch id fl; LReopen id (elements m) None] s = Some s' /\
    names (fs s') !! DbPath name = Some file /\ content (fs s') (DbPath name) = Some data /\
    (forall c, c ∈ m -> handles s' !! c = Some file) /\
    (exists o, objs s' !! id = Some o /\ pc o = Idle /\ conns o = Some m) /\
    leaked s' = leaked s ++ omap (fun c => handles s !! c) (elements m) /\
    (forall i x, contents (fs s) !! i = Some x -> contents (fs s') !! i = Some x) /\
    contents (fs s) !! file = None.
Proof.
  intros Hf Hr Hcr Ho Hdata Ht Hre. pose proof (reachable_inv dpa name f s Hf Hr) as Hinv.
  pose proof (fetchDB_spec fl dpa hash name (fs s) (inv_fs _ _ Hinv)) as Hs.
  destruct (fetchDB fl dpa hash (DbPath name) (fs s)) as [[[]|e|p] fs'] eqn:Hfetch;
    destruct Hs as (Hok & Hkeep & Hs); [| |done].
  2:{ destruct Hs as (_ & [?|[?|?]]); congruence. }
  destruct Hs as (x & Hx & Hn & Hc). assert (x = data) as -> by congruence.
  set (o := {| conns := Some m; locked := false; pc := Idle |}) in *.
  set (s1 := setPc id o (Fetching hash) s).
  set (s2 := setPc id (withPc o (Fetching hash)) Reopening (withFS fs' s1)).
  destruct (restores_handles (freshFile (fs s)) (elements m) s2 (NoDup_elements m)) as [Hh Hl].
  destruct (restores_keep (freshFile (fs s)) (elements m) s2) as (E1 & _).
  assert (names fs' !! DbPath name = Some (freshFile (fs s))) as Hfile
    by (by rewrite Hn, lookup_insert_eq).
  eexists _, (freshFile (fs s)). split.
  { rewrite (run_cons _ _ _ _ _ s1) by (by apply step_update).
    rewrite (run_cons _ _ _ _ _ s2)
      by (by rewrite (step_fetch dpa name s1 id _ _ _ _ _ Hcr (setPc_lookup _ _ _ _) eq_refl Hfetch)).
    rewrite (run_cons _ _ _ _ _ _ (step_reopen dpa name s2 id _ m (freshFile (fs s)) Hcr
      (setPc_lookup _ _ _ _) eq_refl eq_refl eq_refl Hfile)). reflexivity. }
  cbn [setPc withObj fs objs handles leaked]. rewrite E1. cbn [s2 setPc withObj withFS fs].
  split_and!; [done| | | | | |].
  - unfold content. by rewrite Hfile.
  - intros c Hcm. rewrite Hh, decide_True; [done|]. by apply elem_of_elements.
  - eexists. rewrite lookup_insert_eq. done.
  - exact Hl.
  - exact Hkeep.
  - apply eq_None_not_Some. intros [x Hx']. apply (proj2 (proj2 (inv_fs _ _ Hinv))) in Hx'. lia.
Qed.


(** A failed update wedges a database that has connections: when the
    fetch of an update fails, the goroutine goes on to close the database,
    and then it holds the mutex that closing each connection needs; from
    there, whatever anybody does, it stays there for ever: the entry is
    never removed, so the name is never fetched again, and no caller of
    [Open] that has a connection for it ever gets it registered. *)
Theorem failed_update_wedges (f : FS) (s : sys) (id : nat) (m : gset nat) (hash : Hash) (fl : faults) :
  fsOk f -> reachable dpa name f s -> crashed s = false ->
  objs s !! id = Some {| conns := Some m; locked := false; pc := Idle |} -> m <> ∅ ->
  is_ok (fst (fetchDB fl dpa hash (DbPath name) (fs s))) = false ->
  exists s', run dpa name [LUpdate id hash; LFetch id fl; LClose id] s = Some s' /\
    forall ls s'', run dpa name ls s' = Some s'' ->
      wedged id m s'' /\ forall c conn, openers s'' !! c = Some (HasConn id conn) ->
                           step dpa name (LAdd c) s'' = None.
Proof.
  intros Hf Hr Hcr Ho Hm Hfail. pose proof (reachable_inv dpa name f s Hf Hr) as Hinv.
  destruct (fetchDB fl dpa hash (DbPath name) (fs s)) as [res fs'] eqn:Hfetch.
  set (o := {| conns := Some m; locked := false; pc := Idle |}) in *.
  set (s1 := setPc id o (Fetching hash) s).
  set (s2 := setPc id (withPc o (Fetching hash)) Leaving (withFS fs' s1)).
  set (s' := withObj id {| conns := Some m; locked := true; pc := Closing |} s2).
  assert (step dpa name (LUpdate id hash) s = Some s1) as Hstep1 by (by apply step_update).
  assert (step dpa name (LFetch id fl) s1 = Some s2) as Hstep2.
  { rewrite (step_fetch dpa name s1 id _ _ _ _ _ Hcr (setPc_lookup _ _ _ _) eq_refl Hfetch).
    simpl in Hfail. by rewrite Hfail. }
  assert (step dpa name (LClose id) s2 = Some s') as Hstep3
    by exact (step_close dpa name s2 id _ Hcr (setPc_lookup _ _ _ _) eq_refl eq_refl).
  assert (inv name s') as Hinv' by (by do 3 (eapply step_inv; [|eassumption])).
  assert (wedged id m s') as Hw.
  { unfold wedged. simpl. rewrite lookup_insert_eq. split_and!; [done..|].
    by apply (inv_one _ _ Hinv id o Ho). }
  assert (run dpa name [LUpdate id hash; LFetch id fl; LClose id] s = Some s') as Hrun.
  { rewrite (run_cons _ _ _ _ _ _ Hstep1), (run_cons _ _ _ _ _ _ Hstep2).
    by rewrite (run_cons _ _ _ _ _ _ Hstep3). }
  exists s'. split; [done|]. intros ls s'' Hls.
  pose proof (wedged_run dpa name id m ls s' s'' Hinv' Hw Hls) as (Hobj & Hne & Hd).
  split; [done|]. intros c conn Hc. unfold_step. destruct (crashed s''); [done|].
  by rewrite Hc, Hobj.
Qed.
End properties.

(** ** A small store

    An instance of the storage that satisfies its laws, for the examples: the
    contents in order, at most 255 of them, each under its number. *)
Module SmallStore.
Definition keyOf (n : nat) : bytes := replicate 31 (N2b 0) ++ [N2b (N.of_nat n)].

#[global] Instance dpa : DPA (list bytes) := {
  Retrieve d h :=
    match d !! (N.to_nat (b2N (nth 31 h (N2b 0))) - 1) with
    | Some data =>
        if bool_decide (h = BytesToHash (keyOf (N.to_nat (b2N (nth 31 h (N2b 0))))))
        then completeReader data
        else {| rSize := inl (EMsg "not found"); rData := []; rErr := None |}
    | None => {| rSize := inl (EMsg "not found"); rData := []; rErr := None |}
    end;
  Store data d :=
    if (length d <? 255)%nat then (Ok (keyOf (S (length d))), d ++ [data])
    else (Err (EMsg "full"), d);
}.

Lemma keyOf_length n : length (keyOf n) = 32.
Proof. done. Qed.

Lemma keyOf_bytes n : abytes (BytesToHash (keyOf n)) = keyOf n.
Proof. reflexivity. Qed.

Lemma keyOf_nth n : n < 256 -> N.to_nat (b2N (nth 31 (BytesToHash (keyOf n)) (N2b 0))) = n.
Proof.
  intros Hn. rewrite keyOf_bytes. unfold keyOf. rewrite app_nth2; rewrite length_replicate; [|lia].
  rewrite Nat.sub_diag. cbn [nth]. rewrite b2N_N2b by lia. by rewrite Nat2N.id.
Qed.

#[global] Instance laws : DPALaws (list bytes).
Proof.
  split.
  - intros data d key d'. cbn [Store Retrieve dpa].
    destruct (Nat.ltb_spec (length d) 255) as [Hl|]; [|by intros [=]]. intros [= <- <-].
    split_and!; [done| |].
    + intros E. apply (f_equal (fun h => N.to_nat (b2N (nth 31 (abytes h) (N2b 0))))) in E.
      rewrite keyOf_nth in E by lia. vm_compute in E. discriminate E.
    + rewrite keyOf_nth by lia. replace (S (length d) - 1) with (length d) by lia.
      rewrite lookup_app_r, Nat.sub_diag by done. cbn [lookup list_lookup].
      by rewrite bool_decide_true.
  - intros data d r d' h x. cbn [Store Retrieve dpa].
    destruct (Nat.ltb_spec (length d) 255) as [Hl|]; intros [= _ <-]; [|done].
    destruct (d !! _) as [y|] eqn:E; [|done].
    by rewrite (lookup_app_l_Some _ _ _ _ E).
Qed.
End SmallStore.

Section races.
Import SmallStore.

Definition store : list bytes := [String.list_ascii_of_string "old graph"; String.list_ascii_of_string "new graph"].
Definition oldHash : Hash := BytesToHash (keyOf 1).
Definition newHash : Hash := BytesToHash (keyOf 2).
Definition noFiles : FS := {| names := ∅; contents := ∅; freshFile := 0 |}.
Definition aName : bytes := "0xab".
Definition play (ls : list label) : sys := default (init noFiles) (run store aName ls (init noFiles)).

Lemma play_run ls :
  bool_decide (is_Some (run store aName ls (init noFiles))) = true ->
  run store aName ls (init noFiles) = Some (play ls).
Proof. intros [x Hx]%bool_decide_eq_true_1. unfold play. by rewrite Hx. Qed.

(** [Open] interrupted between opening the SQLite file and registering the
    connection, by a whole update. *)
Definition interrupted : list label :=
  [LOpen 7 oldHash noFaults; LSqlite 7 None; LUpdate 0 newHash; LFetch 0 noFaults; LReopen 0 [] None; LAdd 7].

(** [newConn] can register a stale connection: there is a schedule in
    which [Open] returns a connection, registered and never reopened by the
    update that passed, that reads the old content while the database's
    file holds the new one and no update is pending. *)
Theorem newConn_stale :
  exists s o, run store aName interrupted (init noFiles) = Some s /\
    objs s !! 0 = Some o /\ pc o = Idle /\ conns o = Some {[1]} /\
    (i ← handles s !! 1; contents (fs s) !! i) = Some (String.list_ascii_of_string "old graph") /\
    content (fs s) (DbPath aName) = Some (String.list_ascii_of_string "new graph").
Proof.
  exists (play interrupted), {| conns := Some {[1]}; locked := false; pc := Idle |}.
  split; [apply play_run; vm_compute; reflexivity|].
  split_and!; try reflexivity; vm_compute; reflexivity.
Qed.

(** [Open] interrupted by the end of the database's goroutine. *)
Definition closedUnder : list label :=
  [LOpen 7 oldHash noFaults; LUpdatesClosed 0; LClose 0; LCloseEnd 0; LSqlite 7 None; LAdd 7].

(** [newConn] can crash the process: there is a schedule in which the
    database is closed, its map of connections set to nil, after [openDB]
    has returned it, and the registration of the new connection writes to
    the nil map. *)
Theorem newConn_panics :
  exists s, run store aName closedUnder (init noFiles) = Some s /\ crashed s = true.
Proof.
  exists (play closedUnder).
  split; [apply play_run; vm_compute; reflexivity|vm_compute; reflexivity].
Qed.

(** ** Witnesses *)

Lemma noFiles_ok : fsOk noFiles.
Proof. split_and!; intros ? ?; simpl; by rewrite lookup_empty. Qed.

Lemma reachable_run f ls s s' :
  reachable store aName f s -> run store aName ls s = Some s' -> reachable store aName f s'.
Proof.
  revert s. induction ls as [|l ls IH]; intros s Hr; simpl; [by intros [= <-]|].
  destruct (step store aName l s) as [s1|] eqn:E; [|done]. apply IH. by eapply reach_step.
Qed.

Lemma fetchDB_atomic_witness :
  fsOk noFiles /\
  let (res, fs') := fetchDB noFaults store oldHash (DbPath aName) noFiles in
  fsOk fs' /\ (forall i c, contents noFiles !! i = Some c -> contents fs' !! i = Some c) /\
  match res with
  | Ok _ => exists data, fetched store oldHash = Ok data /\ content fs' (DbPath aName) = Some data /\
      (forall p, p <> DbPath aName -> names fs' !! p = names noFiles !! p)
  | Err e => names fs' = names noFiles /\
      (tempErr noFaults = Some e \/ fetched store oldHash = Err e \/ renameErr noFaults = Some e)
  | Panic _ => False
  end.
Proof. split; [exact noFiles_ok|]. exact (fetchDB_atomic noFaults store oldHash aName noFiles noFiles_ok). Defined.

(** A node with the file commits it; another, with no files, fetches it. *)
Definition nodeA : FS := {| names := {[DbPath aName := 0]};
  contents := {[0 := String.list_ascii_of_string "a third graph"]}; freshFile := 1 |}.

Lemma commit_fetch_roundtrip_witness :
  exists fs', fetchDB noFaults (foldl (fun d x => snd (Store x d)) (store ++ ["a third graph" : bytes])
                  ["and more" : bytes]) (BytesToHash (keyOf 3)) (DbPath "0xcd") noFiles = (Ok tt, fs') /\
    content fs' (DbPath "0xcd") = Some (String.list_ascii_of_string "a third graph").
Proof.
  apply (commit_fetch_roundtrip nodeA noFiles aName "0xcd" "a third graph" ["and more" : bytes]
           store (store ++ ["a third graph" : bytes]) (BytesToHash (keyOf 3))).
  - reflexivity.
  - reflexivity.
  - exact noFiles_ok.
Defined.

Lemma one_live_goroutine_witness :
  reachable store aName noFiles (play interrupted) /\ dbs (play interrupted) = Some 0 /\
  exists o, objs (play interrupted) !! 0 = Some o /\ pc o <> Ended /\
    is_Some (content (fs (play interrupted)) (DbPath aName)).
Proof.
  assert (reachable store aName noFiles (play interrupted)) as Hr
    by (eapply reachable_run; [apply reach_init|apply play_run; vm_compute; reflexivity]).
  assert (dbs (play interrupted) = Some 0) as Hd by (vm_compute; reflexivity).
  split; [exact Hr|]. split; [exact Hd|].
  exact (proj2 (one_live_goroutine store aName noFiles _ noFiles_ok Hr) 0 Hd).
Defined.

(** One connection is open, and an update arrives. *)
Definition opened : list label := [LOpen 7 oldHash noFaults; LSqlite 7 None; LAdd 7].

Lemma opened_obj : objs (play opened) !! 0 = Some {| conns := Some {[1]}; locked := false; pc := Idle |}.
Proof. vm_compute. reflexivity. Qed.

Lemma opened_reachable : reachable store aName noFiles (play opened).
Proof. eapply reachable_run; [apply reach_init|apply play_run; vm_compute; reflexivity]. Qed.


(** The update's hash cannot be retrieved. *)
Definition lostHash : Hash := BytesToHash (keyOf 9).

Lemma failed_update_wedges_witness :
  exists s', run store aName [LUpdate 0 lostHash; LFetch 0 noFaults; LClose 0] (play opened) = Some s' /\
    forall ls s'', run store aName ls s' = Some s'' ->
      wedged 0 {[1]} s'' /\ forall c conn, openers s'' !! c = Some (HasConn 0 conn) ->
                              step store aName (LAdd c) s'' = None.
Proof.
  apply (failed_update_wedges store aName noFiles (play opened) 0 {[1]} lostHash noFaults noFiles_ok
           opened_reachable).
  - vm_compute. reflexivity.
  - exact opened_obj.
  - apply (bool_decide_eq_false_1 (({[1]} : gset nat) = ∅)). vm_compute. reflexivity.
  - vm_compute. reflexivity.
Defined.
End races.
