(* ===== verification/Conn.v ===== *)
(** * Statements on a connection

    The methods of [Conn] of [db/db.go] that run SQL: each takes the SQLite
    connection that is current when it is called.  A transaction and a
    prepared statement belong to the connection they were made on, so they
    stay on the file it has open while [reopenConns] moves the [Conn] to a
    new one.  What SQLite does to a file is a parameter: a program on its
    content. *)
From S2P Require Import Prelude Keccak Common Db.

Section conn.
Context {D : Type} `{DPA D} (dpa : D) (name : bytes).

(** [Conn.SQLiteConn]: the file the current SQLite connection has open. *)
Definition SQLiteConn (c : nat) (s : sys) : option nat := handles s !! c.

(** A statement that runs on an open file. *)
Definition onFile {A} (file : nat) (w : prog bytes A) (s : sys) : option (result A * sys) :=
  data ← contents (fs s) !! file;
  let (r, data') := w data in
  Some (r, withFS {| names := names (fs s); contents := <[file := data']> (contents (fs s));
                     freshFile := freshFile (fs s) |} s).

(** [Exec] and [ExecContext]; [Query] and [QueryContext], whose [w] gives rows. *)
Definition Exec {A} (c : nat) (w : prog bytes A) (s : sys) : option (result A * sys) :=
  file ← SQLiteConn c s; onFile file w s.
Definition Query {A} (c : nat) (w : prog bytes A) (s : sys) : option (result A * sys) :=
  file ← SQLiteConn c s; onFile file w s.

(** [Begin] and [BeginTx]: a transaction, and [Prepare] and [PrepareContext]:
    a statement; both are bound to the file. *)
Definition Begin (c : nat) (s : sys) : option nat := SQLiteConn c s.
Definition Prepare (c : nat) (s : sys) : option nat := SQLiteConn c s.

(** A statement in a transaction, or a prepared one. *)
Definition TxExec {A} (tx : nat) (w : prog bytes A) (s : sys) : option (result A * sys) := onFile tx w s.

(** ** Handles are of files that exist *)

Definition handlesOk (s : sys) : Prop := forall c i, handles s !! c = Some i -> is_Some (contents (fs s) !! i).

(** Steps do not remove files. *)
Definition filesGrow (s s' : sys) : Prop :=
  forall i, is_Some (contents (fs s) !! i) -> is_Some (contents (fs s') !! i).

Lemma fetch_grows hash f s res fs' :
  inv name s -> fetchDB f dpa hash (DbPath name) (fs s) = (res, fs') -> filesGrow s (withFS fs' s).
Proof.
  intros Hinv E i [x Hx]. pose proof (fetchDB_spec f dpa hash name (fs s) (inv_fs _ _ Hinv)) as Hs.
  rewrite E in Hs. destruct Hs as (_ & Hkeep & _). exists x. by apply Hkeep.
Qed.

Lemma handlesOk_fs s fs' : handlesOk s -> filesGrow s (withFS fs' s) -> handlesOk (withFS fs' s).
Proof. intros Hh Hg c i Hi. apply Hg. by apply (Hh c). Qed.

Lemma handlesOk_ext s s' : fs s' = fs s -> handles s' = handles s -> handlesOk s -> handlesOk s'.
Proof. intros E1 E2 Hh c i. rewrite E1, E2. apply Hh. Qed.

Lemma handlesOk_insert s c i l :
  handlesOk s -> is_Some (contents (fs s) !! i) -> handlesOk (withHandles (<[c := i]> (handles s)) l s).
Proof.
  intros Hh Hi c' j. cbn. destruct (decide (c' = c)) as [->|Hne].
  - rewrite lookup_insert_eq. by intros [= <-].
  - rewrite lookup_insert_ne by done. apply Hh.
Qed.

Lemma restores_ok file order s :
  handlesOk s -> is_Some (contents (fs s) !! file) -> handlesOk (foldl (restore file) s order).
Proof.
  revert s. induction order as [|c order IH]; intros s Hh Hf; [done|]. cbn [foldl].
  apply IH; [by apply handlesOk_insert|done].
Qed.

Lemma step_handles l s s' : inv name s -> handlesOk s -> step dpa name l s = Some s' -> handlesOk s'.
Proof.
  intros Hinv Hh. pose proof (inv_fs _ _ Hinv) as (_ & Hnames & _). unfold_step. destruct (crashed s); [done|].
  destruct l as [c hash f|c err|c|id hash|id|id f|id order failAt|id|id conn|id|id|id conn].
  - destruct (openers s !! c); [done|]. destruct (dbs s) as [id|].
    { intros [= <-]. by apply (handlesOk_ext s). }
    destruct (fetchDB f dpa hash (dbPath name) (fs s)) as [res fs'] eqn:Hf.
    pose proof (handlesOk_fs s fs' Hh (fetch_grows _ _ _ _ _ Hinv Hf)) as Hh'.
    destruct res; intros [= <-]; by apply (handlesOk_ext (withFS fs' s)).
  - destruct (openers s !! c) as [[id|id conn]|]; [|done..]. destruct err; [by intros [= <-]; apply (handlesOk_ext s)|].
    destruct (names (fs s) !! dbPath name) as [file|] eqn:Hn; intros [= <-]; [|by apply (handlesOk_ext s)].
    apply (handlesOk_ext (withHandles (<[fresh s := file]> (handles s)) (leaked s) s)); [done..|].
    apply handlesOk_insert; [done|]. by apply Hnames in Hn.
  - destruct (openers s !! c) as [[id|id conn]|]; [done| |done].
    destruct (objs s !! id) as [o|]; [|done]. destruct (locked o); [done|].
    destruct (conns o); intros [= <-]; by apply (handlesOk_ext s).
  - destruct (objs s !! id) as [o|]; [|done]. case_decide; [|done]. intros [= <-]. by apply (handlesOk_ext s).
  - destruct (objs s !! id) as [o|]; [|done]. case_decide; [|done]. intros [= <-]. by apply (handlesOk_ext s).
  - destruct (objs s !! id) as [o|]; [|done]. destruct (pc o); try done.
    destruct (fetchDB f dpa hash (dbPath name) (fs s)) as [res fs'] eqn:Hf.
    pose proof (handlesOk_fs s fs' Hh (fetch_grows _ _ _ _ _ Hinv Hf)) as Hh'.
    destruct res; intros [= <-]; by apply (handlesOk_ext (withFS fs' s)).
  - destruct (objs s !! id) as [o|]; [|done]. destruct (_ || _); [done|].
    destruct (names (fs s) !! dbPath name) as [file|] eqn:Hn; [|done]. apply Hnames in Hn.
    assert (forall l p, handlesOk (setPc id o p (foldl (restore file) s l))) as Hset.
    { intros l p. apply (handlesOk_ext (foldl (restore file) s l)); [done..|]. by apply restores_ok. }
    destruct failAt as [k|]; [destruct (_ <? _)%nat; [|done]|]; intros [= <-]; apply Hset.
  - destruct (objs s !! id) as [o|]; [|done]. case_decide; [|done]. destruct (locked o); [done|].
    intros [= <-]. by apply (handlesOk_ext s).
  - destruct (objs s !! id) as [o|]; [|done]. case_decide; [|done]. destruct (locked o); [done|].
    intros [= <-]. by apply (handlesOk_ext s).
  - destruct (objs s !! id) as [o|]; [|done]. case_decide; [|done]. intros [= <-]. by apply (handlesOk_ext s).
  - destruct (objs s !! id) as [o|]; [|done]. case_decide; [|done]. intros [= <-]. by apply (handlesOk_ext s).
  - destruct (objs s !! id) as [o|]; [|done]. destruct (locked o); [done|]. case_decide; [|done].
    intros [= <-]. by apply (handlesOk_ext s).
Qed.

Lemma reachable_handles f s : fsOk f -> reachable dpa name f s -> handlesOk s.
Proof.
  intros Hf Hr. induction Hr as [|l s s' Hr IH Hs].
  - intros c i. cbn. by rewrite lookup_empty.
  - eapply step_handles; [by eapply reachable_inv|done|done].
Qed.

Lemma onFile_content {A} file (w : prog bytes A) s data :
  contents (fs s) !! file = Some data ->
  exists s', onFile file w s = Some (fst (w data), s') /\ names (fs s') = names (fs s) /\
    contents (fs s') = <[file := snd (w data)]> (contents (fs s)).
Proof. intros Hd. unfold onFile. rewrite Hd. cbn. destruct (w data) as [r d]. by eexists. Qed.

End conn.

(** ** Witness *)

Section witnesses.
Import SmallStore.

(** A statement that appends a row. *)
Definition append : prog bytes unit := modify (fun d => d ++ " and a row").

End witnesses.
