(* ===== verification/GraphDriver.v ===== *)
(** * The graph driver

    [graph/driver.go] and the remote API of [kord/api.go], one call at a time:
    graphs are SQLite files of [Db], with the tables of [Sql] inside, found
    through a registry of [Registry] and a storage of [Db].  The registry is
    reached through its interface only.  SQLite's file format is not the
    repository's: it is the class [SqliteCodec]. *)
From S2P Require Import Prelude Keccak Common Crypto Contract Registry Sha1 Quad Sql Db.

(** The tables in a file: [Some None] is a database without them, which is what
    an empty file is. *)
Class SqliteCodec := {
  encodeDB : option db -> bytes;
  decodeDB : bytes -> option (option db);
}.
Class SqliteCodecLaws `{SqliteCodec} := {
  decode_encode : forall t, decodeDB (encodeDB t) = Some t;
  decode_empty : decodeDB [] = Some None;
}.

Definition notADatabase : error := ESqlite 26 26.
Definition noSuchTable : error := ESqlite 1 1.
Definition tableExists : error := ESqlite 1 1.

(** A node, and the registry and the storage as it sees them.  [opened] are the
    names in the driver's map [dbs], [stores] those in the graph driver's. *)
Record node (R D : Type) := {
  files : FS; opened : gset bytes; stores : gset bytes; reg : R; swarm : D;
}.
Arguments files {R D}. Arguments opened {R D}. Arguments stores {R D}. Arguments reg {R D}.
Arguments swarm {R D}.

Section driver.
Context {R D : Type} `{Secp256k1} `{!Registry R} `{!DPA D} `{SqliteCodec}.
Implicit Types n : node R D.

Definition setFiles (f : FS) n : node R D :=
  {| files := f; opened := opened n; stores := stores n; reg := reg n; swarm := swarm n |}.
Definition setReg (r : R) n : node R D :=
  {| files := files n; opened := opened n; stores := stores n; reg := r; swarm := swarm n |}.
Definition setSwarm (d : D) n : node R D :=
  {| files := files n; opened := opened n; stores := stores n; reg := reg n; swarm := d |}.
Definition addOpened (name : bytes) n : node R D :=
  {| files := files n; opened := {[name]} ∪ opened n; stores := stores n; reg := reg n; swarm := swarm n |}.
Definition addStore (name : bytes) n : node R D :=
  {| files := files n; opened := opened n; stores := {[name]} ∪ stores n; reg := reg n; swarm := swarm n |}.

(** [openDB], on a file system without faults. *)
Definition openDB (name : bytes) : prog (node R D) unit :=
  n ← get;
  if bool_decide (name ∈ opened n) then mret tt
  else
    let addr := HexToAddress name in
    hash ← zoom reg setReg (Graph addr);
    n ← get;
    _ ← zoom files setFiles (fetchDB noFaults (swarm n) hash (DbPath name));
    _ ← zoom reg setReg (SubscribeGraph addr 0);
    modify (addOpened name).

(** Run a transaction on the tables in the file of [name]. *)
Definition withTables {A} (name : bytes) (m : prog (option db) A) : prog (node R D) A := fun n =>
  match names (files n) !! DbPath name with
  | None => (Err notADatabase, n)
  | Some i =>
      match contents (files n) !! i ≫= decodeDB with
      | None => (Err notADatabase, n)
      | Some t =>
          let (res, t') := m t in
          (res, setFiles {| names := names (files n); freshFile := freshFile (files n);
                            contents := <[i := encodeDB t']> (contents (files n)) |} n)
      end
  end.

(** [graph.InitQuadStore]: the tables are created in one transaction. *)
Definition Init (name : bytes) : prog (node R D) unit :=
  _ ← openDB name;
  withTables name (fun t => match t with
                            | Some _ => (Err tableExists, t)
                            | None => (Ok tt, Some emptyDB)
                            end).

Definition Commit (name : bytes) : prog (node R D) Hash :=
  n ← get; zoom swarm setSwarm (Db.Commit (files n) name).

Definition Create (name : bytes) : prog (node R D) Hash := _ ← Init name; Commit name.

Definition SetGraph (hash : Hash) (sig : bytes) : prog (node R D) unit :=
  zoom reg setReg (Registry.SetGraph hash sig).

(** [Get]: a quad store, by its name, cached once opened. *)
Definition Get (name : bytes) : prog (node R D) unit :=
  n ← get;
  if bool_decide (name ∈ stores n) then mret tt
  else _ ← openDB name; modify (addStore name).

(** A method of the quad store of [name]. *)
Definition onStore {A} (name : bytes) (m : prog db A) : prog (node R D) A :=
  withTables name (fun t => match t with
                            | None => (Err noSuchTable, t)
                            | Some d => let (res, d') := m d in (res, Some d')
                            end).

(** [PublicAPI.ApplyDeltas] of kord/api.go; its other methods are [Create],
    [Commit] and [SetGraph] as they are. *)
Definition ApplyDeltas (name : bytes) (ds : list Delta) (opts : IgnoreOpts) : prog (node R D) Hash :=
  _ ← Get name;
  _ ← onStore name (Sql.ApplyDeltas ds opts);
  Commit name.

(** The tables of a graph as the node has them. *)
Definition tables n (name : bytes) : option (option db) :=
  content (files n) (DbPath name) ≫= decodeDB.

(** ** What the operations do *)

Lemma withTables_ok {A} name (m : prog (option db) A) n t :
  tables n name = Some t ->
  exists f', withTables name m n = (fst (m t), setFiles f' n) /\
    content f' (DbPath name) = Some (encodeDB (snd (m t))) /\ names f' = names (files n).
Proof.
  unfold tables, content, withTables. destruct (names (files n) !! DbPath name) as [i|] eqn:Ei; [|done].
  simpl. intros ->. destruct (m t) as [res t'] eqn:Em. simpl. eexists. split; [done|]. simpl.
  split; [|done]. rewrite Ei. simpl. by rewrite lookup_insert_eq.
Qed.

Lemma Commit_ok name n hash n' :
  Commit name n = (Ok hash, n') ->
  exists data key d', content (files n) (DbPath name) = Some data /\
    Store data (swarm n) = (Ok key, d') /\ hash = BytesToHash key /\ n' = setSwarm d' n.
Proof.
  unfold Commit. rewrite (bind_ok _ _ n n n) by reflexivity. unfold zoom, Db.Commit.
  destruct (content (files n) (DbPath name)) as [data|];
    [|unfold throw, lift; by intros [=]].
  unfold mbind, prog_bind. destruct (Store data (swarm n)) as [[key|e|p] d'] eqn:Hs; intros [= <- <-].
  exists data, key, d'. done.
Qed.

(** A commit touches the storage only, whatever its outcome. *)
Lemma Commit_same name n res n' : Commit name n = (res, n') -> exists d, n' = setSwarm d n.
Proof.
  unfold Commit. rewrite (bind_ok _ _ n n n) by reflexivity. unfold zoom.
  destruct (Db.Commit _ _ _) as [r d]. intros [= _ <-]. by exists d.
Qed.

Lemma zoom_reg {A} (m : prog R A) n res r' : m (reg n) = (res, r') -> zoom reg setReg m n = (res, setReg r' n).
Proof. unfold zoom. by intros ->. Qed.

(** Opening a database that is not open: it is fetched. *)
Lemma openDB_fetches name n hash r1 sub r2 data :
  name ∉ opened n -> fsOk (files n) ->
  Graph (HexToAddress name) (reg n) = (Ok hash, r1) ->
  SubscribeGraph (HexToAddress name) 0 r1 = (Ok sub, r2) ->
  fetched (swarm n) hash = Ok data ->
  exists n', openDB name n = (Ok tt, n') /\ content (files n') (DbPath name) = Some data /\
    fsOk (files n') /\ swarm n' = swarm n /\ reg n' = r2 /\ stores n' = stores n /\ name ∈ opened n'.
Proof.
  intros Hno Hok Hg Hs Hd. pose proof (fetchDB_spec noFaults (swarm n) hash name (files n) Hok) as Hf.
  destruct (fetchDB noFaults (swarm n) hash (DbPath name) (files n)) as [[[]|e|p] f'] eqn:E;
    destruct Hf as (Hok' & _ & Hf); [| |done].
  2:{ destruct Hf as (_ & [?|[?|?]]); [done|congruence|done]. }
  destruct Hf as (x & Hx & Hn & Hc). assert (x = data) as -> by congruence.
  unfold openDB. rewrite (bind_ok _ _ n n n) by reflexivity. rewrite bool_decide_false by done.
  cbv zeta. rewrite (bind_ok _ _ n hash (setReg r1 n)) by (by apply zoom_reg).
  rewrite (bind_ok _ _ (setReg r1 n) (setReg r1 n) (setReg r1 n)) by reflexivity.
  rewrite (bind_ok _ _ (setReg r1 n) tt (setFiles f' (setReg r1 n)))
    by (unfold zoom; simpl; by rewrite E).
  rewrite (bind_ok _ _ (setFiles f' (setReg r1 n)) sub (setReg r2 (setFiles f' (setReg r1 n))))
    by (apply zoom_reg; exact Hs).
  eexists. split; [reflexivity|]. simpl. split_and!; try done.
  - unfold content. by rewrite Hn, lookup_insert_eq.
  - set_solver.
Qed.

Lemma onStore_ok {A} name (m : prog db A) n d :
  tables n name = Some (Some d) ->
  exists f', onStore name m n = (fst (m d), setFiles f' n) /\
    content f' (DbPath name) = Some (encodeDB (Some (snd (m d)))) /\ names f' = names (files n).
Proof.
  intros Ht. destruct (withTables_ok name (fun t => match t with
                            | None => (Err noSuchTable, t)
                            | Some d => let (res, d') := m d in (res, Some d')
                            end) n (Some d) Ht) as (f' & E & Hc & Hn).
  exists f'. destruct (m d) as [res d']. split_and!; [exact E|exact Hc|exact Hn].
Qed.

Lemma Commit_stores name n data key d' :
  content (files n) (DbPath name) = Some data -> Store data (swarm n) = (Ok key, d') ->
  Commit name n = (Ok (BytesToHash key), setSwarm d' n).
Proof.
  intros Hc Hs. unfold Commit. rewrite (bind_ok _ _ n n n) by reflexivity. unfold zoom, Db.Commit.
  rewrite Hc. by rewrite (bind_ok _ _ _ _ _ Hs).
Qed.

Lemma Get_cached name n : name ∈ stores n -> Get name n = (Ok tt, n).
Proof.
  intros Hin. unfold Get. rewrite (bind_ok _ _ n n n) by reflexivity. by rewrite bool_decide_true.
Qed.
End driver.

(** ** The properties of the driver *)

Section properties.
Context {R D : Type} `{Secp256k1} `{!Registry R} `{!RegistryLaws R} `{!DPA D} `{!DPALaws D}
  `{!SqliteCodec} `{!SqliteCodecLaws}.
Implicit Types n : node R D.

(** Opening does not touch what the registry says, whatever its outcome. *)
Lemma openDB_view name n res n' :
  openDB name n = (res, n') -> forall a, view (reg n') a = view (reg n) a.
Proof.
  intros Ho a. revert Ho. unfold openDB. rewrite (bind_ok _ _ n n n) by reflexivity.
  case_bool_decide; [by intros [= _ <-]|]. cbv zeta. unfold mbind, prog_bind, zoom.
  destruct (Registry.Graph _ _) as [rh r1] eqn:Hgr.
  destruct (Graph_view _ _ _ _ Hgr) as [Hv1 _].
  destruct rh as [h|e|p]; [|intros [= _ <-]; apply Hv1..].
  unfold get. cbn. destruct (fetchDB _ _ _ _ _) as [[u|e|p] f]; [|intros [= _ <-]; apply Hv1..].
  cbn. destruct (SubscribeGraph _ _ _) as [rs r2] eqn:Hs.
  pose proof (SubscribeGraph_view _ _ _ _ _ Hs) as Hv2.
  destruct rs; intros [= _ <-]; cbn; by rewrite Hv2.
Qed.

Lemma Get_view name n res n' : Get name n = (res, n') -> forall a, view (reg n') a = view (reg n) a.
Proof.
  unfold Get. rewrite (bind_ok _ _ n n n) by reflexivity. case_bool_decide; [by intros [= _ <-]|].
  unfold mbind at 1, prog_bind. destruct (openDB name n) as [r n1] eqn:Ho.
  intros Hg a. rewrite <- (openDB_view _ _ _ _ Ho). by destruct r; injection Hg as _ <-.
Qed.

(** What is in storage after a commit is the file. *)
Lemma Commit_fetched name n hash n' d :
  Commit name n = (Ok hash, n') -> tables n name = Some d ->
  tables n' name = Some d /\ reg n' = reg n /\
  exists data, fetched (swarm n') hash = Ok data /\ decodeDB data = Some d.
Proof.
  intros Hc Ht. destruct (Commit_ok _ _ _ _ Hc) as (data & key & d' & Hdata & Hs & -> & ->).
  split; [done|]. split; [done|]. exists data. unfold tables in Ht. rewrite Hdata in Ht.
  split; [|done]. destruct (Store_Retrieve _ _ _ _ Hs) as (_ & Hnz & Hret). by apply fetched_complete.
Qed.

(** A graph that was created: empty tables, in the node and in storage. *)
Lemma Create_ok name n hash n' :
  Create name n = (Ok hash, n') ->
  tables n' name = Some (Some emptyDB) /\ (forall a, view (reg n') a = view (reg n) a) /\
  exists data, fetched (swarm n') hash = Ok data /\ decodeDB data = Some (Some emptyDB).
Proof.
  unfold Create, Init. intros Hc. apply bind_ok_inv in Hc as (u & n2 & Hi & Hc).
  apply bind_ok_inv in Hi as (u1 & n1 & Ho & Hw). pose proof (openDB_view _ _ _ _ Ho) as Hv.
  destruct (tables n1 name) as [t|] eqn:Ht.
  - match type of Hw with withTables _ ?m _ = _ => destruct (withTables_ok name m n1 t Ht) as (f' & E & Hcont & _) end.
    rewrite E in Hw. destruct t as [t|]; [by injection Hw|]. injection Hw as _ <-.
    destruct (Commit_fetched name (setFiles f' n1) hash n' (Some emptyDB) Hc) as (Ht' & Hreg & Hf).
    { unfold tables. cbn [files setFiles]. rewrite Hcont. apply decode_encode. }
    split; [done|]. split; [|done]. intros a. rewrite Hreg. apply Hv.
  - exfalso. revert Hw Ht. unfold withTables, tables, content.
    destruct (names (files n1) !! DbPath name) as [i|]; [|by intros [=]]. simpl.
    destruct (contents (files n1) !! i) as [b|]; simpl; [|by intros [=]].
    destruct (decodeDB b); [done|]. by intros [=].
Qed.

(** Deltas applied to an open graph: when the call succeeds they have been
    applied; when it fails they have been or not; nothing else is touched. *)
Lemma ApplyDeltas_open (name : bytes) ds opts n d res n' :
  name ∈ stores n -> tables n name = Some (Some d) -> ApplyDeltas name ds opts n = (res, n') ->
  reg n' = reg n /\ stores n' = stores n /\
  exists d', tables n' name = Some (Some d') /\
    (d' = d \/ Sql.ApplyDeltas ds opts d = (Ok tt, d')) /\
    (is_ok res = true -> Sql.ApplyDeltas ds opts d = (Ok tt, d')).
Proof.
  intros Hin Ht. unfold ApplyDeltas. rewrite (bind_ok _ _ _ _ _ (Get_cached name _ Hin)).
  destruct (onStore_ok name (Sql.ApplyDeltas ds opts) n d Ht) as (f' & Ho & Hcont & _).
  destruct (Sql.ApplyDeltas ds opts d) as [r d1] eqn:Hs. cbn [fst snd] in Ho, Hcont.
  assert (tables (setFiles f' n) name = Some (Some d1)) as Ht1.
  { unfold tables. cbn [files setFiles]. rewrite Hcont. apply decode_encode. }
  destruct r as [[]|e|p].
  - rewrite (bind_ok _ _ _ _ _ Ho). intros (sw & ->)%Commit_same.
    split; [done|]. split; [done|]. exists d1. split_and!; [done|by right|done].
  - rewrite (bind_err _ _ _ _ _ Ho). intros [= <- <-]. split; [done|]. split; [done|].
    exists d1. apply ApplyDeltas_error in Hs as ->; [|done]. split_and!; [done|by left|done].
  - unfold mbind, prog_bind. rewrite Ho. intros [= <- <-]. split; [done|]. split; [done|].
    exists d1. apply ApplyDeltas_error in Hs as ->; [|done]. split_and!; [done|by left|done].
Qed.

(** C18: a published graph is the graph that others get.  Node A commits a
    graph and the hash is set in the registry with a signature of the
    owner; node B, which has not opened the graph and sees the same registry
    and storage, then gets a store with exactly the tables A committed. *)
Theorem publish_then_get (name : bytes) (nA nA' nB : node R D) (hash : Hash) (sig : bytes) (d : db)
    (r r1 r2 : R) (h : Hash) (sub : Subscription) :
  tables nA name = Some (Some d) -> Commit name nA = (Ok hash, nA') ->
  authorised hash sig (HexToAddress name) -> valuesOk sig = true ->
  SetGraph hash sig nA' = (Ok tt, setReg r nA') ->
  reg nB = r -> swarm nB = swarm nA' -> name ∉ opened nB -> name ∉ stores nB -> fsOk (files nB) ->
  Graph (HexToAddress name) r = (Ok h, r1) -> SubscribeGraph (HexToAddress name) 0 r1 = (Ok sub, r2) ->
  exists nB', Get name nB = (Ok tt, nB') /\ tables nB' name = Some (Some d) /\ name ∈ stores nB'.
Proof.
  intros Ht Hcommit Hauth Hval Hset Hreg Hsw Hno Hns Hok Hg Hsub.
  destruct (Commit_ok _ _ _ _ Hcommit) as (data & key & d' & Hdata & Hstore & -> & ->).
  destruct (Store_Retrieve _ _ _ _ Hstore) as (_ & Hnz & Hret).
  assert (h = BytesToHash key) as ->.
  { unfold SetGraph, zoom in Hset. destruct (Registry.SetGraph _ sig _) as [res r'] eqn:E.
    injection Hset as -> ->.
    destruct (SetGraph_view _ _ _ _ E) as (a & Ha & Hv).
    destruct (Graph_view _ _ _ _ Hg) as [_ Hh]. rewrite (Hh h eq_refl), Hv.
    by rewrite decide_True by (symmetry; by eapply writesFor_authorised). }
  assert (fetched (swarm nB) (BytesToHash key) = Ok data) as Hf.
  { rewrite Hsw. simpl. by apply fetched_complete. }
  subst r. destruct (openDB_fetches name nB _ _ _ _ _ Hno Hok Hg Hsub Hf)
    as (n' & Ho & Hc & _).
  unfold Get. exists (addStore name n'). split.
  - rewrite (bind_ok _ _ nB nB nB) by reflexivity. rewrite bool_decide_false by done.
    by rewrite (bind_ok _ _ _ _ _ Ho).
  - split; [|set_solver]. unfold tables in *. rewrite Hdata in Ht. simpl. by rewrite Hc.
Qed.

(** Creating a graph: for a name with nothing published, [Create] fetches
    the empty file, makes the empty tables in it and returns the key of the
    stored file; for a name with a published graph it fails because the
    tables exist, and the graph that was fetched is intact and nothing is
    stored. *)
Theorem Create_spec (name : bytes) (n : node R D) (hash : Hash) (r1 r2 : R) (sub : Subscription)
    (key : bytes) (d' : D) :
  name ∉ opened n -> fsOk (files n) ->
  Graph (HexToAddress name) (reg n) = (Ok hash, r1) ->
  SubscribeGraph (HexToAddress name) 0 r1 = (Ok sub, r2) ->
  Store (encodeDB (Some emptyDB)) (swarm n) = (Ok key, d') ->
  (hash = zeroHash -> exists n', Create name n = (Ok (BytesToHash key), n') /\
      tables n' name = Some (Some emptyDB) /\ swarm n' = d') /\
  (forall d, fetched (swarm n) hash = Ok (encodeDB (Some d)) -> hash <> zeroHash ->
      exists n', Create name n = (Err tableExists, n') /\
        tables n' name = Some (Some d) /\ swarm n' = swarm n).
Proof.
  intros Hno Hok Hg Hsub Hst. split.
  - intros ->. assert (fetched (swarm n) zeroHash = Ok []) as Hf by (unfold fetched; done).
    destruct (openDB_fetches name n _ _ _ _ _ Hno Hok Hg Hsub Hf) as (n1 & Ho & Hc & _ & Hsw & _).
    assert (tables n1 name = Some None) as Ht by (unfold tables; rewrite Hc; apply decode_empty).
    destruct (withTables_ok name (fun t => match t with
      | Some _ => (Err tableExists, t) | None => (Ok tt, Some emptyDB) end) n1 None Ht) as (f' & Hw & Hc' & _).
    simpl in Hw, Hc'. unfold Create, Init.
    rewrite bind_assoc, (bind_ok _ _ _ _ _ Ho), (bind_ok _ _ _ _ _ Hw).
    rewrite <- Hsw in Hst. eexists. split; [exact (Commit_stores name (setFiles f' n1) _ _ _ Hc' Hst)|].
    split; [|done]. unfold tables. simpl. rewrite Hc'. apply decode_encode.
  - intros d Hf Hnz.
    destruct (openDB_fetches name n _ _ _ _ _ Hno Hok Hg Hsub Hf) as (n1 & Ho & Hc & _ & Hsw & _).
    assert (tables n1 name = Some (Some d)) as Ht by (unfold tables; rewrite Hc; apply decode_encode).
    destruct (withTables_ok name (fun t => match t with
      | Some _ => (Err tableExists, t) | None => (Ok tt, Some emptyDB) end) n1 _ Ht) as (f' & Hw & Hc' & _).
    simpl in Hw, Hc'. unfold Create, Init.
    rewrite bind_assoc, (bind_ok _ _ _ _ _ Ho), (bind_err _ _ _ _ _ Hw).
    eexists. split; [done|]. split; [|by rewrite <- Hsw].
    unfold tables. simpl. rewrite Hc'. apply decode_encode.
Qed.

(** The remote [ApplyDeltas] on an open graph: the deltas apply to the
    tables as the store applies them, and then the file with the result is
    stored and its key returned; when they fail, the error is returned, the
    tables are as before and nothing is stored. *)
Theorem ApplyDeltas_commits (name : bytes) (n : node R D) (d d1 : db) (res : result unit)
    (ds : list Delta) (opts : IgnoreOpts) (key : bytes) (sw : D) :
  name ∈ stores n -> tables n name = Some (Some d) -> Sql.ApplyDeltas ds opts d = (res, d1) ->
  Store (encodeDB (Some d1)) (swarm n) = (Ok key, sw) ->
  exists n', ApplyDeltas name ds opts n =
      (match res with Ok _ => Ok (BytesToHash key) | Err e => Err e | Panic p => Panic p end, n') /\
    tables n' name = Some (Some d1) /\
    (if is_ok res then swarm n' = sw else d1 = d /\ swarm n' = swarm n).
Proof.
  intros Hin Ht Ha Hst. unfold ApplyDeltas. rewrite (bind_ok _ _ _ _ _ (Get_cached name n Hin)).
  destruct (onStore_ok name (Sql.ApplyDeltas ds opts) n d Ht) as (f' & Ho & Hc & _).
  rewrite Ha in Ho, Hc. simpl in Ho, Hc.
  assert (tables (setFiles f' n) name = Some (Some d1)) as Ht'
    by (unfold tables; simpl; rewrite Hc; apply decode_encode).
  destruct res as [u|e|p].
  - rewrite (bind_ok _ _ _ _ _ Ho). eexists.
    split; [exact (Commit_stores name (setFiles f' n) _ _ _ Hc Hst)|]. by split.
  - rewrite (bind_err _ _ _ _ _ Ho). eexists. split; [done|]. split; [done|]. split; [|done].
    by apply ApplyDeltas_error in Ha.
  - unfold mbind, prog_bind. rewrite Ho. eexists. split; [done|]. split; [done|]. split; [|done].
    by apply ApplyDeltas_error in Ha.
Qed.
End properties.

(** ** Witnesses *)

(** A codec, for the examples: the binary digits of the tables' code number. *)
Module Digits.
Definition columns_tuple (c : columns) :=
  (value_string c, datatype c, language c, iri c, bnode c).
#[global] Instance columns_countable : Countable columns.
Proof.
  refine (inj_countable' columns_tuple
    (fun '(s, t, l, i, b) => {| value_string := s; datatype := t; language := l; iri := i; bnode := b |}) _).
  by intros [].
Defined.
#[global] Instance nodeRow_countable : Countable nodeRow.
Proof.
  refine (inj_countable' (fun r => (refs r, cols r)) (fun '(r, c) => {| refs := r; cols := c |}) _).
  by intros [].
Defined.
#[global] Instance db_eq_dec : EqDecision db.
Proof. solve_decision. Defined.
#[global] Instance db_countable : Countable db.
Proof.
  refine (inj_countable' (fun d => (nodes d, keyless d, quads d))
    (fun '(n, k, q) => {| nodes := n; keyless := k; quads := q |}) _).
  by intros [].
Defined.

Fixpoint digits (p : positive) : bytes :=
  match p with xI p => "1"%char :: digits p | xO p => "0"%char :: digits p | xH => ["."%char] end.
Fixpoint ofDigits (b : bytes) : option positive :=
  match b with
  | [] => None
  | c :: b => if decide (c = "1"%char) then xI <$> ofDigits b
              else if decide (c = "0"%char) then xO <$> ofDigits b
              else if decide (b = []) then Some xH else None
  end.
Lemma ofDigits_digits p : ofDigits (digits p) = Some p.
Proof. induction p; simpl; by rewrite ?IHp. Qed.

#[global] Instance codec : SqliteCodec := {
  encodeDB t := match t with None => [] | Some d => digits (encode d) end;
  decodeDB b := match b with
                | [] => Some None
                | _ => p ← ofDigits b; d ← decode p; Some (Some d)
                end;
}.
#[global] Instance codec_laws : SqliteCodecLaws.
Proof.
  split; [|done]. intros [d|]; [|done]. cbn [encodeDB decodeDB codec].
  assert (digits (encode d) <> []) as Hne by (by destruct (encode d)).
  destruct (digits (encode d)) as [|c b] eqn:E; [done|]. rewrite <- E, ofDigits_digits. simpl.
  by rewrite (countable.decode_encode d).
Qed.
End Digits.

Section witnesses.
Import Toy SmallStore Digits.

Definition graphName : bytes := Address_Hex owner.
Definition emptyFile : bytes := encodeDB (Some emptyDB).

(** A node with an empty graph in a file, and its store cached. *)
Definition author : node Test.registry (list bytes) :=
  {| files := {| names := {[DbPath graphName := 0]}; contents := {[0 := emptyFile]}; freshFile := 1 |};
     opened := {[graphName]}; stores := {[graphName]}; reg := Test.NewTestRegistry; swarm := [] |}.
Definition published : Hash := BytesToHash (keyOf 1).
Definition publishedReg : Test.registry := snd (Test.SetGraph published (sigOf published) Test.NewTestRegistry).

(** A node without files, on the same registry and storage. *)
Definition reader1 (r : Test.registry) (sw : list bytes) : node Test.registry (list bytes) :=
  {| files := noFiles; opened := ∅; stores := ∅; reg := r; swarm := sw |}.

Lemma author_tables : tables author graphName = Some (Some emptyDB).
Proof.
  unfold tables, content, author. cbn [files names contents].
  rewrite lookup_singleton_eq. cbn [mbind option_bind]. rewrite lookup_singleton_eq.
  apply decode_encode.
Qed.

Lemma author_content : content (files author) (DbPath graphName) = Some emptyFile.
Proof.
  unfold content, author. cbn [files names contents].
  rewrite lookup_singleton_eq. cbn [mbind option_bind]. by rewrite lookup_singleton_eq.
Qed.

Lemma publish_then_get_witness :
  exists nB', Get graphName (reader1 publishedReg [emptyFile]) = (Ok tt, nB') /\
    tables nB' graphName = Some (Some emptyDB) /\ graphName ∈ stores nB'.
Proof.
  assert (signer published (sigOf published) = Ok owner) as Hs by (vm_compute; reflexivity).
  assert (HexToAddress graphName = owner) as Hn by (apply HexToAddress_Hex).
  apply (publish_then_get graphName author (setSwarm [emptyFile] author) (reader1 publishedReg [emptyFile])
           published (sigOf published) emptyDB publishedReg publishedReg
           (snd (Test.SubscribeGraph (HexToAddress graphName) 0 publishedReg))
           published (Some (HexToAddress graphName, 0))).
  - exact author_tables.
  - exact (Commit_stores graphName author emptyFile (keyOf 1) [emptyFile] author_content eq_refl).
  - rewrite Hn. by apply Test.signer_authorised.
  - vm_compute. reflexivity.
  - unfold SetGraph, zoom. cbn [reg author setSwarm]. unfold publishedReg.
    unfold Registry.SetGraph, Test.testRegistry, Test.SetGraph. by rewrite Hs.
  - reflexivity.
  - reflexivity.
  - exact (not_elem_of_empty graphName).
  - exact (not_elem_of_empty graphName).
  - exact noFiles_ok.
  - unfold Registry.Graph, Test.testRegistry, Test.Graph, publishedReg, Test.SetGraph. rewrite Hs, Hn.
    cbn [snd Test.hashes]. by rewrite graph_insert, decide_True.
  - reflexivity.
Defined.

Lemma Create_spec_witness :
  exists n', Create graphName (reader1 Test.NewTestRegistry []) = (Ok (BytesToHash (keyOf 1)), n') /\
    tables n' graphName = Some (Some emptyDB) /\ swarm n' = [emptyFile].
Proof.
  refine (proj1 (Create_spec graphName (reader1 Test.NewTestRegistry []) zeroHash Test.NewTestRegistry
    (snd (Test.SubscribeGraph (HexToAddress graphName) 0 Test.NewTestRegistry))
    (Some (HexToAddress graphName, 0)) (keyOf 1) [emptyFile] _ noFiles_ok _ _ _) eq_refl).
  - exact (not_elem_of_empty graphName).
  - unfold Registry.Graph, Test.testRegistry, Test.Graph, graph. simpl. by rewrite lookup_empty.
  - reflexivity.
  - reflexivity.
Defined.

Lemma ApplyDeltas_commits_witness :
  let run := Sql.ApplyDeltas (delta Add <$> [q1]) defaultOpts emptyDB in
  exists n', ApplyDeltas graphName (delta Add <$> [q1]) defaultOpts author =
      (match fst run with Ok _ => Ok (BytesToHash (keyOf 1)) | Err e => Err e | Panic p => Panic p end, n') /\
    tables n' graphName = Some (Some (snd run)) /\
    (if is_ok (fst run) then swarm n' = [encodeDB (Some (snd run))] else snd run = emptyDB /\ swarm n' = []).
Proof.
  intros run.
  exact (ApplyDeltas_commits graphName author emptyDB (snd run) (fst run) (delta Add <$> [q1]) defaultOpts
    (keyOf 1) [encodeDB (Some (snd run))] (proj2 (elem_of_singleton graphName graphName) eq_refl)
    author_tables (surjective_pairing run) eq_refl).
Defined.
End witnesses.
