(* ===== verification/Network.v ===== *)
(** * Many nodes

    What the operations of [GraphDriver] promise together: any number of
    nodes, each with its own files, share one registry and one storage, and
    everybody acts in any order.  The abstract specification is a board: the
    graph that is posted for each identity, which is what a node that has not
    opened it gets.  The nodes refine it: only posting with a signature of
    the identity changes what is on the board for it. *)
From S2P Require Import Prelude Keccak Common Crypto Contract Registry Sha1 Quad Sql Db GraphDriver.

(** ** One node at a time *)

Section node.
Context {R D : Type} `{Secp256k1} `{!Registry R} `{!RegistryLaws R} `{!DPA D} `{!DPALaws D}
  `{!SqliteCodec} `{!SqliteCodecLaws}.
Implicit Types n : node R D.

(** What can be retrieved stays so; nobody's entry changes; files are in order. *)
Definition keeps n n' : Prop :=
  (forall a, view (reg n') a = view (reg n) a) /\
  (forall h x, Retrieve (swarm n) h = completeReader x -> Retrieve (swarm n') h = completeReader x) /\
  (fsOk (files n) -> fsOk (files n')).
#[local] Instance keeps_po : PreOrder keeps.
Proof.
  split; [by intros n; split_and!|]. intros n1 n2 n3 (V1 & S1 & F1) (V2 & S2 & F2).
  split_and!; [intros a; by rewrite V2|auto..].
Qed.

Definition keeping {A} (m : prog (node R D) A) : Prop := forall n r n', m n = (r, n') -> keeps n n'.

Lemma keeping_bind {A B} (m : prog (node R D) A) (k : A -> prog (node R D) B) :
  keeping m -> (forall a, keeping (k a)) -> keeping (m ≫= k).
Proof.
  intros Hm Hk n r n'. unfold mbind, prog_bind. destruct (m n) as [[a|e|p] n1] eqn:E.
  - intros H2. transitivity n1; [by eapply Hm|by eapply Hk].
  - intros [= _ <-]. by eapply Hm.
  - intros [= _ <-]. by eapply Hm.
Qed.

Lemma keeping_ret {A} (a : A) : keeping (mret a).
Proof. by intros n r n' [= _ <-]. Qed.

Lemma openDB_keeping name : keeping (openDB name).
Proof.
  intros n r n' Ho. pose proof (openDB_view _ _ _ _ Ho) as Hv. split; [done|].
  revert Ho. unfold openDB. rewrite (bind_ok _ _ n n n) by reflexivity.
  case_bool_decide; [by intros [= _ <-]|]. cbv zeta. unfold mbind, prog_bind, zoom, get.
  destruct (Graph _ (reg n)) as [[h|x|p] r1]; [|by intros [= _ <-]..]. cbn.
  pose proof (fetchDB_spec noFaults (swarm n) h name (files n)) as Hf.
  destruct (fetchDB _ _ _ _ _) as [rf f]. cbn in Hf.
  assert (fsOk (files n) -> fsOk f) as Hok by (intros Hn; by apply Hf).
  destruct rf as [[]|x|p]; [|by intros [= _ <-]..]. cbn.
  destruct (SubscribeGraph _ _ _) as [[sub|x|p] r2]; by intros [= _ <-].
Qed.

Lemma withTables_keeping {A} name (m : prog (option db) A) : keeping (withTables name m).
Proof.
  intros n r n'. unfold withTables. destruct (names (files n) !! DbPath name) as [i|] eqn:Hi; [|by intros [= _ <-]].
  destruct (contents (files n) !! i ≫= decodeDB) as [t|] eqn:Ht; [|by intros [= _ <-]].
  destruct (m t) as [x t']. intros [= _ <-]. split; [done|]. split; [done|]. cbn.
  intros (Ktmp & Kname & Kfresh). apply bind_Some in Ht as (c & Hc & _). split; [done|]. split.
  - intros q j Hq. cbn. destruct (decide (i = j)) as [<-|Hne].
    + rewrite lookup_insert_eq. by eexists.
    + rewrite lookup_insert_ne by done. by eapply Kname.
  - intros j y. cbn. destruct (decide (i = j)) as [<-|Hne].
    + intros _. by eapply Kfresh.
    + rewrite lookup_insert_ne by done. by apply Kfresh.
Qed.

Lemma Commit_keeping name : keeping (Commit name).
Proof.
  intros n r n'. unfold Commit. rewrite (bind_ok _ _ n n n) by reflexivity. unfold zoom, Db.Commit.
  destruct (content (files n) (DbPath name)) as [data|]; [|by intros [= _ <-]; destruct n].
  unfold mbind, prog_bind. destruct (Store data (swarm n)) as [rk d] eqn:Hs.
  assert (keeps n (setSwarm d n)) as Hk.
  { split; [done|]. split; [|done]. intros h x. cbn. by eapply Store_keeps. }
  destruct rk; by intros [= _ <-].
Qed.

Lemma Get_keeping name : keeping (Get name).
Proof.
  intros n r n'. unfold Get. rewrite (bind_ok _ _ n n n) by reflexivity.
  case_bool_decide; [by intros [= _ <-]|].
  apply (keeping_bind (openDB name) (fun _ => modify (addStore name))); [apply openDB_keeping|].
  intros _ n1 r1 n1' [= _ <-]. by split_and!.
Qed.

Lemma Create_keeping name : keeping (Create name).
Proof.
  apply keeping_bind; [apply keeping_bind; [apply openDB_keeping|intros _; apply withTables_keeping]|].
  intros _. apply Commit_keeping.
Qed.

Lemma ApplyDeltas_keeping name ds opts : keeping (GraphDriver.ApplyDeltas name ds opts).
Proof.
  apply keeping_bind; [apply Get_keeping|intros _].
  apply keeping_bind; [apply withTables_keeping|intros _; apply Commit_keeping].
Qed.
End node.

(** ** The network *)

(** What a node does on its own, and what it asks of the registry. *)
Inductive action :=
  | ACreate (name : bytes) | AGet (name : bytes) | ACommit (name : bytes)
  | AApply (name : bytes) (ds : list Delta) (opts : IgnoreOpts) | ASet (hash : Hash) (sig : bytes).

(** A node's own state: its files and the names it has open. *)
Record local := { lFiles : FS; lOpened : gset bytes; lStores : gset bytes }.

Record network (R D : Type) := { nReg : R; nStore : D; locals : nat -> local }.
Arguments nReg {R D}. Arguments nStore {R D}. Arguments locals {R D}.

Section network.
Context {R D : Type} `{Secp256k1} `{!Registry R} `{!DPA D} `{SqliteCodec}.
Implicit Types s : network R D.

(** The node [i] as its code sees it, and the network after it has acted. *)
Definition nodeOf (i : nat) s : node R D :=
  {| files := lFiles (locals s i); opened := lOpened (locals s i); stores := lStores (locals s i);
     reg := nReg s; swarm := nStore s |}.
Definition setNode (i : nat) (n : node R D) s : network R D :=
  {| nReg := reg n; nStore := swarm n;
     locals := fun j => if decide (j = i) then {| lFiles := files n; lOpened := opened n; lStores := stores n |}
                        else locals s j |}.

Definition act (a : action) : prog (node R D) unit :=
  match a with
  | ACreate name => _ ← Create name; mret tt
  | AGet name => Get name
  | ACommit name => _ ← Commit name; mret tt
  | AApply name ds opts => _ ← GraphDriver.ApplyDeltas name ds opts; mret tt
  | ASet hash sig => GraphDriver.SetGraph hash sig
  end.

(** One node acts, whatever comes of it. *)
Definition step (i : nat) (a : action) s : network R D := setNode i (snd (act a (nodeOf i s))) s.
Definition run (l : list (nat * action)) s : network R D := foldl (fun s '(i, a) => step i a s) s l.

(** ** The board *)

(** The bytes of a reader that is there in full. *)
Definition full (r : reader) : option bytes :=
  match rSize r, rErr r with
  | inr size, None => if (size =? length (rData r))%nat then Some (rData r) else None
  | _, _ => None
  end.

(** What is posted for an identity: a hash, and the tables in the file it
    stands for, once the whole file can be retrieved. *)
Record entry := { eHash : Hash; eGraph : option (option db) }.
Definition board : Type := Address -> entry.

(** An entry stays, but for its file becoming available. *)
Definition persists (x y : entry) : Prop :=
  eHash y = eHash x /\ forall t, eGraph x = Some t -> eGraph y = Some t.

(** The abstract steps: nobody posts, or somebody posts a hash for the
    identity that the signature writes for. *)
Inductive boardStep : option (Hash * bytes) -> board -> board -> Prop :=
  | quiet b b' : (forall a, persists (b a) (b' a)) -> boardStep None b b'
  | post hash sig a b b' :
      writesFor hash sig a -> eHash (b' a) = hash -> (forall c, c <> a -> persists (b c) (b' c)) ->
      boardStep (Some (hash, sig)) b b'
  | refused hash sig b b' : (forall a, persists (b a) (b' a)) -> boardStep (Some (hash, sig)) b b'.

(** What an action asks of the board. *)
Definition label (a : action) : option (Hash * bytes) :=
  match a with ASet hash sig => Some (hash, sig) | _ => None end.

Context `{!RegistryLaws R}.

Definition contentOf s (hash : Hash) : option (option db) :=
  data ← (if EmptyHash hash then Some [] else full (Retrieve (nStore s) hash)); decodeDB data.
Definition boardOf s : board := fun a =>
  {| eHash := view (nReg s) a; eGraph := contentOf s (view (nReg s) a) |}.

(** A full reader is a complete one. *)
Lemma full_complete r data : full r = Some data <-> r = completeReader data.
Proof.
  destruct r as [[e|size] d [x|]]; unfold full, completeReader; cbn; split; try by intros [=].
  - destruct (Nat.eqb_spec size (length d)) as [->|]; by intros [= ->].
  - intros [= -> ->]. by rewrite Nat.eqb_refl.
Qed.
End network.

(** ** The refinement *)

Section refinement.
Context {R D : Type} `{Secp256k1} `{!Registry R} `{!RegistryLaws R} `{!DPA D} `{!DPALaws D}
  `{!SqliteCodec} `{!SqliteCodecLaws}.
Implicit Types s : network R D.

Lemma nodeOf_setNode i n s : nodeOf i (setNode i n s) = n.
Proof. unfold nodeOf, setNode. cbn. rewrite decide_True by done. by destruct n. Qed.

Lemma contentOf_keeps s s' hash t :
  (forall h x, Retrieve (nStore s) h = completeReader x -> Retrieve (nStore s') h = completeReader x) ->
  contentOf s hash = Some t -> contentOf s' hash = Some t.
Proof.
  intros Hs. unfold contentOf. destruct (EmptyHash hash); [done|].
  intros (data & Hf%full_complete%Hs & Hd)%bind_Some. by rewrite Hf, (proj2 (full_complete _ data)).
Qed.

(** What a node does on its own is quiet. *)
Lemma keeps_quiet i s n' :
  keeps (nodeOf i s) n' -> forall a, persists (boardOf s a) (boardOf (setNode i n' s) a).
Proof.
  intros (Hv & Hs & _) a. unfold boardOf. cbn. split; [apply Hv|]. cbn. rewrite Hv.
  intros t. by apply contentOf_keeps.
Qed.

Lemma act_keeping a : label a = None -> keeping (act (R := R) (D := D) a).
Proof.
  destruct a; [intros _..|done]; cbn [act]; [|apply Get_keeping|..];
    (apply keeping_bind; [|intros; apply keeping_ret]).
  - apply Create_keeping.
  - apply Commit_keeping.
  - apply ApplyDeltas_keeping.
Qed.

Lemma act_ASet hash sig n :
  exists res r', Registry.SetGraph hash sig (reg n) = (res, r') /\ snd (act (ASet hash sig) n) = setReg r' n.
Proof.
  cbn [act]. unfold GraphDriver.SetGraph, zoom. destruct (Registry.SetGraph hash sig (reg n)) as [res r'].
  by exists res, r'.
Qed.

(** Each action of a node is a step of the board. *)
Lemma step_board (i : nat) (a : action) s : boardStep (label a) (boardOf s) (boardOf (step i a s)).
Proof.
  destruct (label a) as [[hash sig]|] eqn:Hl.
  - destruct a as [| | | |hash' sig']; try done. injection Hl as -> ->.
    destruct (act_ASet hash sig (nodeOf i s)) as (res & r' & Hset & Hact). unfold step. rewrite Hact.
    destruct (SetGraph_any _ _ _ _ _ Hset) as [Hv | (b & Hb & Hv)].
    + apply refused, keeps_quiet. by split_and!.
    + apply (post _ _ b); [done| |].
      * cbn. by rewrite Hv, decide_True.
      * intros c Hc. unfold boardOf. cbn. rewrite Hv, decide_False by done. by split.
  - unfold step. destruct (act a (nodeOf i s)) as [r n'] eqn:E. apply quiet, keeps_quiet.
    exact (act_keeping a Hl _ _ _ E).
Qed.

Lemma boardStep_persists l b b' a :
  boardStep l b b' -> a <> zeroAddress ->
  (forall hash sig, l = Some (hash, sig) -> ~ authorised hash sig a) -> persists (b a) (b' a).
Proof.
  intros Hb Hz Hl. destruct Hb as [b b' Hq|hash sig c b b' Hw _ Hp|hash sig b b' Hq]; [done| |done].
  apply Hp. intros <-. apply writesFor_zero in Hw as [?|?]; [done|]. by eapply Hl.
Qed.

(** *** Histories *)

Definition filesOk s : Prop := forall i, fsOk (lFiles (locals s i)).

Lemma step_filesOk i a s : filesOk s -> filesOk (step i a s).
Proof.
  intros Hf j. unfold step, setNode. cbn. case_decide as Hj; [subst j|apply Hf]. cbn.
  destruct (label a) as [[hash sig]|] eqn:Hl.
  - destruct a as [| | | |hash' sig']; try done.
    destruct (act_ASet hash' sig' (nodeOf i s)) as (res & r' & _ & ->). apply Hf.
  - destruct (act a (nodeOf i s)) as [r n'] eqn:E. apply (act_keeping a Hl _ _ _ E), Hf.
Qed.

Lemma persists_trans x y z : persists x y -> persists y z -> persists x z.
Proof. intros [E1 G1] [E2 G2]. split; [congruence|auto]. Qed.

(** Nobody in a history has a signature to post for [a]. *)
Definition untouchedBy (a : Address) (l : list (nat * action)) : Prop :=
  forall i hash sig, (i, ASet hash sig) ∈ l -> ~ authorised hash sig a.

Lemma run_persists a l s :
  a <> zeroAddress -> untouchedBy a l -> filesOk s ->
  persists (boardOf s a) (boardOf (run l s) a) /\ filesOk (run l s).
Proof.
  intros Hz. revert s. induction l as [|[i x] l IH]; intros s Hl Hf; [by split|]. cbn [run foldl].
  destruct (IH (step i x s)) as [Hp Hf'].
  { intros j hash sig Hin. apply (Hl j hash sig). by constructor 2. }
  { by apply step_filesOk. }
  split; [|exact Hf']. eapply persists_trans; [|exact Hp].
  eapply boardStep_persists; [apply step_board|exact Hz|]. intros hash sig Hlab.
  destruct x as [| | | |hash' sig']; try done. injection Hlab as -> ->. apply (Hl i). by constructor 1.
Qed.

Lemma contentOf_fetched s hash t :
  contentOf s hash = Some t -> exists data, fetched (nStore s) hash = Ok data /\ decodeDB data = Some t.
Proof.
  unfold contentOf. destruct (EmptyHash hash) eqn:Hz.
  - intros Ht. exists []. split; [|exact Ht]. unfold fetched. by rewrite Hz.
  - intros (data & Hf%full_complete & Hd)%bind_Some. exists data. split; [|exact Hd].
    apply fetched_complete; [|exact Hf]. intros ->. by vm_compute in Hz.
Qed.

(** After a history that leaves [a] alone, a node that has not opened the
    graph gets what is posted for it. *)
Lemma run_gets (name : bytes) (l : list (nat * action)) s (t : option db) (i : nat)
    (h : Hash) (r1 r2 : R) (sub : Subscription) :
  let a := HexToAddress name in
  let s' := run l s in
  a <> zeroAddress -> filesOk s -> untouchedBy a l -> eGraph (boardOf s a) = Some t ->
  name ∉ lOpened (locals s' i) -> name ∉ lStores (locals s' i) ->
  Graph a (nReg s') = (Ok h, r1) -> SubscribeGraph a 0 r1 = (Ok sub, r2) ->
  eHash (boardOf s' a) = eHash (boardOf s a) /\
  exists n', Get name (nodeOf i s') = (Ok tt, n') /\ tables n' name = Some t /\ name ∈ stores n'.
Proof.
  intros a s' Hz Hf Hl Ht Hno Hns Hg Hsub.
  destruct (run_persists a l s Hz Hl Hf) as [[Heq Hkeep] Hf']. split; [exact Heq|].
  destruct (Graph_view _ _ _ _ Hg) as [_ Hh]. specialize (Hh h eq_refl).
  assert (exists data, fetched (nStore s') h = Ok data /\ decodeDB data = Some t) as (data & Hdata & Hdec).
  { apply contentOf_fetched. rewrite Hh. exact (Hkeep t Ht). }
  destruct (openDB_fetches name (nodeOf i s') h r1 sub r2 data Hno (Hf' i) Hg Hsub Hdata)
    as (n1 & Ho & Hc & _). exists (addStore name n1). unfold Get.
  rewrite (bind_ok _ _ (nodeOf i s') (nodeOf i s') (nodeOf i s')) by reflexivity.
  rewrite bool_decide_false by done. rewrite (bind_ok _ _ _ _ _ Ho).
  split; [reflexivity|]. split; [|set_solver]. unfold tables. cbn [files addStore]. by rewrite Hc.
Qed.

(** C4: the nodes refine the board.  Whatever a node does, whatever its
    outcome, the board takes one of its steps: for an action that does not
    ask to post, what is posted for every identity stays, readable if it
    was; for one that does, one entry becomes the hash, that of the identity
    the signature is for, and every other stays; or nothing is posted. *)
Theorem refines_board (i : nat) (a : action) s :
  boardStep (label a) (boardOf s) (boardOf (step i a s)).
Proof. apply step_board. Qed.

(** C3: what is posted is what everybody gets.  After any history of any number
    of nodes, successes and failures in any order, in which nobody posts with
    a signature of the identity, the identity's entry is the one it was, and
    a node that has not opened the graph and whose registry answers gets
    exactly the tables that were posted. *)
Theorem posted_is_got (name : bytes) (l : list (nat * action)) s (t : option db) (i : nat)
    (h : Hash) (r1 r2 : R) (sub : Subscription) :
  let a := HexToAddress name in
  let s' := run l s in
  a <> zeroAddress -> filesOk s -> untouchedBy a l -> eGraph (boardOf s a) = Some t ->
  name ∉ lOpened (locals s' i) -> name ∉ lStores (locals s' i) ->
  Graph a (nReg s') = (Ok h, r1) -> SubscribeGraph a 0 r1 = (Ok sub, r2) ->
  eHash (boardOf s' a) = eHash (boardOf s a) /\
  exists n', act (AGet name) (nodeOf i s') = (Ok tt, n') /\ tables n' name = Some t /\ name ∈ stores n'.
Proof. exact (run_gets name l s t i h r1 r2 sub). Qed.
End refinement.

(** ** Witness *)

Section witnesses.
Import Toy SmallStore Digits.

(** Three nodes: the first has published an empty graph; the second commits
    something of its own; the third, which has nothing open, gets the graph. *)
Definition threeNodes : network Test.registry (list bytes) :=
  {| nReg := publishedReg; nStore := [emptyFile];
     locals i := if decide (i = 0) then {| lFiles := files author; lOpened := opened author; lStores := stores author |}
                 else {| lFiles := noFiles; lOpened := ∅; lStores := ∅ |} |}.
Definition otherName : bytes := "0x0000000000000000000000000000000000000001".
Definition history : list (nat * action) := [(1, ACreate otherName); (0, ACommit graphName); (1, ASet published [])].

Lemma threeNodes_ok : filesOk threeNodes.
Proof.
  intros i. cbn [locals threeNodes]. destruct (decide (i = 0)); cbn [lFiles]; [|exact noFiles_ok].
  unfold author, fsOk. cbn [files names contents freshFile]. split_and!.
  - intros n j Hj. by apply lookup_singleton_Some in Hj as [? _].
  - intros p j Hj. apply lookup_singleton_Some in Hj as [_ <-]. rewrite lookup_singleton_eq. by eexists.
  - intros j c Hj. apply lookup_singleton_Some in Hj as [<- _]. lia.
Qed.

Lemma history_leaves : untouchedBy owner history.
Proof.
  intros i hash sig Hin. unfold history in Hin.
  apply elem_of_cons in Hin as [E|Hin]; [discriminate E|].
  apply elem_of_cons in Hin as [E|Hin]; [discriminate E|].
  apply elem_of_cons in Hin as [E|Hin]; [|by apply elem_of_nil in Hin].
  assert (sig = [] /\ hash = published) as [-> ->] by (injection E; auto).
  unfold authorised. vm_compute. discriminate.
Qed.

Lemma refines_board_witness :
  boardStep (Some (published, sigOf published)) (boardOf threeNodes)
    (boardOf (step 0 (ASet published (sigOf published)) threeNodes)).
Proof. exact (refines_board 0 (ASet published (sigOf published)) threeNodes). Defined.

Lemma posted_is_got_witness :
  exists n', act (AGet graphName) (nodeOf 2 (run history threeNodes)) = (Ok tt, n') /\
    tables n' graphName = Some (Some emptyDB).
Proof.
  assert (HexToAddress graphName = owner) as Hn by (apply HexToAddress_Hex).
  assert (eGraph (boardOf threeNodes owner) = Some (Some emptyDB)) as H1 by (vm_compute; reflexivity).
  assert (lOpened (locals (run history threeNodes) 2) = ∅) as H2 by (vm_compute; reflexivity).
  assert (lStores (locals (run history threeNodes) 2) = ∅) as H3 by (vm_compute; reflexivity).
  assert (Registry.Graph owner (nReg (run history threeNodes)) = (Ok published, nReg (run history threeNodes))) as H4
    by (vm_compute; reflexivity).
  assert (bool_decide (owner = zeroAddress) = false) as H5 by (vm_compute; reflexivity).
  assert (filesOk threeNodes) as H6 by exact threeNodes_ok.
  assert (untouchedBy owner history) as H7 by exact history_leaves.
  rewrite <- Hn in H1, H4, H5, H7. apply bool_decide_eq_false in H5.
  destruct (posted_is_got graphName history threeNodes (Some emptyDB) 2 published (nReg (run history threeNodes))
    (snd (Test.SubscribeGraph (HexToAddress graphName) 0 (nReg (run history threeNodes))))
    (Some (HexToAddress graphName, 0)) H5 H6 H7 H1) with (3 := H4) as (_ & n' & Hact & Ht & _).
  - rewrite H2. exact (not_elem_of_empty graphName).
  - rewrite H3. exact (not_elem_of_empty graphName).
  - reflexivity.
  - exists n'. split; [exact Hact|exact Ht].
Defined.
End witnesses.
