(* ===== verification/Api.v ===== *)
(** * The GraphQL API

    The resolvers of [api/graphql.go] on the graph driver of [GraphDriver],
    the handler of [api/api.go] and the requests and responses of
    [api/client.go] and [graphql/client.go].  A claim is written as the quads
    the vendored package [schema] makes of its record, and queried through
    the constraints [schema] and [path] put on the nodes of the graph.  The
    execution of GraphQL itself (github.com/neelance/graphql-go), which calls
    the resolvers, is a parameter here and modelled in
    [Graphql] and [Exchange]. *)
From S2P Require Import Prelude Keccak Common Crypto Contract Registry Claim Sha1 Quad Sql Db GraphDriver.

(** ** Claims as quads: schema.WriteAsQuads on a [claimQuad] *)

Definition rdfType : Value := IRI "rdf:type".
Definition claimType : Value := IRI "id:Claim".

Definition triple (s p o : Value) : Quad :=
  {| qSubject := Some s; qPredicate := Some p; qObject := Some o; qLabel := None |}.

(** The saved fields of the struct, in order: name, predicate, value, and
    whether the field is an IRI. *)
Definition claimFields (c : claimQuad) : list (bytes * bytes * bytes * bool) :=
  [("Issuer" : bytes, "kord:issuer" : bytes, quadIssuer c, true);
   ("Subject" : bytes, "kord:subject" : bytes, quadSubject c, true);
   ("Property" : bytes, "kord:property" : bytes, quadProperty c, false);
   ("Claim" : bytes, "kord:claim" : bytes, quadClaim c, false);
   ("Signature" : bytes, "kord:signature" : bytes, quadSignature c, false)].

Definition fieldValue (v : bytes) (isIRI : bool) : Value := if isIRI then IRI v else String v.

Definition ErrReqFieldNotSet (field : bytes) : error := ETyped "schema.ErrReqFieldNotSet" field.

(** [writeValueAs]: a required field with its zero value is an error. *)
Fixpoint writeFields (id : Value) (fields : list (bytes * bytes * bytes * bool)) : result (list Quad) :=
  match fields with
  | [] => Ok []
  | (name, pred, v, isIRI) :: fields =>
      if bool_decide (v = []) then Err (ErrReqFieldNotSet name)
      else qs ← writeFields id fields; Ok (triple id (IRI pred) (fieldValue v isIRI) :: qs)
  end.

Definition WriteAsQuads (c : claimQuad) : result (list Quad) :=
  qs ← writeFields (IRI (quadID c)) (claimFields c);
  Ok (triple (IRI (quadID c)) rdfType claimType :: qs).

(** ** Queries *)

(** The objects of the quads from [x] by [p], under any label. *)
Definition objects (d : db) (x : ValueHash) (p : Value) : list ValueHash :=
  omap (fun '(s, q, o, _) => if decide (s = x /\ q = HashOf (Some p)) then Some o else None)
       (elements (quads d)).

(** [path.Has(p, v)]: a value that is nil has the zero hash, which no quad has. *)
Definition has (d : db) (x : ValueHash) (p : Value) (v : option Value) : bool :=
  bool_decide (HashOf v ∈ objects d x p).

Record ClaimFilter := { fIssuer : option bytes; fSubject : option bytes;
                        fProperty : option bytes; fClaim : option bytes }.
Definition noFilter : ClaimFilter := {| fIssuer := None; fSubject := None; fProperty := None; fClaim := None |}.

Definition hasWhen (d : db) (x : ValueHash) (p : bytes) (f : bytes -> option Value) (v : option bytes) : bool :=
  match v with None => true | Some v => has d x (IRI p) (f v) end.

(** The path the resolver builds: the properties and claims asked for are
    parsed by [quad.StringToValue]. *)
Definition passes (d : db) (flt : ClaimFilter) (x : ValueHash) : bool :=
  hasWhen d x "kord:issuer" (fun v => Some (IRI v)) (fIssuer flt) &&
  hasWhen d x "kord:subject" (fun v => Some (IRI v)) (fSubject flt) &&
  hasWhen d x "kord:property" StringToValue (fProperty flt) &&
  hasWhen d x "kord:claim" StringToValue (fClaim flt).

(** [SetValue] to a field whose type is a string: string values convert, the
    structs of typed and tagged strings do not. *)
Definition convert (v : Value) : option bytes :=
  match v with IRI s | BNode s | String s => Some s | TypedString _ _ | LangString _ _ => None end.

Definition conversionFailed : error := ETyped "schema.ErrTypeConversionFailed" [].

Section query.
(** The values of a field arrive in the order of the iteration, which is not
    specified, and the last one stays. *)
Context (iteration : list ValueHash -> list ValueHash).

(** Set a field to each of its values in turn; a node without a name is
    skipped. *)
Fixpoint setField (d : db) (cur : bytes) (vs : list ValueHash) : result bytes :=
  match vs with
  | [] => Ok cur
  | h :: vs =>
      match NameOf d h with
      | None => setField d cur vs
      | Some v => match convert v with
                  | Some s => setField d s vs
                  | None => Err conversionFailed
                  end
      end
  end.

Definition loadField (d : db) (x : ValueHash) (p : bytes) : result bytes :=
  setField d [] (iteration (objects d x (IRI p))).

(** The constraint and the required fields of a [claimQuad]. *)
Definition isClaim (d : db) (x : ValueHash) : bool :=
  has d x rdfType (Some claimType) &&
  forallb (fun '(_, p, _, _) => negb (bool_decide (objects d x (IRI p) = [])))
    (claimFields {| quadID := []; quadIssuer := []; quadSubject := []; quadProperty := [];
                    quadClaim := []; quadSignature := [] |}).

Definition loadClaim (d : db) (x : ValueHash) : result claimQuad :=
  i ← setField d [] [x];
  iss ← loadField d x "kord:issuer";
  su ← loadField d x "kord:subject";
  pr ← loadField d x "kord:property";
  cl ← loadField d x "kord:claim";
  sg ← loadField d x "kord:signature";
  Ok {| quadID := i; quadIssuer := iss; quadSubject := su; quadProperty := pr;
        quadClaim := cl; quadSignature := sg |}.

Fixpoint loadAll (d : db) (xs : list ValueHash) : result (list claimQuad) :=
  match xs with
  | [] => Ok []
  | x :: xs => c ← loadClaim d x; cs ← loadAll d xs; Ok (c :: cs)
  end.

(** [GraphResolver.Claim] on the tables of the graph. *)
Definition queryClaims (d : db) (flt : ClaimFilter) : result (list Claim) :=
  cs ← loadAll d (filter (fun x => passes d flt x && isClaim d x = true)
                    (iteration (elements (dom (nodes d)))));
  Ok (map ToClaim cs).
End query.

(** ** The resolvers *)

Section resolvers.
Context {R D : Type} `{Secp256k1} `{!Registry R} `{!DPA D} `{SqliteCodec}.

(** The node, and the [swarmHash] of the request's context. *)
Record ctx := { nd : node R D; swarmHash : Hash }.
Definition setNode (n : node R D) (c : ctx) : ctx := {| nd := n; swarmHash := swarmHash c |}.
Definition onNode {A} (m : prog (node R D) A) : prog ctx A := zoom nd setNode m.
Definition setSwarmHash (h : Hash) : prog ctx unit :=
  modify (fun c => {| nd := nd c; swarmHash := h |}).

(** [Resolver.Graph]: a resolver for the graph, which is its name. *)
Definition Graph (id : bytes) : prog ctx bytes := _ ← onNode (Get id); mret id.

Definition CreateGraph (id : bytes) : prog ctx bytes :=
  hash ← onNode (Create id);
  _ ← setSwarmHash hash;
  Graph id.

Record SetGraphInput := { sgID : bytes; sgHash : bytes; sgSignature : bytes }.

Definition decodeError (e : error) : error := EWrap "error decoding signature" [] e.

Definition SetGraph (input : SetGraphInput) : prog ctx bytes :=
  let hash := HexToHash (sgHash input) in
  match Decode (sgSignature input) with
  | Err e => throw (decodeError e)
  | Panic p => gopanic p
  | Ok sig =>
      _ ← onNode (GraphDriver.SetGraph hash sig);
      _ ← setSwarmHash hash;
      Graph (sgID input)
  end.

Definition writeClaim (id : bytes) (c : Claim) : prog (node R D) unit :=
  if negb (verifyClaim c) then throw (EMsg "invalid claim signature")
  else
    _ ← Get id;
    qs ← lift (WriteAsQuads (Claim.Quad c));
    onStore id (AddQuadSet qs).

Definition CreateClaim (input : ClaimInput) : prog ctx Claim :=
  let c := ofInput input in
  _ ← onNode (writeClaim (inGraph input) c);
  hash ← onNode (Commit (inGraph input));
  _ ← setSwarmHash hash;
  mret c.

(** [Client.SetGraph] sends these variables. *)
Definition setGraphInput (graph : bytes) (hash : Hash) (sig : bytes) : SetGraphInput :=
  {| sgID := graph; sgHash := Hash_Hex hash; sgSignature := Encode sig |}.
End resolvers.

(** ** The handler and the client *)

(** JSON values, as [encoding/json] decodes them into an [interface{}]. *)
#[warnings="-register-all"]
Inductive json := JNull | JBool (b : bool) | JNumber (text : bytes) | JString (s : bytes)
  | JArray (l : list json) | JObject (l : list (bytes * json)).

Fixpoint member (l : list (bytes * json)) (k : bytes) : option json :=
  match l with
  | [] => None
  | (k', v) :: l => match member l k with
                    | Some w => Some w
                    | None => if decide (k' = k) then Some v else None
                    end
  end.

(** A GraphQL response: its data, the number of its errors, its extensions. *)
Record Response := { Data : json; Errors : nat; Extensions : list (bytes * json) }.

Definition kordExtension (h : Hash) : bytes * json :=
  ("kord" : bytes, JObject [("swarmHash" : bytes, JString (Hash_Hex h))]).

(** [API.ServeHTTP]: [params] is the decoded request, [Exec] the execution of
    its query in the context; the answer is a status and a body. *)
Definition ServeHTTP {S P} (Exec : P -> S * Hash -> Response * (S * Hash)) (params : result P) (s : S) :
    (nat * option Response) * S :=
  match params with
  | Ok p =>
      let '(r, (s', h)) := Exec p (s, zero_array 32) in
      ((200, Some {| Data := Data r; Errors := Errors r;
                     Extensions := Extensions r ++ [kordExtension h] |}), s')
  | _ => ((400, None), s)
  end.

(** [graphql.Client.Do], from the HTTP answer on. *)
Definition Do (answer : nat * option Response) : result Response :=
  match answer with
  | (status, body) =>
      if negb (status =? 200)%nat then Err (ETyped "fmt.Errorf" "graphql: unexpected HTTP response")
      else match body with
           | None => Err (ETyped "fmt.Errorf" "graphql: error decoding GraphQL response")
           | Some r => if (0 <? Errors r)%nat
                       then Err (ETyped "fmt.Errorf" "graphql: unexpected errors in GraphQL response")
                       else Ok r
           end
  end.

(** [swarmHash] of api/client.go. *)
Definition swarmHashOf (r : Response) : result Hash :=
  match member (Extensions r) "kord" with
  | None => Err (EMsg "missing kord extension in GraphQL response")
  | Some (JObject l) =>
      match member l "swarmHash" with
      | Some (JString h) => Ok (HexToHash h)
      | _ => Err (ETyped "fmt.Errorf" "unexpected swarmHash type")
      end
  | Some _ => Err (ETyped "fmt.Errorf" "unexpected kord extension type")
  end.

(** [Client.CreateGraph] and [Client.CreateClaim]: the hash of the answer. *)
Definition createdHash (answer : nat * option Response) : result Hash := r ← Do answer; swarmHashOf r.

(** ** What a written claim looks like in the graph *)

(** The predicate and the value of each quad of a claim. *)
Definition specs (c : claimQuad) : list (bytes * Value) :=
  [("rdf:type" : bytes, claimType); ("kord:issuer" : bytes, IRI (quadIssuer c));
   ("kord:subject" : bytes, IRI (quadSubject c)); ("kord:property" : bytes, String (quadProperty c));
   ("kord:claim" : bytes, String (quadClaim c)); ("kord:signature" : bytes, String (quadSignature c))].

(** Every required field is set. *)
Definition complete (c : claimQuad) : Prop := Forall (fun '(_, _, v, _) => v <> []) (claimFields c).

Lemma WriteAsQuads_complete c :
  complete c -> WriteAsQuads c = Ok ((fun '(p, v) => triple (IRI (quadID c)) (IRI p) v) <$> specs c).
Proof.
  unfold complete, WriteAsQuads, claimFields. rewrite !Forall_cons. intros (H1 & H2 & H3 & H4 & H5 & _).
  cbn [writeFields]. by rewrite !bool_decide_false.
Qed.

(** The first missing field is reported, and there is no output. *)
Lemma WriteAsQuads_incomplete c :
  ~ complete c -> exists name, WriteAsQuads c = Err (ErrReqFieldNotSet name).
Proof.
  unfold complete, WriteAsQuads. intros H.
  assert (forall fs, ~ Forall (fun '(_, _, v, _) => v <> []) fs ->
            exists name, writeFields (IRI (quadID c)) fs = Err (ErrReqFieldNotSet name)) as Hw.
  { clear H. intros fs. induction fs as [|[[[n p] v] i] fs IH]; intros H; [by destruct H|]. simpl.
    case_bool_decide as Hv; [by eexists|]. destruct IH as [name ->]; [|by exists name].
    intros Hf. apply H. by constructor. }
  destruct (Hw _ H) as [name ->]. by exists name.
Qed.

Lemma quadRowOf_triple s p o r :
  quadRowOf (hashQuad (triple s p o)) = Some r ->
  r = (HashOf (Some s), HashOf (Some p), HashOf (Some o), None) /\
  Valid (HashOf (Some o)) = true /\ Valid (HashOf (Some s)) = true.
Proof.
  unfold quadRowOf, hashQuad, triple. cbn [hSubject hPredicate hObject hLabel qSubject qPredicate qObject qLabel].
  destruct (SQLValue (HashOf (Some s))) as [a|] eqn:Ea; [|done].
  destruct (SQLValue (HashOf (Some p))) as [b|] eqn:Eb; [|done].
  destruct (SQLValue (HashOf (Some o))) as [c|] eqn:Ec; [|done].
  apply SQLValue_Some in Ea as [<- ?], Eb as [<- ?], Ec as [<- ?]. by intros [= <-].
Qed.

Lemma objects_spec d x p o :
  o ∈ objects d x p <-> exists l, (x, HashOf (Some p), o, l) ∈ quads d.
Proof.
  unfold objects. rewrite list_elem_of_omap. split.
  - intros ([[[s q] o'] l] & Hin%elem_of_elements & Ho). case_decide as E; [|done].
    destruct E as [-> ->]. injection Ho as ->. by exists l.
  - intros [l Hl]. exists (x, HashOf (Some p), o, l). split; [by apply elem_of_elements|].
    by rewrite decide_True.
Qed.

(** The hashes of the predicates are all different. *)
Definition predicates : list bytes :=
  ["rdf:type" : bytes; "kord:issuer" : bytes; "kord:subject" : bytes; "kord:property" : bytes;
   "kord:claim" : bytes; "kord:signature" : bytes].

Lemma predicates_distinct p q :
  p ∈ predicates -> q ∈ predicates -> HashOf (Some (IRI p)) = HashOf (Some (IRI q)) -> p = q.
Proof.
  intros Hp Hq E.
  assert (bool_decide (Forall (fun p => Forall (fun q =>
    HashOf (Some (IRI p)) = HashOf (Some (IRI q)) -> p = q) predicates) predicates) = true) as H
    by (vm_compute; reflexivity).
  apply bool_decide_eq_true_1 in H. rewrite Forall_forall in H. specialize (H p Hp).
  rewrite Forall_forall in H. by apply (H q Hq).
Qed.

Lemma specs_predicates c p v : (p, v) ∈ specs c -> p ∈ predicates.
Proof. intros Hin. apply (list_elem_of_fmap_2 fst) in Hin. exact Hin. Qed.

Lemma specs_unique c p v w : (p, v) ∈ specs c -> (p, w) ∈ specs c -> v = w.
Proof.
  unfold specs. intros Hv Hw. rewrite !elem_of_cons in Hv, Hw.
  repeat match goal with H : _ \/ _ |- _ => destruct H as [H|H] end;
    simplify_eq; try done; try (by apply elem_of_nil in Hv); by apply elem_of_nil in Hw.
Qed.

(** Find an entry of a literal list. *)
Ltac in_specs := repeat first [apply list_elem_of_here | apply list_elem_of_further].

(** What a filter asks for, said of the record itself. *)
Definition fieldMatches (f : bytes -> option Value) (q : option bytes) (v : Value) : bool :=
  match q with None => true | Some s => bool_decide (f s = Some v) end.
Definition matches (flt : ClaimFilter) (c : claimQuad) : bool :=
  fieldMatches (fun v => Some (IRI v)) (fIssuer flt) (IRI (quadIssuer c)) &&
  fieldMatches (fun v => Some (IRI v)) (fSubject flt) (IRI (quadSubject c)) &&
  fieldMatches StringToValue (fProperty flt) (String (quadProperty c)) &&
  fieldMatches StringToValue (fClaim flt) (String (quadClaim c)).

(** Every value of the record is one that the tables give back. *)
Definition storableClaim (c : claimQuad) : bool := forallb (fun '(_, v) => storable v) (specs c).

Definition sha1Broken : Prop := exists v w, hashCollision v w.

Lemma HashOf_eq v w : HashOf (Some v) = HashOf (Some w) -> v = w \/ sha1Broken.
Proof. intros E. destruct (decide (v = w)); [by left|right]. by exists v, w. Qed.

Section load.
Context (iteration : list ValueHash -> list ValueHash).

Lemma setField_all d vs h v s cur :
  Forall (fun o => o = h) vs -> vs <> [] -> NameOf d h = Some v -> convert v = Some s ->
  setField d cur vs = Ok s.
Proof.
  intros Hall Hne Hn Hc. revert cur. induction Hall as [|o vs -> Hall IH]; intros cur; [done|].
  simpl. rewrite Hn, Hc. destruct vs as [|o' vs]; [done|]. by apply IH.
Qed.

Lemma loadAll_ok d xs :
  Forall (fun x => is_ok (loadClaim iteration d x) = true) xs ->
  exists cs, loadAll iteration d xs = Ok cs.
Proof.
  induction 1 as [|x xs Hx _ [cs IH]]; [by eexists|]. simpl.
  destruct (loadClaim iteration d x) as [c|e|p]; try done. simpl. rewrite IH. by eexists.
Qed.

Lemma loadAll_elem d xs cs x c :
  loadAll iteration d xs = Ok cs -> x ∈ xs -> loadClaim iteration d x = Ok c -> c ∈ cs.
Proof.
  revert cs. induction xs as [|y xs IH]; intros cs Hl Hx Hc; [by apply elem_of_nil in Hx|].
  simpl in Hl. inv_ok. apply elem_of_cons in Hx as [->|Hx].
  - assert (x0 = c) as -> by congruence. by left.
  - right. eauto.
Qed.
End load.

Section written.
(** A complete claim record [c] written to the graph [d], in which nothing is
    said yet about its identifier. *)
Context (d d' : db) (c : claimQuad) (qs : list Quad).
Context (Hwf : wf d) (Hc : WriteAsQuads c = Ok qs) (Hcomplete : complete c).
Context (Hadd : AddQuadSet qs d = (Ok tt, d')).
Let x : ValueHash := HashOf (Some (IRI (quadID c))).
Context (Hnew : forall s p o l, (s, p, o, l) ∈ quads d -> s <> x).

Lemma written_rows :
  wf d' /\ (forall s p o l, (s, p, o, l) ∈ quads d' <-> (s, p, o, l) ∈ quads d \/
    exists p' v, (p', v) ∈ specs c /\ (s, p, o, l) = (x, HashOf (Some (IRI p')), HashOf (Some v), None)) /\
  (forall p v, (p, v) ∈ specs c -> Valid x = true /\ Valid (HashOf (Some v)) = true).
Proof.
  destruct (AddQuadSet_ok _ _ _ Hadd Hwf) as (rows & Hrows & Hwf' & Hq).
  assert (qs = (fun '(p, v) => triple (IRI (quadID c)) (IRI p) v) <$> specs c) as Hqs
    by (pose proof (WriteAsQuads_complete c Hcomplete); congruence).
  assert (forall q, q ∈ qs <-> exists p v, (p, v) ∈ specs c /\ q = triple (IRI (quadID c)) (IRI p) v) as Hin.
  { intros q. rewrite Hqs, list_elem_of_fmap. split; [intros ([p v] & -> & Hp)|intros (p & v & Hp & ->)];
      [by exists p, v|by exists (p, v)]. }
  split; [done|]. split.
  - intros s p o l. rewrite Hq. apply or_iff_compat_l. rewrite (rowsOf_elem _ _ _ Hrows). split.
    + intros (q & Hqq & Hr). apply Hin in Hqq as (p' & v & Hp & ->). exists p', v. split; [done|].
      by apply quadRowOf_triple in Hr as [-> _].
    + intros (p' & v & Hp & ->). exists (triple (IRI (quadID c)) (IRI p') v).
      assert (triple (IRI (quadID c)) (IRI p') v ∈ qs) as Hqq by (apply Hin; by exists p', v).
      split; [done|]. destruct (rowsOf_each _ _ _ Hrows Hqq) as [r Hr]. rewrite Hr. f_equal.
      by apply quadRowOf_triple in Hr as [-> _].
  - intros p v Hp. assert (triple (IRI (quadID c)) (IRI p) v ∈ qs) as Hqq by (apply Hin; by exists p, v).
    destruct (rowsOf_each _ _ _ Hrows Hqq) as [r Hr]. by apply quadRowOf_triple in Hr as (_ & ? & ?).
Qed.

(** The objects of each field of the claim are its value. *)
Lemma written_objects p v :
  (p, v) ∈ specs c ->
  objects d' x (IRI p) <> [] /\ Forall (fun o => o = HashOf (Some v)) (objects d' x (IRI p)).
Proof.
  intros Hpv. destruct written_rows as (_ & Hrows & _). split.
  - assert (HashOf (Some v) ∈ objects d' x (IRI p)) as Hin; [|intros E; rewrite E in Hin; by apply elem_of_nil in Hin].
    apply objects_spec. exists None. apply Hrows. right. by exists p, v.
  - apply Forall_forall. intros o [l Ho]%objects_spec. apply Hrows in Ho as [Ho|(p' & w & Hpw & E)].
    + by destruct (Hnew _ _ _ _ Ho).
    + assert (o = HashOf (Some w)) as -> by exact (f_equal (fun r => r.1.2) E).
      assert (HashOf (Some (IRI p)) = HashOf (Some (IRI p'))) as Ep by exact (f_equal (fun r => r.1.1.2) E).
      apply predicates_distinct in Ep as ->;
        [|by eapply specs_predicates..]. by rewrite (specs_unique _ _ _ _ Hpv Hpw).
Qed.

Lemma written_has p v w : (p, v) ∈ specs c -> has d' x (IRI p) w = true <-> HashOf w = HashOf (Some v).
Proof.
  intros Hpv. destruct (written_objects p v Hpv) as [Hne Hall]. unfold has.
  rewrite bool_decide_eq_true. rewrite Forall_forall in Hall. split; [by intros Hw%Hall|].
  intros ->. destruct (objects d' x (IRI p)) as [|o l]; [done|].
  rewrite <- (Hall o) by (by left). by left.
Qed.

Lemma written_hasWhen p v f q :
  (p, v) ∈ specs c -> hasWhen d' x p f q = fieldMatches f q v \/ sha1Broken.
Proof.
  intros Hpv. destruct q as [s|]; [|by left]. cbn [hasWhen fieldMatches].
  pose proof (written_has p v (f s) Hpv) as Hh. destruct (f s) as [w|] eqn:Ef.
  - destruct (decide (w = v)) as [->|Hne].
    + left. rewrite bool_decide_true by done. by apply Hh.
    + destruct (has d' x (IRI p) (Some w)) eqn:E.
      * destruct (HashOf_eq w v (proj1 Hh eq_refl)) as [?|?]; [done|by right].
      * left. symmetry. apply bool_decide_eq_false. congruence.
  - left. rewrite bool_decide_false by done. apply not_true_is_false. intros E%Hh.
    destruct written_rows as (_ & _ & Hv). destruct (Hv p v Hpv) as [_ Hval]. rewrite <- E in Hval.
    unfold Valid, HashOf in Hval. by rewrite bool_decide_true in Hval.
Qed.

(** The resolver's path selects the claim exactly when the claim matches. *)
Lemma written_passes flt : passes d' flt x = matches flt c \/ sha1Broken.
Proof.
  unfold passes, matches.
  destruct (written_hasWhen "kord:issuer" (IRI (quadIssuer c)) (fun v => Some (IRI v)) (fIssuer flt))
    as [->|?]; [in_specs| |by right].
  destruct (written_hasWhen "kord:subject" (IRI (quadSubject c)) (fun v => Some (IRI v)) (fSubject flt))
    as [->|?]; [in_specs| |by right].
  destruct (written_hasWhen "kord:property" (String (quadProperty c)) StringToValue (fProperty flt))
    as [->|?]; [in_specs| |by right].
  destruct (written_hasWhen "kord:claim" (String (quadClaim c)) StringToValue (fClaim flt))
    as [->|?]; [in_specs|by left|by right].
Qed.

Lemma written_isClaim : isClaim d' x = true.
Proof.
  unfold isClaim. apply andb_true_intro. split; [by eapply written_has; [by left|]|].
  apply forallb_forall. intros [[[n p] v] i] Hin.
  assert (exists w, (p, w) ∈ specs c) as [w Hw].
  { apply list_elem_of_In in Hin. unfold claimFields in Hin. rewrite !elem_of_cons, elem_of_nil in Hin.
    destruct_or! Hin; simplify_eq; eexists; unfold specs; rewrite !elem_of_cons; naive_solver. }
  apply negb_true_iff, bool_decide_eq_false. by apply (written_objects p w).
Qed.

Context (iteration : list ValueHash -> list ValueHash) (Hit : forall l, iteration l ≡ₚ l).
Context (Hst : storableClaim c = true).

Lemma written_node v : v = IRI (quadID c) \/ (exists p, (p, v) ∈ specs c) -> is_Some (nodes d' !! HashOf (Some v)) /\
  Valid (HashOf (Some v)) = true.
Proof.
  intros Hv. destruct written_rows as (Hwf' & Hrows & Hval).
  assert (exists p w, (p, w) ∈ specs c /\ (v = IRI (quadID c) \/ v = w)) as (p & w & Hp & Hvw).
  { destruct Hv as [->|[p Hp]]; [|by exists p, v; eauto].
    exists ("rdf:type" : bytes), claimType. split; [by left|by left]. }
  destruct (Hval p w Hp) as [Hx Hw]. split; [|by destruct Hvw as [->| ->]].
  apply (wf_quads _ Hwf' (x, HashOf (Some (IRI p)), HashOf (Some w), None)).
  - apply Hrows. right. by exists p, w.
  - unfold rowHashes. cbn [app]. destruct Hvw as [->| ->]; [apply list_elem_of_here|in_specs].
Qed.

Lemma written_name v : v = IRI (quadID c) \/ (exists p, (p, v) ∈ specs c) ->
  NameOf d' (HashOf (Some v)) = Some v \/ sha1Broken.
Proof.
  intros Hv. destruct (written_node v Hv) as [Hn Hval]. destruct written_rows as (Hwf' & _).
  assert (storable v = true) as Hsv.
  { destruct Hv as [->|[p Hp]]; [done|]. unfold storableClaim in Hst. rewrite forallb_forall in Hst.
    apply list_elem_of_In in Hp. exact (Hst _ Hp). }
  destruct (wf_NameOf d' v Hwf' Hn Hval Hsv) as [?|[w Hw]]; [by left|right]. by exists v, w.
Qed.

Lemma written_loadField p v s :
  (p, v) ∈ specs c -> convert v = Some s -> loadField iteration d' x p = Ok s \/ sha1Broken.
Proof.
  intros Hp Hc'. destruct (written_name v) as [Hn|?]; [by right; exists p| |by right]. left.
  destruct (written_objects p v Hp) as [Hne Hall].
  apply (setField_all d' _ (HashOf (Some v)) v s); [| |done|done].
  - by rewrite Hit.
  - intros E. apply Hne. apply Permutation_nil_r. by rewrite <- E, Hit.
Qed.

(** The claim loads as it was written. *)
Lemma written_loadClaim : loadClaim iteration d' x = Ok c \/ sha1Broken.
Proof.
  unfold loadClaim.
  assert (setField d' [] [x] = Ok (quadID c) \/ sha1Broken) as [->|?]; [| |by right].
  { destruct (written_name (IRI (quadID c))) as [Hn|?]; [by left| |by right].
    left. simpl. fold x in Hn. by rewrite Hn. }
  destruct (written_loadField "kord:issuer" (IRI (quadIssuer c)) (quadIssuer c)) as [->|?];
    [in_specs|done| |by right].
  destruct (written_loadField "kord:subject" (IRI (quadSubject c)) (quadSubject c)) as [->|?];
    [in_specs|done| |by right].
  destruct (written_loadField "kord:property" (String (quadProperty c)) (quadProperty c)) as [->|?];
    [in_specs|done| |by right].
  destruct (written_loadField "kord:claim" (String (quadClaim c)) (quadClaim c)) as [->|?];
    [in_specs|done| |by right].
  destruct (written_loadField "kord:signature" (String (quadSignature c)) (quadSignature c)) as [->|?];
    [in_specs|done| |by right].
  left. by destruct c.
Qed.
End written.

(** ** The properties of the API *)

Lemma WriteAsQuads_ok c qs : WriteAsQuads c = Ok qs -> complete c.
Proof.
  unfold WriteAsQuads, complete. generalize (claimFields c) as fs. intros fs Hw. inv_ok.
  match goal with H : writeFields _ _ = Ok ?l |- _ => clear -H; revert l H end.
  induction fs as [|[[[n p] v] i] fs IH]; intros l Hw; [by constructor|]. simpl in Hw.
  case_bool_decide as Hv; [done|]. inv_ok. constructor; [done|]. eauto.
Qed.

(** [StringToValue] reads a text in angle brackets as an IRI. *)
Lemma StringToValue_bracketed s : s <> [] -> StringToValue (bracketed s) = Some (IRI s).
Proof. intros Hs. pose proof (transport_IRI s Hs) as H. unfold transport in H. by case_bool_decide. Qed.

Definition byProperty (s : bytes) : ClaimFilter :=
  {| fIssuer := None; fSubject := None; fProperty := Some s; fClaim := None |}.
Definition byIssuer (s : bytes) : ClaimFilter :=
  {| fIssuer := Some s; fSubject := None; fProperty := None; fClaim := None |}.

(** The quads of a claim, when it is complete. *)
Definition quadsOf (c : Claim) : list Quad :=
  match WriteAsQuads (Claim.Quad c) with Ok qs => qs | _ => [] end.

(** The node of a claim. *)
Definition claimNode (c : Claim) : ValueHash := HashOf (Some (IRI (quadID (Claim.Quad c)))).
Definition noQuadsFrom (x : ValueHash) (d : db) : Prop := forall s p o l, (s, p, o, l) ∈ quads d -> s <> x.

(** The query, on a graph to which a claim was written. *)
Lemma written_found (c : Claim) (qs : list Quad) (d d' : db) (flt : ClaimFilter)
    (iteration : list ValueHash -> list ValueHash) :
  wf d -> noQuadsFrom (claimNode c) d ->
  WriteAsQuads (Claim.Quad c) = Ok qs -> AddQuadSet qs d = (Ok tt, d') ->
  storableClaim (Claim.Quad c) = true -> (forall l, iteration l ≡ₚ l) ->
  (forall y, y <> claimNode c -> passes d' flt y = true -> isClaim d' y = true ->
     is_ok (loadClaim iteration d' y) = true) ->
  sha1Broken \/
  exists cs, queryClaims iteration d' flt = Ok cs /\
    passes d' flt (claimNode c) = matches flt (Claim.Quad c) /\
    (matches flt (Claim.Quad c) = true -> c ∈ cs).
Proof.
  intros Hwf Hnew Hqs Hadd Hst Hit Hothers. pose proof (WriteAsQuads_ok _ _ Hqs) as Hc.
  destruct (written_passes d d' _ qs Hwf Hqs Hc Hadd Hnew flt) as [Hp|?]; [|by left].
  destruct (written_loadClaim d d' _ qs Hwf Hqs Hc Hadd Hnew iteration Hit Hst) as [Hl|?]; [right|by left].
  pose proof (written_isClaim d d' _ qs Hwf Hqs Hc Hadd Hnew) as Hi.
  unfold queryClaims. set (xs := filter _ _).
  destruct (loadAll_ok iteration d' xs) as [cs Hcs].
  { apply Forall_forall. intros y [Hy _]%list_elem_of_filter. apply andb_prop in Hy as [Hy1 Hy2].
    destruct (decide (y = claimNode c)) as [->|Hne]; [unfold claimNode; by rewrite Hl|by apply Hothers]. }
  rewrite Hcs. eexists. split; [reflexivity|]. split; [exact Hp|]. intros Hm.
  rewrite <- (ToClaim_Quad c). apply list_elem_of_fmap_2.
  apply (loadAll_elem iteration d' xs cs (claimNode c)); [done| |done].
  apply list_elem_of_filter. rewrite Hm in Hp. unfold claimNode in *. rewrite Hp, Hi. split; [done|].
  rewrite Hit. apply elem_of_elements, elem_of_dom.
  apply (written_node d d' _ qs Hwf Hqs Hc Hadd (IRI (quadID (Claim.Quad c)))). by left.
Qed.


(** Filters are read by other rules than claims are written by: a claim
    whose property is a text in angle brackets is not selected by a filter for
    that very property, and a filter for an issuer does not select the
    issuer's claims unless it spells the address as the checksum does, though
    [HexToID] accepts other spellings where claims are created. *)
Theorem filters_miss (c : Claim) (p s : bytes) (qs : list Quad) (d d' : db) :
  wf d -> noQuadsFrom (claimNode c) d ->
  WriteAsQuads (Claim.Quad c) = Ok qs -> AddQuadSet qs d = (Ok tt, d') ->
  Property c = bracketed p -> p <> [] -> HexToID s = Issuer c -> s <> Address_Hex (Issuer c) ->
  sha1Broken \/
  (passes d' (byProperty (Property c)) (claimNode c) = false /\
   passes d' (byIssuer s) (claimNode c) = false).
Proof.
  intros Hwf Hnew Hqs Hadd Hp Hne _ Hs. pose proof (WriteAsQuads_ok _ _ Hqs) as Hc.
  destruct (written_passes d d' _ qs Hwf Hqs Hc Hadd Hnew (byProperty (Property c))) as [Hpass|?]; [|by left].
  destruct (written_passes d d' _ qs Hwf Hqs Hc Hadd Hnew (byIssuer s)) as [Hiss|?]; [right|by left].
  unfold claimNode. rewrite Hpass, Hiss. unfold matches, byProperty, byIssuer.
  cbn [fIssuer fSubject fProperty fClaim fieldMatches]. split.
  - rewrite Hp, StringToValue_bracketed by done. by rewrite bool_decide_false.
  - rewrite bool_decide_false; [done|]. by intros [= ->].
Qed.

(** ** The properties of the resolvers *)

Section resolver_properties.
Context {R D : Type} `{Secp256k1} `{!Registry R} `{!DPA D} `{!DPALaws D} `{!SqliteCodec} `{!SqliteCodecLaws}.
Implicit Types c : ctx (R := R) (D := D).

Lemma onNode_run {A} (m : prog (node R D) A) c res n' :
  m (nd c) = (res, n') -> onNode m c = (res, setNode n' c).
Proof. unfold onNode, zoom. by intros ->. Qed.

(** A claim that is not verified or not complete. *)
Lemma writeClaim_rejected (id : bytes) (cl : Claim) (n : node R D) :
  id ∈ stores n -> (verifyClaim cl = false \/ ~ complete (Claim.Quad cl)) ->
  exists e, writeClaim id cl n = (Err e, n) /\
    (verifyClaim cl = false -> e = EMsg "invalid claim signature") /\
    (verifyClaim cl = true -> exists field, e = ErrReqFieldNotSet field).
Proof.
  intros Hin Hbad. unfold writeClaim. destruct (verifyClaim cl) eqn:Hv; cbn [negb].
  - destruct Hbad as [?|Hbad]; [done|]. destruct (WriteAsQuads_incomplete _ Hbad) as [f Hf].
    rewrite (bind_ok _ _ _ _ _ (Get_cached id n Hin)), (bind_err _ _ n (ErrReqFieldNotSet f) n)
      by (unfold lift; by rewrite Hf).
    eexists. split; [done|]. split; [done|]. intros _. by exists f.
  - eexists. split; [done|]. by split.
Qed.

(** [CreateClaim] of a claim that is verified and complete, step by step. *)
Lemma CreateClaim_run (input : ClaimInput) (n : node R D) h (d d1 : db) (res : result unit) (qs : list Quad)
    (key : bytes) (sw : D) :
  let cl := ofInput input in
  inGraph input ∈ stores n -> tables n (inGraph input) = Some (Some d) -> verifyClaim cl = true ->
  WriteAsQuads (Claim.Quad cl) = Ok qs -> AddQuadSet qs d = (res, d1) ->
  Store (encodeDB (Some d1)) (swarm n) = (Ok key, sw) ->
  exists f', tables (setFiles f' n) (inGraph input) = Some (Some d1) /\
    CreateClaim input {| nd := n; swarmHash := h |} =
      match res with
      | Ok _ => (Ok cl, {| nd := setSwarm sw (setFiles f' n); swarmHash := BytesToHash key |})
      | Err e => (Err e, {| nd := setFiles f' n; swarmHash := h |})
      | Panic p => (Panic p, {| nd := setFiles f' n; swarmHash := h |})
      end.
Proof.
  intros cl Hin Ht Hv Hqs Hadd Hst.
  destruct (onStore_ok (inGraph input) (AddQuadSet qs) n d Ht) as (f' & Ho & Hcont & _).
  rewrite Hadd in Ho, Hcont. simpl in Ho, Hcont.
  assert (writeClaim (inGraph input) cl n = (res, setFiles f' n)) as Hw.
  { unfold writeClaim. rewrite Hv. cbn [negb]. rewrite (bind_ok _ _ _ _ _ (Get_cached _ n Hin)).
    rewrite (bind_ok _ _ n qs n) by (unfold lift; by rewrite Hqs). exact Ho. }
  exists f'. split; [unfold tables; simpl; rewrite Hcont; apply decode_encode|]. unfold CreateClaim. fold cl.
  apply (onNode_run _ {| nd := n; swarmHash := h |}) in Hw. destruct res as [[]|e|p].
  - rewrite (bind_ok _ _ _ _ _ Hw).
    pose proof (Commit_stores (inGraph input) (setFiles f' n) _ _ sw Hcont Hst) as Hcm.
    by rewrite (bind_ok _ _ _ _ _ (onNode_run _ (setNode (setFiles f' n) {| nd := n; swarmHash := h |}) _ _ Hcm)).
  - by rewrite (bind_err _ _ _ _ _ Hw).
  - unfold mbind, prog_bind. by rewrite Hw.
Qed.

(** C22: [CreateClaim] on an open graph.  A claim whose signature is not its
    issuer's, or one with a missing field, is refused with the error that
    says so, and nothing changes, in the node or in the context.  Any other
    claim is written to the graph as its quads, the file with the result is
    stored and its key is the hash the request reports; when the tables
    refuse the quads they stay as they were and nothing is stored. *)
Theorem CreateClaim_spec (input : ClaimInput) c (d d1 : db) (res : result unit) (qs : list Quad)
    (key : bytes) (sw : D) :
  let cl := ofInput input in
  inGraph input ∈ stores (nd c) -> tables (nd c) (inGraph input) = Some (Some d) ->
  if verifyClaim cl
  then (~ complete (Claim.Quad cl) -> exists f, CreateClaim input c = (Err (ErrReqFieldNotSet f), c)) /\
       (WriteAsQuads (Claim.Quad cl) = Ok qs -> AddQuadSet qs d = (res, d1) ->
        Store (encodeDB (Some d1)) (swarm (nd c)) = (Ok key, sw) ->
        exists c', tables (nd c') (inGraph input) = Some (Some d1) /\
          match res with
          | Ok _ => CreateClaim input c = (Ok cl, c') /\ swarmHash c' = BytesToHash key /\ swarm (nd c') = sw
          | Err e => CreateClaim input c = (Err e, c') /\ swarmHash c' = swarmHash c /\
                     swarm (nd c') = swarm (nd c) /\ d1 = d
          | Panic p => False
          end)
  else CreateClaim input c = (Err (EMsg "invalid claim signature"), c).
Proof.
  intros cl Hin Ht. destruct c as [n h]. simpl in Hin, Ht. destruct (verifyClaim cl) eqn:Hv.
  2:{ destruct (writeClaim_rejected _ cl n Hin (or_introl Hv)) as (e & Hw & He & _).
      unfold CreateClaim. fold cl. rewrite (bind_err _ _ _ e _ (onNode_run _ {| nd := n; swarmHash := h |} _ _ Hw)).
      by rewrite (He Hv). }
  split.
  - intros Hbad. destruct (writeClaim_rejected _ cl n Hin (or_intror Hbad)) as (e & Hw & _ & He).
    destruct (He Hv) as [f ->]. exists f. unfold CreateClaim. fold cl.
    by rewrite (bind_err _ _ _ _ _ (onNode_run _ {| nd := n; swarmHash := h |} _ _ Hw)).
  - intros Hqs Hadd Hst.
    destruct (CreateClaim_run input n h d d1 res qs key sw Hin Ht Hv Hqs Hadd Hst) as (f' & Ht' & Hc).
    exists {| nd := match res with Ok _ => setSwarm sw (setFiles f' n) | _ => setFiles f' n end;
              swarmHash := match res with Ok _ => BytesToHash key | _ => h end |}.
    split; [by destruct res|]. destruct res as [[]|e|p]; [by split_and!| |by apply AddQuadSet_no_panic in Hadd].
    split_and!; [exact Hc|done..|by apply ApplyDeltas_error in Hadd].
Qed.

(** The [setGraph] mutation, from the client's variables to the registry.
    The hash and the signature arrive as they were sent; the entry that is
    written is that of the identity that signed, to the hash, whatever graph
    the mutation names; the hash is reported; and when the registry refuses,
    its error is the mutation's and nothing is reported. *)
Theorem SetGraph_resolver `{!RegistryLaws R} (graph : bytes) (hash : Hash) (sig : bytes) c :
  match Registry.SetGraph hash sig (reg (nd c)) with
  | (Ok _, r) =>
      exists res c', SetGraph (setGraphInput graph hash sig) c = (res, c') /\ swarmHash c' = hash /\
        (res = Ok graph \/ forall g, res <> Ok g) /\
        exists a, writesFor hash sig a /\
          forall b, view (reg (nd c')) b = if decide (b = a) then hash else view (reg (nd c)) b
  | (Err e, r) => SetGraph (setGraphInput graph hash sig) c = (Err e, setNode (setReg r (nd c)) c)
  | (Panic p, r) => SetGraph (setGraphInput graph hash sig) c = (Panic p, setNode (setReg r (nd c)) c)
  end.
Proof.
  destruct c as [n h]. cbn [nd].
  assert (HexToHash (Hash_Hex hash) = hash) as Hh by apply HexToHash_Hex.
  destruct (Registry.SetGraph hash sig (reg n)) as [res r] eqn:Hset.
  assert (SetGraph (setGraphInput graph hash sig) {| nd := n; swarmHash := h |} =
          (_ ← onNode (GraphDriver.SetGraph hash sig); _ ← setSwarmHash hash; Graph graph)
            {| nd := n; swarmHash := h |}) as ->.
  { unfold SetGraph, setGraphInput. cbn [sgHash sgSignature sgID]. cbv zeta. rewrite Hh.
    by rewrite Decode_Encode. }
  assert (onNode (GraphDriver.SetGraph hash sig) {| nd := n; swarmHash := h |} =
          (res, setNode (setReg r n) {| nd := n; swarmHash := h |})) as Hon.
  { apply onNode_run. cbn [nd]. unfold GraphDriver.SetGraph, zoom. by rewrite Hset. }
  destruct res as [[]|e|p]; [|by rewrite (bind_err _ _ _ _ _ Hon)|unfold mbind, prog_bind; by rewrite Hon].
  rewrite (bind_ok _ _ _ _ _ Hon). unfold setSwarmHash, modify. unfold mbind at 1, prog_bind.
  unfold Graph, onNode, zoom. unfold mbind, prog_bind. cbn [nd swarmHash setNode].
  destruct (Get graph (setReg r n)) as [rg n'] eqn:Hg.
  pose proof (Get_view _ _ _ _ Hg) as Hv. destruct (SetGraph_view _ _ _ _ Hset) as (a & Ha & Hview).
  assert (forall b, view (reg n') b = if decide (b = a) then hash else view (reg n) b) as Hb
    by (intros b; rewrite Hv; apply Hview).
  destruct rg as [u|e|p]; do 2 eexists; (split; [reflexivity|]); (split; [done|]);
    (split; [by (left + (right; intros g))|]); by exists a.
Qed.
End resolver_properties.

(** The hash a mutation reports reaches the client: when the body decodes
    and the execution has no errors, the client reads from the answer exactly
    the hash that the execution left in the context, whatever extensions the
    answer already had; when the body does not decode, or the execution has an
    error, the client returns an error and no hash. *)
Theorem reported_hash_arrives {S P} (Exec : P -> S * Hash -> Response * (S * Hash)) (params : result P) (s : S) :
  let answer := fst (ServeHTTP Exec params s) in
  match params with
  | Ok p => let '(r, (_, h)) := Exec p (s, zero_array 32) in
            if (Errors r =? 0)%nat then createdHash answer = Ok h
            else forall h', createdHash answer <> Ok h'
  | _ => (forall h', createdHash answer <> Ok h') /\ snd (ServeHTTP Exec params s) = s
  end.
Proof.
  intros answer. subst answer. destruct params as [p|e|m]; [|by split..]. unfold ServeHTTP.
  destruct (Exec p _) as [r [s' h]] eqn:E. unfold createdHash, Do. cbn [fst negb Nat.eqb].
  cbn [Errors]. destruct (Errors r) as [|k]; [|by intros h']. cbn [Nat.eqb Nat.ltb Nat.leb].
  change (swarmHashOf {| Data := Data r; Errors := 0; Extensions := Extensions r ++ [kordExtension h] |} = Ok h).
  unfold swarmHashOf. cbn [Extensions].
  assert (member (Extensions r ++ [kordExtension h]) "kord" = Some (snd (kordExtension h))) as ->.
  { induction (Extensions r) as [|[k v] l IH]; [reflexivity|]. cbn [app member]. by rewrite IH. }
  cbn [kordExtension snd member]. rewrite decide_True by done. by rewrite HexToHash_Hex.
Qed.

(** ** Witnesses *)

Section witnesses.
Import Toy SmallStore Digits.

Definition withClaim (c : Claim) : db := after (AddQuadSet (quadsOf c)) emptyDB.

(** The claim with a property in angle brackets, and its issuer in lower case. *)
Definition lowerCase : bytes := "0x5aaeb6053f3e94c9b9a09f33669435e7ef1beaed".
Definition tagged : Claim :=
  {| Issuer := subject; Claim.Subject := subject; Property := bracketed "p"; claim := "v"; Signature := [N2b 1] |}.

(** Writing a claim to the empty graph, evaluated. *)
Definition writesAlone (c : Claim) : bool :=
  is_ok (WriteAsQuads (Claim.Quad c)) && is_ok (fst (AddQuadSet (quadsOf c) emptyDB)) &&
  let x := claimNode c in
  forallb (fun r : quadRow => bool_decide (fst (fst (fst r)) = x)) (elements (quads (withClaim c))).

Lemma writesAlone_spec c :
  writesAlone c = true ->
  WriteAsQuads (Claim.Quad c) = Ok (quadsOf c) /\ AddQuadSet (quadsOf c) emptyDB = (Ok tt, withClaim c) /\
  (forall y, y <> claimNode c -> isClaim (withClaim c) y = false).
Proof.
  unfold writesAlone. intros [[Hq Ha]%andb_prop Hr]%andb_prop. split_and!.
  - unfold quadsOf. by destruct (WriteAsQuads _).
  - unfold withClaim, after. destruct (AddQuadSet _ _) as [[[]|e|p] d]; done.
  - intros y Hy. apply not_true_is_false. unfold isClaim. intros [Hh _]%andb_prop.
    unfold has in Hh. apply bool_decide_eq_true_1, objects_spec in Hh as [l Hl].
    cbv zeta in Hr. rewrite forallb_forall in Hr.
    apply elem_of_elements, list_elem_of_In in Hl. apply Hr, bool_decide_eq_true_1 in Hl. by simpl in Hl.
Qed.

Lemma aClaim_alone : writesAlone aClaim = true.
Proof. vm_compute. reflexivity. Qed.

Lemma noQuads_empty x : noQuadsFrom x emptyDB.
Proof. intros s p o l Hin. by apply elem_of_empty in Hin. Qed.


Lemma filters_miss_witness :
  AddQuadSet (quadsOf tagged) emptyDB = (Ok tt, withClaim tagged) /\
  (sha1Broken \/
   (passes (withClaim tagged) (byProperty "<p>") (claimNode tagged) = false /\
    passes (withClaim tagged) (byIssuer lowerCase) (claimNode tagged) = false)).
Proof.
  assert (writesAlone tagged = true) as Hw by (vm_compute; reflexivity).
  destruct (writesAlone_spec _ Hw) as (Hq & Ha & _). split; [exact Ha|].
  apply (filters_miss tagged "p" lowerCase (quadsOf tagged) emptyDB (withClaim tagged)
    wf_empty (noQuads_empty _) Hq Ha).
  - reflexivity.
  - discriminate.
  - reflexivity.
  - apply (bool_decide_eq_true_1 (lowerCase <> Address_Hex (Issuer tagged))). vm_compute. reflexivity.
Defined.

(** The author of [GraphDriver] creates a claim. *)
Definition request : ctx (R := Test.registry) (D := list bytes) :=
  {| nd := author; swarmHash := zeroHash |}.

Lemma CreateClaim_spec_witness :
  let input := claimInput graphName aClaim in
  verifyClaim (ofInput input) = true /\
  exists c', CreateClaim input request = (Ok (ofInput input), c') /\
    swarmHash c' = BytesToHash (keyOf 1) /\ tables (nd c') graphName = Some (Some (withClaim aClaim)).
Proof.
  intros input. assert (ofInput input = aClaim) as Hof by apply ofInput_claimInput.
  assert (verifyClaim aClaim = true) as Hv by (vm_compute; reflexivity).
  destruct (writesAlone_spec _ aClaim_alone) as (Hq & Ha & _). split; [rewrite Hof; exact Hv|].
  pose proof (CreateClaim_spec input request emptyDB (withClaim aClaim) (Ok tt) (quadsOf aClaim)
    (keyOf 1) [encodeDB (Some (withClaim aClaim))]
    (proj2 (elem_of_singleton graphName graphName) eq_refl) author_tables) as Hspec.
  rewrite Hof, Hv in Hspec. destruct Hspec as [_ Hspec].
  destruct (Hspec Hq Ha eq_refl) as (c' & Ht & Hc & Hs & _). exists c'. rewrite Hof.
  split; [exact Hc|]. split; [exact Hs|exact Ht].
Defined.
End witnesses.
