(* ===== verification/Query.v ===== *)
(** * A query for claims, from the client and back

    [Client.Claim] of [api/client.go] and the resolvers it reaches in
    [api/graphql.go]: [Graph], [Claim] and the fields of [ClaimResolver].  The
    vendored GraphQL package parses and executes the document; what the
    client relies on is that an execution answers with the fields the query
    names of what the resolvers return, and with an error when one fails. *)
From S2P Require Import Prelude Keccak Common Crypto Contract Registry Claim Sha1 Quad Sql Db GraphDriver Api.

(** ** The fields of a claim *)

(** [ClaimResolver]: [ID], [Issuer], [Subject], [Property], [Claim] and
    [Signature], under the names the query asks for. *)
Definition ClaimResolver (c : Claim) : json :=
  JObject [("id" : bytes, JString (Hash_Hex (Claim_ID c)));
           ("issuer" : bytes, JString (Address_Hex (Issuer c)));
           ("subject" : bytes, JString (Address_Hex (Claim.Subject c)));
           ("property" : bytes, JString (Property c));
           ("claim" : bytes, JString (claim c));
           ("signature" : bytes, JString (Encode (Signature c)))].

Section server.
Context {R D : Type} `{Secp256k1} `{!Registry R} `{!DPA D} `{SqliteCodec}.
Context (iteration : list ValueHash -> list ValueHash).

(** The graph is opened, and its claims that pass the filter are resolved. *)
Definition claimQuery (id : bytes) (flt : ClaimFilter) : prog (ctx (R := R) (D := D)) (list json) :=
  _ ← Api.Graph id;
  c ← get;
  cs ← lift (match tables (nd c) id with
             | None => Err notADatabase
             | Some None => Err noSuchTable
             | Some (Some d) => queryClaims iteration d flt
             end);
  mret (ClaimResolver <$> cs).
End server.

(** ** The client *)

Definition unexpectedType : error := ETyped "json.UnmarshalTypeError" [].

(** A member of an object, decoded into a string field: one that is missing or
    null leaves the field empty. *)
Definition stringField (l : list (bytes * json)) (k : bytes) : result bytes :=
  match member l k with
  | None | Some JNull => Ok []
  | Some (JString s) => Ok s
  | Some _ => Err unexpectedType
  end.

(** [Claim.UnmarshalJSON], from the JSON value on. *)
Definition decodeClaim (v : json) : result Claim :=
  match v with
  | JObject l =>
      i ← stringField l "id"; iss ← stringField l "issuer"; sub ← stringField l "subject";
      prop ← stringField l "property"; cl ← stringField l "claim"; sig ← stringField l "signature";
      Ok (Claim.UnmarshalJSON {| jsonID := i; jsonIssuer := iss; jsonSubject := sub; jsonProperty := prop;
                           jsonClaim := cl; jsonSignature := sig |})
  | _ => Err unexpectedType
  end.

(** A [[]*Claim]: null elements are nil pointers. *)
Fixpoint decodeClaims (l : list json) : result (list (option Claim)) :=
  match l with
  | [] => Ok []
  | JNull :: l => cs ← decodeClaims l; Ok (None :: cs)
  | v :: l => c ← decodeClaim v; cs ← decodeClaims l; Ok (Some c :: cs)
  end.

(** The data of the response, decoded into the client's struct: members that
    are missing leave it empty. *)
Definition decodeAnswer (data : json) : result (list (option Claim)) :=
  match data with
  | JObject l =>
      match member l "graph" with
      | None | Some JNull => Ok []
      | Some (JObject g) =>
          match member g "claim" with
          | None | Some JNull => Ok []
          | Some (JArray cs) => decodeClaims cs
          | Some _ => Err unexpectedType
          end
      | Some _ => Err unexpectedType
      end
  | JNull => Ok []
  | _ => Err unexpectedType
  end.

(** [Client.Claim], from the HTTP answer on. *)
Definition ClientClaim (answer : nat * option Response) : result (list (option Claim)) :=
  r ← Do answer; decodeAnswer (Data r).

(** ** The way there and back *)

Lemma decodeClaim_resolver c : decodeClaim (ClaimResolver c) = Ok c.
Proof.
  change (Ok (Claim.UnmarshalJSON (Claim.MarshalJSON c)) = Ok c).
  destruct c. unfold Claim.UnmarshalJSON, Claim.MarshalJSON, HexToID. simpl. by autorewrite with hex.
Qed.

Lemma decodeClaims_resolvers cs : decodeClaims (ClaimResolver <$> cs) = Ok (Some <$> cs).
Proof.
  induction cs as [|c cs IH]; [done|]. cbn [fmap list_fmap decodeClaims].
  change ((c' ← decodeClaim (ClaimResolver c); cs' ← decodeClaims (ClaimResolver <$> cs); Ok (Some c' :: cs'))
          = Ok (Some c :: (Some <$> cs))).
  rewrite decodeClaim_resolver. cbn [mbind result_bind]. by rewrite IH.
Qed.

Section roundtrip.
Context {R D : Type} `{Secp256k1} `{!Registry R} `{!DPA D} `{SqliteCodec}.
Context (iteration : list ValueHash -> list ValueHash).
Abbreviation context := (ctx (R := R) (D := D)).

(** A request: the variables of the query [GetClaim]. *)
Context (Exec : (bytes * ClaimFilter) -> node R D * Hash -> Response * (node R D * Hash)).

(** What is documented of the execution of this query. *)
Definition answersQueries : Prop := forall id flt n h,
  match claimQuery iteration id flt {| nd := n; swarmHash := h |} with
  | (Ok vs, c) => exists ext, Exec (id, flt) (n, h) =
      ({| Data := JObject [("graph" : bytes, JObject [("claim" : bytes, JArray vs)])]; Errors := 0;
          Extensions := ext |}, (nd c, swarmHash c))
  | (Err _, c) => exists data k ext, Exec (id, flt) (n, h) =
      ({| Data := data; Errors := S k; Extensions := ext |}, (nd c, swarmHash c))
  | (Panic _, _) => True
  end.

Lemma setField_no_panic d cur vs p : setField d cur vs <> Panic p.
Proof.
  revert cur. induction vs as [|h vs IH]; intros cur; [done|]. cbn [setField].
  destruct (NameOf d h) as [v|]; [|apply IH]. by destruct (convert v); [apply IH|].
Qed.

Lemma result_bind_panic {A B} (r : result A) (k : A -> result B) p :
  (forall q, r <> Panic q) -> (forall a, k a <> Panic p) -> (x ← r; k x) <> Panic p.
Proof. intros Hr Hk. destruct r as [a|e|q]; [apply Hk|done|by destruct (Hr q)]. Qed.

Lemma queryClaims_no_panic d flt p : queryClaims iteration d flt <> Panic p.
Proof.
  unfold queryClaims. apply result_bind_panic; [|done]. generalize (filter (fun x => passes d flt x && isClaim d x = true)
    (iteration (elements (dom (nodes d))))). intros xs q. revert q.
  induction xs as [|x xs IH]; intros q; [done|]. cbn [loadAll].
  apply result_bind_panic; [|intros c; apply result_bind_panic; [apply IH|done]].
  intros q'. unfold loadClaim, loadField.
  repeat (apply result_bind_panic; [intros ?; apply setField_no_panic|intros ?]). done.
Qed.

(** The graph's resolver opens the graph, and then its claims are queried. *)
Lemma claimQuery_run id flt (n n' : node R D) h d :
  Get id n = (Ok tt, n') -> tables n' id = Some (Some d) ->
  claimQuery iteration id flt {| nd := n; swarmHash := h |} =
    (match queryClaims iteration d flt with Ok cs => Ok (ClaimResolver <$> cs) | Err e => Err e | Panic p => Panic p end,
     {| nd := n'; swarmHash := h |}).
Proof.
  intros Hg Ht. set (c := {| nd := n; swarmHash := h |}). set (c' := {| nd := n'; swarmHash := h |}).
  assert (Api.Graph id c = (Ok id, c')) as Hr.
  { unfold Api.Graph, onNode, zoom. rewrite (bind_ok _ _ c tt c'); [done|]. cbn [nd c]. by rewrite Hg. }
  unfold claimQuery. rewrite (bind_ok _ _ _ _ _ Hr), (bind_ok _ _ c' c' c') by reflexivity. cbn [nd c'].
  rewrite Ht. unfold lift, mbind, prog_bind. by destruct (queryClaims iteration d flt).
Qed.

(** What the client makes of the answer. *)
Lemma client_answer id flt (n n' : node R D) d :
  answersQueries -> Get id n = (Ok tt, n') -> tables n' id = Some (Some d) ->
  let '(answer, n1) := ServeHTTP Exec (Ok (id, flt)) n in
  n1 = n' /\
  match queryClaims iteration d flt with
  | Ok cs => ClientClaim answer = Ok (Some <$> cs)
  | Err _ => exists e, ClientClaim answer = Err e
  | Panic _ => False
  end.
Proof.
  intros Hexec Hg Ht. unfold ServeHTTP. specialize (Hexec id flt n (zero_array 32)).
  rewrite (claimQuery_run _ _ _ _ _ _ Hg Ht) in Hexec. cbn [nd swarmHash] in Hexec.
  destruct (queryClaims iteration d flt) as [cs|e|p] eqn:Hq.
  - destruct Hexec as [ext ->]. split; [done|]. unfold ClientClaim, Do. cbn [negb Nat.eqb Nat.ltb Nat.leb Errors mbind result_bind Data].
    unfold decodeAnswer. cbn [member]. rewrite !decide_True by done. apply decodeClaims_resolvers.
  - destruct Hexec as (data & k & ext & ->). split; [done|]. by eexists.
  - by destruct (queryClaims_no_panic d flt p).
Qed.

(** The client reads what the graph holds: on an open graph, [Client.Claim]
    returns exactly the claims that the query selects, in their order and as
    they were written, each through the fields of its resolver, JSON and
    back; when loading them fails the client gets an error; either way the
    node is as it was. *)
Theorem client_gets_claims (id : bytes) (flt : ClaimFilter) (n : node R D) (d : db) :
  answersQueries -> id ∈ stores n -> tables n id = Some (Some d) ->
  let '(answer, n') := ServeHTTP Exec (Ok (id, flt)) n in
  n' = n /\
  match queryClaims iteration d flt with
  | Ok cs => ClientClaim answer = Ok (Some <$> cs)
  | Err _ => exists e, ClientClaim answer = Err e
  | Panic _ => False
  end.
Proof. intros Hexec Hin. by apply client_answer, Get_cached. Qed.
End roundtrip.

(** ** Witness *)

Section witnesses.
Import Toy SmallStore Digits.

(** An execution that does what is documented, and a node whose graph holds
    one claim. *)
Definition execute (req : bytes * ClaimFilter) (s : node Test.registry (list bytes) * Hash) :
    Response * (node Test.registry (list bytes) * Hash) :=
  match claimQuery (fun l => l) (fst req) (snd req) {| nd := fst s; swarmHash := snd s |} with
  | (Ok vs, c) => ({| Data := JObject [("graph" : bytes, JObject [("claim" : bytes, JArray vs)])]; Errors := 0;
                      Extensions := [] |}, (nd c, swarmHash c))
  | (_, c) => ({| Data := JNull; Errors := 1; Extensions := [] |}, (nd c, swarmHash c))
  end.
Definition holder : node Test.registry (list bytes) :=
  setFiles {| names := {[DbPath graphName := 0]}; contents := {[0 := encodeDB (Some (withClaim aClaim))]};
              freshFile := 1 |} author.

Lemma holder_tables : tables holder graphName = Some (Some (withClaim aClaim)).
Proof.
  unfold tables, content, holder, setFiles. cbn [files names contents]. rewrite lookup_singleton_eq.
  cbn [mbind option_bind]. rewrite lookup_singleton_eq. apply decode_encode.
Qed.

Lemma execute_answers : answersQueries (fun l => l) execute.
Proof.
  intros id flt n h. unfold execute. cbn [fst snd].
  destruct (claimQuery (fun l => l) id flt _) as [[vs|e|p] c]; [by exists []|by exists JNull, 0, []|exact I].
Qed.

Definition held : result (list Claim) := queryClaims (fun l => l) (withClaim aClaim) (byProperty "name").
Definition exchange := ServeHTTP execute (Ok (graphName, byProperty "name")) holder.

Lemma client_gets_claims_witness :
  snd exchange = holder /\ forall cs, held = Ok cs -> ClientClaim (fst exchange) = Ok (Some <$> cs).
Proof.
  pose proof (client_gets_claims (fun l => l) execute graphName (byProperty "name") holder (withClaim aClaim)) as H.
  fold held in H. fold exchange in H. destruct exchange as [answer n'].
  destruct H as [Hn Ha].
  - exact execute_answers.
  - exact (proj2 (elem_of_singleton graphName graphName) eq_refl).
  - exact holder_tables.
  - split; [exact Hn|]. intros cs Hcs. rewrite Hcs in Ha. exact Ha.
Defined.
End witnesses.
