(* ===== verification/Travel.v ===== *)
(** * The way of a claim

    What the parts of the program promise together to those who make claims
    and those who read them: a claim created at one node through [Api], its
    graph published through the registry, is what a client of another node of
    [Network] reads through [Query]. *)
From S2P Require Import Prelude Keccak Common Crypto Contract Registry Claim Sha1 Quad Sql Db GraphDriver Network Api Query.

Section travel.
Context {R D : Type} `{Secp256k1} `{!Registry R} `{!RegistryLaws R} `{!DPA D} `{!DPALaws D}
  `{!SqliteCodec} `{!SqliteCodecLaws}.
Implicit Types (n : node R D) (c : ctx (R := R) (D := D)) (s : network R D).

(** ** The resolvers keep what the driver keeps *)

Definition ctxKeeping {A} (m : prog (ctx (R := R) (D := D)) A) : Prop :=
  forall c r c', m c = (r, c') -> keeps (nd c) (nd c').

Lemma ctxKeeping_bind {A B} (m : prog ctx A) (k : A -> prog ctx B) :
  ctxKeeping m -> (forall a, ctxKeeping (k a)) -> ctxKeeping (m ≫= k).
Proof.
  intros Hm Hk c r c'. unfold mbind, prog_bind. destruct (m c) as [[a|e|p] c1] eqn:E.
  - intros H2. apply Hm in E. apply Hk in H2. destruct E as (V1 & S1 & F1), H2 as (V2 & S2 & F2).
    split_and!; [intros a'; by rewrite V2|auto..].
  - intros [= _ <-]. by eapply Hm.
  - intros [= _ <-]. by eapply Hm.
Qed.

Lemma onNode_keeping {A} (m : prog (node R D) A) : keeping m -> ctxKeeping (onNode m).
Proof.
  intros Hm c r c'. unfold onNode, zoom. destruct (m (nd c)) as [x n'] eqn:E. intros [= _ <-].
  cbn. by eapply Hm.
Qed.

Lemma pure_keeping {A} (m : prog ctx A) : (forall c, nd (snd (m c)) = nd c) -> ctxKeeping m.
Proof. intros Hm c r c' E. specialize (Hm c). rewrite E in Hm. cbn in Hm. rewrite Hm. by split_and!. Qed.

Lemma Graph_keeping id : ctxKeeping (Api.Graph id).
Proof. apply ctxKeeping_bind; [apply onNode_keeping, Get_keeping|intros _; by apply pure_keeping]. Qed.

Lemma lift_keeping {A} (r : result A) : keeping (R := R) (D := D) (lift r).
Proof. intros n x n' [= _ <-]. by split_and!. Qed.

Lemma writeClaim_keeping id cl : keeping (writeClaim (R := R) (D := D) id cl).
Proof.
  unfold writeClaim. destruct (negb _).
  - intros n r n' [= _ <-]. by split_and!.
  - apply keeping_bind; [apply Get_keeping|intros _]. apply keeping_bind; [apply lift_keeping|intros qs].
    apply withTables_keeping.
Qed.

(** ** A claim that was created *)

(** When [CreateClaim] succeeds the claim is verified, its quads are in the
    node's graph, and the file with them is in storage under the hash that is
    reported. *)
Lemma CreateClaim_ok (input : ClaimInput) c cl c' d :
  CreateClaim input c = (Ok cl, c') ->
  inGraph input ∈ stores (nd c) -> tables (nd c) (inGraph input) = Some (Some d) ->
  cl = ofInput input /\ verifyClaim cl = true /\ keeps (nd c) (nd c') /\
  exists qs d', WriteAsQuads (Claim.Quad cl) = Ok qs /\ AddQuadSet qs d = (Ok tt, d') /\
    swarmHash c' <> zeroHash /\
    exists data, Retrieve (swarm (nd c')) (swarmHash c') = completeReader data /\ decodeDB data = Some (Some d').
Proof.
  intros Hc Hin Ht.
  assert (keeps (nd c) (nd c')) as Hk.
  { assert (ctxKeeping (CreateClaim input)) as Hk; [|by eapply Hk].
    apply ctxKeeping_bind; [apply onNode_keeping, writeClaim_keeping|intros _].
    apply ctxKeeping_bind; [apply onNode_keeping, Commit_keeping|intros h].
    apply ctxKeeping_bind; [by apply pure_keeping|intros _; by apply pure_keeping]. }
  unfold CreateClaim in Hc. apply bind_ok_inv in Hc as (u & c1 & Hw & Hc).
  apply bind_ok_inv in Hc as (hash & c2 & Hcm & Hc). injection Hc as <- <-.
  unfold onNode, zoom in Hw, Hcm. cbn [swarmHash nd].
  destruct (writeClaim (inGraph input) (ofInput input) (nd c)) as [rw n1] eqn:Ew. injection Hw as -> <-.
  cbn [nd setNode] in Hcm. destruct (Commit (inGraph input) n1) as [rc n2] eqn:Ec. injection Hcm as -> <-.
  cbn [nd setNode] in *. split; [done|]. unfold writeClaim in Ew. destruct (verifyClaim (ofInput input)); [|done].
  split; [done|]. split; [exact Hk|]. cbn [negb] in Ew.
  rewrite (bind_ok _ _ _ _ _ (Get_cached _ _ Hin)) in Ew.
  apply bind_ok_inv in Ew as (qs & n1' & Hqs & Ew). unfold lift in Hqs. injection Hqs as Hqs <-.
  destruct (onStore_ok (inGraph input) (AddQuadSet qs) (nd c) d Ht) as (f' & Ho & Hcont & _).
  rewrite Ho in Ew. destruct (AddQuadSet qs d) as [ra d'] eqn:Ha. cbn [fst snd] in Ew, Hcont.
  injection Ew as -> <-. exists qs, d'. split; [done|]. destruct u. split; [done|].
  destruct (Commit_ok _ _ _ _ Ec) as (data & key & sw & Hdata & Hst & -> & ->).
  destruct (Store_Retrieve _ _ _ _ Hst) as (_ & Hnz & Hret). split; [done|]. exists data. split; [exact Hret|].
  cbn [files setFiles] in Hdata. rewrite Hcont in Hdata. injection Hdata as <-. apply decode_encode.
Qed.

(** ** A graph that was published *)

(** When the [setGraph] mutation succeeds, one entry of the registry is the
    hash, that of the signer, and what is in storage stays. *)
Lemma SetGraph_ok (graph : bytes) (hash : Hash) (sig : bytes) c g c' :
  Api.SetGraph (setGraphInput graph hash sig) c = (Ok g, c') ->
  (exists a, writesFor hash sig a /\
    forall b, view (reg (nd c')) b = if decide (b = a) then hash else view (reg (nd c)) b) /\
  (forall h x, Retrieve (swarm (nd c)) h = completeReader x -> Retrieve (swarm (nd c')) h = completeReader x) /\
  (fsOk (files (nd c)) -> fsOk (files (nd c'))).
Proof.
  unfold Api.SetGraph, setGraphInput. cbn [sgHash sgSignature sgID]. cbv zeta.
  assert (HexToHash (Hash_Hex hash) = hash) as -> by apply HexToHash_Hex. rewrite Decode_Encode. intros Hs.
  apply bind_ok_inv in Hs as (u & c1 & Hset & Hs). apply bind_ok_inv in Hs as (u' & c2 & Hh & Hs).
  unfold onNode, zoom, GraphDriver.SetGraph, zoom in Hset.
  destruct (Registry.SetGraph hash sig (reg (nd c))) as [res r] eqn:E. injection Hset as -> <-. destruct u.
  unfold setSwarmHash, modify in Hh. injection Hh as _ <-.
  destruct (Graph_keeping _ _ _ _ Hs) as (Hv & Hsto & Hf). cbn [nd setNode] in Hv, Hsto, Hf.
  destruct (SetGraph_view _ _ _ _ E) as (a & Ha & Hview). split; [|by split].
  exists a. split; [exact Ha|]. intros b. rewrite Hv. apply Hview.
Qed.

(** ** From the issuer to the reader *)

Context (iteration : list ValueHash -> list ValueHash).
Context (Exec : (bytes * ClaimFilter) -> node R D * Hash -> Response * (node R D * Hash)).

(** The tables of a graph with a claim added. *)
Definition extended (cl : Claim) (d : db) : db := snd (AddQuadSet (quadsOf cl) d).

(** Every other record that the query selects in [d] loads. *)
Definition othersLoad (cl : Claim) (flt : ClaimFilter) (d : db) : Prop := forall y,
  y <> claimNode cl -> passes d flt y = true -> isClaim d y = true -> is_ok (loadClaim iteration d y) = true.

End travel.

(** ** Witness *)

Section witnesses.
Import Toy SmallStore Digits.

(** The author's node and one that has nothing: a claim is created at the
    first, its graph is published, somebody posts something that is no
    signature, and a client asks the second. *)
Definition twoNodes : network Test.registry (list bytes) :=
  {| nReg := Test.NewTestRegistry; nStore := [];
     locals i := if decide (i = 0) then {| lFiles := files author; lOpened := opened author; lStores := stores author |}
                 else {| lFiles := noFiles; lOpened := ∅; lStores := ∅ |} |}.
Definition noise : list (nat * action) := [(1, ASet published [])].
Definition stored : list bytes := [encodeDB (Some (withClaim aClaim))].

Lemma author_ok : fsOk (files author).
Proof. exact (threeNodes_ok 0). Qed.

Lemma twoNodes_ok : filesOk twoNodes.
Proof. intros i. cbn [locals twoNodes]. destruct (decide (i = 0)); [exact author_ok|exact noFiles_ok]. Qed.

Lemma noise_leaves : untouchedBy owner noise.
Proof.
  intros i hash sig Hin. apply (history_leaves i hash sig). unfold history, noise in *.
  by apply elem_of_cons in Hin as [->|[]%elem_of_nil]; do 2 apply list_elem_of_further; apply list_elem_of_here.
Qed.

Lemma store_first (x : bytes) : Store x ([] : list bytes) = (Ok (keyOf 1), [x]).
Proof. reflexivity. Qed.

(** The owner publishes what the node stored. *)
Lemma author_publishes (f : FS) :
  Api.SetGraph (setGraphInput graphName published (sigOf published))
    {| nd := setSwarm stored (setFiles f author); swarmHash := published |} =
  (Ok graphName, {| nd := setReg publishedReg (setSwarm stored (setFiles f author)); swarmHash := published |}).
Proof.
  assert (signer published (sigOf published) = Ok owner) as Hs by (vm_compute; reflexivity).
  unfold Api.SetGraph, setGraphInput. cbn [sgHash sgSignature sgID]. cbv zeta.
  assert (HexToHash (Hash_Hex published) = published) as -> by apply HexToHash_Hex. rewrite Decode_Encode.
  unfold onNode, zoom, GraphDriver.SetGraph, zoom. unfold mbind, prog_bind. cbn [nd reg setSwarm setFiles author].
  unfold publishedReg, Registry.SetGraph, Test.testRegistry, Test.SetGraph. rewrite Hs.
  cbn [fst snd setSwarmHash modify setNode nd]. unfold Api.Graph, onNode, zoom, mbind, prog_bind. cbn [nd].
  rewrite Get_cached by exact (proj2 (elem_of_singleton graphName graphName) eq_refl). reflexivity.
Qed.

(** A signature that is none changes nothing. *)
Lemma noise_run (x : network Test.registry (list bytes)) : run noise x = Network.setNode 1 (nodeOf 1 x) x.
Proof. reflexivity. Qed.

Definition reading (n : node Test.registry (list bytes)) :=
  ServeHTTP execute (Ok (graphName, byProperty "name")) (nodeOf 1 (run noise (Network.setNode 0 n twoNodes))).

End witnesses.
