(* ===== verification/Server.v ===== *)
(** * The node's server

    The HTTP server of [kord/http.go], the root dapp and the life of the
    service of [kord/meta.go], and the remote API of [kord/api.go], on the
    graph driver of [GraphDriver].  The dapp's record is written and read
    through the vendored package [schema] as claims are in [Api].  Swarm's
    manifests, the CORS middleware and the listener are parameters. *)
From S2P Require Import Prelude Keccak Common Crypto Uri Contract Registry Claim Sha1 Quad Sql Db GraphDriver Api.

(** ** Dapps *)

(** [dapp.Dapp]: its IRI and the hash of its manifest. *)
Record Dapp := { dappID : bytes; ManifestHash : bytes }.

Definition manifestPredicate : bytes := "dapp:manifestHash".

Definition manifestQuad (d : Dapp) : Quad :=
  triple (IRI (dappID d)) (IRI manifestPredicate) (String (ManifestHash d)).

(** [schema.WriteAsQuads] on a [Dapp], which has no type constraint. *)
Definition dappQuads (d : Dapp) : result (list Quad) :=
  if bool_decide (ManifestHash d = []) then Err (ErrReqFieldNotSet "ManifestHash") else Ok [manifestQuad d].

Definition errNotFound : error := EVar "schema.errNotFound".
Definition errRequiredFieldIsMissing : error := EVar "schema.errRequiredFieldIsMissing".

(** [schema.LoadPathTo] into one [Dapp], from a path of one node: the node is
    asked for the manifest; when there is none, the error tells a node that
    lacks the field from a node that is missing. *)
Definition loadDapp (iteration : list ValueHash -> list ValueHash) (d : db) (x : ValueHash) : result Dapp :=
  if bool_decide (objects d x (IRI manifestPredicate) = [])
  then Err (if bool_decide (is_Some (nodes d !! x)) then errRequiredFieldIsMissing else errNotFound)
  else i ← setField d [] [x]; m ← loadField iteration d x manifestPredicate;
       Ok {| dappID := i; ManifestHash := m |}.

(** ** The service *)

Record Config := { HTTPAddr : bytes; HTTPPort : Z; RootDapp : bytes; CORSDomains : list bytes }.
Definition DefaultConfig : Config :=
  {| HTTPAddr := "localhost"; HTTPPort := 5000; RootDapp := []; CORSDomains := [] |}.

Section service.
Context {R D : Type} `{Secp256k1} `{!Registry R} `{!DPA D} `{SqliteCodec}.
Context (iteration : list ValueHash -> list ValueHash).

(** The service: its node, the dapp its server has, and the address of the
    HTTP server once there is one. *)
Record kord := { knode : node R D; rootDapp : option Dapp; srv : option bytes }.
Definition setKNode (n : node R D) (k : kord) : kord := {| knode := n; rootDapp := rootDapp k; srv := srv k |}.
Definition onKNode {A} (m : prog (node R D) A) : prog kord A := zoom knode setKNode m.

Definition setDapp (d : Dapp) : prog kord unit :=
  modify (fun k => {| knode := knode k; rootDapp := Some d; srv := srv k |}).

(** A read of the tables of an open store. *)
Definition query {A} (name : bytes) (f : db -> result A) : prog (node R D) A := fun n =>
  (match tables n name with
   | None => Err notADatabase
   | Some None => Err noSuchTable
   | Some (Some d) => f d
   end, n).

Definition setRootDapp (dappURI : bytes) : prog kord unit :=
  u ← lift (Parse dappURI);
  let name := Address_Hex (ID u) in
  _ ← onKNode (Get name);
  d ← onKNode (query name (fun t => loadDapp iteration t (HashOf (Some (IRI dappURI)))));
  setDapp d.

(** [Start]: [listen] is the outcome of [net.Listen], with the address it
    listens on. *)
Definition Start (cfg : Config) (listen : result bytes) : prog kord unit :=
  _ ← (if bool_decide (RootDapp cfg = []) then mret tt else setRootDapp (RootDapp cfg));
  addr ← lift listen;
  modify (fun k => {| knode := knode k; rootDapp := rootDapp k; srv := Some addr |}).

End service.
Arguments kord : clear implicits.

(** [PublicAPI] of kord/api.go; the client of kord/client.go calls these through
    JSON-RPC. *)
Module PublicAPI.
Section api.
Context {R D : Type} `{Secp256k1} `{!Registry R} `{!DPA D} `{SqliteCodec}.
Context (iteration : list ValueHash -> list ValueHash).

Definition CreateGraph (name : bytes) : prog (kord R D) Hash := onKNode (Create name).
Definition CommitGraph (name : bytes) : prog (kord R D) Hash := onKNode (Commit name).
Definition SetGraph (hash : Hash) (sig : bytes) : prog (kord R D) unit :=
  onKNode (zoom reg setReg (Registry.SetGraph hash sig)).
Definition SetRootDapp (dappURI : bytes) : prog (kord R D) unit := setRootDapp iteration dappURI.
Definition HttpAddr : prog (kord R D) bytes :=
  k ← get; match srv k with
           | Some addr => mret addr
           | None => gopanic "invalid memory address or nil pointer dereference"
           end.
Definition ApplyDeltas (name : bytes) (ds : list Delta) (opts : IgnoreOpts) : prog (kord R D) Hash :=
  onKNode (GraphDriver.ApplyDeltas name ds opts).
End api.
End PublicAPI.

(** ** HTTP *)

(** [path.Clean] on a rooted path, as the list of its elements: empty elements
    and dots go, two dots take the element before them. *)
Definition cleanElements (els : list bytes) : list bytes :=
  reverse (foldl (fun out e =>
    if bool_decide (e = [] \/ e = ["."%char]) then out
    else if bool_decide (e = ["."; "."]%char) then tail out
    else e :: out) [] els).

(** The elements of a path: the text between its slashes. *)
Fixpoint elements_of (p : bytes) : list bytes :=
  match p with
  | [] => [[]]
  | c :: p => match elements_of p with
              | e :: es => if bool_decide (c = "/"%char) then [] :: e :: es else (c :: e) :: es
              | [] => [[c]]
              end
  end.

Definition joinPath (els : list bytes) : bytes := els ≫= fun e => "/"%char :: e.

(** [cleanPath] of net/http. *)
Definition cleanPath (p : bytes) : bytes :=
  match p with
  | [] => "/"
  | c :: _ =>
      let q := if bool_decide (c = "/"%char) then p else "/"%char :: p in
      let np := match cleanElements (elements_of q) with [] => "/" : bytes | els => joinPath els end in
      if bool_decide (lastByte p = "/"%char) && negb (bool_decide (np = "/")) then np ++ ["/"%char] else np
  end.

(** Where the mux of [NewServer] sends a path: the patterns that end in a slash
    match what they begin, and redirect their name without the slash. *)
Inductive route := ToSwarm | ToAPI | ToDapp | Moved (path : bytes).
#[global] Instance route_eq_dec : EqDecision route.
Proof. solve_decision. Defined.

Definition trees : list bytes := ["/bzz:/" : bytes; "/bzzr:/" : bytes; "/bzz-raw:/" : bytes].

Definition muxHandler (p : bytes) : route :=
  if existsb (HasPrefix p) trees then ToSwarm
  else if existsb (fun t => bool_decide (p ++ ["/"%char] = t)) trees then Moved (p ++ ["/"%char])
  else if bool_decide (p = "/api/graphql") then ToAPI
  else ToDapp.

Definition mux (p : bytes) : route :=
  let q := cleanPath p in if bool_decide (q = p) then muxHandler p else Moved q.

(** What Swarm answers for a manifest's key and a path. *)
Record entry := { eReader : option reader; eType : bytes; eStatus : Z; eErr : option error }.

Inductive reply := Allow | NotFound | Redirect (path : bytes) | InternalError (e : error)
  | Content (contentType : bytes) (r : reader) | Delegate (to : route) (path : bytes).

Definition StatusNotFound : Z := 404.
Definition StatusMultipleChoices : Z := 300.

(** [strings.TrimLeft(s, "/")]. *)
Fixpoint trimSlashes (s : bytes) : bytes :=
  match s with
  | c :: t => if bool_decide (c = "/"%char) then trimSlashes t else s
  | [] => []
  end.

Definition ServeDapp (swarmGet : bytes -> bytes -> entry) (dapp : option Dapp) (path : bytes) : result reply :=
  match dapp with
  | None => Ok NotFound
  | Some d =>
      if bool_decide (path = []) then Ok (Redirect "/")
      else
        let e := swarmGet (Hex2Bytes (ManifestHash d)) (trimSlashes path) in
        match eErr e with
        | Some err => if (eStatus e =? StatusNotFound)%Z then Ok NotFound else Ok (InternalError err)
        | None =>
            match eReader e with
            | None => Panic "invalid memory address or nil pointer dereference"
            | Some r => match rSize r with
                        | inr _ => Ok (Content (eType e) r)
                        | inl _ => Ok NotFound
                        end
            end
        end
  end.

(** [Server.ServeHTTP]. *)
Definition serve (swarmGet : bytes -> bytes -> entry) (dapp : option Dapp) (meth path : bytes) : result reply :=
  if bool_decide (meth = "OPTIONS") then Ok Allow
  else match mux path with
       | ToDapp => ServeDapp swarmGet dapp path
       | Moved q => Ok (Redirect q)
       | to => Ok (Delegate to path)
       end.

(** ** Cleaned paths *)

(** The elements [path.Clean] leaves: not empty, not dots, without slashes. *)
Definition properElement (e : bytes) : Prop :=
  e <> [] /\ e <> ["."%char] /\ e <> ["."; "."]%char /\ "/"%char ∉ e.

Lemma elements_of_cons c p : c <> "/"%char -> exists e es,
  elements_of p = e :: es /\ elements_of (c :: p) = (c :: e) :: es.
Proof.
  intros Hc. destruct (elements_of p) as [|e es] eqn:E.
  - destruct p as [|d p]; [done|]. simpl in E. destruct (elements_of p); [done|]. by case_bool_decide.
  - exists e, es. simpl. rewrite E. by rewrite bool_decide_false.
Qed.

Lemma elements_of_slash p : elements_of ("/"%char :: p) = [] :: elements_of p.
Proof.
  simpl. destruct (elements_of p) as [|e es] eqn:E; [|done].
  destruct p as [|d p]; [done|]. simpl in E. destruct (elements_of p); [done|]. by case_bool_decide.
Qed.

Lemma elements_of_app e p :
  "/"%char ∉ e -> elements_of (e ++ "/"%char :: p) = e :: elements_of p.
Proof.
  induction e as [|c e IH]; intros He; [apply elements_of_slash|].
  apply not_elem_of_cons in He as [Hc He]. cbn [app].
  destruct (elements_of_cons c (e ++ "/"%char :: p)) as (x & xs & E1 & E2); [congruence|].
  rewrite IH in E1 by done. injection E1 as <- <-. exact E2.
Qed.

Lemma elements_of_single e : "/"%char ∉ e -> elements_of e = [e].
Proof.
  induction e as [|c e IH]; intros He; [done|]. apply not_elem_of_cons in He as [Hc He].
  destruct (elements_of_cons c e) as (x & xs & E1 & E2); [congruence|].
  rewrite IH in E1 by done. by injection E1 as <- <-.
Qed.

Lemma elements_of_join els tl :
  Forall properElement els ->
  elements_of (joinPath els ++ "/"%char :: tl) = [] :: els ++ elements_of tl.
Proof.
  intros Hall. induction Hall as [|e els (_ & _ & _ & He) Hall IH]; [apply elements_of_slash|].
  cbn [joinPath mbind list_bind app]. fold (joinPath els).
  rewrite elements_of_slash. f_equal. destruct els as [|e' els].
  - cbn [joinPath mbind list_bind app]. rewrite app_nil_r. by apply elements_of_app.
  - rewrite <- app_assoc. cbn [joinPath mbind list_bind app] in *. fold (joinPath els) in *.
    rewrite elements_of_app by done. f_equal. rewrite elements_of_slash in IH. by injection IH.
Qed.

Lemma elements_of_joined els :
  Forall properElement els -> els <> [] -> elements_of (joinPath els) = [] :: els.
Proof.
  intros Hall. induction Hall as [|e els (_ & _ & _ & He) Hall IH]; [done|]. intros _.
  cbn [joinPath mbind list_bind app]. fold (joinPath els). rewrite elements_of_slash. f_equal.
  destruct els as [|e' els]; [rewrite app_nil_r; by apply elements_of_single|].
  specialize (IH ltac:(done)). cbn [joinPath mbind list_bind app] in *. fold (joinPath els) in *.
  rewrite elements_of_app by done. f_equal. rewrite elements_of_slash in IH. by injection IH.
Qed.

Lemma elements_of_no_slash p : Forall (fun e => "/"%char ∉ e) (elements_of p).
Proof.
  induction p as [|c p IH]; [repeat constructor; by apply not_elem_of_nil|].
  destruct (decide (c = "/"%char)) as [->|Hc].
  - rewrite elements_of_slash. constructor; [by apply not_elem_of_nil|done].
  - destruct (elements_of_cons c p Hc) as (e & es & E1 & ->). rewrite E1 in IH.
    apply Forall_cons in IH as [He IH]. constructor; [|done]. apply not_elem_of_cons. split; [congruence|done].
Qed.

(** One element of the fold of [cleanElements]. *)
Definition cleanStep (out : list bytes) (e : bytes) : list bytes :=
  if bool_decide (e = [] \/ e = ["."%char]) then out
  else if bool_decide (e = ["."; "."]%char) then tail out
  else e :: out.

Lemma cleanElements_proper els :
  Forall (fun e => "/"%char ∉ e) els -> Forall properElement (cleanElements els).
Proof.
  intros Hels. apply Forall_reverse.
  assert (forall out, Forall properElement out -> Forall properElement (foldl cleanStep out els)) as H;
    [|by apply H].
  induction Hels as [|e els He _ IH]; intros out Hout; [done|]. simpl. apply IH. unfold cleanStep.
  case_bool_decide as H1; [done|]. case_bool_decide as H2; [by apply Forall_tail|].
  constructor; [|done]. repeat split; naive_solver.
Qed.

Lemma cleanElements_done els : Forall properElement els -> cleanElements els = els.
Proof.
  intros Hels. unfold cleanElements. fold cleanStep.
  assert (forall out, foldl cleanStep out els = reverse els ++ out) as H.
  { induction Hels as [|e els (H1 & H2 & H3 & _) _ IH]; intros out; [done|]. simpl. rewrite IH.
    unfold cleanStep. rewrite !bool_decide_false by naive_solver.
    rewrite reverse_cons. by rewrite <- app_assoc. }
  change (reverse (foldl cleanStep [] els) = els). rewrite H, app_nil_r. apply reverse_involutive.
Qed.

Lemma cleanElements_nil els : cleanElements ([] :: els) = cleanElements els.
Proof. unfold cleanElements. cbn [foldl]. by rewrite bool_decide_true by (by left). Qed.

Lemma cleanElements_snoc_nil els : cleanElements (els ++ [[]]) = cleanElements els.
Proof. unfold cleanElements. rewrite foldl_app. done. Qed.

Lemma joinPath_last els : Forall properElement els -> els <> [] -> lastByte (joinPath els) <> "/"%char.
Proof.
  intros Hall Hne. destruct els as [|e els _] using rev_ind; [done|].
  apply Forall_app in Hall as [_ [(He & _ & _ & Hs) _]%Forall_cons].
  unfold joinPath. rewrite bind_app. cbn [mbind list_bind]. rewrite app_nil_r.
  destruct e as [|c e _] using rev_ind; [done|].
  rewrite (app_comm_cons e), app_assoc. rewrite lastByte_app. intros ->. set_solver.
Qed.

Lemma joinPath_not_root els : Forall properElement els -> els <> [] -> joinPath els <> "/".
Proof.
  intros Hall Hne E. destruct Hall as [|e els (He & _) _]; [done|]. cbn [joinPath mbind list_bind] in E.
  by destruct e.
Qed.

Lemma joinPath_rooted els : els <> [] -> exists t, joinPath els = "/"%char :: t.
Proof. destruct els as [|e els]; [done|]. by eexists. Qed.

Lemma cleanPath_shape p :
  cleanPath p = "/" \/
  exists els, Forall properElement els /\ els <> [] /\
    (cleanPath p = joinPath els \/ cleanPath p = joinPath els ++ ["/"%char]).
Proof.
  destruct p as [|c p]; [by left|]. unfold cleanPath. cbv zeta.
  set (els := cleanElements _).
  assert (Forall properElement els) as Hels by (apply cleanElements_proper, elements_of_no_slash).
  destruct els as [|e els]; [left; by rewrite andb_false_r|].
  right. exists (e :: els). split_and!; [done..|]. destruct (_ && _); [by right|by left].
Qed.

Lemma cleanPath_idem p : cleanPath (cleanPath p) = cleanPath p.
Proof.
  destruct (cleanPath_shape p) as [->|(els & Hels & Hne & Hp)]; [reflexivity|].
  destruct (joinPath_rooted els Hne) as [t Ht].
  assert (forall q tl, q = joinPath els ++ tl -> cleanElements (elements_of q) = els ->
    cleanPath q = if bool_decide (lastByte q = "/"%char) then joinPath els ++ ["/"%char] else joinPath els) as Hc.
  { intros q tl -> Hq. rewrite Ht in *. cbn [app] in *. unfold cleanPath.
    rewrite (bool_decide_true ("/"%char = "/"%char)) by done.
    rewrite Hq. destruct els as [|e els]; [done|]. rewrite <- Ht. cbv zeta.
    rewrite (bool_decide_false (joinPath _ = _)) by (by apply joinPath_not_root).
    rewrite andb_true_r, Ht. done. }
  destruct Hp as [->| ->].
  - rewrite (Hc _ []); [|by rewrite app_nil_r|].
    + by rewrite bool_decide_false by (by apply joinPath_last).
    + by rewrite elements_of_joined, cleanElements_nil, cleanElements_done.
  - rewrite (Hc _ ["/"%char]); [|done|].
    + by rewrite lastByte_app, bool_decide_true.
    + rewrite elements_of_join by done. cbn [elements_of].
      by rewrite cleanElements_nil, cleanElements_snoc_nil, cleanElements_done.
Qed.

(** A clean path has no empty element and no dots to climb with. *)
Lemma clean_elements p e : e ∈ elements_of (cleanPath p) -> e <> ["."; "."]%char.
Proof.
  destruct (cleanPath_shape p) as [->|(els & Hels & Hne & [->| ->])].
  - intros Hin ->. revert Hin. apply (bool_decide_eq_false_1 (_ ∈ _)). reflexivity.
  - rewrite elements_of_joined by done. rewrite elem_of_cons. intros [->|Hin]; [done|].
    rewrite Forall_forall in Hels. exact (proj1 (proj2 (proj2 (Hels e Hin)))).
  - rewrite elements_of_join by done. rewrite elem_of_cons, elem_of_app. intros [->|[Hin|Hin]]; [done| |].
    + rewrite Forall_forall in Hels. exact (proj1 (proj2 (proj2 (Hels e Hin)))).
    + simpl in Hin. apply list_elem_of_singleton in Hin. by subst.
Qed.

(** ** Loading a dapp *)

(** Values that convert are passed over: those after them decide. *)
Lemma setField_app d cur vs ws :
  Forall (fun o => exists w t, NameOf d o = Some w /\ convert w = Some t) vs ->
  exists cur', setField d cur (vs ++ ws) = setField d cur' ws.
Proof.
  intros Hall. revert cur. induction Hall as [|o vs (w & t & Hw & Ht) _ IH]; intros cur; simpl.
  - by eexists.
  - rewrite Hw, Ht. apply IH.
Qed.

(** The tables after a dapp has been deployed to them. *)
Section deployed.
Context (d d' : db) (dp : Dapp).
Context (Hwf : wf d) (Hadd : AddQuadSet [manifestQuad dp] d = (Ok tt, d')).
Let x : ValueHash := HashOf (Some (IRI (dappID dp))).
Let m : ValueHash := HashOf (Some (String (ManifestHash dp))).

Lemma deployed_rows :
  wf d' /\ Valid x = true /\ Valid m = true /\ is_Some (nodes d' !! x) /\ is_Some (nodes d' !! m) /\
  (forall r, r ∈ quads d' <-> r ∈ quads d \/ r = (x, HashOf (Some (IRI manifestPredicate)), m, None)).
Proof.
  destruct (AddQuadSet_ok _ _ _ Hadd Hwf) as (rows & Hrows & Hwf' & Hq).
  destruct (rowsOf_each _ _ (manifestQuad dp) Hrows (list_elem_of_here _ _)) as [r Hr].
  pose proof (quadRowOf_triple _ _ _ _ Hr) as (-> & Hm & Hx).
  assert (forall r, r ∈ quads d' <-> r ∈ quads d \/ r = (x, HashOf (Some (IRI manifestPredicate)), m, None)) as Hall.
  { intros r. rewrite Hq. apply or_iff_compat_l. rewrite (rowsOf_elem _ _ _ Hrows). split.
    - intros (q & ->%list_elem_of_singleton & E). by apply quadRowOf_triple in E as [-> _].
    - intros ->. exists (manifestQuad dp). split; [apply list_elem_of_here|exact Hr]. }
  split_and!; [done..| | |exact Hall].
  all: apply (wf_quads _ Hwf' (x, HashOf (Some (IRI manifestPredicate)), m, None));
    [apply Hall; by right|unfold rowHashes; cbn [app]; in_specs].
Qed.

(** The manifests of the dapp's node: the old ones and the new one. *)
Lemma deployed_objects o y :
  o ∈ objects d' y (IRI manifestPredicate) <->
  o ∈ objects d y (IRI manifestPredicate) \/ (y = x /\ o = m).
Proof.
  destruct deployed_rows as (_ & _ & _ & _ & _ & Hq). rewrite !objects_spec. split.
  - intros [l [Hl|E]%Hq]; [left; by exists l|right]. split.
    + exact (f_equal (fun r => r.1.1.1) E).
    + exact (f_equal (fun r => r.1.2) E).
  - intros [[l Hl]|[-> ->]].
    + exists l. apply Hq. by left.
    + exists None. apply Hq. by right.
Qed.

Lemma deployed_names :
  storable (String (ManifestHash dp)) = true ->
  (NameOf d' x = Some (IRI (dappID dp)) /\ NameOf d' m = Some (String (ManifestHash dp))) \/ sha1Broken.
Proof.
  intros Hst. destruct deployed_rows as (Hwf' & Hx & Hm & Hnx & Hnm & _).
  destruct (wf_NameOf _ _ Hwf' Hnx Hx eq_refl) as [H1|[w Hw]]; [|right; by exists (IRI (dappID dp)), w].
  destruct (wf_NameOf _ _ Hwf' Hnm Hm Hst) as [H2|[w Hw]];
    [by left|right; by exists (String (ManifestHash dp)), w].
Qed.
End deployed.

(** ** The properties of the server *)

(** An order that puts one value last. *)
Definition putLast (h : ValueHash) (l : list ValueHash) : list ValueHash :=
  filter (fun o => o <> h) l ++ filter (fun o => o = h) l.

Lemma putLast_perm h l : putLast h l ≡ₚ l.
Proof.
  unfold putLast. induction l as [|o l IH]; [done|].
  destruct (decide (o = h)) as [->|Hne].
  - rewrite filter_cons_False, filter_cons_True by auto. rewrite <- Permutation_middle. by rewrite IH.
  - rewrite filter_cons_True, filter_cons_False by done. cbn [app]. by rewrite IH.
Qed.

(** Loading a dapp, when the last manifest of the iteration is known. *)
Lemma loadDapp_last (d : db) (x h : ValueHash) (i m : bytes) (iteration : list ValueHash -> list ValueHash) vs ws :
  objects d x (IRI manifestPredicate) <> [] -> iteration (objects d x (IRI manifestPredicate)) = vs ++ ws ->
  Forall (fun o => exists w t, NameOf d o = Some w /\ convert w = Some t) vs ->
  Forall (fun o => o = h) ws -> ws <> [] ->
  NameOf d x = Some (IRI i) -> NameOf d h = Some (String m) ->
  loadDapp iteration d x = Ok {| dappID := i; ManifestHash := m |}.
Proof.
  intros Hne Hit Hvs Hws Hws0 Hx Hh. unfold loadDapp. rewrite bool_decide_false by done.
  cbn [setField]. rewrite Hx. cbn [convert mbind result_bind]. unfold loadField. rewrite Hit.
  destruct (setField_app d [] vs ws Hvs) as [cur ->].
  by rewrite (setField_all d ws h (String m) m cur).
Qed.

Section root.
Context {R D : Type} `{Secp256k1} `{!Registry R} `{!DPA D} `{!SqliteCodec}.
Context (iteration : list ValueHash -> list ValueHash) (Hit : forall l, iteration l ≡ₚ l).
Implicit Types k : kord R D.

Lemma setRootDapp_open s u k d :
  Parse s = Ok u -> Address_Hex (ID u) ∈ stores (knode k) ->
  tables (knode k) (Address_Hex (ID u)) = Some (Some d) ->
  setRootDapp iteration s k =
    match loadDapp iteration d (HashOf (Some (IRI s))) with
    | Ok a => (Ok tt, {| knode := knode k; rootDapp := Some a; srv := srv k |})
    | Err e => (Err e, k)
    | Panic p => (Panic p, k)
    end.
Proof.
  intros Hp Hin Ht. unfold setRootDapp. rewrite (bind_ok _ _ k u k) by (unfold lift; by rewrite Hp).
  cbv zeta. rewrite (bind_ok _ _ k tt k).
  2:{ unfold onKNode, zoom. rewrite Get_cached by done. by destruct k. }
  assert (onKNode (query (Address_Hex (ID u)) (fun t => loadDapp iteration t (HashOf (Some (IRI s))))) k =
          (loadDapp iteration d (HashOf (Some (IRI s))), k)) as Hq.
  { unfold onKNode, zoom, query. rewrite Ht. by destruct k. }
  unfold mbind, prog_bind. rewrite Hq. by destruct (loadDapp _ _ _).
Qed.

(** A dapp that has been deployed at a URI, on a graph that had none
    there, is the root dapp once it is set by the URI as it was deployed; and
    by no other spelling: a text that parses as the same URI but is not the
    canonical one is refused as not found, and the root dapp stays as it
    was. *)
Theorem root_dapp_by_canonical_uri (u : URI) (s mh : bytes) (d d' : db) k :
  let uri := URI_String u in
  let dp := {| dappID := uri; ManifestHash := mh |} in
  rooted (Path u) = true -> wf d -> AddQuadSet [manifestQuad dp] d = (Ok tt, d') ->
  storable (String mh) = true ->
  objects d (HashOf (Some (IRI uri))) (IRI manifestPredicate) = [] ->
  objects d (HashOf (Some (IRI s))) (IRI manifestPredicate) = [] ->
  Address_Hex (ID u) ∈ stores (knode k) -> tables (knode k) (Address_Hex (ID u)) = Some (Some d') ->
  Parse s = Ok u ->
  sha1Broken \/
  (setRootDapp iteration uri k = (Ok tt, {| knode := knode k; rootDapp := Some dp; srv := srv k |}) /\
   (s <> uri -> exists e, setRootDapp iteration s k = (Err e, k) /\ (e = errNotFound \/ e = errRequiredFieldIsMissing))).
Proof.
  intros uri dp Hrooted Hwf Hadd Hst Hno Hno' Hin Ht Hs.
  destruct (deployed_names _ _ _ Hwf Hadd Hst) as [[Hn Hm]|?]; [|by left].
  destruct (decide (s <> uri /\ HashOf (Some (IRI s)) = HashOf (Some (IRI uri)))) as [[Hne E]|Hcol].
  { destruct (HashOf_eq _ _ E) as [?|?]; [congruence|by left]. }
  right. pose proof (deployed_objects _ _ _ Hwf Hadd) as Hob. split.
  - rewrite (setRootDapp_open uri u k d') by (done || by apply Parse_String).
    rewrite (loadDapp_last d' _ (HashOf (Some (String mh))) uri mh iteration []
      (iteration (objects d' (HashOf (Some (IRI uri))) (IRI manifestPredicate)))); try done.
    + intros E. assert (HashOf (Some (String mh)) ∈ objects d' (HashOf (Some (IRI uri))) (IRI manifestPredicate)) as Ho
        by (apply Hob; by right). rewrite E in Ho. by apply elem_of_nil in Ho.
    + rewrite Hit. apply Forall_forall. intros o [Ho|[_ ->]]%Hob; [|done].
      rewrite Hno in Ho. by apply elem_of_nil in Ho.
    + intros E. assert (HashOf (Some (String mh)) ∈ objects d' (HashOf (Some (IRI uri))) (IRI manifestPredicate)) as Ho
        by (apply Hob; by right). rewrite <- (Hit (objects _ _ _)), E in Ho. by apply elem_of_nil in Ho.
  - intros Hne. rewrite (setRootDapp_open s u k d') by done. unfold loadDapp. rewrite bool_decide_true.
    + eexists. split; [done|]. case_bool_decide; auto.
    + destruct (objects d' _ _) as [|o l] eqn:Eo; [done|].
      assert (o ∈ objects d' (HashOf (Some (IRI s))) (IRI manifestPredicate)) as Ho by (rewrite Eo; by left).
      apply Hob in Ho as [Ho|[E _]]; [rewrite Hno' in Ho; by apply elem_of_nil in Ho|]. by destruct Hcol.
Qed.
End root.

(** Deploying again does not replace: the old manifest stays in the graph
    beside the new one, and which of the two is loaded is left to the order in
    which the store iterates: there is an order that loads the new one and an
    order that loads the old one. *)
Theorem redeploy_keeps_old (uri m1 m2 : bytes) (d d1 d2 : db) (old : bool) :
  let dp m := {| dappID := uri; ManifestHash := m |} in
  let x := HashOf (Some (IRI uri)) in
  wf d -> objects d x (IRI manifestPredicate) = [] ->
  AddQuadSet [manifestQuad (dp m1)] d = (Ok tt, d1) -> AddQuadSet [manifestQuad (dp m2)] d1 = (Ok tt, d2) ->
  storable (String m1) = true -> storable (String m2) = true -> m1 <> m2 ->
  sha1Broken \/
  exists iteration, (forall l, iteration l ≡ₚ l) /\
    loadDapp iteration d2 x = Ok (dp (if old then m1 else m2)).
Proof.
  intros dp x Hwf Hno H1 H2 Hs1 Hs2 Hne.
  pose proof (deployed_rows _ _ _ Hwf H1) as (Hwf1 & _ & Hv1 & _ & Hn1 & Hq1).
  pose proof (deployed_rows _ _ _ Hwf1 H2) as (Hwf2 & _ & _ & _ & _ & Hq2).
  destruct (deployed_names _ _ _ Hwf1 H2 Hs2) as [[Hx Hm2]|?]; [|by left].
  assert (is_Some (nodes d2 !! HashOf (Some (String m1)))) as Hn.
  { apply (wf_quads _ Hwf2 (x, HashOf (Some (IRI manifestPredicate)), HashOf (Some (String m1)), None)).
    - apply Hq2. left. apply Hq1. by right.
    - unfold rowHashes. cbn [app]. in_specs. }
  destruct (wf_NameOf _ _ Hwf2 Hn Hv1 Hs1) as [Hm1|[w Hw]]; [|left; by exists (String m1), w]. right.
  set (h m := HashOf (Some (String m))).
  assert (forall o, o ∈ objects d2 x (IRI manifestPredicate) <-> o = h m1 \/ o = h m2) as Hob.
  { intros o. rewrite (deployed_objects _ _ _ Hwf1 H2), (deployed_objects _ _ _ Hwf H1), Hno.
    rewrite elem_of_nil. unfold h, x. cbn [dappID dp ManifestHash]. tauto. }
  set (m := if old then m1 else m2).
  exists (putLast (h m)). split; [apply putLast_perm|].
  assert (h m ∈ objects d2 x (IRI manifestPredicate)) as Hin
    by (apply Hob; unfold m; destruct old; [by left|by right]).
  apply (loadDapp_last d2 x (h m) uri m (putLast (h m)) _ _ ltac:(intros E; rewrite E in Hin; by apply elem_of_nil in Hin)
    eq_refl).
  - apply Forall_forall. intros o [_ Ho]%list_elem_of_filter. apply Hob in Ho as [->| ->].
    + exists (String m1), m1. by split.
    + exists (String m2), m2. by split.
  - apply Forall_forall. by intros o [-> _]%list_elem_of_filter.
  - intros E. assert (h m ∈ filter (fun o => o = h m) (objects d2 x (IRI manifestPredicate))) as Hf
      by (by apply list_elem_of_filter). rewrite E in Hf. by apply elem_of_nil in Hf.
  - exact Hx.
  - unfold m. by destruct old.
Qed.

(** What the handler of dapps answers, for every state of the server and
    every answer of Swarm: not found without a dapp, a redirect for the empty
    path, not found or an internal error as Swarm's status says, not found
    when the root chunk is missing, and otherwise the content; and it panics
    exactly when Swarm returns neither an entry nor an error, which is what
    Swarm does for a path with several entries (status 300). *)
Theorem ServeDapp_spec (swarmGet : bytes -> bytes -> entry) (dapp : option Dapp) (path : bytes) :
  let answer := ServeDapp swarmGet dapp path in
  match dapp with
  | None => answer = Ok NotFound
  | Some d =>
      let e := swarmGet (Hex2Bytes (ManifestHash d)) (trimSlashes path) in
      (path = [] -> answer = Ok (Redirect "/")) /\
      (path <> [] -> forall err, eErr e = Some err ->
         answer = Ok (if decide (eStatus e = StatusNotFound) then NotFound else InternalError err)) /\
      (path <> [] -> forall r, eErr e = None -> eReader e = Some r ->
         answer = Ok (match rSize r with inr _ => Content (eType e) r | inl _ => NotFound end)) /\
      ((exists p, answer = Panic p) <-> path <> [] /\ eErr e = None /\ eReader e = None)
  end.
Proof.
  intros answer. subst answer. unfold ServeDapp. destruct dapp as [d|]; [|done]. cbv zeta.
  set (e := swarmGet _ _). case_bool_decide as Hp; [naive_solver|].
  split_and!; [done| | |].
  - intros _ err ->. destruct (Z.eqb_spec (eStatus e) StatusNotFound); [by rewrite decide_True|by rewrite decide_False].
  - intros _ r -> ->. by destruct (rSize r).
  - destruct (eErr e) as [err|], (eReader e) as [r|]; [..|naive_solver].
    + destruct (_ =? _)%Z; naive_solver.
    + destruct (_ =? _)%Z; naive_solver.
    + destruct (rSize r); naive_solver.
Qed.

(** Routing ends: cleaning a clean path changes nothing, so a request is
    redirected at most once for its path and once more to a tree of Swarm,
    and then it is handled; and no handler but the redirect ever sees a path
    with an element of two dots. *)
Theorem routing_ends (p : bytes) :
  match mux p with
  | Moved q => match mux q with
               | Moved r => mux r = ToSwarm
               | _ => forall e, e ∈ elements_of q -> e <> ["."; "."]%char
               end
  | _ => forall e, e ∈ elements_of p -> e <> ["."; "."]%char
  end.
Proof.
  assert (forall q r, muxHandler q = Moved r -> mux r = ToSwarm /\ cleanPath r = r) as Hm.
  { intros q r. unfold muxHandler. destruct (existsb (HasPrefix q) trees); [done|].
    destruct (existsb _ trees) eqn:E; [|by case_bool_decide]. intros [= <-].
    apply existsb_exists in E as (t & Ht & ->%bool_decide_eq_true_1).
    apply list_elem_of_In in Ht. unfold trees in Ht. rewrite !elem_of_cons, elem_of_nil in Ht.
    destruct_or! Ht; subst; [split; reflexivity..|done]. }
  assert (forall q, cleanPath q = q -> mux q = muxHandler q) as Hclean
    by (intros q Hq; unfold mux; cbv zeta; by rewrite bool_decide_true).
  assert (forall q, cleanPath q = q -> forall e, e ∈ elements_of q -> e <> ["."; "."]%char) as Hdots
    by (intros q Hq e He; rewrite <- Hq in He; by eapply clean_elements).
  unfold mux at 1. cbv zeta. case_bool_decide as Hp.
  - destruct (muxHandler p) as [| | |q] eqn:Eh; [by apply Hdots..|].
    destruct (Hm _ _ Eh) as [-> Hq]. by apply Hdots.
  - pose proof (cleanPath_idem p) as Hq. rewrite (Hclean _ Hq).
    destruct (muxHandler (cleanPath p)) as [| | |r] eqn:Eh; [by apply Hdots..|].
    by destruct (Hm _ _ Eh).
Qed.

(** ** Witnesses *)

Section witnesses.
Import Toy SmallStore Digits.

Definition appURI : URI := {| ID := owner; Path := "/app" |}.
Definition appAs (m : bytes) : Dapp := {| dappID := URI_String appURI; ManifestHash := m |}.
Definition deployedDB : db := after (AddQuadSet [manifestQuad (appAs "aa")]) emptyDB.
Definition redeployedDB : db := after (AddQuadSet [manifestQuad (appAs "bb")]) deployedDB.

(** The URI with its address in lower case. *)
Definition looseURI : bytes := "kord://0x" ++ EncodeToString owner ++ "/app".

(** The author of [GraphDriver], with the deployed tables in its file. *)
Definition host : kord Test.registry (list bytes) :=
  {| knode := setFiles {| names := {[DbPath graphName := 0]};
                          contents := {[0 := encodeDB (Some deployedDB)]}; freshFile := 1 |} author;
     rootDapp := None; srv := None |}.

Lemma host_tables : tables (knode host) graphName = Some (Some deployedDB).
Proof.
  unfold tables, content, host. cbn [knode files setFiles names contents].
  rewrite lookup_singleton_eq. cbn [mbind option_bind]. rewrite lookup_singleton_eq.
  apply decode_encode.
Qed.

Lemma deployed_first : AddQuadSet [manifestQuad (appAs "aa")] emptyDB = (Ok tt, deployedDB).
Proof.
  assert (fst (AddQuadSet [manifestQuad (appAs "aa")] emptyDB) = Ok tt) as E by (vm_compute; reflexivity).
  rewrite <- E. apply surjective_pairing.
Qed.

Lemma deployed_again : AddQuadSet [manifestQuad (appAs "bb")] deployedDB = (Ok tt, redeployedDB).
Proof.
  assert (fst (AddQuadSet [manifestQuad (appAs "bb")] deployedDB) = Ok tt) as E by (vm_compute; reflexivity).
  rewrite <- E. apply surjective_pairing.
Qed.

Lemma objects_empty x p : objects emptyDB x p = [].
Proof. unfold objects. cbn [quads emptyDB]. by rewrite elements_empty. Qed.

Lemma root_dapp_by_canonical_uri_witness :
  Parse looseURI = Ok appURI /\
  (sha1Broken \/
   (setRootDapp id (URI_String appURI) host =
      (Ok tt, {| knode := knode host; rootDapp := Some (appAs "aa"); srv := None |}) /\
    exists e, setRootDapp id looseURI host = (Err e, host) /\ (e = errNotFound \/ e = errRequiredFieldIsMissing))).
Proof.
  assert (Parse looseURI = Ok appURI) as Hp by (vm_compute; reflexivity). split; [exact Hp|].
  assert (looseURI <> URI_String appURI) as Hne
    by (apply (bool_decide_eq_true_1 (looseURI <> URI_String appURI)); vm_compute; reflexivity).
  destruct (root_dapp_by_canonical_uri id (fun l => reflexivity l) appURI looseURI "aa" emptyDB deployedDB host
    eq_refl wf_empty deployed_first eq_refl (objects_empty _ _) (objects_empty _ _)
    (proj2 (elem_of_singleton graphName graphName) eq_refl) host_tables Hp) as [Hb|[H1 H2]].
  - left. exact Hb.
  - right. split; [exact H1|exact (H2 Hne)].
Defined.

Lemma redeploy_keeps_old_witness :
  AddQuadSet [manifestQuad (appAs "bb")] deployedDB = (Ok tt, redeployedDB) /\
  (sha1Broken \/
   exists iteration, (forall l, iteration l ≡ₚ l) /\
     loadDapp iteration redeployedDB (HashOf (Some (IRI (URI_String appURI)))) = Ok (appAs "aa")).
Proof.
  split; [exact deployed_again|].
  apply (redeploy_keeps_old (URI_String appURI) "aa" "bb" emptyDB deployedDB redeployedDB true
    wf_empty (objects_empty _ _) deployed_first deployed_again eq_refl eq_refl).
  discriminate.
Defined.
End witnesses.
