(* ===== verification/Cli.v ===== *)
(** * The command line

    Package [cli]: the arguments, the dispatch of a command line to a command,
    the passphrase prompt, the signature of a graph's hash, and the commands
    that create a graph, deploy a dapp, set the root dapp and make an identity,
    on the service of [Server]; and the configuration [RunNode] builds.
    Docopt (see [Docopt]), the keystore, the upload of a directory to Swarm and the dialling
    of a node are parameters; a call through JSON-RPC is a call of the
    service's [PublicAPI], with quads sent as their JSON, as [Rpc] shows. *)
From S2P Require Import Prelude Keccak Common Crypto Uri Contract Registry Claim Sha1 Quad Sql Db GraphDriver Api Server.

(** ** Arguments *)

(** What docopt maps a name to. *)
Inductive argument := ANil | AString (s : bytes) | AList (l : list bytes) | ABool (b : bool) | AInt (n : nat).

Abbreviation Args := (gmap bytes argument).

Definition missingArg (name : bytes) : bytes := "missing arg: " ++ name.

Definition Args_String (a : Args) (name : bytes) : result bytes :=
  match a !! name with
  | None => Panic (missingArg name)
  | Some ANil => Ok []
  | Some (AString s) => Ok s
  | Some _ => Panic ("invalid string arg: " ++ name)
  end.

Definition Args_List (a : Args) (name : bytes) : result (list bytes) :=
  match a !! name with
  | None => Panic (missingArg name)
  | Some ANil => Ok []
  | Some (AList l) => Ok l
  | Some _ => Panic ("invalid list arg: " ++ name)
  end.

Definition Args_Bool (a : Args) (name : bytes) : result bool :=
  match a !! name with
  | None => Panic (missingArg name)
  | Some (ABool b) => Ok b
  | Some _ => Panic ("invalid bool arg: " ++ name)
  end.

(** ** Dispatch *)

(** A command: its usage, and its [run], which is only named here. *)
Record command (F : Type) := { run : F; usage : bytes }.
Arguments run {F}. Arguments usage {F}.

Definition registerCommand {F} (commands : gmap bytes (command F)) (name : bytes) (r : F) (u : bytes) :
    result (gmap bytes (command F)) :=
  match commands !! name with
  | Some _ => Panic ("command already registered: " ++ name)
  | None => Ok (<[name := {| run := r; usage := u |}]> commands)
  end.

(** [strconv.Atoi]: an optional sign and digits, in 64 bits. *)
Fixpoint decimal (n : Z) (s : bytes) : option Z :=
  match s with
  | [] => Some n
  | c :: s => if isDigit c then decimal (n * 10 + Z.of_N (b2N c - b2N "0"))%Z s else None
  end.
Definition Atoi (s : bytes) : option Z :=
  let '(sign, ds) := match s with
                     | c :: t => if bool_decide (c = "-"%char) then (-1, t)
                                 else if bool_decide (c = "+"%char) then (1, t) else (1, s)
                     | [] => (1, [])
                     end%Z in
  if bool_decide (ds = []) then None
  else n ← decimal 0 ds;
       let v := (sign * n)%Z in
       if ((-2 ^ 63 <=? v) && (v <? 2 ^ 63))%Z then Some v else None.

Definition setLogVerbosity (v : bytes) : result Z :=
  match Atoi v with
  | None => Err (ETyped "fmt.Errorf" "invalid --verbosity: %s")
  | Some lvl => Ok lvl
  end.

Definition notACommand (name : bytes) : error :=
  ETyped "fmt.Errorf" (name ++ " is not a valid kord command. See 'kord help'").

(** What comes of a command line: docopt ends the process, having printed
    something, or the code goes on with a result. *)
Inductive ends (A : Type) := Exits (status : nat) (output : bytes) | Goes (r : result A).
Arguments Exits {A}. Arguments Goes {A}.
#[global] Instance ends_ret : MRet ends := fun _ a => Goes (Ok a).
#[global] Instance ends_bind : MBind ends := fun _ _ f m =>
  match m with
  | Exits status output => Exits status output
  | Goes (Ok a) => f a
  | Goes (Err e) => Goes (Err e)
  | Goes (Panic p) => Goes (Panic p)
  end.

(** The usage is printed, or a command runs. *)
Inductive dispatched (F : Type) := Printed | Runs (f : F) (args : Args).
Arguments Printed {F}. Arguments Runs {F}.

Section dispatch.
(** [docopt.Parse] on a usage and the words, with a version and whether options
    come first; a parameter here and given in [Docopt]. *)
Context {F : Type} (docopt : bytes -> list bytes -> bytes -> bool -> ends Args) (topUsage : bytes).

Definition runCommand (commands : gmap bytes (command F)) (name : bytes) (argv : list bytes) : ends (dispatched F) :=
  match commands !! name with
  | None => Goes (Err (notACommand name))
  | Some cmd => v ← docopt (usage cmd) (name :: argv) [] false; mret (Runs (run cmd) v)
  end.

Definition Run (commands : gmap bytes (command F)) (argv : list bytes) : ends (dispatched F) :=
  args ← docopt topUsage argv "0.0.1" true;
  cmd ← Goes (Args_String args "<command>");
  cmdArgs ← Goes (Args_List args "<args>");
  let rest (cmd : bytes) (cmdArgs : list bytes) :=
    v ← Goes (Args_String args "--verbosity");
    _ ← (if bool_decide (v = []) then mret tt else _ ← Goes (setLogVerbosity v); mret tt);
    runCommand commands cmd cmdArgs in
  if bool_decide (cmd = ("help" : bytes)) then
    match cmdArgs with
    | [] => mret Printed
    | c :: _ => rest c ["--help" : bytes]
    end
  else rest cmd cmdArgs.
End dispatch.

(** ** Passphrases and signatures *)

Definition newline : ascii := N2b 10.
Definition EOF : error := EVar "io.EOF".

(** [ReadBytes] up to a newline, without it; input that ends first is an error. *)
Definition readLine (input : bytes) : result (bytes * bytes) :=
  match splitFirst newline input with Some lr => Ok lr | None => Err EOF end.

Definition noMatch : error := EMsg "The entered passphrases do not match".

Definition getPassphrase (confirm : bool) (input : bytes) : result bytes :=
  '(passphrase, rest) ← readLine input;
  if negb confirm then Ok passphrase
  else '(confirmation, _) ← readLine rest;
       if bool_decide (passphrase = confirmation) then Ok passphrase else Err noMatch.

(** The keystores in the directories of a machine: accounts found by their address, signing with a passphrase,
    new accounts. *)
Class Keystore (K : Type) := {
  Find : K -> bytes -> Address -> result Address;
  SignHashWithPassphrase : K -> bytes -> Address -> bytes -> Hash -> result bytes;
  NewAccount : bytes -> bytes -> prog K Address;
}.

(** It finds the account it is asked for, and signs with that account's key. *)
Class KeystoreLaws (K : Type) `{Secp256k1} `{!Keystore K} := {
  Find_same : forall k dir a b, Find k dir a = Ok b -> b = a;
  Sign_own : forall k dir a pass hash sig, SignHashWithPassphrase k dir a pass hash = Ok sig ->
    exists key, addressOf key = a /\ Sign hash key = Ok sig;
}.

Definition passphraseError (e : error) : error := EWrap "error reading passphrase" [] e.
Definition wrapErr {A} (f : error -> error) (r : result A) : result A :=
  match r with Err e => Err (f e) | r => r end.

(** ** Commands *)

Definition invalidID : error := ETyped "fmt.Errorf" "invalid KORD ID, must be a hex string: %s".

(** The quads a client sends, as the node reads them. *)
Definition sent (q : Quad) : Quad := UnmarshalJSON (MarshalJSON q).

(** The node the client talks to, the keystores, and the standard streams. *)
Record world (R D K : Type) := { wkord : kord R D; keys : K; stdin : bytes; stdout : bytes }.
Arguments wkord {R D K}. Arguments keys {R D K}. Arguments stdin {R D K}. Arguments stdout {R D K}.

Section commands.
Context {R D K : Type} `{Secp256k1} `{!Registry R} `{!DPA D} `{SqliteCodec} `{!Keystore K}.
Context (iteration : list ValueHash -> list ValueHash).
(** Dialling a URL, the default one with a temporary directory, and
    [UploadDirectory] on a Swarm API. *)
Context (dial : bytes -> result unit) (tempDir : bytes) (upload : bytes -> bytes -> result bytes).
Implicit Types w : world R D K.

Definition setKord (k : kord R D) w : world R D K :=
  {| wkord := k; keys := keys w; stdin := stdin w; stdout := stdout w |}.
Definition setKeys (k : K) w : world R D K :=
  {| wkord := wkord w; keys := k; stdin := stdin w; stdout := stdout w |}.
Definition onKord {A} (m : prog (kord R D) A) : prog (world R D K) A := zoom wkord setKord m.

Definition NodeURL (args : Args) : result bytes :=
  url ← Args_String args "--url";
  Ok (if bool_decide (url = []) then tempDir ++ "/kord.ipc" else url).

Definition Context_URI (args : Args) : result URI := uri ← Args_String args "<uri>"; Parse uri.

Definition Client (args : Args) : prog (world R D K) unit :=
  url ← lift (NodeURL args); lift (dial url).

Definition signHash (args : Args) (id : Address) (hash : Hash) : prog (world R D K) bytes :=
  if bool_decide (id = DevAddr) then lift (Sign hash DevKey)
  else
    dir ← lift (Args_String args "--keystore");
    w ← get;
    account ← lift (Find (keys w) dir id);
    passphrase ← lift (wrapErr passphraseError (getPassphrase false (stdin w)));
    lift (SignHashWithPassphrase (keys w) dir account passphrase hash).

Definition setGraph (args : Args) (id : Address) (hash : Hash) : prog (world R D K) unit :=
  sig ← signHash args id hash;
  onKord (PublicAPI.SetGraph hash sig).

Definition RunGraphCreate (args : Args) : prog (world R D K) unit :=
  idArg ← lift (Args_String args "<id>");
  if negb (IsHexAddress idArg) then throw invalidID
  else
    let id := HexToAddress idArg in
    _ ← Client args;
    hash ← onKord (PublicAPI.CreateGraph (Address_Hex id));
    setGraph args id hash.

Definition RunDappDeploy (args : Args) : prog (world R D K) unit :=
  u ← lift (Context_URI args);
  let id := ID u in
  _ ← Client args;
  swarmAPI ← lift (Args_String args "--swarm-api");
  dir ← lift (Args_String args "<dir>");
  manifestHash ← lift (upload swarmAPI dir);
  qs ← lift (dappQuads {| dappID := URI_String u; ManifestHash := manifestHash |});
  _ ← onKord (PublicAPI.ApplyDeltas (Address_Hex id) (delta Add <$> (sent <$> qs)) defaultOpts);
  hash ← onKord (PublicAPI.CommitGraph (Address_Hex id));
  setGraph args id hash.

Definition RunDappSetRoot (args : Args) : prog (world R D K) unit :=
  _ ← Client args;
  uri ← lift (Args_String args "<uri>");
  onKord (PublicAPI.SetRootDapp iteration uri).

Definition RunDapp (args : Args) : prog (world R D K) unit :=
  lift (Args_Bool args "deploy") ≫= fun deploy : bool =>
  if deploy then RunDappDeploy args
  else lift (Args_Bool args "set-root") ≫= fun setRoot : bool =>
       if setRoot then RunDappSetRoot args else throw (EMsg "unknown dapp command").

Definition RunIDNew (args : Args) : prog (world R D K) unit :=
  w ← get;
  passphrase ← lift (wrapErr passphraseError (getPassphrase true (stdin w)));
  dir ← lift (Args_String args "--keystore");
  account ← zoom keys setKeys (NewAccount dir passphrase);
  modify (fun w => {| wkord := wkord w; keys := keys w; stdin := stdin w;
                      stdout := stdout w ++ Address_Hex account ++ [newline] |}).

Definition RunID (args : Args) : prog (world R D K) unit :=
  lift (Args_Bool args "new") ≫= fun new : bool =>
  if new then RunIDNew args else throw (EMsg "unknown id command").
End commands.

(** ** The configuration of a node: the first half of [RunNode] *)

(** The settings [RunNode] reads or writes, by their place in [config]. *)
Record nodeConfig := {
  Node_DataDir : bytes; Node_IPCPath : bytes; P2P_MaxPeers : Z; P2P_ListenAddr : bytes;
  P2P_NoDiscovery : bool; P2P_DiscoveryV5 : bool; P2P_BootstrapNodes : list bytes;
  Eth_NetworkId : Z; Eth_testnetGenesis : bool; Swarm_Cors : bytes; Kord_Config : Config;
}.

Definition withDataDir (dir ipc : bytes) (c : nodeConfig) : nodeConfig :=
  {| Node_DataDir := dir; Node_IPCPath := ipc; P2P_MaxPeers := P2P_MaxPeers c; P2P_ListenAddr := P2P_ListenAddr c;
     P2P_NoDiscovery := P2P_NoDiscovery c; P2P_DiscoveryV5 := P2P_DiscoveryV5 c;
     P2P_BootstrapNodes := P2P_BootstrapNodes c; Eth_NetworkId := Eth_NetworkId c;
     Eth_testnetGenesis := Eth_testnetGenesis c; Swarm_Cors := Swarm_Cors c; Kord_Config := Kord_Config c |}.
Definition withKord (cors : bytes) (k : Config) (c : nodeConfig) : nodeConfig :=
  {| Node_DataDir := Node_DataDir c; Node_IPCPath := Node_IPCPath c; P2P_MaxPeers := P2P_MaxPeers c;
     P2P_ListenAddr := P2P_ListenAddr c; P2P_NoDiscovery := P2P_NoDiscovery c;
     P2P_DiscoveryV5 := P2P_DiscoveryV5 c; P2P_BootstrapNodes := P2P_BootstrapNodes c;
     Eth_NetworkId := Eth_NetworkId c; Eth_testnetGenesis := Eth_testnetGenesis c; Swarm_Cors := cors;
     Kord_Config := k |}.
Definition devNetwork (c : nodeConfig) : nodeConfig :=
  {| Node_DataDir := Node_DataDir c; Node_IPCPath := Node_IPCPath c; P2P_MaxPeers := 0;
     P2P_ListenAddr := ":0"; P2P_NoDiscovery := true; P2P_DiscoveryV5 := false;
     P2P_BootstrapNodes := P2P_BootstrapNodes c; Eth_NetworkId := Eth_NetworkId c;
     Eth_testnetGenesis := Eth_testnetGenesis c; Swarm_Cors := Swarm_Cors c; Kord_Config := Kord_Config c |}.
Definition testNetwork (nodes : list bytes) (c : nodeConfig) : nodeConfig :=
  {| Node_DataDir := Node_DataDir c; Node_IPCPath := Node_IPCPath c; P2P_MaxPeers := P2P_MaxPeers c;
     P2P_ListenAddr := P2P_ListenAddr c; P2P_NoDiscovery := P2P_NoDiscovery c;
     P2P_DiscoveryV5 := P2P_DiscoveryV5 c; P2P_BootstrapNodes := nodes; Eth_NetworkId := 1035;
     Eth_testnetGenesis := true; Swarm_Cors := Swarm_Cors c; Kord_Config := Kord_Config c |}.

(** [loadConfig], on opening a file and decoding its text over a configuration: errors with a line number get
    the name of the file. *)
Definition loadConfig (open : bytes -> result bytes) (decode : bytes -> nodeConfig -> result nodeConfig) (file : bytes) (c : nodeConfig) :
    result nodeConfig :=
  text ← open file;
  match decode text c with
  | Err (ETyped t msg) => if String.eqb t "toml.LineError" then Err (EMsg (file ++ ", " ++ msg)) else Err (ETyped t msg)
  | r => r
  end.

(** [strings.Join]. *)
Fixpoint Join (l : list bytes) (sep : bytes) : bytes :=
  match l with [] => [] | [s] => s | s :: l => s ++ sep ++ Join l sep end.

Definition testnetBootnodes : list bytes :=
  ["enode://21cd1409c28106062f79dbae8d9a69d4e1050c6f8a40ab63ec507c03970ed152c6f20708262f23a7334061fde7943b10ead6249bb88b2d7375d36f40ff471e82@35.176.243.138:30303" : bytes].

Section configure.
(** [ioutil.TempDir], [os.TempDir], and [loadConfig] on a file. *)
Context (makeTemp : result bytes) (osTemp : bytes) (loadConfig : bytes -> nodeConfig -> result nodeConfig).
(** [discover.ParseNode]; a node is named by its URL. *)
Context (ParseNode : bytes -> result bytes).

Fixpoint parseNodes (urls : list bytes) : result (list bytes) :=
  match urls with
  | [] => Ok []
  | url :: urls =>
      match ParseNode url with
      | Ok n => ns ← parseNodes urls; Ok (n :: ns)
      | Err e => Err (EWrap "invalid testnet bootnode" url e)
      | Panic p => Panic p
      end
  end.

Definition setDataDir (args : Args) (c : nodeConfig) : result nodeConfig :=
  dir ← Args_String args "--datadir";
  if negb (bool_decide (dir = [])) then Ok (withDataDir dir (Node_IPCPath c) c)
  else Args_Bool args "--dev" ≫= fun dev : bool =>
       if dev then tmp ← makeTemp; Ok (withDataDir tmp (osTemp ++ "/" ++ Node_IPCPath c) c)
       else Ok c.

Definition setRootOption (args : Args) (c : nodeConfig) : result nodeConfig :=
  dapp ← Args_String args "--root-dapp";
  let k := Kord_Config c in
  if bool_decide (dapp = []) then Ok c
  else Ok (withKord (Swarm_Cors c) {| HTTPAddr := HTTPAddr k; HTTPPort := HTTPPort k; RootDapp := dapp;
                                      CORSDomains := CORSDomains k |} c).

Definition setCors (args : Args) (c : nodeConfig) : result nodeConfig :=
  match args !! ("--cors-domain" : bytes) with
  | None => Ok c
  | Some _ =>
      domains ← Args_List args "--cors-domain";
      let k := Kord_Config c in
      Ok (withKord (Join domains ",") {| HTTPAddr := HTTPAddr k; HTTPPort := HTTPPort k;
                                         RootDapp := RootDapp k; CORSDomains := domains |} c)
  end.

Definition setNetwork (args : Args) (c : nodeConfig) : result nodeConfig :=
  Args_Bool args "--dev" ≫= fun dev : bool =>
  Args_Bool args "--testnet" ≫= fun testnet : bool =>
  if dev && testnet then Err (EMsg "--dev and --testnet cannot both be set")
  else if dev then Ok (devNetwork c)
  else if testnet then
    Args_Bool args "--mine" ≫= fun mine : bool =>
    if mine then Ok (testNetwork (P2P_BootstrapNodes c) c)
    else nodes ← parseNodes testnetBootnodes; Ok (testNetwork nodes c)
  else Ok c.

(** From the defaults to the configuration the node is made with. *)
Definition configure (args : Args) (c : nodeConfig) : result nodeConfig :=
  file ← Args_String args "--config";
  c ← (if bool_decide (file = []) then Ok c else loadConfig file c);
  c ← setDataDir args c;
  c ← setRootOption args c;
  c ← setCors args c;
  setNetwork args c.
End configure.

(** ** The properties of the command line *)

(** Splitting at the first newline. *)
Lemma readLine_ok input l r : readLine input = Ok (l, r) <-> input = l ++ newline :: r /\ newline ∉ l.
Proof.
  unfold readLine. split.
  - destruct (splitFirst newline input) as [[a b]|] eqn:E; [|done]. intros [= <- <-].
    split; [by apply splitFirst_Some|]. revert a b E.
    induction input as [|c input IH]; intros a b; [done|]. simpl. case_decide as Hc.
    + intros [= <- <-]. by apply not_elem_of_nil.
    + destruct (splitFirst newline input) as [[a' b']|]; [|done]. intros [= <- <-].
      apply not_elem_of_cons. split; [congruence|]. by eapply IH.
  - intros [-> Hl]. by rewrite splitFirst_app.
Qed.

(** The passphrase prompt, on input that is not a terminal: it yields a
    passphrase exactly when the input starts with it on a line that ends, and,
    where it is to be repeated, with a second such line that is the same. *)
Theorem getPassphrase_spec (confirm : bool) (input p : bytes) :
  getPassphrase confirm input = Ok p <->
  (newline ∉ p) /\ exists rest, input = p ++ newline :: (if confirm then p ++ newline :: rest else rest).
Proof.
  unfold getPassphrase. split.
  - intros H. apply result_bind_ok_inv in H as ([l r] & Hl%readLine_ok & H). destruct Hl as [-> Hl].
    destruct confirm; cbn [negb] in H.
    + apply result_bind_ok_inv in H as ([l2 r2] & Hl2%readLine_ok & H). destruct Hl2 as [-> Hl2].
      case_bool_decide; [|done]. injection H as <-. subst. split; [done|]. by exists r2.
    + injection H as <-. split; [done|]. by exists r.
  - intros (Hp & rest & ->). destruct confirm; cbn [negb].
    + rewrite (proj2 (readLine_ok _ p (p ++ newline :: rest))) by done. cbn [mbind result_bind].
      rewrite (proj2 (readLine_ok _ p rest)) by done. cbn [mbind result_bind]. by rewrite bool_decide_true.
    + by rewrite (proj2 (readLine_ok _ p rest)).
Qed.

(** The same configuration with other CORS settings. *)
Definition replaceCors (swarm : bytes) (domains : list bytes) (c : nodeConfig) : nodeConfig :=
  withKord swarm {| HTTPAddr := HTTPAddr (Kord_Config c); HTTPPort := HTTPPort (Kord_Config c);
                    RootDapp := RootDapp (Kord_Config c); CORSDomains := domains |} c.

(** The CORS settings of a configuration file never take effect: docopt maps
    every option of the usage, so the arguments have the option for CORS
    domains whether or not it was given; and whenever they do, the file's own
    settings make no difference to the configuration of the node. *)
Theorem cors_from_file_lost (makeTemp : result bytes) (osTemp : bytes) (ParseNode : bytes -> result bytes)
    (loadConfig : bytes -> nodeConfig -> result nodeConfig) (args : Args) (c : nodeConfig)
    (swarm : bytes) (domains : list bytes) :
  is_Some (args !! ("--cors-domain" : bytes)) ->
  configure makeTemp osTemp (fun f c => replaceCors swarm domains <$> loadConfig f c) ParseNode args c =
  configure makeTemp osTemp loadConfig ParseNode args c.
Proof.
  intros Hcors. unfold configure. destruct (Args_String args "--config") as [file|e|p]; [|done..].
  cbn [mbind result_bind]. case_bool_decide; [done|].
  destruct (loadConfig file c) as [c1|e|p]; [|done..]. cbn [fmap result_fmap mbind result_bind].
  unfold setDataDir. destruct (Args_String args "--datadir") as [dir|e|p]; [|done..].
  cbn [mbind result_bind].
  assert (forall c1,
    (c2 ← setRootOption args (replaceCors swarm domains c1); c3 ← setCors args c2; setNetwork ParseNode args c3) =
    (c2 ← setRootOption args c1; c3 ← setCors args c2; setNetwork ParseNode args c3)) as Hrest.
  { intros c0. unfold setRootOption. destruct (Args_String args "--root-dapp") as [dp|e|p]; [|done..].
    cbn [mbind result_bind]. destruct Hcors as [v Hv]. unfold setCors. rewrite Hv.
    case_bool_decide; cbn [mbind result_bind]; by destruct (Args_List args "--cors-domain"). }
  destruct (negb _); cbn [mbind result_bind].
  - exact (Hrest (withDataDir dir (Node_IPCPath c1) c1)).
  - destruct (Args_Bool args "--dev") as [[]|e|p]; cbn [mbind result_bind]; [|apply Hrest|done..].
    destruct makeTemp as [tmp|e|p]; cbn [mbind result_bind]; [|done..].
    exact (Hrest (withDataDir tmp _ c1)).
Qed.

(** ** Publishing *)

Section publishing.
Context {R D K : Type} `{Secp256k1} `{!Secp256k1Laws} `{!Registry R} `{!RegistryLaws R} `{!DPA D}
  `{!DPALaws D} `{!SqliteCodec} `{!SqliteCodecLaws} `{!Keystore K} `{!KeystoreLaws K}.
Context (dial : bytes -> result unit) (tempDir : bytes) (upload : bytes -> bytes -> result bytes).
Implicit Types w : world R D K.

(** The registry, the storage and the tables a command sees. *)
Definition registryView w : Address -> Hash := view (reg (knode (wkord w))).
Definition tablesOf w (name : bytes) : option (option db) := tables (knode (wkord w)) name.
Definition stored w (hash : Hash) (t : option db) : Prop :=
  exists data, fetched (swarm (knode (wkord w))) hash = Ok data /\ decodeDB data = Some t.

Lemma onKNode_inv {A} (m : prog (node R D) A) w a w' :
  onKord (onKNode m) w = (Ok a, w') ->
  exists n', m (knode (wkord w)) = (Ok a, n') /\ knode (wkord w') = n' /\ keys w' = keys w /\ stdin w' = stdin w.
Proof.
  unfold onKord, onKNode, zoom. destruct (m (knode (wkord w))) as [r n']. intros [= -> <-]. by exists n'.
Qed.

(** [signHash] changes nothing, and signs with a key of the identity. *)
Lemma signHash_key args id hash w sig w' :
  signHash args id hash w = (Ok sig, w') ->
  w' = w /\ exists key, addressOf key = id /\ Sign hash key = Ok sig.
Proof.
  unfold signHash. case_bool_decide as Hid.
  - unfold lift. intros [= Hs <-]. split; [done|]. by exists DevKey.
  - intros Hs. apply bind_ok_inv in Hs as (dir & w1 & E1 & Hs). unfold lift in E1. injection E1 as Hdir <-.
    apply bind_ok_inv in Hs as (w2 & w3 & E2 & Hs). unfold get in E2. injection E2 as <- <-.
    apply bind_ok_inv in Hs as (b & w4 & E3 & Hs). unfold lift in E3. injection E3 as Hf <-.
    apply bind_ok_inv in Hs as (pass & w5 & E4 & Hs). unfold lift in E4. injection E4 as _ <-.
    unfold lift in Hs. injection Hs as Hs <-. split; [done|].
    apply Find_same in Hf as ->. by apply Sign_own in Hs.
Qed.

(** [setGraph]: with a signature in range, the identity's entry and no other. *)
Lemma setGraph_publishes args id hash w w' :
  setGraph args id hash w = (Ok tt, w') ->
  exists sig, signHash args id hash w = (Ok sig, w) /\
    (forall name, tablesOf w' name = tablesOf w name) /\ (forall h t, stored w h t -> stored w' h t) /\
    (valuesOk sig = true ->
       forall b, registryView w' b = if decide (b = id) then hash else registryView w b).
Proof.
  unfold setGraph. intros Hs. apply bind_ok_inv in Hs as (sig & w1 & Hsig & Hset).
  destruct (signHash_key _ _ _ _ _ _ Hsig) as (-> & key & Hkey & Hsign). exists sig. split; [done|].
  unfold PublicAPI.SetGraph in Hset. apply onKNode_inv in Hset as (n' & Hn & Hw' & _).
  unfold zoom in Hn. destruct (Registry.SetGraph hash sig _) as [res r'] eqn:E. injection Hn as -> <-.
  split; [by intros name; unfold tablesOf; rewrite Hw'|].
  split; [by intros h t; unfold stored; rewrite Hw'|]. intros Hval b.
  destruct (SetGraph_view _ _ _ _ E) as (a & Ha & Hv). unfold registryView. rewrite Hw'. cbn [reg setReg].
  rewrite Hv. assert (a = id) as ->; [|done]. eapply writesFor_authorised; [exact Ha|exact Hval|].
  unfold authorised. rewrite canonicalSig_low; [|by eapply Sign_length|by eapply Sign_recid].
  rewrite (signer_Sign _ _ _ Hsign). by rewrite Hkey.
Qed.

Lemma Client_same args w u w' : Client dial tempDir args w = (Ok u, w') -> w' = w.
Proof.
  unfold Client. intros Hc. apply bind_ok_inv in Hc as (url & w1 & E & Hc).
  unfold lift in *. injection E as _ <-. by injection Hc as _ <-.
Qed.

(** [kord graph create], from the command line to the registry.  When the
    command succeeds its argument was an address in hex; the node has the
    graph of that name with empty tables; the storage has a file with these
    tables under some hash; and, the signature being in range, the registry
    maps the identity to that hash, and every other identity to what it was
    mapped to.  An argument that is not an address changes nothing. *)
Theorem RunGraphCreate_publishes (args : Args) (idArg : bytes) w :
  Args_String args "<id>" = Ok idArg ->
  if IsHexAddress idArg
  then forall w', RunGraphCreate dial tempDir args w = (Ok tt, w') ->
    let id := HexToAddress idArg in
    exists hash sig, tablesOf w' (Address_Hex id) = Some (Some emptyDB) /\ stored w' hash (Some emptyDB) /\
      (exists w1, signHash args id hash w1 = (Ok sig, w1)) /\
      (valuesOk sig = true ->
         forall b, registryView w' b = if decide (b = id) then hash else registryView w b)
  else RunGraphCreate dial tempDir args w = (Err invalidID, w).
Proof.
  intros Harg. unfold RunGraphCreate.
  rewrite (bind_ok _ _ w idArg w) by (unfold lift; by rewrite Harg).
  destruct (IsHexAddress idArg); cbn [negb]; [|done]. intros w' Hr.
  apply bind_ok_inv in Hr as (u & w1 & ->%Client_same & Hr).
  apply bind_ok_inv in Hr as (hash & w2 & Hcreate & Hset).
  unfold PublicAPI.CreateGraph in Hcreate. apply onKNode_inv in Hcreate as (n' & Hc & Hn' & _).
  destruct (Create_ok _ _ _ _ Hc) as (Ht & Hv & data & Hdata & Hdec).
  destruct (setGraph_publishes _ _ _ _ _ Hset) as (sig & Hsig & Htab & Hsto & Hval).
  exists hash, sig. split_and!.
  - rewrite Htab. unfold tablesOf. by rewrite Hn'.
  - apply Hsto. exists data. by rewrite Hn'.
  - by exists w2.
  - intros Hok b. rewrite (Hval Hok). case_decide; [done|]. unfold registryView. by rewrite Hn', Hv.
Qed.

Lemma sent_manifest u mh : transportable (String mh) = true ->
  let q := manifestQuad {| dappID := URI_String u; ManifestHash := mh |} in sent q = q.
Proof.
  intros Hm q. unfold sent. rewrite UnmarshalJSON_transport. unfold q, manifestQuad, triple.
  cbn [qSubject qPredicate qObject qLabel dappID ManifestHash].
  rewrite (transport_ok (String mh)), (transport_ok (IRI manifestPredicate)), (transport_ok (IRI (URI_String u)));
    [reflexivity| |reflexivity|done].
  unfold transportable. apply negb_true_iff, bool_decide_eq_false. unfold URI_String, urlString. done.
Qed.

(** Applying deltas to an open graph from afar. *)
Lemma ApplyDeltas_afar name ds opts d w res w' :
  name ∈ stores (knode (wkord w)) -> tablesOf w name = Some (Some d) ->
  onKord (PublicAPI.ApplyDeltas name ds opts) w = (res, w') ->
  name ∈ stores (knode (wkord w')) /\ (forall a, registryView w' a = registryView w a) /\
  exists d', tablesOf w' name = Some (Some d') /\
    (d' = d \/ Sql.ApplyDeltas ds opts d = (Ok tt, d')) /\
    (is_ok res = true -> Sql.ApplyDeltas ds opts d = (Ok tt, d')).
Proof.
  intros Hin Ht. unfold PublicAPI.ApplyDeltas, onKord, onKNode, zoom.
  destruct (GraphDriver.ApplyDeltas name ds opts (knode (wkord w))) as [r n'] eqn:E. intros [= <- <-].
  destruct (ApplyDeltas_open _ _ _ _ _ _ _ Hin Ht E) as (Hreg & Hst & H').
  cbn [wkord setKord knode setKNode]. rewrite Hst. split; [done|]. split; [|exact H'].
  intros a. unfold registryView. cbn [wkord setKord knode setKNode]. by rewrite Hreg.
Qed.

(** [kord dapp deploy] on an open graph: when the command succeeds, the
    quads of the dapp, under the canonical form of the URI and not as it was
    given, have been added to the graph of the URI's identity; the storage
    has a file with these tables; and the registry maps the identity to the
    hash of that file, the signature being in range, and other identities to
    what they were mapped to. *)
Theorem RunDappDeploy_publishes (args : Args) (uri api dir mh : bytes) (u : URI) (d : db) w w' :
  let name := Address_Hex (ID u) in
  Args_String args "<uri>" = Ok uri -> Parse uri = Ok u ->
  Args_String args "--swarm-api" = Ok api -> Args_String args "<dir>" = Ok dir ->
  upload api dir = Ok mh -> transportable (String mh) = true ->
  name ∈ stores (knode (wkord w)) -> tablesOf w name = Some (Some d) ->
  RunDappDeploy dial tempDir upload args w = (Ok tt, w') ->
  exists d' hash sig,
    AddQuadSet [manifestQuad {| dappID := URI_String u; ManifestHash := mh |}] d = (Ok tt, d') /\
    tablesOf w' name = Some (Some d') /\ stored w' hash (Some d') /\
    (exists w1, signHash args (ID u) hash w1 = (Ok sig, w1)) /\
    (valuesOk sig = true ->
       forall b, registryView w' b = if decide (b = ID u) then hash else registryView w b).
Proof.
  intros name Huri Hparse Hapi Hdir Hup Htr Hin Ht Hr. unfold RunDappDeploy in Hr.
  assert (forall A B (r : result A) (a : A) (k : A -> prog (world R D K) B) w0,
    r = Ok a -> (x ← lift r; k x) w0 = k a w0) as Hlift by (by intros A B r a k w0 ->).
  assert (Context_URI args = Ok u) as Hctx by (unfold Context_URI; by rewrite Huri).
  rewrite (Hlift _ _ _ _ _ _ Hctx) in Hr.
  apply bind_ok_inv in Hr as (u1 & w1 & ->%Client_same & Hr).
  rewrite (Hlift _ _ _ _ _ _ Hapi), (Hlift _ _ _ _ _ _ Hdir), (Hlift _ _ _ _ _ _ Hup) in Hr.
  apply bind_ok_inv in Hr as (qs & w1 & Hqs & Hr). unfold lift in Hqs. injection Hqs as Hqs <-.
  unfold dappQuads in Hqs. case_bool_decide; [done|]. injection Hqs as <-.
  apply bind_ok_inv in Hr as (h1 & w2 & Happ & Hr). apply bind_ok_inv in Hr as (hash & w3 & Hcom & Hset).
  cbn [fmap list_fmap] in Happ. rewrite (sent_manifest u mh Htr) in Happ.
  destruct (ApplyDeltas_afar _ _ _ _ _ _ _ Hin Ht Happ) as (_ & Hv2 & d' & Ht2 & _ & Had).
  specialize (Had eq_refl).
  unfold PublicAPI.CommitGraph in Hcom. apply onKNode_inv in Hcom as (n' & Hc & Hn' & _).
  destruct (Commit_fetched _ _ _ _ _ Hc Ht2) as (Ht3 & Hreg & data & Hdata & Hdec).
  destruct (setGraph_publishes _ _ _ _ _ Hset) as (sig & Hsig & Htab & Hsto & Hval).
  exists d', hash, sig. split_and!.
  - exact Had.
  - rewrite Htab. unfold tablesOf. by rewrite Hn'.
  - apply Hsto. exists data. by rewrite Hn'.
  - by exists w3.
  - intros Hok b. rewrite (Hval Hok). case_decide; [done|]. rewrite <- Hv2. unfold registryView. by rewrite Hn', Hreg.
Qed.
End publishing.

(** ** Witnesses *)

(** A machine whose one account is the owner of the examples. *)
Module OneAccount.
Import Toy.
#[global] Instance keystore : Keystore unit := {
  Find _ _ a := if decide (a = owner) then Ok a else Err (EMsg "no key for given address or file");
  SignHashWithPassphrase _ _ a _ hash :=
    if decide (a = owner) then Sign hash key else Err (EMsg "no key for given address or file");
  NewAccount _ _ := mret owner;
}.
#[global] Instance keystore_laws : KeystoreLaws unit.
Proof.
  split.
  - intros k dir a b. unfold Find, keystore. case_decide; [by intros [= ->]|done].
  - intros k dir a pass hash sig. unfold SignHashWithPassphrase, keystore.
    case_decide as Ha; [|done]. intros Hs. exists key. split; [by rewrite Ha|exact Hs].
Qed.
End OneAccount.

Section witnesses.
Import Toy SmallStore Digits OneAccount.

Definition words (l : list (bytes * argument)) : Args := list_to_map l.
Definition dialled (_ : bytes) : result unit := Ok tt.
Definition uploaded (_ _ : bytes) : result bytes := Ok ("aa" : bytes).

(** [kord node --config kord.toml], as docopt reads it. *)
Definition nodeArgs : Args :=
  words [("--config" : bytes, AString "kord.toml"); ("--datadir" : bytes, ANil); ("--dev" : bytes, ABool false);
         ("--root-dapp" : bytes, ANil); ("--cors-domain" : bytes, AList []); ("--testnet" : bytes, ABool false);
         ("--mine" : bytes, ABool false)].
Definition plainNode : nodeConfig :=
  {| Node_DataDir := []; Node_IPCPath := "kord.ipc"; P2P_MaxPeers := 25; P2P_ListenAddr := ":30303";
     P2P_NoDiscovery := false; P2P_DiscoveryV5 := false; P2P_BootstrapNodes := []; Eth_NetworkId := 1;
     Eth_testnetGenesis := false; Swarm_Cors := []; Kord_Config := DefaultConfig |}.

(** The file allows a domain; the node is configured without it. *)
Lemma cors_from_file_lost_witness :
  is_Some (nodeArgs !! ("--cors-domain" : bytes)) /\
  configure (Ok []) "/tmp" (fun _ c => replaceCors "http://a" ["http://a" : bytes] <$> Ok c) (fun n => Ok n)
    nodeArgs plainNode = Ok plainNode.
Proof.
  assert (is_Some (nodeArgs !! ("--cors-domain" : bytes))) as H by (vm_compute; eexists; reflexivity).
  split; [exact H|].
  refine (eq_trans (cors_from_file_lost (Ok []) "/tmp" (fun n => Ok n) (fun _ c => Ok c) nodeArgs plainNode
    "http://a" ["http://a" : bytes] H) _).
  vm_compute. reflexivity.
Defined.

(** [kord graph create] by the owner, on a node without files. *)
Definition createArgs : Args :=
  words [("<id>" : bytes, AString graphName); ("--url" : bytes, ANil); ("--keystore" : bytes, AString "keys")].
Definition newcomer : world Test.registry (list bytes) unit :=
  {| wkord := {| knode := reader1 Test.NewTestRegistry []; rootDapp := None; srv := None |};
     keys := tt; stdin := ("secret" : bytes) ++ [newline]; stdout := [] |}.
Definition created : result unit * world Test.registry (list bytes) unit :=
  RunGraphCreate dialled "/tmp" createArgs newcomer.

Lemma RunGraphCreate_publishes_witness :
  RunGraphCreate dialled "/tmp" createArgs newcomer = (Ok tt, snd created) /\
  exists hash sig, stored (snd created) hash (Some emptyDB) /\
    (valuesOk sig = true -> registryView (snd created) owner = hash).
Proof.
  assert (Args_String createArgs "<id>" = Ok graphName) as Ha by (vm_compute; reflexivity).
  assert (IsHexAddress graphName = true) as Hx by (vm_compute; reflexivity).
  assert (fst created = Ok tt) as Hf by (vm_compute; reflexivity).
  assert (RunGraphCreate dialled "/tmp" createArgs newcomer = (Ok tt, snd created)) as Hr
    by (rewrite <- Hf; apply surjective_pairing).
  split; [exact Hr|].
  pose proof (RunGraphCreate_publishes dialled "/tmp" createArgs graphName newcomer Ha) as H.
  rewrite Hx in H. destruct (H _ Hr) as (hash & sig & _ & Hs & _ & Hv). exists hash, sig.
  split; [exact Hs|]. intros Hok. rewrite (Hv Hok), decide_True; [reflexivity|].
  symmetry. apply HexToAddress_Hex.
Defined.

(** [kord dapp deploy] by the owner, on the graph of [author]. *)
Definition deployArgs : Args :=
  words [("<uri>" : bytes, AString looseURI); ("--swarm-api" : bytes, AString "bzz"); ("<dir>" : bytes, AString "dir");
         ("--url" : bytes, ANil); ("--keystore" : bytes, AString "keys")].
Definition deployer : world Test.registry (list bytes) unit :=
  {| wkord := {| knode := author; rootDapp := None; srv := None |};
     keys := tt; stdin := ("secret" : bytes) ++ [newline]; stdout := [] |}.
Definition deployment : result unit * world Test.registry (list bytes) unit :=
  RunDappDeploy dialled "/tmp" uploaded deployArgs deployer.

Lemma RunDappDeploy_publishes_witness :
  RunDappDeploy dialled "/tmp" uploaded deployArgs deployer = (Ok tt, snd deployment) /\
  exists d' hash sig, AddQuadSet [manifestQuad (appAs "aa")] emptyDB = (Ok tt, d') /\
    tablesOf (snd deployment) graphName = Some (Some d') /\ stored (snd deployment) hash (Some d') /\
    (valuesOk sig = true -> registryView (snd deployment) owner = hash).
Proof.
  assert (Args_String deployArgs "<uri>" = Ok looseURI) as H1 by (vm_compute; reflexivity).
  assert (Parse looseURI = Ok appURI) as H2 by (vm_compute; reflexivity).
  assert (Args_String deployArgs "--swarm-api" = Ok ("bzz" : bytes)) as H3 by (vm_compute; reflexivity).
  assert (Args_String deployArgs "<dir>" = Ok ("dir" : bytes)) as H4 by (vm_compute; reflexivity).
  assert (fst deployment = Ok tt) as Hf by (vm_compute; reflexivity).
  assert (RunDappDeploy dialled "/tmp" uploaded deployArgs deployer = (Ok tt, snd deployment)) as Hr
    by (rewrite <- Hf; apply surjective_pairing).
  split; [exact Hr|].
  destruct (RunDappDeploy_publishes dialled "/tmp" uploaded deployArgs looseURI "bzz" "dir" "aa" appURI emptyDB
    deployer (snd deployment) H1 H2 H3 H4 eq_refl eq_refl (proj2 (elem_of_singleton graphName graphName) eq_refl)
    author_tables Hr) as (d' & hash & sig & Hadd & Ht & Hs & _ & Hv).
  exists d', hash, sig. split; [exact Hadd|]. split; [exact Ht|]. split; [exact Hs|].
  intros Hok. pose proof (Hv Hok owner) as Hb. change (ID appURI) with owner in Hb.
  rewrite decide_True in Hb by reflexivity. exact Hb.
Defined.
End witnesses.
