(* ===== verification/Docopt.v ===== *)
(** * Command lines, from their words to the arguments of a command

    The vendored docopt-go, which reads a usage text and parses a command line
    by it, and the usage texts of [cli].  The regular expressions of the
    source are written out as functions on the text.  A leaf of a pattern is a
    value here: where the source makes equal leaves one object and then
    updates it ([fixIdentities], [fixRepeatingArguments]) the leaves are
    numbers into a list; what is matched lives in a list as well ([store]),
    since matching updates it in place.  Messages of errors are kept without
    the words they quote. *)
From stdpp Require Import pretty.
From S2P Require Import Prelude Keccak Common Uri Server Cli.

(** ** Text *)

Definition newline_ : ascii := N2b 10.
Definition isBlank (c : ascii) : bool := bool_decide (c = " "%char \/ c = N2b 9).
Definition isSpace (c : ascii) : bool := bool_decide (c = " "%char \/ (9 <= b2N c <= 13)%N).

Fixpoint trimLeft (f : ascii -> bool) (s : bytes) : bytes :=
  match s with c :: t => if f c then trimLeft f t else s | [] => [] end.
Definition TrimSpace (s : bytes) : bytes := rev (trimLeft isSpace (rev (trimLeft isSpace s))).

Fixpoint fieldsFrom (cur s : bytes) : list bytes :=
  match s with
  | [] => if bool_decide (cur = []) then [] else [cur]
  | c :: s => if isSpace c then (if bool_decide (cur = []) then id else cons cur) (fieldsFrom [] s) else fieldsFrom (cur ++ [c]) s
  end.
Definition Fields (s : bytes) : list bytes := fieldsFrom [] s.

Fixpoint cut (sep s : bytes) : option (bytes * bytes) :=
  if HasPrefix s sep then Some ([], drop (length sep) s)
  else match s with [] => None | c :: s => (fun '(a, b) => (c :: a, b)) <$> cut sep s end.
Definition stringPartition (s sep : bytes) : bytes * bytes * bytes :=
  match cut sep s with Some (a, b) => (a, sep, b) | None => (s, [], []) end.

(** The lines of a text, each with the newline that ends it. *)
Fixpoint linesFrom (cur s : bytes) : list bytes :=
  match s with
  | [] => if bool_decide (cur = []) then [] else [cur]
  | c :: s => if bool_decide (c = newline_) then (cur ++ [c]) :: linesFrom [] s else linesFrom (cur ++ [c]) s
  end.
Definition lines (s : bytes) : list bytes := linesFrom [] s.

(** ** Patterns *)

Inductive kind := Argument | Command | Option_.
#[global] Instance kind_eq_dec : EqDecision kind.
Proof. solve_decision. Defined.
#[global] Instance argument_eq_dec : EqDecision argument.
Proof. solve_decision. Defined.
Record leaf := { kindOf : kind; name : bytes; value : argument; short : bytes; long : bytes; argcount : nat }.
#[global] Instance leaf_eq_dec : EqDecision leaf.
Proof. solve_decision. Defined.

Inductive branch := Required | Optional | OptionsShortcut | OneOrMore | Either.
#[warnings="-register-all"]
Inductive pattern (L : Type) := Leaf (l : L) | Branch (b : branch) (children : list (pattern L)).
Arguments Leaf {L}. Arguments Branch {L}.

Definition newArgument (n : bytes) (v : argument) : leaf :=
  {| kindOf := Argument; name := n; value := v; short := []; long := []; argcount := 0 |}.
Definition newCommand (n : bytes) (v : argument) : leaf :=
  {| kindOf := Command; name := n; value := v; short := []; long := []; argcount := 0 |}.
Definition newOption (short long : bytes) (argcount : nat) (v : argument) : leaf :=
  {| kindOf := Option_; name := if bool_decide (long <> []) then long else short;
     value := if bool_decide (v = ABool false) && (0 <? argcount) then ANil else v;
     short := short; long := long; argcount := argcount |}.
Definition setValue (l : leaf) (v : argument) : leaf :=
  {| kindOf := kindOf l; name := name l; value := v; short := short l; long := long l; argcount := argcount l |}.

(** [flat] of all leaves, and of the options. *)
Fixpoint flat {L} (p : pattern L) : list L :=
  match p with Leaf l => [l] | Branch _ ps => concat (flat <$> ps) end.
Definition isOption (l : leaf) : bool := bool_decide (kindOf l = Option_).

(** [pattern.String] of a leaf, by which [unique] tells leaves apart. *)
Definition showNat (n : nat) : bytes := String.list_ascii_of_string (pretty (N.of_nat n)).
Definition showValue (v : argument) : bytes :=
  match v with
  | ANil => "<nil>"
  | AString s => s
  | AList l => "[" ++ Join l " " ++ "]"
  | ABool b => if b then "true" else "false"
  | AInt n => showNat n
  end.
Definition showLeaf (l : leaf) : bytes :=
  match kindOf l with
  | Option_ => "option(" ++ short l ++ ", " ++ long l ++ ", " ++ showNat (argcount l) ++ ", " ++ showValue (value l) ++ ")"
  | Argument => "argument(" ++ name l ++ ", " ++ showValue (value l) ++ ")"
  | Command => "command(" ++ name l ++ ", " ++ showValue (value l) ++ ")"
  end.
Fixpoint uniqueFrom (seen : list bytes) (l : list leaf) : list leaf :=
  match l with
  | [] => []
  | x :: l => if bool_decide (showLeaf x ∈ seen) then uniqueFrom seen l else x :: uniqueFrom (showLeaf x :: seen) l
  end.
Definition unique (l : list leaf) : list leaf := uniqueFrom [] l.

Fixpoint removeFirst (x : leaf) (l : list leaf) : option (list leaf) :=
  match l with
  | [] => None
  | y :: l => if bool_decide (y = x) then Some l else cons y <$> removeFirst x l
  end.
Fixpoint diff (pl l : list leaf) : list leaf :=
  match pl with
  | [] => []
  | x :: pl => match removeFirst x l with Some l => diff pl l | None => x :: diff pl l end
  end.

(** ** Usage texts *)

(** [parseSection]: a line that contains the name, up to case, and the indented lines after it. *)
Definition contains (n s : bytes) : bool := bool_decide (is_Some (cut n (ToLower s))).
Definition indented (l : bytes) : bool := match l with c :: _ => isBlank c | [] => false end.
Fixpoint sectionsFrom (n : bytes) (cur : option bytes) (ls : list bytes) : list bytes :=
  match ls, cur with
  | [], None => []
  | [], Some b => [TrimSpace b]
  | l :: ls, Some b =>
      if indented l then sectionsFrom n (Some (b ++ l)) ls
      else TrimSpace b :: sectionsFrom n (if contains n l then Some l else None) ls
  | l :: ls, None => sectionsFrom n (if contains n l then Some l else None) ls
  end.
Definition parseSection (n source : bytes) : list bytes := sectionsFrom n None (lines source).

(** The default in a description, up to case: the first bracket with one that is closed on its line, up to
    the last that closes there. *)
Fixpoint reDefault (s : bytes) : option bytes :=
  match s with
  | [] => None
  | _ :: t =>
      match (if HasPrefix (ToLower s) "[default: "
             then splitLast "]" (default (drop 10 s) (fst <$> splitFirst newline_ (drop 10 s))) else None) with
      | Some (v, _) => Some v
      | None => reDefault t
      end
  end.

Definition replaceByte (a b : ascii) (s : bytes) : bytes := (fun c => if bool_decide (c = a) then b else c) <$> s.

Definition parseOption (optionDescription : bytes) : leaf :=
  let '(options, _, description) := stringPartition (TrimSpace optionDescription) "  " in
  let options := replaceByte "=" " " (replaceByte "," " " options) in
  let step := fun '(sh, lo, argcount) s =>
    if HasPrefix s "--" then (sh, s, argcount) else if HasPrefix s "-" then (s, lo, argcount) else (sh, lo, 1) in
  let '(sh, lo, argcount) := foldl step ([] : bytes, [] : bytes, 0) (Fields options) in
  newOption sh lo argcount
    (if 0 <? argcount then match reDefault description with Some v => AString v | None => ANil end else ABool false).

(** Lines that start an option have a dash and more after their indentation; the text before the first is dropped. *)
Definition startsOption (l : bytes) : bool :=
  match trimLeft isBlank l with a :: b :: _ => bool_decide (a = "-"%char) && negb (isSpace b) | _ => false end.
Fixpoint optionTexts (cur : option bytes) (ls : list bytes) : list bytes :=
  match ls, cur with
  | [], None => []
  | [], Some b => [b]
  | l :: ls, None => optionTexts (if startsOption l then Some (trimLeft isBlank l) else None) ls
  | l :: ls, Some b =>
      if startsOption l then b :: optionTexts (Some (trimLeft isBlank l)) ls else optionTexts (Some (b ++ l)) ls
  end.
Definition parseDefaults (doc : bytes) : list leaf :=
  s ← parseSection "options:" doc;
  let '(_, _, s) := stringPartition s ":" in
  parseOption <$> optionTexts None (lines s).

Definition LanguageError (msg : bytes) : error := ETyped "docopt.LanguageError" msg.
Definition UserError (msg : bytes) : error := ETyped "docopt.UserError" msg.
Definition errorOf (user : bool) (msg : bytes) : error := if user then UserError msg else LanguageError msg.

Definition formalUsage (section : bytes) : result bytes :=
  let '(_, _, section) := stringPartition section ":" in
  match Fields section with
  | [] => Err (LanguageError "no fields found in usage (perhaps a spacing error).")
  | p :: pu => Ok ("( " ++ concat ((fun s => if bool_decide (s = p) then ") | ( " : bytes else s ++ " ") <$> pu) ++ ")")
  end.

(** ** Tokens of a usage *)

(** Brackets, bars and dots are set apart by spaces. *)
Fixpoint spaced (s : bytes) : bytes :=
  match s with
  | [] => []
  | c :: t =>
      if hasByte c "[]()|" then " "%char :: c :: " "%char :: spaced t
      else match t with
           | d :: e :: u => if bool_decide (c = "."%char /\ d = "."%char /\ e = "."%char) then " ... " ++ spaced u else c :: spaced t
           | _ => c :: spaced t
           end
  end.

(** An argument in angle brackets, with what stands before them without
    spaces: from the last bracket in these that is closed on the line. *)
Fixpoint angled (s : bytes) : option (bytes * bytes) :=
  match s with
  | [] => None
  | c :: t =>
      if isSpace c then None
      else match angled t with
           | Some (a, b) => Some (c :: a, b)
           | None =>
               if bool_decide (c = "<"%char) then
                 match splitFirst ">" t with
                 | Some (a, b) => if hasByte newline_ a then None else Some ((c :: a) ++ [">"%char], b)
                 | None => None
                 end
               else None
           end
  end.
Definition flushWord (cur : bytes) (ts : list bytes) : list bytes := if bool_decide (cur = []) then ts else cur :: ts.
Fixpoint words (fuel : nat) (cur s : bytes) : list bytes :=
  match fuel, s with
  | O, _ | _, [] => flushWord cur []
  | S fuel, c :: t =>
      if isSpace c then flushWord cur (words fuel [] t)
      else match angled s with
           | Some (a, b) => flushWord cur (a :: words fuel [] b)
           | None => words fuel (cur ++ [c]) t
           end
  end.
Definition tokenListFromPattern (source : bytes) : list bytes := let s := spaced source in words (length s) [] s.

(** ** Parsing words *)

(** The words that are left, and the options that are known. *)
Record tokens := { toks : list bytes; opts : list leaf }.
Abbreviation parser := (prog tokens).

Definition current : parser (option bytes) := fun s => (Ok (head (toks s)), s).
Definition move : parser bytes := fun s =>
  (Ok (default [] (head (toks s))), {| toks := tail (toks s); opts := opts s |}).
Definition options : parser (list leaf) := fun s => (Ok (opts s), s).
Definition addOption (o : leaf) : parser unit := fun s => (Ok tt, {| toks := toks s; opts := opts s ++ [o] |}).

(** No word is left, or the next is a double dash. *)
Definition noWord (t : option bytes) : bool := bool_decide (t = None \/ t = Some ("--" : bytes)).

(** [parseLong], of a usage or of a command line ([user]). *)
Definition parseLong (user : bool) : parser leaf :=
  tok ← move;
  let '(lo, eq, v) := stringPartition tok "=" in
  let val := if bool_decide (eq = [] /\ v = []) then ANil else AString v in
  if negb (HasPrefix lo "--") then throw (EMsg "long option doesn't start with --") else
  os ← options;
  let exact := filter (fun o => long o = lo) os in
  let similar := if user && bool_decide (exact = []) then filter (fun o => HasPrefix (long o) lo = true) os else exact in
  match similar with
  | [] =>
      let n := if bool_decide (eq = []) then 0 else 1 in
      let opt := newOption [] lo n (ABool false) in
      _ ← addOption opt;
      mret (if user then newOption [] lo n (if 0 <? n then val else ABool true) else opt)
  | [o] =>
      let opt := newOption (short o) (long o) (argcount o) (value o) in
      val ← (if argcount opt =? 0
             then if bool_decide (val <> ANil) then throw (errorOf user "must not have an argument") else mret val
             else if bool_decide (val = ANil) then
               t ← current;
               if noWord t then throw (errorOf user "requires argument") else w ← move; mret (AString w)
             else mret val);
      mret (if user then setValue opt (if bool_decide (val <> ANil) then val else ABool true) else opt)
  | _ => throw (errorOf user "is not a unique prefix")
  end.

(** [parseShorts]: the options of one word, after its dashes. *)
Fixpoint shorts (user : bool) (w : bytes) : parser (list leaf) :=
  match w with
  | [] => mret []
  | c :: w =>
      let sh := ["-"%char; c] in
      os ← options;
      match filter (fun o => short o = sh) os with
      | [] =>
          let opt := newOption sh [] 0 (ABool false) in
          _ ← addOption opt;
          rest ← shorts user w;
          mret ((if user then newOption sh [] 0 (ABool true) else opt) :: rest)
      | [o] =>
          let opt := newOption sh (long o) (argcount o) (value o) in
          if 0 <? argcount opt then
            match w with
            | [] =>
                t ← current;
                if noWord t then throw (errorOf user "requires argument")
                else v ← move; mret [if user then setValue opt (AString v) else opt]
            | _ => mret [if user then setValue opt (AString w) else opt]
            end
          else
            rest ← shorts user w;
            mret ((if user then setValue opt (ABool true) else opt) :: rest)
      | _ => throw (errorOf user "is specified ambiguously")
      end
  end.
Definition parseShorts (user : bool) : parser (list leaf) :=
  tok ← move;
  if negb (HasPrefix tok "-") || HasPrefix tok "--" then throw (EMsg "short option doesn't start with -")
  else shorts user (trimLeft (fun c => bool_decide (c = "-"%char)) tok).

(** [parseArgv]: the options and arguments of a command line. *)
Fixpoint parseArgv (fuel : nat) (optionsFirst : bool) : parser (list leaf) :=
  match fuel with
  | O => gopanic "out of fuel"
  | S fuel =>
      s ← get;
      let rest := (fun w => newArgument [] (AString w)) <$> toks s in
      match toks s with
      | [] => mret []
      | w :: _ =>
          if bool_decide (w = ("--" : bytes)) then mret rest
          else if HasPrefix w "--" then o ← parseLong true; l ← parseArgv fuel optionsFirst; mret (o :: l)
          else if HasPrefix w "-" && negb (bool_decide (w = ("-" : bytes))) then
            os ← parseShorts true; l ← parseArgv fuel optionsFirst; mret (os ++ l)
          else if optionsFirst then mret rest
          else w ← move; l ← parseArgv fuel optionsFirst; mret (newArgument [] (AString w) :: l)
      end
  end.

(** ** Parsing a usage *)

Definition isStringUppercase (s : bytes) : bool :=
  negb (existsb (in_range "a" "z") s) && existsb (in_range "A" "Z") s.
Definition HasSuffix (s suffix : bytes) : bool := HasPrefix (rev s) (rev suffix).

(** One pattern as it is, several as one that requires them. *)
Definition grouped (seq : list (pattern leaf)) : list (pattern leaf) :=
  if 1 <? length seq then [Branch Required seq] else seq.

Fixpoint parseExpr (fuel : nat) : parser (list (pattern leaf)) :=
  match fuel with
  | O => gopanic "out of fuel"
  | S fuel =>
      seq ← parseSeq fuel;
      t ← current;
      if negb (bool_decide (t = Some ("|" : bytes))) then mret seq
      else rest ← parseAlternatives fuel;
           let result := grouped seq ++ rest in
           mret (if 1 <? length result then [Branch Either result] else result)
  end
with parseAlternatives (fuel : nat) : parser (list (pattern leaf)) :=
  match fuel with
  | O => gopanic "out of fuel"
  | S fuel =>
      t ← current;
      if negb (bool_decide (t = Some ("|" : bytes))) then mret []
      else _ ← move; seq ← parseSeq fuel; rest ← parseAlternatives fuel; mret (grouped seq ++ rest)
  end
with parseSeq (fuel : nat) : parser (list (pattern leaf)) :=
  match fuel with
  | O => gopanic "out of fuel"
  | S fuel =>
      t ← current;
      if bool_decide (t ∈ [None; Some ("]" : bytes); Some (")" : bytes); Some ("|" : bytes)]) then mret []
      else atom ← parseAtom fuel;
           t ← current;
           atom ← (if bool_decide (t = Some ("..." : bytes)) then _ ← move; mret [Branch OneOrMore atom] else mret atom);
           rest ← parseSeq fuel;
           mret (atom ++ rest)
  end
with parseAtom (fuel : nat) : parser (list (pattern leaf)) :=
  match fuel with
  | O => gopanic "out of fuel"
  | S fuel =>
      t ← current;
      let tok := default [] t in
      if bool_decide (tok ∈ ["(" : bytes; "[" : bytes]) then
        _ ← move; pl ← parseExpr fuel; m ← current; _ ← move;
        let '(b, matching) := if bool_decide (tok = ("(" : bytes)) then (Required, ")" : bytes) else (Optional, "]" : bytes) in
        if bool_decide (m = Some matching) then mret [Branch b pl] else throw (LanguageError "unmatched")
      else if bool_decide (tok = ("options" : bytes)) then _ ← move; mret [Branch OptionsShortcut []]
      else if HasPrefix tok "--" && negb (bool_decide (tok = ("--" : bytes))) then o ← parseLong false; mret [Leaf o]
      else if HasPrefix tok "-" && negb (bool_decide (tok ∈ ["-" : bytes; "--" : bytes])) then
        os ← parseShorts false; mret (Leaf <$> os)
      else if (HasPrefix tok "<" && HasSuffix tok ">") || isStringUppercase tok then
        w ← move; mret [Leaf (newArgument w ANil)]
      else w ← move; mret [Leaf (newCommand w (ABool false))]
  end.

Definition parsePattern (source : bytes) (os : list leaf) : result (pattern leaf) * tokens :=
  let ts := tokenListFromPattern source in
  (pl ← parseExpr (4 * S (length ts)); t ← current;
   if bool_decide (t <> None) then throw (LanguageError "unexpected ending") else mret (Branch Required pl))
    {| toks := ts; opts := os |}.

(** The options of the text, but for those of the pattern, in place of each shortcut. *)
Fixpoint withShortcuts (os : list leaf) (p : pattern leaf) : pattern leaf :=
  match p with
  | Leaf l => Leaf l
  | Branch OptionsShortcut _ => Branch OptionsShortcut (Leaf <$> os)
  | Branch b ps => Branch b (withShortcuts os <$> ps)
  end.

(** [fixIdentities]: each leaf as its place among those that differ. *)
Fixpoint numbered (uniq : list leaf) (p : pattern leaf) : result (pattern nat) :=
  match p with
  | Leaf l => match list_find (fun x => x = l) uniq with Some (i, _) => Ok (Leaf i) | None => Err (EMsg "not in list") end
  | Branch b ps =>
      qs ← (fix go (ps : list (pattern leaf)) : result (list (pattern nat)) :=
              match ps with [] => Ok [] | p :: ps => q ← numbered uniq p; qs ← go ps; Ok (q :: qs) end) ps;
      Ok (Branch b qs)
  end.

(** [transform]: the lists of leaves that the pattern stands for, almost. *)
Fixpoint firstBranch (g : list (pattern nat)) : option (list (pattern nat) * branch * list (pattern nat) * list (pattern nat)) :=
  match g with
  | [] => None
  | Branch b ps :: g => Some ([], b, ps, g)
  | p :: g => (fun '(before, b, ps, after) => (p :: before, b, ps, after)) <$> firstBranch g
  end.
Fixpoint transform (fuel : nat) (groups : list (list (pattern nat))) : result (list (list (pattern nat))) :=
  match fuel, groups with
  | _, [] => Ok []
  | O, _ => Panic "out of fuel"
  | S fuel, g :: groups =>
      match firstBranch g with
      | None => cases ← transform fuel groups; Ok (g :: cases)
      | Some (before, b, ps, after) =>
          let others := before ++ after in
          transform fuel (groups ++
            match b with
            | Either => (fun c => c :: others) <$> ps
            | OneOrMore => [ps ++ ps ++ others]
            | _ => [ps ++ others]
            end)
      end
  end.

(** [fixRepeatingArguments]: leaves that come more than once hold lists and counts. *)
Definition repeating (l : leaf) : leaf :=
  if bool_decide (kindOf l = Argument) || isOption l && (0 <? argcount l) then
    setValue l (match value l with AString s => AList (Fields s) | AList v => AList v | _ => AList [] end)
  else setValue l (AInt 0).
Definition repeatingCase (uniq : list leaf) (cas : list nat) : list leaf :=
  let at_ i := nth i uniq (newArgument [] ANil) in
  let multiple := filter (fun i => 1 < length (filter (fun j => at_ j = at_ i) cas)) cas in
  foldl (fun u i => alter repeating i u) uniq multiple.
Definition numberOf (p : pattern nat) : list nat := flat p.
Definition fixPattern (p : pattern leaf) : result (pattern leaf) :=
  let uniq := unique (flat p) in
  q ← numbered uniq p;
  cases ← transform 4096 [[q]];
  let uniq := foldl (fun u c => repeatingCase u (concat (numberOf <$> c))) uniq cases in
  Ok ((fix resolve (p : pattern nat) : pattern leaf :=
         match p with
         | Leaf i => Leaf (nth i uniq (newArgument [] ANil))
         | Branch b ps => Branch b (resolve <$> ps)
         end) q).

(** ** Matching *)

(** The leaves of the command line and those that matching makes; lists of
    them are lists of their places. *)
Abbreviation store := (list leaf).
Definition noLeaf : leaf := newArgument [] ANil.
Definition at_ (h : store) (i : nat) : leaf := nth i h noLeaf.
Definition alloc (l : leaf) : prog store nat := fun h => (Ok (length h), h ++ [l]).

(** [singleMatch]: the place of the match among those that are left, and the
    match, which is a new leaf unless it is an option. *)
Definition singleMatch (p : leaf) (lft : list nat) : prog store (option (nat * nat)) :=
  h ← get;
  match kindOf p with
  | Argument =>
      match list_find (fun i => kindOf (at_ h i) = Argument) lft with
      | Some (n, i) => m ← alloc (newArgument (name p) (value (at_ h i))); mret (Some (n, m))
      | None => mret None
      end
  | Command =>
      match list_find (fun i => kindOf (at_ h i) = Argument) lft with
      | Some (n, i) =>
          if bool_decide (value (at_ h i) = AString (name p)) then m ← alloc (newCommand (name p) (ABool true)); mret (Some (n, m))
          else mret None
      | None => mret None
      end
  | Option_ => mret (list_find (fun i => name p = name (at_ h i)) lft)
  end.

Definition store_ (i : nat) (v : argument) : prog store unit := modify (alter (fun l => setValue l v) i).
Definition badConversion {A} : prog store A := gopanic "interface conversion".

(** Whether it matched, what is left, and what has been collected. *)
Definition matching : Type := bool * list nat * list nat.

Definition matchLeaf (p : leaf) (lft coll : list nat) : prog store matching :=
  m ← singleMatch p lft;
  match m with
  | None => mret (false, lft, coll)
  | Some (pos, m) =>
      let leftAlt := take pos lft ++ drop (S pos) lft in
      h ← get;
      match value p with
      | AInt _ | AList _ =>
          let increment := match value p with
                           | AInt _ => AInt 1
                           | _ => match value (at_ h m) with AString s => AList [s] | v => v end
                           end in
          match filter (fun a => name (at_ h a) = name p) coll with
          | [] => _ ← store_ m increment; mret (true, leftAlt, coll ++ [m])
          | s :: _ =>
              _ ← (match value (at_ h s) with
                   | AInt n => match increment with AInt k => store_ s (AInt (n + k)) | _ => badConversion end
                   | AList l => match increment with AList k => store_ s (AList (l ++ k)) | _ => badConversion end
                   | _ => mret tt
                   end);
              mret (true, leftAlt, coll)
          end
      | _ => mret (true, leftAlt, coll ++ [m])
      end
  end.

(** The outcome with the least left, as the source finds it. *)
Definition best (o : matching) (os : list matching) : matching :=
  foldl (fun b x => if length (snd (fst x)) <? length (snd (fst o)) then x else b) o os.

Section branches.
Context {P : Type} (m : P -> list nat -> list nat -> prog store matching).

Fixpoint matchAll (ps : list P) (lft coll : list nat) : prog store matching :=
  match ps with
  | [] => mret (true, lft, coll)
  | p :: ps => r ← m p lft coll; let '(ok, l, c) := r in if (ok : bool) then matchAll ps l c else mret (false, lft, coll)
  end.
Fixpoint matchAny (ps : list P) (lft coll : list nat) : prog store matching :=
  match ps with
  | [] => mret (true, lft, coll)
  | p :: ps => r ← m p lft coll; let '(_, l, c) := r in matchAny ps l c
  end.
Fixpoint outcomes (ps : list P) (lft coll : list nat) : prog store (list matching) :=
  match ps with
  | [] => mret []
  | p :: ps => r ← m p lft coll; rs ← outcomes ps lft coll; mret (let '(ok, _, _) := r in if (ok : bool) then r :: rs else rs)
  end.
End branches.

(** [lAlt] is the length of what the turn before left: lists are one object exactly when nothing was taken. *)
Fixpoint matchMore (m : list nat -> list nat -> prog store matching) (fuel times : nat) (lAlt : option nat)
    (lft coll : list nat) : prog store (nat * list nat * list nat) :=
  match fuel with
  | O => gopanic "out of fuel"
  | S fuel =>
      r ← m lft coll;
      let '(ok, l, c) := r in
      let times := if (ok : bool) then S times else times in
      if bool_decide (lAlt = Some (length l)) || negb ok then mret (times, l, c)
      else matchMore m fuel times (Some (length l)) l c
  end.

Fixpoint match_ (p : pattern leaf) (lft coll : list nat) : prog store matching :=
  match p with
  | Leaf l => matchLeaf l lft coll
  | Branch Required ps =>
      r ← matchAll match_ ps lft coll;
      mret (let '(ok, _, _) := r in if (ok : bool) then r else (false, lft, coll))
  | Branch (Optional | OptionsShortcut) ps => matchAny match_ ps lft coll
  | Branch OneOrMore ps =>
      match ps with
      | [p] =>
          r ← matchMore (match_ p) (S (S (length lft))) 0 None lft coll;
          let '(times, l, c) := r in
          mret (if 1 <=? times then (true, l, c) else (false, lft, coll))
      | _ => gopanic "OneOrMore.match(): assert len(p.children) == 1"
      end
  | Branch Either ps =>
      os ← outcomes match_ ps lft coll;
      mret (match os with [] => (false, lft, coll) | o :: os => best o os end)
  end.

(** ** [Parse] *)

Definition dictionary (l : list leaf) : Args := foldl (fun d x => <[name x := value x]> d) ∅ l.

Definition trimNewlines (s : bytes) : bytes :=
  let f := fun c : ascii => bool_decide (c = newline_) in rev (trimLeft f (rev (trimLeft f s))).
Definition extras (help : bool) (version : bytes) (os : list leaf) (doc : bytes) : bytes :=
  if help && existsb (fun o => bool_decide (name o ∈ ["-h" : bytes; "--help" : bytes] /\ value o = ABool true)) os then trimNewlines doc
  else if bool_decide (version <> []) && existsb (fun o => bool_decide (name o = ("--version" : bytes) /\ value o = ABool true)) os
  then version else [].

Definition handleError {A B} (usage : bytes) (r : result A) (k : A -> ends B) : ends B :=
  match r with
  | Ok a => k a
  | Panic p => Goes (Panic p)
  | Err (ETyped t msg) =>
      if String.eqb t "docopt.UserError" then Exits 1 (TrimSpace (msg ++ [newline_] ++ usage)) else Goes (Err (ETyped t msg))
  | Err e => Goes (Err e)
  end.

Definition docShortcut (doc : bytes) (pat : pattern leaf) : pattern leaf :=
  withShortcuts (diff (unique (parseDefaults doc)) (unique (filter (fun l => isOption l = true) (flat pat)))) pat.

(** Matching, with all that is left to do: the leaves whose values count, a later one before an earlier. *)
Definition finishLeaves (pat : pattern leaf) (args : list leaf) : result (list leaf) :=
  match match_ pat (seq 0 (length args)) [] args with
  | (Ok (matched, lft, coll), h) =>
      if matched && (length lft =? 0) then Ok (flat pat ++ (at_ h <$> coll)) else Err (UserError "")
  | (Err e, _) => Err e
  | (Panic p, _) => Panic p
  end.
Definition finish (pat : pattern leaf) (args : list leaf) : result Args := dictionary <$> finishLeaves pat args.

Definition Parse (doc : bytes) (argv : list bytes) (help : bool) (version : bytes) (optionsFirst : bool) : ends Args :=
  match parseSection "usage:" doc with
  | [usage] =>
      handleError usage (formalUsage usage) (fun formal =>
      let '(r, st) := parsePattern formal (parseDefaults doc) in
      handleError usage r (fun pat =>
      handleError usage (fst (parseArgv (S (length argv)) optionsFirst {| toks := argv; opts := opts st |})) (fun args =>
      let output := extras help version args doc in
      if negb (length output =? 0) then Exits 0 output
      else handleError usage (fixPattern (docShortcut doc pat)) (fun pat =>
           handleError usage (finish pat args) (fun a => Goes (Ok a))))))
  | [] => Goes (Err (LanguageError "usage: not found."))
  | _ => Goes (Err (LanguageError "More than one usage:"))
  end.

(** ** What of [Parse] does not depend on the command line *)

Definition compiled (doc : bytes) : option (bytes * list leaf * pattern leaf) :=
  match parseSection "usage:" doc with
  | [usage] =>
      match formalUsage usage with
      | Ok formal =>
          match parsePattern formal (parseDefaults doc) with
          | (Ok pat, st) => match fixPattern (docShortcut doc pat) with Ok p => Some (usage, opts st, p) | _ => None end
          | _ => None
          end
      | _ => None
      end
  | _ => None
  end.

Lemma Parse_compiled doc us os p argv help version first :
  compiled doc = Some (us, os, p) ->
  Parse doc argv help version first =
  handleError us (fst (parseArgv (S (length argv)) first {| toks := argv; opts := os |})) (fun args =>
    let output := extras help version args doc in
    if negb (length output =? 0) then Exits 0 output
    else handleError us (finish p args) (fun a => Goes (Ok a))).
Proof.
  unfold compiled, Parse. destruct (parseSection _ doc) as [|u [|? ?]]; [done| |done].
  destruct (formalUsage u) as [formal|e|q]; [|done..]. cbn [handleError].
  destruct (parsePattern formal (parseDefaults doc)) as [[pat|e|q] st]; [|done..]. cbn [handleError].
  destruct (fixPattern (docShortcut doc pat)) as [p'|e|q]; [|done..]. intros [= -> <- <-]. reflexivity.
Qed.

(** *** The words of a command line *)

(** Not an option. *)
Definition plain (w : bytes) : Prop := HasPrefix w "-" = false.

Lemma plain_long w : plain w -> HasPrefix w "--" = false /\ w <> ("--" : bytes).
Proof.
  unfold plain, HasPrefix. intros H. apply bool_decide_eq_false in H. split.
  - apply bool_decide_eq_false. intros E. apply H. destruct w as [|a [|b w]]; [done|discriminate E|]. cbn in *. congruence.
  - intros ->. by apply H.
Qed.

Lemma argv_word w ws os fuel l st :
  plain w -> parseArgv fuel false {| toks := ws; opts := os |} = (Ok l, st) ->
  parseArgv (S fuel) false {| toks := w :: ws; opts := os |} = (Ok (newArgument [] (AString w) :: l), st).
Proof.
  intros Hp Hl. destruct (plain_long _ Hp) as [H1 H2]. cbn [parseArgv]. unfold mbind at 1, prog_bind at 1, get at 1. cbn [toks].
  rewrite (bool_decide_eq_false_2 (w = _)) by done. rewrite H1, Hp. cbn [andb].
  rewrite (bind_ok _ _ _ w {| toks := ws; opts := os |}) by done. by rewrite (bind_ok _ _ _ _ _ Hl).
Qed.

(** The first word when options come first. *)
Lemma argv_first w ws os fuel :
  plain w ->
  parseArgv (S fuel) true {| toks := w :: ws; opts := os |} =
  (Ok ((fun w => newArgument [] (AString w)) <$> (w :: ws)), {| toks := w :: ws; opts := os |}).
Proof.
  intros Hp. destruct (plain_long _ Hp) as [H1 H2]. cbn [parseArgv]. unfold mbind at 1, prog_bind at 1, get at 1. cbn [toks].
  rewrite (bool_decide_eq_false_2 (w = _)) by done. by rewrite H1, Hp.
Qed.

(** An option that is known, with its value. *)
Lemma argv_flag first f v ws os o fuel l st :
  HasPrefix f "--" = true -> hasByte "=" f = false -> f <> ("--" : bytes) -> v <> ("--" : bytes) ->
  filter (fun o => long o = f) os = [o] -> argcount o = 1 ->
  parseArgv fuel first {| toks := ws; opts := os |} = (Ok l, st) ->
  parseArgv (S fuel) first {| toks := f :: v :: ws; opts := os |} =
  (Ok (setValue (newOption (short o) (long o) 1 (value o)) (AString v) :: l), st).
Proof.
  intros Hf He Hd Hv Ho Hn Hl. cbn [parseArgv]. unfold mbind at 1, prog_bind at 1, get at 1. cbn [toks].
  rewrite (bool_decide_eq_false_2 (f = _)) by done. rewrite Hf.
  assert (stringPartition f "=" = (f, [], [])) as Hsp.
  { unfold stringPartition. assert (cut "=" f = None) as ->; [|done]. clear -He.
    induction f as [|c f IH]; [done|]. cbn [cut]. unfold hasByte in *. apply bool_decide_eq_false in He.
    apply not_elem_of_cons in He as [Hc He]. rewrite IH by (by apply bool_decide_eq_false).
    unfold HasPrefix. rewrite bool_decide_eq_false_2; [done|]. cbn. intros [= E]. by apply Hc. }
  assert (parseLong true {| toks := f :: v :: ws; opts := os |} =
    (Ok (setValue (newOption (short o) (long o) 1 (value o)) (AString v)), {| toks := ws; opts := os |})) as Hpl.
  { unfold parseLong. rewrite (bind_ok _ _ _ f {| toks := v :: ws; opts := os |}) by done. rewrite Hsp.
    rewrite Hf. cbn [negb]. rewrite (bind_ok _ _ _ os {| toks := v :: ws; opts := os |}) by done.
    rewrite Ho, (bool_decide_eq_false_2 ([o] = [])) by done. cbn [andb]. rewrite Hn.
    rewrite (bind_ok _ _ _ (AString v) {| toks := ws; opts := os |}); [done|].
    cbn [newOption argcount Nat.eqb]. rewrite !(bool_decide_eq_true_2 _) by done. rewrite (bind_ok _ _ _ (Some v) {| toks := v :: ws; opts := os |}) by done.
    unfold noWord. rewrite bool_decide_eq_false_2; [done|]. by intros [|[= ->]]. }
  rewrite (bind_ok _ _ _ _ _ Hpl). by rewrite (bind_ok _ _ _ _ _ Hl).
Qed.
