(* ===== verification/Matching.v ===== *)
(** * What command lines can be matched to

    For every command line: the words are parsed to leaves that agree with the
    options of the usage, and matching, whatever it goes through, collects
    values of the kind that the usage says.  A usage is a list of options and
    a pattern, as [Docopt.compiled] gives them. *)
From S2P Require Import Prelude Keccak Common Uri Server Cli Docopt.

(** ** Kinds of values *)

Inductive ty := TString | TList | TBool.
#[global] Instance ty_eq_dec : EqDecision ty.
Proof. solve_decision. Defined.

Definition fits (t : ty) (v : argument) : bool :=
  match t, v with
  | TString, (ANil | AString _) | TList, (ANil | AList _) | TBool, ABool _ => true
  | _, _ => false
  end.

(** What a leaf of a pattern holds. *)
Definition typeOfLeaf (p : leaf) : option ty :=
  match kindOf p, argcount p, value p with
  | Command, _, ABool false => Some TBool
  | Option_, 0, ABool false => Some TBool
  | Argument, _, (ANil | AString _) | Option_, S _, (ANil | AString _) => Some TString
  | Argument, _, AList _ | Option_, S _, AList _ => Some TList
  | _, _, _ => None
  end.
Definition types (p : pattern leaf) : gmap bytes ty :=
  foldl (fun g l => match typeOfLeaf l with Some t => <[name l := t]> g | None => g end) ∅ (flat p).

(** What an option takes. *)
Definition agrees (t : option ty) (n : nat) : bool :=
  match t, n with None, _ | Some TBool, 0 | Some TString, S _ | Some TList, S _ => true | _, _ => false end.
Definition optName (o : leaf) : bytes := if bool_decide (long o <> []) then long o else short o.

(** OneOrMore has one pattern below. *)
Fixpoint proper (p : pattern leaf) : bool :=
  match p with
  | Leaf _ => true
  | Branch b ps => (match b, ps with OneOrMore, [_] => true | OneOrMore, _ => false | _, _ => true end) && forallb proper ps
  end.

(** A usage whose names have one kind each. *)
Definition sound (os : list leaf) (p : pattern leaf) : bool :=
  forallb (fun l => bool_decide (is_Some (typeOfLeaf l) /\ types p !! name l = typeOfLeaf l /\ name l <> [])) (flat p)
  && forallb (fun o => agrees (types p !! optName o) (argcount o)) os
  && forallb (fun '(n, _) => negb (HasPrefix n "-") || (2 <? length n) && existsb (fun o => bool_decide (long o = n)) os)
       (map_to_list (types p))
  && proper p.

Section sound.
Context (g : gmap bytes ty).

(** An option of the command line. *)
Definition okOption (l : leaf) : Prop :=
  match g !! name l with
  | Some TBool => value l = ABool true
  | Some TString => exists s, value l = AString s
  | Some TList => exists s, value l = AString s \/ exists ss, value l = AList ss
  | None => True
  end.
Definition argvLeaf (l : leaf) : Prop :=
  match kindOf l with
  | Argument => name l = [] /\ exists s, value l = AString s
  | Command => False
  | Option_ => okOption l
  end.

(** ** Matching *)

Definition okLeaf (p : leaf) : Prop := exists t, typeOfLeaf p = Some t /\ g !! name p = Some t /\ name p <> [].

(** A leaf that is there to be matched, and one that has been collected. *)
Definition storeLeaf (l : leaf) : Prop :=
  match kindOf l with Option_ => okOption l | _ => name l = [] -> exists s, value l = AString s end.
Definition collLeaf (l : leaf) : Prop :=
  match g !! name l with
  | Some TBool => value l = ABool true
  | Some TString => exists s, value l = AString s
  | Some TList => exists ss, value l = AList ss
  | None => False
  end.
Definition evolves (h h' : list leaf) : Prop :=
  length h <= length h' /\ forall i, i < length h -> name (at_ h' i) = name (at_ h i) /\
    kindOf (at_ h' i) = kindOf (at_ h i) /\ (collLeaf (at_ h i) -> collLeaf (at_ h' i)).
Definition leftOk (h : list leaf) (i : nat) : Prop :=
  i < length h /\ (kindOf (at_ h i) = Option_ \/ kindOf (at_ h i) = Argument /\ name (at_ h i) = []).
Definition collOk (h : list leaf) (i : nat) : Prop := i < length h /\ collLeaf (at_ h i).
Definition inv (h : list leaf) (lft coll : list nat) : Prop :=
  Forall storeLeaf h /\ Forall (leftOk h) lft /\ Forall (collOk h) coll.
Definition names (h : list leaf) (c : list nat) : list bytes := (fun i => name (at_ h i)) <$> c.

#[local] Instance evolves_refl : Reflexive evolves.
Proof. intros h. split; [done|]. naive_solver. Qed.
#[local] Instance evolves_trans : Transitive evolves.
Proof.
  intros h1 h2 h3 [Hl1 H1] [Hl2 H2]. split; [lia|]. intros i Hi.
  destruct (H1 i Hi) as (? & ? & ?), (H2 i ltac:(lia)) as (? & ? & ?). split_and!; [congruence..|auto].
Qed.
Lemma leftOk_evolves h h' i : evolves h h' -> leftOk h i -> leftOk h' i.
Proof. intros [Hl He] [Hi Hk]. destruct (He i Hi) as (Hn & Hk' & _). split; [lia|]. by rewrite Hk', Hn. Qed.
Lemma collOk_evolves h h' i : evolves h h' -> collOk h i -> collOk h' i.
Proof. intros [Hl He] [Hi Hk]. destruct (He i Hi) as (_ & _ & Hc). split; [lia|auto]. Qed.
Lemma inv_evolves h h' lft coll : Forall storeLeaf h' -> evolves h h' -> inv h lft coll -> inv h' lft coll.
Proof.
  intros Hs He (_ & Hl & Hc). split_and!; [done| |].
  - eapply Forall_impl; [exact Hl|]. intros i. by apply leftOk_evolves.
  - eapply Forall_impl; [exact Hc|]. intros i. by apply collOk_evolves.
Qed.
Lemma names_evolves h h' coll lft : evolves h h' -> inv h lft coll -> names h' coll = names h coll.
Proof.
  intros [_ He] (_ & _ & Hc). apply list_fmap_ext. intros k i Hk. cbn.
  eapply Forall_lookup_1 in Hc as [Hi _]; [|exact Hk]. by destruct (He i Hi).
Qed.
Lemma at_in h i : Forall storeLeaf h -> i < length h -> storeLeaf (at_ h i).
Proof.
  intros Hs Hi. unfold at_. rewrite nth_lookup. destruct (lookup_lt_is_Some_2 h i Hi) as [x Hx]. rewrite Hx.
  by eapply Forall_lookup_1 in Hs.
Qed.

Lemma at_alloc h l i : i < length h -> at_ (h ++ [l]) i = at_ h i.
Proof. intros Hi. unfold at_. by rewrite app_nth1. Qed.
Lemma at_new h l : at_ (h ++ [l]) (length h) = l.
Proof. unfold at_. rewrite app_nth2 by lia. by rewrite Nat.sub_diag. Qed.
Lemma at_alter f h i j : at_ (alter f i h) j = if decide (i = j /\ j < length h) then f (at_ h j) else at_ h j.
Proof.
  unfold at_. rewrite !nth_lookup. destruct (decide (i = j)) as [->|Hne].
  - rewrite list_lookup_alter_eq. destruct (h !! j) as [x|] eqn:Hj.
    + rewrite decide_True; [done|]. split; [done|]. by eapply lookup_lt_Some.
    + rewrite decide_False; [done|]. intros [_ Hlt]. apply lookup_lt_is_Some in Hlt. rewrite Hj in Hlt. by destruct Hlt.
  - rewrite list_lookup_alter_ne by done. rewrite decide_False; [done|]. by intros [? _].
Qed.

(** Adding a leaf, and making a leaf hold a list. *)
Lemma evolves_alloc h l : storeLeaf l -> Forall storeLeaf h -> Forall storeLeaf (h ++ [l]) /\ evolves h (h ++ [l]).
Proof.
  intros Hl Hh. split; [apply Forall_app_2; [done|by constructor]|]. split; [rewrite length_app; lia|].
  intros i Hi. rewrite at_alloc by done. naive_solver.
Qed.
Lemma evolves_list h i ss :
  Forall storeLeaf h -> i < length h -> g !! name (at_ h i) = Some TList -> name (at_ h i) <> [] ->
  let h' := alter (fun l => setValue l (AList ss)) i h in
  Forall storeLeaf h' /\ evolves h h' /\ collLeaf (at_ h' i).
Proof.
  intros Hh Hi Ht Hn h'. assert (length h' = length h) as Hlen by apply length_alter.
  assert (forall j, name (at_ h' j) = name (at_ h j) /\ kindOf (at_ h' j) = kindOf (at_ h j)) as Hsame.
  { intros j. unfold h'. rewrite at_alter. by destruct (decide _). }
  assert (value (at_ h' i) = AList ss) as Hv by (unfold h'; by rewrite at_alter, decide_True).
  split_and!.
  - apply Forall_lookup_2. intros j l Hj. assert (j < length h) as Hjl by (rewrite <- Hlen; by eapply lookup_lt_Some).
    assert (l = at_ h' j) as -> by (unfold at_; by rewrite nth_lookup, Hj).
    destruct (Hsame j) as [Hnj Hkj]. pose proof (at_in _ _ Hh Hjl) as Hs. unfold storeLeaf in *. rewrite Hkj.
    destruct (decide (i = j)) as [<-|Hne].
    + destruct (kindOf (at_ h i)); [by rewrite Hnj..|]. unfold okOption in *. rewrite Hnj, Ht. exists []. right. by exists ss.
    + assert (at_ h' j = at_ h j) as -> by (unfold h'; rewrite at_alter, decide_False; [done|by intros [? _]]). done.
  - split; [lia|]. intros j Hj. destruct (Hsame j) as [Hnj Hkj]. split_and!; [done..|]. unfold collLeaf. rewrite Hnj.
    destruct (decide (i = j)) as [<-|Hne]; [rewrite Ht, Hv; intros _; by exists ss|].
    assert (at_ h' j = at_ h j) as -> by (unfold h'; rewrite at_alter, decide_False; [done|by intros [? _]]). done.
  - unfold collLeaf. destruct (Hsame i) as [-> _]. rewrite Ht, Hv. by exists ss.
Qed.
(** *** A leaf *)

(** What is matched has the name of the pattern, and a value for it. *)
Lemma singleMatch_ok p h lft coll :
  okLeaf p -> inv h lft coll ->
  singleMatch p lft h = (Ok None, h) \/
  exists pos m h', singleMatch p lft h = (Ok (Some (pos, m)), h') /\ pos < length lft /\ Forall storeLeaf h' /\ evolves h h' /\
    m < length h' /\ name (at_ h' m) = name p /\ okOption (at_ h' m).
Proof.
  intros (t & Ht & Hgt & Hn) (Hs & Hl & _). unfold singleMatch. rewrite (bind_ok _ _ _ h h) by done.
  assert (forall n i, lft !! n = Some i -> n < length lft /\ leftOk h i) as Hin.
  { intros n i E. split; [by eapply lookup_lt_Some|]. by eapply Forall_lookup_1 in Hl. }
  assert (forall i, leftOk h i -> kindOf (at_ h i) = Argument -> exists s, value (at_ h i) = AString s) as Hword.
  { intros i [Hi [E|[_ E]]] Hk; [congruence|]. pose proof (at_in _ _ Hs Hi) as Hsi. unfold storeLeaf in Hsi. rewrite Hk in Hsi. auto. }
  assert (forall n l, n < length lft -> storeLeaf l -> name l = name p -> okOption l ->
    exists pos m h', (m ← alloc l; mret (Some (n, m))) h = (Ok (Some (pos, m)), h') /\ pos < length lft /\ Forall storeLeaf h' /\
      evolves h h' /\ m < length h' /\ name (at_ h' m) = name p /\ okOption (at_ h' m)) as Hnew.
  { intros n l Hlt Hsl Hnl Ho. exists n, (length h), (h ++ [l]). destruct (evolves_alloc h l Hsl Hs) as [H1 H2].
    rewrite at_new. split_and!; try done. rewrite length_app. cbn. lia. }
  unfold typeOfLeaf in Ht. destruct (kindOf p).
  - destruct (list_find _ lft) as [[n i]|] eqn:E; [|by left]. right. apply list_find_Some in E as (E & Hk & _).
    destruct (Hin _ _ E) as [Hlt Hi]. destruct (Hword _ Hi Hk) as [s Hv]. apply Hnew; [done|by cbn|done|].
    unfold okOption. cbn [newArgument name value]. rewrite Hgt, Hv.
    destruct (argcount p), (value p); try discriminate; injection Ht as <-; eauto.
  - destruct (list_find _ lft) as [[n i]|] eqn:E; [|by left]. case_bool_decide; [|by left]. right.
    apply list_find_Some in E as (E & Hk & _). destruct (Hin _ _ E) as [Hlt Hi]. apply Hnew; [done|by cbn|done|].
    unfold okOption. cbn [newCommand name value]. rewrite Hgt.
    destruct (argcount p), (value p) as [| | |[]|]; try discriminate; by injection Ht as <-.
  - destruct (list_find _ lft) as [[n i]|] eqn:E; [|by left]. right. apply list_find_Some in E as (E & Hk & _).
    destruct (Hin _ _ E) as [Hlt Hi]. exists n, i, h. pose proof (at_in _ _ Hs (proj1 Hi)) as Hsi.
    destruct Hi as [Hih [Ho|[_ Ho]]]; [|congruence]. unfold storeLeaf in Hsi. rewrite Ho in Hsi. by split_and!.
Qed.

(** The names that have to be among the words, in one of some ways. *)
Fixpoint must (p : pattern leaf) : list (list bytes) :=
  match p with
  | Leaf l => match kindOf l with Command => [[name l]] | _ => [[]] end
  | Branch Required ps => foldr (fun p acc => d ← must p; e ← acc; [d ++ e]) [[]] ps
  | Branch Either ps => concat (must <$> ps)
  | Branch _ _ => [[]]
  end.

(** What a matcher promises: it ends, keeps the invariant, takes from what
    is left, and collects one of the ways, [D], when it matches. *)
Definition promised (D : list (list bytes)) (n : nat) (coll : list nat) (h' : list leaf) (r : matching) : Prop :=
  let '(ok, l, c) := r in
  inv h' l c /\ length l <= n /\ coll ⊆ c /\ (ok = true -> exists d, d ∈ D /\ d ⊆ names h' c).
Definition good (D : list (list bytes)) (m : list nat -> list nat -> prog store matching) : Prop :=
  forall lft coll h, inv h lft coll ->
  exists r h', m lft coll h = (Ok r, h') /\ evolves h h' /\ promised D (length lft) coll h' r.

Lemma matchLeaf_good p : okLeaf p -> good (must (Leaf p)) (matchLeaf p).
Proof.
  intros Hp lft coll h Hi. unfold matchLeaf.
  destruct (singleMatch_ok p h lft coll Hp Hi) as [E|(pos & m & h' & E & Hpos & Hs' & He & Hm & Hn & Ho)].
  { rewrite (bind_ok _ _ _ _ _ E). exists (false, lft, coll), h. by split_and!. }
  rewrite (bind_ok _ _ _ _ _ E). clear E. set (leftAlt := take pos lft ++ drop (S pos) lft).
  rewrite (bind_ok _ _ _ h' h') by done.
  destruct Hp as (t & Ht & Hgt & Hpn). pose proof (inv_evolves _ _ _ _ Hs' He Hi) as (_ & Hl' & Hc').
  assert (Forall (leftOk h') leftAlt) as HlA by (apply Forall_app_2; [by apply Forall_take|by apply Forall_drop]).
  assert (length leftAlt <= length lft) as Hlen by (unfold leftAlt; rewrite length_app, length_take, length_drop; lia).
  assert (forall h'', names h'' (coll ++ [m]) = names h'' coll ++ [name (at_ h'' m)]) as Hnames by (intros; unfold names; by rewrite fmap_app).
  assert (forall h'' c, evolves h' h'' -> Forall storeLeaf h'' -> name p ∈ names h'' c -> coll ⊆ c -> Forall (collOk h'') c ->
    evolves h h'' /\ promised (must (Leaf p)) (length lft) coll h'' (true, leftAlt, c)) as Hend.
  { intros h'' c He' Hs'' Hname Hsub Hcc. split; [by transitivity h'|]. split_and!; [|done|done|].
    - split_and!; [done| |done]. eapply Forall_impl; [exact HlA|]. intros i. by apply leftOk_evolves.
    - intros _. cbn [must]. destruct (kindOf p); [exists []|exists [name p]|exists []]; split; set_solver. }
  destruct (decide (t = TList)) as [->|Hnl].
  - assert (exists ss, value p = AList ss) as [ss Hvp].
    { unfold typeOfLeaf in Ht. destruct (kindOf p), (argcount p), (value p) as [| | |[]|]; try discriminate; eauto. }
    rewrite Hvp. unfold okOption in Ho. rewrite Hn, Hgt in Ho.
    assert (exists ss, match value (at_ h' m) with AString s => AList [s] | v => v end = AList ss) as [si ->].
    { destruct Ho as [s [->|[ss' ->]]]; eauto. }
    assert (forall i vs, i < length h' -> name (at_ h' i) = name p ->
      let h'' := alter (fun l => setValue l (AList vs)) i h' in Forall storeLeaf h'' /\ evolves h' h'' /\ collLeaf (at_ h'' i)) as Hset.
    { intros i vs Hih Hni. apply evolves_list; [done|done|by rewrite Hni|by rewrite Hni]. }
    destruct (filter _ coll) as [|s l0] eqn:Ef.
    + destruct (Hset m si Hm Hn) as (Hs'' & He'' & Hcm). eexists _, _. split; [reflexivity|]. apply Hend; [done|done| | |].
      * rewrite Hnames. assert (name (at_ (alter (fun l => setValue l (AList si)) m h') m) = name p) as <-; [|set_solver].
        rewrite <- Hn. by apply He''.
      * set_solver.
      * apply Forall_app_2; [eapply Forall_impl; [exact Hc'|]; intros i; by apply collOk_evolves|].
        constructor; [|done]. split; [by rewrite length_alter|done].
    + assert (s ∈ coll /\ name (at_ h' s) = name p) as [Hsc Hsn].
      { assert (s ∈ filter (fun a => name (at_ h' a) = name p) coll) as Hf by (rewrite Ef; set_solver).
        by apply list_elem_of_filter in Hf as [? ?]. }
      pose proof (proj1 (Forall_forall _ _) Hc' _ Hsc) as [Hsl Hcs]. unfold collLeaf in Hcs. rewrite Hsn, Hgt in Hcs.
      destruct Hcs as [ls Hls]. rewrite Hls. destruct (Hset s (ls ++ si) Hsl Hsn) as (Hs'' & He'' & Hcm).
      eexists _, _. split; [reflexivity|]. apply Hend; [done|done| |done|].
      * assert (name (at_ (alter (fun l => setValue l (AList (ls ++ si))) s h') s) = name p) as <- by (rewrite <- Hsn; by apply He'').
        by apply (list_elem_of_fmap_2 (fun i => name (at_ _ i))).
      * eapply Forall_impl; [exact Hc'|]. intros i. by apply collOk_evolves.
  - assert (forall A (a b : A), match value p with AInt _ | AList _ => a | _ => b end = b) as Hv.
    { intros A a b. unfold typeOfLeaf in Ht. destruct (kindOf p), (argcount p), (value p) as [| | |[]|]; try done; by injection Ht as <-. }
    eexists _, h'. split; [|apply (Hend h' (coll ++ [m])); [done|done| | |]].
    + destruct (value p) eqn:Ev; try reflexivity; exfalso; specialize (Hv nat 0 1); discriminate.
    + rewrite Hnames, Hn. set_solver.
    + set_solver.
    + apply Forall_app_2; [done|]. constructor; [|done]. split; [done|]. unfold collLeaf, okOption in *. rewrite Hn, Hgt in *.
      destruct t; [done|done|done].
Qed.
(** *** Branches *)

Lemma promise (D : list (list bytes)) (n : nat) (coll : list nat) h (ok : bool) l c :
  inv h l c -> length l <= n -> coll ⊆ c -> (ok = true -> exists d, d ∈ D /\ d ⊆ names h c) -> promised D n coll h (ok, l, c).
Proof. done. Qed.
Lemma promise_no D n coll h0 h lft :
  inv h0 lft coll -> evolves h0 h -> Forall storeLeaf h -> length lft <= n -> promised D n coll h (false, lft, coll).
Proof. intros Hi He Hs Hn. by apply promise; [by apply (inv_evolves h0)|..]. Qed.
Lemma promise_nil n coll h ok l c : inv h l c -> length l <= n -> coll ⊆ c -> promised [[]] n coll h (ok, l, c).
Proof. intros Hi Hn Hc. apply promise; [done..|]. intros _. exists []. set_solver. Qed.

Lemma promised_evolves D n coll h h' r :
  Forall storeLeaf h' -> evolves h h' -> promised D n coll h r -> promised D n coll h' r.
Proof.
  intros Hs He. destruct r as [[ok l] c]. intros (Hi & Hn & Hc & Hd). split_and!; [by eapply inv_evolves|done|done|].
  by rewrite (names_evolves _ _ _ _ He Hi).
Qed.
Lemma promised_weaken D D' n n' coll coll' h r :
  D ⊆ D' -> n <= n' -> coll' ⊆ coll -> promised D n coll h r -> promised D' n' coll' h r.
Proof.
  intros HD Hn Hc. destruct r as [[ok l] c]. intros (Hi & Hl & Hcc & Hd). split_and!; [done|lia|set_solver|].
  intros Hok. destruct (Hd Hok) as (d & ? & ?). exists d. set_solver.
Qed.

Lemma matchAll_good ps :
  Forall (fun p => good (must p) (match_ p)) ps -> good (must (Branch Required ps)) (matchAll match_ ps).
Proof.
  cbn [must]. induction ps as [|p ps IH]; intros Hps lft coll h Hi; cbn [matchAll foldr].
  { exists (true, lft, coll), h. split; [done|]. split; [done|]. by apply promise_nil. }
  apply Forall_cons in Hps as [Hp Hps]. destruct (Hp lft coll h Hi) as ([[ok l] c] & h1 & E & He & Hpr).
  rewrite (bind_ok _ _ _ _ _ E). destruct Hpr as (Hi1 & Hl1 & Hc1 & Hd1). destruct ok.
  - destruct (IH Hps l c h1 Hi1) as ([[ok2 l2] c2] & h2 & E2 & He2 & Hi2 & Hl2 & Hc2 & Hd2).
    exists (ok2, l2, c2), h2. split; [done|]. split; [by transitivity h1|]. apply promise; [done|lia|set_solver|]. intros Hok.
    destruct (Hd1 eq_refl) as (d1 & Hin1 & Hsub1), (Hd2 Hok) as (d2 & Hin2 & Hsub2). exists (d1 ++ d2). split.
    + apply list_elem_of_bind. exists d1. split; [|done]. apply list_elem_of_bind. exists d2. split; [set_solver|done].
    + assert (names h1 c ⊆ names h2 c2) as Hnn; [|set_solver].
      rewrite <- (names_evolves _ _ _ _ He2 Hi1). intros x Hx. apply list_elem_of_fmap in Hx as (i & -> & Hx).
      apply (list_elem_of_fmap_2 (fun i => name (at_ h2 i))). by apply Hc2.
  - exists (false, lft, coll), h1. split; [done|]. split; [done|]. by apply (promise_no _ _ _ h); [done|done|apply Hi1|].
Qed.

Lemma matchAny_good ps : Forall (fun p => good (must p) (match_ p)) ps -> good [[]] (matchAny match_ ps).
Proof.
  induction ps as [|p ps IH]; intros Hps lft coll h Hi; cbn [matchAny].
  { exists (true, lft, coll), h. split; [done|]. split; [done|]. by apply promise_nil. }
  apply Forall_cons in Hps as [Hp Hps]. destruct (Hp lft coll h Hi) as ([[ok l] c] & h1 & E & He & Hi1 & Hl1 & Hc1 & Hd1).
  rewrite (bind_ok _ _ _ _ _ E). destruct (IH Hps l c h1 Hi1) as (r2 & h2 & E2 & He2 & Hpr2).
  exists r2, h2. split; [done|]. split; [by transitivity h1|]. by eapply promised_weaken.
Qed.

Lemma outcomes_good ps : Forall (fun p => good (must p) (match_ p)) ps -> forall lft coll h, inv h lft coll ->
  exists rs h', outcomes match_ ps lft coll h = (Ok rs, h') /\ evolves h h' /\ inv h' lft coll /\
    Forall (promised (must (Branch Either ps)) (length lft) coll h') rs.
Proof.
  cbn [must]. induction ps as [|p ps IH]; intros Hps lft coll h Hi; cbn [outcomes]; [by exists [], h|].
  apply Forall_cons in Hps as [Hp Hps]. destruct (Hp lft coll h Hi) as (r & h1 & E & He & Hpr).
  rewrite (bind_ok _ _ _ _ _ E). destruct r as [[ok l] c].
  assert (inv h1 lft coll) as Hi1 by (apply (inv_evolves h); [apply Hpr|done..]).
  destruct (IH Hps lft coll h1 Hi1) as (rs & h2 & E2 & He2 & Hi2 & Hrs). rewrite (bind_ok _ _ _ _ _ E2).
  eexists _, h2. split; [reflexivity|]. split; [by transitivity h1|]. split; [done|]. rewrite fmap_cons. cbn [concat].
  assert (Forall (promised (must p ++ concat (must <$> ps)) (length lft) coll h2) rs) as Hrs'.
  { eapply Forall_impl; [exact Hrs|]. intros r. by apply promised_weaken; [set_solver|..]. }
  destruct ok; [|done]. constructor; [|done]. eapply promised_weaken; [| | |eapply promised_evolves; [apply Hi2|exact He2|exact Hpr]];
    [set_solver|done|done].
Qed.

Lemma best_in o rs : best o rs ∈ o :: rs.
Proof.
  unfold best. assert (forall b, b ∈ o :: rs -> foldl (fun b x => if length (snd (fst x)) <? length (snd (fst o)) then x else b) b rs ∈ o :: rs) as Hb.
  { assert (rs ⊆ o :: rs) as Hsub by set_solver. revert Hsub. generalize (o :: rs) as all. induction rs as [|x rs IH]; intros all Hsub b Hb; [done|].
    cbn. apply IH; [set_solver|]. case_match; set_solver. }
  apply Hb. set_solver.
Qed.

Lemma matchMore_good D m : good D m -> forall fuel times lAlt lft coll h, inv h lft coll ->
  lAlt = Some (length lft) \/ lAlt = None -> length lft + (if bool_decide (lAlt = None) then 1 else 0) < fuel ->
  exists n l c h', matchMore m fuel times lAlt lft coll h = (Ok (n, l, c), h') /\ evolves h h' /\ inv h' l c /\
    length l <= length lft /\ coll ⊆ c.
Proof.
  intros Hm. induction fuel as [|fuel IH]; intros times lAlt lft coll h Hi Hl Hf; [lia|]. cbn [matchMore].
  destruct (Hm lft coll h Hi) as ([[ok l] c] & h1 & E & He & Hi1 & Hl1 & Hc1 & _). rewrite (bind_ok _ _ _ _ _ E).
  destruct (bool_decide (lAlt = Some (length l)) || negb ok) eqn:Eb; [by eexists _, _, _, _; split; [done|]|].
  apply orb_false_iff in Eb as [Eb _]. apply bool_decide_eq_false in Eb.
  destruct (IH (if ok then S times else times) (Some (length l)) l c h1 Hi1 (or_introl eq_refl)) as (n & l2 & c2 & h2 & E2 & He2 & Hi2 & Hl2 & Hc2).
  { cbn. destruct Hl as [->| ->]; cbn in *; [|lia]. assert (length l <> length lft) by congruence. lia. }
  exists n, l2, c2, h2. split; [done|]. split; [by transitivity h1|]. split; [done|]. split; [lia|set_solver].
Qed.

Lemma match_good p : proper p = true -> Forall okLeaf (flat p) -> good (must p) (match_ p).
Proof.
  revert p. fix IH 1. intros [l|b ps] Hpr Hok.
  { cbn in Hok. apply Forall_cons_1 in Hok as [Hl _]. by apply matchLeaf_good. }
  cbn [proper] in Hpr. apply andb_prop in Hpr as [Hone Hpr].
  assert (Forall (fun p => good (must p) (match_ p)) ps) as Hps.
  { clear Hone. cbn [flat] in Hok. revert Hpr Hok. induction ps as [|p ps IHps]; intros Hpr Hok; [done|].
    cbn in Hpr, Hok. apply andb_prop in Hpr as [Hp Hpr]. apply Forall_app in Hok as [H1 H2].
    constructor; [by apply IH|by apply IHps]. }
  clear IH Hpr Hok. intros lft coll h Hi. destruct b.
  - cbn [match_]. destruct (matchAll_good ps Hps lft coll h Hi) as ([[ok l] c] & h1 & E & He & Hpr).
    rewrite (bind_ok _ _ _ _ _ E). eexists _, h1. split; [reflexivity|]. split; [done|]. destruct ok; [done|].
    by apply (promise_no _ _ _ h); [done|done|apply Hpr|].
  - by apply matchAny_good.
  - by apply matchAny_good.
  - cbn [match_ must]. destruct ps as [|p [|? ?]]; try discriminate. apply Forall_cons_1 in Hps as [Hp _].
    destruct (matchMore_good _ _ Hp (S (S (length lft))) 0 None lft coll h Hi) as (n & l & c & h1 & E & He & Hi1 & Hl & Hc); [by right|cbn; lia|].
    rewrite (bind_ok _ _ _ _ _ E). eexists _, h1. split; [reflexivity|]. split; [done|]. destruct (1 <=? n).
    + by apply promise_nil.
    + by apply (promise_no _ _ _ h); [done|done|apply Hi1|].
  - cbn [match_]. destruct (outcomes_good ps Hps lft coll h Hi) as (rs & h1 & E & He & Hi1 & Hrs).
    rewrite (bind_ok _ _ _ _ _ E). eexists _, h1. split; [reflexivity|]. split; [done|]. destruct rs as [|r rs]; [by apply promise|].
    eapply Forall_forall in Hrs; [exact Hrs|]. apply best_in.
Qed.
Lemma inv_start args : Forall argvLeaf args -> inv args (seq 0 (length args)) [].
Proof.
  intros Ha. split_and!; [| |done].
  - eapply Forall_impl; [exact Ha|]. intros l. unfold argvLeaf, storeLeaf. destruct (kindOf l); naive_solver.
  - apply Forall_forall. intros i Hi. apply elem_of_seq in Hi. assert (i < length args) as Hlt by lia. split; [done|].
    unfold at_. rewrite nth_lookup. destruct (lookup_lt_is_Some_2 _ _ Hlt) as [l Hl]. rewrite Hl. cbn.
    eapply Forall_lookup_1 in Ha; [|exact Hl]. unfold argvLeaf in Ha. destruct (kindOf l); naive_solver.
Qed.
(** ** Words *)

Lemma dashes w : HasPrefix w "--" = true -> HasPrefix w "-" = true.
Proof. unfold HasPrefix. rewrite !bool_decide_eq_true. destruct w as [|a [|b w]]; cbn; congruence. Qed.
Lemma dashes_cut w : HasPrefix w "--" = true -> HasPrefix (fst (fst (stringPartition w "="))) "--" = true.
Proof.
  unfold HasPrefix at 1. rewrite bool_decide_eq_true. destruct w as [|a [|b w]]; [discriminate..|]. intros E.
  assert (a = "-"%char /\ b = "-"%char) as [-> ->] by (cbn in E; split; congruence). unfold stringPartition.
  assert (cut "=" ("-" :: "-" :: w)%char = (fun '(a, b) => ("-" :: "-" :: a, b)%char) <$> cut "=" w) as ->.
  { cbn [cut]. change (HasPrefix ("-" :: "-" :: w)%char "=") with false. change (HasPrefix ("-" :: w)%char "=") with false.
    by destruct (cut "=" w) as [[x y]|]. }
  destruct (cut "=" w) as [[x y]|]; reflexivity.
Qed.

Context (os : list leaf).
Context (Hg : forall n t, g !! n = Some t -> HasPrefix n "-" = true -> 2 < length n /\ Exists (fun o => long o = n) os).

(** Options that are known while a command line is parsed. *)
Definition known (l : list leaf) : Prop := os ⊆ l /\ Forall (fun o => agrees (g !! optName o) (argcount o) = true) l.

(** What a parser comes to: a value, with at most [n] words left, or an error that is the user's. *)
Definition isUser (e : error) : Prop := exists msg, e = UserError msg.
Definition parses {A} (P : A -> Prop) (n : nat) (r : result A * tokens) : Prop :=
  match r with
  | (Ok a, s) => P a /\ known (opts s) /\ length (toks s) <= n
  | (Err e, _) => isUser e
  | (Panic _, _) => False
  end.
Lemma parses_bind {A B} (P : A -> Prop) (Q : B -> Prop) n k (m : parser A) (f : A -> parser B) s :
  parses P n (m s) -> (forall a s, P a -> known (opts s) -> length (toks s) <= n -> parses Q k (f a s)) ->
  parses Q k ((x ← m; f x) s).
Proof. unfold mbind, prog_bind. destruct (m s) as [[a|e|p] s']; cbn; naive_solver. Qed.
Lemma parses_ret {A} (P : A -> Prop) n a s : P a -> known (opts s) -> length (toks s) <= n -> parses P n ((mret a : parser A) s).
Proof. by intros. Qed.
Lemma parses_user {A} (P : A -> Prop) n msg s : parses P n (throw (errorOf true msg) s).
Proof. by eexists. Qed.

Lemma known_add l sh lo n v :
  known l -> g !! optName (newOption sh lo n v) = None -> known (l ++ [newOption sh lo n v]).
Proof.
  intros [H1 H2] Hn. split; [set_solver|]. apply Forall_app_2; [done|]. constructor; [|done]. by rewrite Hn.
Qed.
Lemma unknown_long l lo :
  known l -> HasPrefix lo "--" = true -> filter (fun o => long o = lo) l = [] -> g !! lo = None.
Proof.
  intros [Hl _] Hp Hf. destruct (g !! lo) as [t|] eqn:E; [|done]. exfalso.
  destruct (Hg _ _ E) as [_ Hex]; [by apply dashes|]. apply Exists_exists in Hex as (o & Ho & Hlo).
  assert (o ∈ filter (fun o => long o = lo) l) as Hin by (apply list_elem_of_filter; split; [done|by apply Hl]).
  rewrite Hf in Hin. by apply not_elem_of_nil in Hin.
Qed.
Lemma unknown_short c : g !! ["-"%char; c] = None.
Proof.
  destruct (g !! _) as [t|] eqn:E; [|done]. destruct (Hg _ _ E) as [Hlt _]; [reflexivity|]. cbn in Hlt. lia.
Qed.

(** What a known option gets. *)
Lemma given_ok o sh v :
  agrees (g !! optName o) (argcount o) = true -> optName o = optName (newOption sh (long o) (argcount o) (value o)) ->
  (if argcount o =? 0 then v = ABool true else exists s, v = AString s) ->
  argvLeaf (setValue (newOption sh (long o) (argcount o) (value o)) v).
Proof.
  intros Ha Hn Hv. unfold argvLeaf, okOption. cbn [setValue newOption kindOf name value].
  change (if bool_decide (long o <> []) then long o else sh) with (optName (newOption sh (long o) (argcount o) (value o))).
  rewrite <- Hn. destruct (g !! optName o) as [[]|]; [..|done]; destruct (argcount o); cbn in *; naive_solver.
Qed.
Lemma filter_singleton {A} (P : A -> Prop) `{!forall x, Decision (P x)} l x : filter P l = [x] -> P x /\ x ∈ l.
Proof. intros Hf. apply (list_elem_of_filter P l x). rewrite Hf. by apply list_elem_of_singleton. Qed.

Lemma parseLong_parses w ws l :
  known l -> HasPrefix w "--" = true -> parses argvLeaf (length ws) (parseLong true {| toks := w :: ws; opts := l |}).
Proof.
  intros Hk Hw. unfold parseLong. rewrite (bind_ok _ _ _ w {| toks := ws; opts := l |}) by done.
  apply dashes_cut in Hw. destruct (stringPartition w "=") as [[lo eq] v]. cbn [fst] in Hw. rewrite Hw. cbn [negb].
  rewrite (bind_ok _ _ _ l {| toks := ws; opts := l |}) by done.
  set (val := if bool_decide (eq = [] /\ v = []) then ANil else AString v).
  assert (val = ANil \/ exists s, val = AString s) as Hval by (unfold val; case_bool_decide; eauto).
  set (similar := if _ && _ then _ else _).
  assert (Forall (fun o => o ∈ l) similar) as Hs.
  { unfold similar. destruct (_ && _); apply Forall_forall; intros o Ho; by apply list_elem_of_filter in Ho as [_ ?]. }
  assert (similar = [] -> filter (fun o => long o = lo) l = []) as Hn.
  { unfold similar. cbn [andb]. by case_bool_decide. }
  destruct similar as [|o [|? ?]].
  - rewrite (bind_ok _ _ _ tt {| toks := ws; opts := l ++ [newOption [] lo (if bool_decide (eq = []) then 0 else 1) (ABool false)] |}) by done.
    pose proof (unknown_long _ _ Hk Hw (Hn eq_refl)) as Hg'.
    assert (forall n v, optName (newOption [] lo n v) = lo) as Hname.
    { intros n v'. unfold optName. cbn. by case_bool_decide; subst. }
    apply parses_ret; [|apply known_add; [done|by rewrite Hname]|done].
    unfold argvLeaf, okOption. cbn [newOption kindOf]. change (name _) with (optName (newOption [] lo 0 (ABool true))).
    by rewrite Hname, Hg'.
  - apply Forall_cons_1 in Hs as [Ho _]. destruct Hk as [Hk1 Hk2].
    pose proof (proj1 (Forall_forall _ _) Hk2 _ Ho) as Ha. cbv beta in Ha.
    apply (parses_bind (fun v => if argcount o =? 0 then v = ANil else exists s, v = AString s) _ (length ws)).
    + cbn [newOption argcount]. destruct (argcount o =? 0).
      * case_bool_decide as E; [apply parses_user|]. by apply parses_ret.
      * case_bool_decide as E.
        -- rewrite (bind_ok _ _ _ (head ws) {| toks := ws; opts := l |}) by done.
           destruct (noWord (head ws)) eqn:Eh; [apply parses_user|].
           destruct ws as [|w' ws]; [discriminate|]. rewrite (bind_ok _ _ _ w' {| toks := ws; opts := l |}) by done.
           apply parses_ret; [by eexists|done|cbn; lia].
        -- apply parses_ret; [|done..]. destruct Hval as [?|?]; [done|done].
    + intros v' s Hv' Hk' Hl'. apply parses_ret; [|done..]. apply given_ok; [done|done|].
      destruct (argcount o =? 0).
      * subst v'. by rewrite bool_decide_eq_false_2 by (intros E; by apply E).
      * destruct Hv' as [sv ->]. rewrite bool_decide_eq_true_2 by done. by eexists.
  - apply parses_user.
Qed.
Lemma shorts_parses w : forall n s,
  known (opts s) -> length (toks s) <= n -> parses (Forall argvLeaf) n (shorts true w s).
Proof.
  induction w as [|c w IH]; intros n s Hk Hl; cbn [shorts]; [by apply parses_ret|].
  rewrite (bind_ok _ _ _ (opts s) s) by done.
  destruct (filter _ (opts s)) as [|o [|? ?]] eqn:Hf.
  - rewrite (bind_ok _ _ _ tt {| toks := toks s; opts := opts s ++ [newOption ["-"%char; c] [] 0 (ABool false)] |}) by done.
    eapply parses_bind; [apply (IH n); [apply known_add; [done|apply unknown_short]|done]|].
    intros ls s' Hls Hk' Hl'. apply parses_ret; [|done..]. constructor; [|done].
    unfold argvLeaf, okOption. cbn. by rewrite unknown_short.
  - destruct (filter_singleton _ _ _ Hf) as [Hsh Ho]. destruct Hk as [Hk1 Hk2].
    pose proof (proj1 (Forall_forall _ _) Hk2 _ Ho) as Ha. cbv beta in Ha.
    assert (optName o = optName (newOption ["-"%char; c] (long o) (argcount o) (value o))) as Hname.
    { unfold optName. cbn [newOption long short]. by rewrite Hsh. }
    cbn [newOption argcount]. destruct (0 <? argcount o) eqn:En.
    + apply Nat.ltb_lt in En.
      assert (forall v, argvLeaf (setValue (newOption ["-"%char; c] (long o) (argcount o) (value o)) (AString v))) as Hok.
      { intros v. apply given_ok; [done|done|]. rewrite (proj2 (Nat.eqb_neq _ _)) by lia. by eexists. }
      destruct w as [|c' w]; [|apply parses_ret; [by repeat constructor|done..]].
      rewrite (bind_ok _ _ _ (head (toks s)) s) by done. destruct (noWord (head (toks s))) eqn:Eh; [apply parses_user|].
      destruct s as [[|v ts] os']; [discriminate|]. rewrite (bind_ok _ _ _ v {| toks := ts; opts := os' |}) by done.
      apply parses_ret; [by repeat constructor|done|cbn in *; lia].
    + apply Nat.ltb_ge in En. eapply parses_bind; [by apply IH|].
      intros ls s' Hls Hk' Hl'. apply parses_ret; [|done..]. constructor; [|done].
      apply given_ok; [done|done|]. by rewrite (proj2 (Nat.eqb_eq _ _)) by lia.
  - apply parses_user.
Qed.

Lemma parseShorts_parses w ws l :
  known l -> HasPrefix w "-" = true -> HasPrefix w "--" = false ->
  parses (Forall argvLeaf) (length ws) (parseShorts true {| toks := w :: ws; opts := l |}).
Proof.
  intros Hk H1 H2. unfold parseShorts. rewrite (bind_ok _ _ _ w {| toks := ws; opts := l |}) by done.
  rewrite H1, H2. cbn [negb orb]. by apply shorts_parses.
Qed.

Lemma words_ok ws : Forall argvLeaf ((fun w => newArgument [] (AString w)) <$> ws).
Proof. apply Forall_fmap, Forall_true. intros w. split; [done|]. by eexists. Qed.

(** The parser of command lines, of which no error but the user's, no panic and no lack of fuel comes. *)
Lemma parseArgv_parses first fuel : forall s,
  known (opts s) -> length (toks s) < fuel -> parses (Forall argvLeaf) (length (toks s)) (parseArgv fuel first s).
Proof.
  induction fuel as [|fuel IH]; intros [ws l] Hk Hl; [cbn in *; lia|]. cbn [toks opts] in *. cbn [parseArgv].
  rewrite (bind_ok _ _ _ {| toks := ws; opts := l |} {| toks := ws; opts := l |}) by done. cbn [toks].
  destruct ws as [|w ws]; [by apply parses_ret|]. cbn [length] in Hl.
  assert (forall A (P : A -> Prop) (m : parser A) (f : A -> parser (list leaf)) s,
    parses P (length ws) (m s) ->
    (forall a s, P a -> parses (Forall argvLeaf) (length (toks s)) (parseArgv fuel first s) ->
       length (toks s) <= length ws -> parses (Forall argvLeaf) (length (toks s)) (f a s)) ->
    parses (Forall argvLeaf) (length (w :: ws)) ((a ← m; f a) s)) as Hstep.
  { intros A P m f s Hm Hf. eapply parses_bind; [exact Hm|]. intros a s' Ha Hk' Hl'.
    assert (parses (Forall argvLeaf) (length (toks s')) (parseArgv fuel first s')) as Hr by (apply IH; [done|lia]).
    specialize (Hf a s' Ha Hr Hl'). destruct (f a s') as [[x|e|p] s'']; [|done..]. cbn in *. naive_solver lia. }
  case_bool_decide as Edd; [apply parses_ret; [by apply words_ok|done|done]|].
  destruct (HasPrefix w "--") eqn:E2.
  - eapply Hstep; [by apply parseLong_parses|]. intros a s Ha Hr _. eapply parses_bind; [exact Hr|].
    intros ls s' Hls Hk' Hl'. apply parses_ret; [by constructor|done..].
  - destruct (HasPrefix w "-" && negb (bool_decide (w = ("-" : bytes)))) eqn:E1.
    + apply andb_prop in E1 as [E1 _]. eapply Hstep; [by apply parseShorts_parses|]. intros a s Ha Hr _.
      eapply parses_bind; [exact Hr|]. intros ls s' Hls Hk' Hl'. apply parses_ret; [by apply Forall_app_2|done..].
    + destruct first; [apply parses_ret; [by apply (words_ok (w :: ws))|done..]|].
      eapply (Hstep _ (fun a => a = w) move); [by split; [|split]|]. intros a s -> Hr _. eapply parses_bind; [exact Hr|].
      intros ls s' Hls Hk' Hl'. apply parses_ret; [|done..]. constructor; [|done]. split; [done|]. by eexists.
Qed.
End sound.

(** ** What a command gets *)

(** Each name of the usage has a value of its kind. *)
Definition wellTyped (p : pattern leaf) (a : Args) : Prop :=
  forall n t, types p !! n = Some t -> exists v, a !! n = Some v /\ fits t v = true.
(** The commands of one of the ways are set. *)
Definition chosen (p : pattern leaf) (a : Args) : Prop :=
  exists d, d ∈ must p /\ forall n, n ∈ d -> types p !! n = Some TBool -> a !! n = Some (ABool true).

Lemma dictionary_snoc l x : dictionary (l ++ [x]) = <[name x := value x]> (dictionary l).
Proof. unfold dictionary. by rewrite foldl_app. Qed.
Lemma dictionary_last P l l' n :
  (exists x, x ∈ l' /\ name x = n) -> (forall x, x ∈ l' -> name x = n -> P (value x)) ->
  exists v, dictionary (l ++ l') !! n = Some v /\ P v.
Proof.
  induction l' as [|x l' IH] using rev_ind; intros (y & Hy & Hn) HP; [by apply not_elem_of_nil in Hy|].
  rewrite app_assoc, dictionary_snoc. destruct (decide (name x = n)) as [<-|Hne].
  - rewrite lookup_insert_eq. exists (value x). split; [done|]. apply HP; [set_solver|done].
  - rewrite lookup_insert_ne by done. apply IH; [|intros z Hz; apply HP; set_solver].
    exists y. split; [|done]. apply elem_of_app in Hy as [?|Hy]; [done|]. apply list_elem_of_singleton in Hy. by subst.
Qed.

Lemma types_leaf p n t : types p !! n = Some t -> exists l, l ∈ flat p /\ name l = n /\ typeOfLeaf l = Some t.
Proof.
  unfold types. induction (flat p) as [|x l IH] using rev_ind; [done|]. rewrite foldl_app. cbn.
  destruct (typeOfLeaf x) as [tx|] eqn:E.
  - destruct (decide (name x = n)) as [<-|Hne].
    + rewrite lookup_insert_eq. intros [= <-]. exists x. set_solver.
    + rewrite lookup_insert_ne by done. intros Ht. destruct (IH Ht) as (y & ? & ? & ?). exists y. set_solver.
  - intros Ht. destruct (IH Ht) as (y & ? & ? & ?). exists y. set_solver.
Qed.
Lemma typeOfLeaf_fits l t : typeOfLeaf l = Some t -> fits t (value l) = true.
Proof. unfold typeOfLeaf. destruct (kindOf l), (argcount l), (value l) as [| | |[]|]; intros [= <-]; done. Qed.

Section usage.
Context (doc us : bytes) (os : list leaf) (p : pattern leaf).
Context (Hc : compiled doc = Some (us, os, p)) (Hsound : sound os p = true).

Lemma sound_opts : Forall (fun o => agrees (types p !! optName o) (argcount o) = true) os.
Proof.
  unfold sound in Hsound. rewrite !andb_true_iff in Hsound. destruct Hsound as [[[_ H] _] _].
  apply Forall_forall. intros o Ho. rewrite forallb_forall in H. apply H. by apply list_elem_of_In.
Qed.
Lemma sound_names n t : types p !! n = Some t -> HasPrefix n "-" = true -> 2 < length n /\ Exists (fun o => long o = n) os.
Proof.
  intros Ht Hp. unfold sound in Hsound. rewrite !andb_true_iff in Hsound. destruct Hsound as [[_ H] _].
  rewrite forallb_forall in H. specialize (H (n, t)). cbn beta iota in H. rewrite Hp in H. cbn [negb orb] in H.
  apply elem_of_map_to_list in Ht. apply list_elem_of_In in Ht. specialize (H Ht).
  apply andb_prop in H as [Hlen Hex]. split; [by apply Nat.ltb_lt|]. apply existsb_exists in Hex as (o & Ho & Heq).
  apply bool_decide_eq_true in Heq. apply Exists_exists. exists o. split; [by apply list_elem_of_In|done].
Qed.
Lemma sound_leaves : proper p = true /\ Forall (okLeaf (types p)) (flat p).
Proof.
  unfold sound in Hsound. rewrite !andb_true_iff in Hsound. destruct Hsound as [[[H _] _] Hp]. split; [done|].
  apply Forall_forall. intros l Hl. rewrite forallb_forall in H. apply list_elem_of_In in Hl. specialize (H _ Hl).
  apply bool_decide_eq_true in H as ([t Ht] & He & Hn). exists t. split_and!; congruence.
Qed.

Lemma finish_typed args :
  Forall (argvLeaf (types p)) args -> finish p args = Err (UserError "") \/
  exists a, finish p args = Ok a /\ wellTyped p a /\ chosen p a.
Proof.
  intros Ha. destruct sound_leaves as [Hp Hl].
  destruct (match_good (types p) p Hp Hl _ _ _ (inv_start _ _ Ha)) as ([[ok lft] coll] & h & E & _ & Hi & _ & _ & Hd).
  unfold finish, finishLeaves. rewrite E. destruct ok; [|by left]. destruct (length lft =? 0); [|by left]. right. eexists. split; [reflexivity|].
  destruct Hi as (_ & _ & Hcoll).
  assert (forall x t, x ∈ at_ h <$> coll -> types p !! name x = Some t -> fits t (value x) = true /\ (t = TBool -> value x = ABool true)) as Hx.
  { intros x t Hin Ht. apply list_elem_of_fmap in Hin as (i & -> & Hin). eapply Forall_forall in Hcoll as [_ Hci]; [|exact Hin].
    unfold collLeaf in Hci. rewrite Ht in Hci. destruct t; [destruct Hci as [s ->]..|rewrite Hci]; by split. }
  split.
  - intros n t Ht. destruct (types_leaf _ _ _ Ht) as (l & Hin & <- & Htl).
    apply (dictionary_last (fun v => fits t v = true) [] (flat p ++ (at_ h <$> coll))); [exists l; split; [apply elem_of_app; by left|done]|].
    intros x Hxin Hn. apply elem_of_app in Hxin as [Hxin|Hxin]; [|apply (Hx x t Hxin); by rewrite Hn].
    eapply Forall_forall in Hl as (t' & Ht' & Hgt & _); [|exact Hxin]. apply typeOfLeaf_fits. congruence.
  - destruct (Hd eq_refl) as (d & Hd1 & Hd2). exists d. split; [done|]. intros n Hn Ht.
    destruct (dictionary_last (fun v => v = ABool true) (flat p) (at_ h <$> coll) n) as (v & Hv & ->); [| |done].
    + apply Hd2 in Hn. apply list_elem_of_fmap in Hn as (i & -> & Hin). exists (at_ h i). split; [|done]. by apply list_elem_of_fmap_2.
    + intros x Hxin Hxn. destruct (Hx x TBool Hxin) as [_ Hb]; [by rewrite Hxn|]. by apply Hb.
Qed.

(** Whatever the words are: the process ends with the usage, or the command
    gets arguments of the kinds of the usage. *)
Lemma Parse_typed argv version first :
  (exists status output, Parse doc argv true version first = Exits status output) \/
  exists a, Parse doc argv true version first = Goes (Ok a) /\ wellTyped p a /\ chosen p a.
Proof.
  rewrite (Parse_compiled _ _ _ _ argv true version first Hc).
  pose proof (parseArgv_parses (types p) os sound_names first (S (length argv)) {| toks := argv; opts := os |}
    (conj (reflexivity _) sound_opts) (Nat.lt_succ_diag_r _)) as Hpa.
  destruct (parseArgv _ _ _) as [[args|e|q] st]; [| |done].
  - destruct Hpa as [Hargs _]. cbn [fst handleError]. destruct (negb _); [left; by eexists _, _|].
    destruct (finish_typed _ Hargs) as [->|(a & -> & Ha)]; [left; by eexists _, _|]. right. by exists a.
  - destruct Hpa as [msg ->]. left. by eexists _, _.
Qed.
End usage.

(** ** Words for which a usage has a list *)

(** A word among the leaves. *)
Definition wordAt (h : list leaf) (i : nat) (w : bytes) : Prop :=
  i < length h /\ at_ h i = newArgument [] (AString w).

Lemma wordAt_alloc h l i w : wordAt h i w -> wordAt (h ++ [l]) i w.
Proof. intros [Hi Hw]. split; [rewrite length_app; lia|]. by rewrite at_alloc. Qed.

Lemma filter_names n h h' coll :
  Forall (fun a => name (at_ h' a) = name (at_ h a)) coll ->
  filter (fun a => name (at_ h' a) = n) coll = filter (fun a => name (at_ h a) = n) coll.
Proof.
  induction 1 as [|a coll Ha _ IH]; [done|]. rewrite !filter_cons, IH. destruct (decide _), (decide _); congruence.
Qed.
Lemma names_alloc h l coll :
  Forall (fun a => a < length h) coll -> Forall (fun a => name (at_ (h ++ [l]) a) = name (at_ h a)) coll.
Proof. intros Hc. eapply Forall_impl; [exact Hc|]. intros a Ha. cbn. by rewrite at_alloc. Qed.

(** An option that is not there, and one that is next. *)
Lemma matchLeaf_absent p lft coll h :
  kindOf p = Option_ -> Forall (fun i => name (at_ h i) <> name p) lft -> matchLeaf p lft coll h = (Ok (false, lft, coll), h).
Proof.
  intros Hp Hn. unfold matchLeaf. rewrite (bind_ok _ _ _ None h); [done|]. unfold singleMatch.
  rewrite (bind_ok _ _ _ h h) by done. rewrite Hp.
  assert (list_find (fun i => name p = name (at_ h i)) lft = None) as Hnone; [|cbn; by rewrite Hnone].
  apply list_find_None. eapply Forall_impl; [exact Hn|]. cbn. congruence.
Qed.
Lemma matchLeaf_option p i lft coll h :
  kindOf p = Option_ -> name (at_ h i) = name p -> match value p with AInt _ | AList _ => False | _ => True end ->
  matchLeaf p (i :: lft) coll h = (Ok (true, lft, coll ++ [i]), h).
Proof.
  intros Hp Hn Hv. unfold matchLeaf. rewrite (bind_ok _ _ _ (Some (0, i)) h).
  - rewrite (bind_ok _ _ _ h h) by done. cbn [take drop app]. rewrite drop_0. destruct (value p); done.
  - unfold singleMatch. rewrite (bind_ok _ _ _ h h) by done. rewrite Hp. cbn [list_find]. by rewrite decide_True.
Qed.
Lemma words_unnamed n lft ws h : n <> [] -> Forall2 (wordAt h) lft ws -> Forall (fun i => name (at_ h i) <> n) lft.
Proof. intros Hn Hw. induction Hw as [|i w lft ws [_ Hi] _ IH]; constructor; [by rewrite Hi|done]. Qed.

Section takes.
Context (p : leaf) (Hp : kindOf p = Argument) (Hn : name p <> []).

Lemma singleMatch_word h i lft w :
  wordAt h i w -> singleMatch p (i :: lft) h = (Ok (Some (0, length h)), h ++ [newArgument (name p) (AString w)]).
Proof.
  intros [Hi Hw]. unfold singleMatch. rewrite (bind_ok _ _ _ h h) by done. rewrite Hp. cbn [list_find].
  rewrite decide_True by (by rewrite Hw). rewrite Hw. reflexivity.
Qed.

Lemma matchLeaf_word h i lft coll w :
  value p = ANil -> wordAt h i w ->
  matchLeaf p (i :: lft) coll h = (Ok (true, lft, coll ++ [length h]), h ++ [newArgument (name p) (AString w)]).
Proof.
  intros Hv Hw. unfold matchLeaf. rewrite (bind_ok _ _ _ _ _ (singleMatch_word _ _ _ _ Hw)).
  rewrite (bind_ok _ _ _ (h ++ [newArgument (name p) (AString w)]) (h ++ [newArgument (name p) (AString w)])) by done.
  rewrite Hv. cbn [take drop app]. by rewrite drop_0.
Qed.

Lemma matchLeaf_none coll h : matchLeaf p [] coll h = (Ok (false, [], coll), h).
Proof.
  unfold matchLeaf. rewrite (bind_ok _ _ _ None h); [done|]. unfold singleMatch. rewrite (bind_ok _ _ _ h h) by done. by rewrite Hp.
Qed.

Context (Hv : value p = AList []).

Lemma matchLeaf_first h i lft coll w :
  wordAt h i w -> filter (fun a => name (at_ h a) = name p) coll = [] -> Forall (fun a => a < length h) coll ->
  matchLeaf p (i :: lft) coll h = (Ok (true, lft, coll ++ [length h]), h ++ [newArgument (name p) (AList [w])]).
Proof.
  intros Hw Hf Hc. unfold matchLeaf. rewrite (bind_ok _ _ _ _ _ (singleMatch_word _ _ _ _ Hw)).
  set (h1 := h ++ [newArgument (name p) (AString w)]). rewrite (bind_ok _ _ _ h1 h1) by done. rewrite Hv.
  assert (value (at_ h1 (length h)) = AString w) as -> by (unfold h1; by rewrite at_new).
  assert (filter (fun a => name (at_ h1 a) = name p) coll = []) as ->.
  { rewrite <- Hf. by apply filter_names, names_alloc. }
  cbn [take drop app]. rewrite drop_0. unfold store_, mbind, prog_bind, modify, h1. cbn.
  by rewrite alter_app_r_alt, Nat.sub_diag by lia.
Qed.

Lemma matchLeaf_next h i lft coll s acc w :
  wordAt h i w -> filter (fun a => name (at_ h a) = name p) coll = [s] -> Forall (fun a => a < length h) coll ->
  at_ h s = newArgument (name p) (AList acc) ->
  exists h', matchLeaf p (i :: lft) coll h = (Ok (true, lft, coll), h') /\ length h <= length h' /\
    at_ h' s = newArgument (name p) (AList (acc ++ [w])) /\ forall j, j < length h -> j <> s -> at_ h' j = at_ h j.
Proof.
  intros Hw Hf Hc Hs. destruct (filter_singleton _ _ _ Hf) as [_ Hin].
  assert (s < length h) as Hlt by (by eapply Forall_forall in Hc).
  set (h1 := h ++ [newArgument (name p) (AString w)]).
  exists (alter (fun l => setValue l (AList (acc ++ [w]))) s h1). split_and!.
  - unfold matchLeaf. rewrite (bind_ok _ _ _ _ _ (singleMatch_word _ _ _ _ Hw)). fold h1. rewrite (bind_ok _ _ _ h1 h1) by done.
    rewrite Hv. assert (value (at_ h1 (length h)) = AString w) as -> by (unfold h1; by rewrite at_new).
    assert (filter (fun a => name (at_ h1 a) = name p) coll = [s]) as ->.
    { rewrite <- Hf. by apply filter_names, names_alloc. }
    assert (at_ h1 s = newArgument (name p) (AList acc)) as -> by (unfold h1; by rewrite at_alloc).
    cbn [take drop app]. by rewrite drop_0.
  - unfold h1. rewrite length_alter, length_app. cbn. lia.
  - unfold h1. rewrite at_alter, decide_True by (rewrite length_app; cbn; lia). by rewrite at_alloc, Hs.
  - intros j Hj Hne. unfold h1. rewrite at_alter, decide_False by naive_solver. by rewrite at_alloc.
Qed.

(** All the words that are left end up in one list. *)
Lemma matchMore_next ws : forall lft fuel times h coll s acc,
  Forall2 (wordAt h) lft ws -> filter (fun a => name (at_ h a) = name p) coll = [s] -> Forall (fun a => a < length h) coll ->
  at_ h s = newArgument (name p) (AList acc) -> length lft < fuel ->
  exists n h', matchMore (matchLeaf p) fuel times (Some (length lft)) lft coll h = (Ok (times + n, [], coll), h') /\
    at_ h' s = newArgument (name p) (AList (acc ++ ws)) /\ forall j, j < length h -> j <> s -> at_ h' j = at_ h j.
Proof.
  induction ws as [|w ws IH]; intros lft fuel times h coll s acc Hw Hf Hc Hs Hfuel; (destruct fuel as [|fuel]; [lia|]).
  - apply Forall2_nil_inv_r in Hw as ->. cbn [matchMore]. rewrite (bind_ok _ _ _ _ _ (matchLeaf_none coll h)).
    exists 0, h. rewrite app_nil_r, Nat.add_0_r. by split.
  - apply Forall2_cons_inv_r in Hw as (i & lft' & Hi & Hw & ->). cbn [matchMore].
    destruct (matchLeaf_next h i lft' coll s acc w Hi Hf Hc Hs) as (h1 & E & Hlen & Hs1 & Hsame).
    rewrite (bind_ok _ _ _ _ _ E). cbn [length negb]. rewrite bool_decide_eq_false_2 by (intros [= ?]; lia). cbn [orb].
    destruct (filter_singleton _ _ _ Hf) as [_ Hin].
    destruct (IH lft' fuel (S times) h1 coll s (acc ++ [w])) as (n & h2 & E2 & Hs2 & Hsame2).
    + eapply Forall2_impl; [exact Hw|]. intros j x [Hj Hx]. split; [lia|]. rewrite Hsame; [done|done|]. intros ->.
      rewrite Hs in Hx. by injection Hx as Hx _.
    + rewrite <- Hf. apply filter_names. eapply Forall_impl; [exact Hc|]. intros a Ha. cbn.
      destruct (decide (a = s)) as [->|Hne]; [by rewrite Hs1, Hs|by rewrite Hsame].
    + eapply Forall_impl; [exact Hc|]. cbn. lia.
    + exact Hs1.
    + cbn in Hfuel. lia.
    + exists (S n), h2. rewrite E2, Hs2, <- app_assoc. split_and!; [by rewrite Nat.add_succ_r|done|].
      intros j Hj Hne. rewrite Hsame2, Hsame; [done|done|done|lia|done].
Qed.

Lemma matchMore_words h i lft coll w ws :
  wordAt h i w -> Forall2 (wordAt h) lft ws -> filter (fun a => name (at_ h a) = name p) coll = [] ->
  Forall (fun a => a < length h) coll ->
  exists n h', matchMore (matchLeaf p) (S (S (length (i :: lft)))) 0 None (i :: lft) coll h = (Ok (S n, [], coll ++ [length h]), h') /\
    at_ h' (length h) = newArgument (name p) (AList (w :: ws)) /\ forall j, j < length h -> at_ h' j = at_ h j.
Proof.
  intros Hi Hw Hf Hc. set (fuel := S (length (i :: lft))). cbn [matchMore].
  rewrite (bind_ok _ _ _ _ _ (matchLeaf_first h i lft coll w Hi Hf Hc)). cbn [negb orb].
  rewrite bool_decide_eq_false_2 by done. cbn [orb]. set (h1 := h ++ [newArgument (name p) (AList [w])]).
  destruct (matchMore_next ws lft fuel 1 h1 (coll ++ [length h]) (length h) [w]) as (n & h2 & E2 & Hs2 & Hsame2).
  - eapply Forall2_impl; [exact Hw|]. intros j x. apply wordAt_alloc.
  - rewrite filter_app. assert (filter (fun a => name (at_ h1 a) = name p) coll = []) as ->.
    { rewrite <- Hf. by apply filter_names, names_alloc. }
    rewrite filter_cons_True; [done|]. unfold h1. by rewrite at_new.
  - unfold h1. rewrite length_app. apply Forall_app_2; [|by constructor; cbn; [lia|]].
    eapply Forall_impl; [exact Hc|]. cbn. lia.
  - unfold h1. by rewrite at_new.
  - unfold fuel. cbn. lia.
  - exists n, h2. split_and!; [exact E2|exact Hs2|]. intros j Hj. rewrite Hsame2; [unfold h1; by rewrite at_alloc| |lia].
    unfold h1. rewrite length_app. lia.
Qed.
End takes.
