(* ===== verification/Json.v ===== *)
(** * JSON, as the service's API uses it

    What [encoding/json] of the standard library makes of the types that travel
    between [kord/client.go] and [kord/api.go]: strings, byte slices (in
    base64), hashes, quads, deltas and options.  A JSON text is the value of
    [Api.json] it denotes.  A type that travels is an instance of [JSON]; its
    law, in [JSONLaws], says what the other side reads of a value. *)
From S2P Require Import Prelude Keccak Common Crypto Sha1 Quad Sql Api Cli.

(** ** Base64, as [encoding/json] writes byte slices *)

Definition alphabet : bytes := "ABCDEFGHIJKLMNOPQRSTUVWXYZabcdefghijklmnopqrstuvwxyz0123456789+/".
Definition enc6 (n : N) : ascii := nth (N.to_nat n) alphabet (N2b 0).
Fixpoint index (c : ascii) (l : bytes) (n : N) : option N :=
  match l with
  | [] => None
  | d :: l => if bool_decide (c = d) then Some n else index c l (n + 1)
  end.
Definition dec6 (c : ascii) : option N := index c alphabet 0.
Definition pad : ascii := "="%char.

Fixpoint Base64 (l : bytes) : bytes :=
  match l with
  | a :: b :: c :: l =>
      let n := (b2N a * 65536 + b2N b * 256 + b2N c)%N in
      enc6 (n / 262144) :: enc6 (n / 4096 mod 64) :: enc6 (n / 64 mod 64) :: enc6 (n mod 64) :: Base64 l
  | [a; b] =>
      let n := (b2N a * 65536 + b2N b * 256)%N in
      [enc6 (n / 262144); enc6 (n / 4096 mod 64); enc6 (n / 64 mod 64); pad]
  | [a] =>
      let n := (b2N a * 65536)%N in [enc6 (n / 262144); enc6 (n / 4096 mod 64); pad; pad]
  | [] => []
  end.

Definition corrupt : error := ETyped "base64.CorruptInputError" [].

(** [StdEncoding.Decode]: four characters at a time, line ends skipped. *)
Fixpoint quanta (l : bytes) : result bytes :=
  match l with
  | [] => Ok []
  | a :: b :: c :: d :: rest =>
      match dec6 a, dec6 b, dec6 c, dec6 d with
      | Some x, Some y, Some z, Some t =>
          let n := (x * 262144 + y * 4096 + z * 64 + t)%N in
          r ← quanta rest; Ok (N2b (n / 65536) :: N2b (n / 256 mod 256) :: N2b (n mod 256) :: r)
      | Some x, Some y, Some z, None =>
          let n := (x * 262144 + y * 4096 + z * 64)%N in
          if bool_decide (d = pad) && bool_decide (rest = []) then Ok [N2b (n / 65536); N2b (n / 256 mod 256)] else Err corrupt
      | Some x, Some y, None, None =>
          let n := (x * 262144 + y * 4096)%N in
          if bool_decide (c = pad) && bool_decide (d = pad) && bool_decide (rest = []) then Ok [N2b (n / 65536)] else Err corrupt
      | _, _, _, _ => Err corrupt
      end
  | _ => Err corrupt
  end.
Definition Base64_Decode (l : bytes) : result bytes :=
  quanta (filter (fun c => c <> N2b 10 /\ c <> N2b 13) l).

(** Three bytes at a time. *)
Lemma bytes_ind3 (P : bytes -> Prop) :
  P [] -> (forall a, P [a]) -> (forall a b, P [a; b]) -> (forall a b c l, P l -> P (a :: b :: c :: l)) -> forall l, P l.
Proof.
  intros H0 H1 H2 H3 l. assert (P l /\ (forall a, P (a :: l)) /\ (forall a b, P (a :: b :: l))) as [? _]; [|done].
  induction l as [|x l (IH1 & IH2 & IH3)]; [auto|]. auto.
Qed.

Lemma dec6_enc6 n : (n < 64)%N -> dec6 (enc6 n) = Some n.
Proof.
  intros Hn. assert (forallb (fun k => bool_decide (dec6 (enc6 (N.of_nat k)) = Some (N.of_nat k))) (seq 0 64) = true) as H by (vm_compute; reflexivity).
  rewrite forallb_forall in H. specialize (H (N.to_nat n)). rewrite N2Nat.id in H. apply bool_decide_eq_true in H; [done|].
  apply in_seq. lia.
Qed.

Lemma dec6_pad : dec6 pad = None.
Proof. reflexivity. Qed.

(** The digits of three bytes, and the bytes again. *)
Lemma digits24 a b c (n := (b2N a * 65536 + b2N b * 256 + b2N c)%N) :
  (n / 262144 < 64 /\ n / 4096 mod 64 < 64 /\ n / 64 mod 64 < 64 /\ n mod 64 < 64)%N /\
  (n / 262144 * 262144 + n / 4096 mod 64 * 4096 + n / 64 mod 64 * 64 + n mod 64 = n)%N /\
  N2b (n / 65536) = a /\ N2b (n / 256 mod 256) = b /\ N2b (n mod 256) = c.
Proof.
  pose proof (b2N_lt a). pose proof (b2N_lt b). pose proof (b2N_lt c).
  assert (n < 16777216)%N as Hn by (unfold n; lia).
  split; [|split].
  - split_and!; try (apply N.mod_lt; done). apply N.Div0.div_lt_upper_bound. lia.
  - pose proof (N.div_mod' n 64). pose proof (N.div_mod' (n / 64) 64). pose proof (N.div_mod' (n / 4096) 64).
    rewrite !N.Div0.div_div in *. change (64 * 64)%N with 4096%N in *. change (4096 * 64)%N with 262144%N in *. lia.
  - assert (n / 65536 = b2N a)%N as -> by (symmetry; apply (N.div_unique _ _ _ (b2N b * 256 + b2N c)); unfold n; lia).
    assert (n / 256 = b2N a * 256 + b2N b)%N as -> by (symmetry; apply (N.div_unique _ _ _ (b2N c)); unfold n; lia).
    assert ((b2N a * 256 + b2N b) mod 256 = b2N b)%N as -> by (symmetry; apply (N.mod_unique _ _ (b2N a)); lia).
    assert (n mod 256 = b2N c)%N as -> by (symmetry; apply (N.mod_unique _ _ (b2N a * 256 + b2N b)); unfold n; lia).
    by rewrite !N2b_b2N.
Qed.

Lemma quanta_Base64 l : quanta (Base64 l) = Ok l.
Proof.
  induction l as [|a|a b|a b c l IH] using bytes_ind3; [done|..].
  - pose proof (digits24 a (N2b 0) (N2b 0)) as (Hd & Hn & Ha & _). change (b2N (N2b 0)) with 0%N in *.
    rewrite !N.mul_0_l, !N.add_0_r in *. cbn [Base64 quanta]. set (n := (b2N a * 65536)%N) in *.
    assert (n mod 64 = 0)%N as H0 by (unfold n; change 65536%N with (1024 * 64)%N; rewrite N.mul_assoc; apply N.Div0.mod_mul).
    assert (n / 64 mod 64 = 0)%N as H1.
    { unfold n. change 65536%N with (1024 * 64)%N. rewrite N.mul_assoc, N.div_mul by done.
      change 1024%N with (16 * 64)%N. rewrite N.mul_assoc. apply N.Div0.mod_mul. }
    rewrite H0, H1 in Hn. rewrite N.mul_0_l, !N.add_0_r in Hn.
    rewrite !dec6_enc6, dec6_pad by tauto. rewrite !bool_decide_eq_true_2 by done. cbn [andb]. by rewrite Hn, Ha.
  - pose proof (digits24 a b (N2b 0)) as (Hd & Hn & Ha & Hb & _). change (b2N (N2b 0)) with 0%N in *.
    rewrite !N.add_0_r in *. cbn [Base64 quanta]. set (n := (b2N a * 65536 + b2N b * 256)%N) in *.
    assert (n mod 64 = 0)%N as H0.
    { unfold n. replace (b2N a * 65536 + b2N b * 256)%N with ((b2N a * 1024 + b2N b * 4) * 64)%N by lia.
      apply N.Div0.mod_mul. }
    rewrite H0, N.add_0_r in Hn.
    rewrite !dec6_enc6, dec6_pad by tauto. rewrite !bool_decide_eq_true_2 by done. cbn [andb]. by rewrite Hn, Ha, Hb.
  - pose proof (digits24 a b c) as (Hd & Hn & Ha & Hb & Hc). cbn [Base64 quanta]. cbv zeta in *.
    set (n := (b2N a * 65536 + b2N b * 256 + b2N c)%N) in *.
    rewrite !dec6_enc6 by tauto. rewrite Hn, IH. cbn. by rewrite Ha, Hb, Hc.
Qed.

Lemma Base64_chars l : Forall (fun c => c <> N2b 10 /\ c <> N2b 13) (Base64 l).
Proof.
  assert (forall n, (n < 64)%N -> enc6 n <> N2b 10 /\ enc6 n <> N2b 13) as He.
  { intros n Hn. split; intros E; apply (f_equal dec6) in E; rewrite dec6_enc6 in E by done; discriminate E. }
  induction l as [|a|a b|a b c l IH] using bytes_ind3; [constructor|..].
  - pose proof (digits24 a (N2b 0) (N2b 0)) as (Hd & _). change (b2N (N2b 0)) with 0%N in *.
    rewrite !N.mul_0_l, !N.add_0_r in *. cbn [Base64]. repeat constructor; try discriminate; apply He; tauto.
  - pose proof (digits24 a b (N2b 0)) as (Hd & _). change (b2N (N2b 0)) with 0%N in *.
    rewrite !N.add_0_r in *. cbn [Base64]. repeat constructor; try discriminate; apply He; tauto.
  - pose proof (digits24 a b c) as (Hd & _). cbn [Base64]. cbv zeta in *.
    repeat (apply Forall_cons; split; [apply He; tauto|]). exact IH.
Qed.

Lemma Base64_Decode_Base64 l : Base64_Decode (Base64 l) = Ok l.
Proof.
  unfold Base64_Decode. rewrite <- quanta_Base64. f_equal.
  pose proof (Base64_chars l) as H. induction H as [|c s Hc _ IH]; [done|]. by rewrite filter_cons_True, IH.
Qed.

(** ** Text *)

(** The encoder replaces every byte that is not part of valid UTF-8. *)
Definition between (lo hi : N) (c : ascii) : bool := ((lo <=? b2N c) && (b2N c <=? hi))%N.
Definition cont : ascii -> bool := between 128 191.
Definition two (a b : ascii) : bool := between 194 223 a && cont b.
Definition three (a b c : ascii) : bool :=
  (if (b2N a =? 224)%N then between 160 191 b
   else if (b2N a =? 237)%N then between 128 159 b else between 225 239 a && cont b) && cont c.
Definition four (a b c d : ascii) : bool :=
  (if (b2N a =? 240)%N then between 144 191 b
   else if (b2N a =? 244)%N then between 128 143 b else between 241 243 a && cont b) && cont c && cont d.
Definition RuneError : bytes := [N2b 239; N2b 191; N2b 189].

Fixpoint ToValid (s : bytes) : bytes :=
  match s with
  | [] => []
  | a :: s1 =>
      if (b2N a <? 128)%N then a :: ToValid s1
      else match s1 with
           | b :: s2 =>
               if two a b then a :: b :: ToValid s2
               else match s2 with
                    | c :: s3 =>
                        if three a b c then a :: b :: c :: ToValid s3
                        else match s3 with
                             | d :: s4 =>
                                 if four a b c d then a :: b :: c :: d :: ToValid s4
                                 else RuneError ++ ToValid s1
                             | [] => RuneError ++ ToValid s1
                             end
                    | [] => RuneError ++ ToValid s1
                    end
           | [] => RuneError ++ ToValid s1
           end
  end.

Definition isText (s : bytes) : Prop := ToValid s = s.
#[export] Instance isText_dec s : Decision (isText s) := decide (ToValid s = s).

Lemma ascii_isText s : Forall (fun c => (b2N c < 128)%N) s -> isText s.
Proof.
  unfold isText. induction 1 as [|c s Hc _ IH]; [done|]. cbn [ToValid]. by rewrite (proj2 (N.ltb_lt _ _) Hc), IH.
Qed.

(** ** Numbers *)

Fixpoint digits (fuel : nat) (n : Z) : bytes :=
  match fuel with
  | O => []
  | S fuel => (if (n <? 10)%Z then [] else digits fuel (n / 10)) ++ [N2b (48 + Z.to_N (n mod 10))]
  end.
(** [strconv.Itoa]; no number here has more than three digits. *)
Definition Itoa (n : Z) : bytes := (if (n <? 0)%Z then ["-"%char] else []) ++ digits 3 (Z.abs n).

(** The value of an eight bit integer. *)
Definition int8 (n : Z) : Z := ((n + 128) mod 256 - 128)%Z.

Lemma Atoi_Itoa n : (-128 <= n < 128)%Z -> Atoi (Itoa n) = Some n.
Proof.
  intros Hn.
  assert (forallb (fun k => bool_decide (Atoi (Itoa (Z.of_nat k - 128)) = Some (Z.of_nat k - 128)%Z)) (seq 0 256) = true) as H
    by (vm_compute; reflexivity).
  rewrite forallb_forall in H. specialize (H (Z.to_nat (n + 128))).
  rewrite Z2Nat.id, Z.add_simpl_r in H by lia. apply bool_decide_eq_true in H; [done|]. apply in_seq. lia.
Qed.

Lemma int8_range n : (-128 <= int8 n < 128)%Z.
Proof. unfold int8. pose proof (Z.mod_pos_bound (n + 128) 256). lia. Qed.

Lemma int8_id n : (-128 <= n < 128)%Z -> int8 n = n.
Proof. intros Hn. unfold int8. rewrite Z.mod_small; lia. Qed.

(** ** Encoding and decoding *)

Definition UnmarshalTypeError : error := ETyped "json.UnmarshalTypeError" [].

(** A type of Go that travels: [decode a v] reads [v] into a variable that
    holds [a], as [json.Unmarshal] does; a variable starts as [zero]. *)
Class JSON (A : Type) := { zero : A; encode : A -> json; decode : A -> json -> result A; arrives : A -> A }.
Class JSONLaws (A : Type) `{!JSON A} := { decode_arrives a : decode zero (encode a) = Ok (arrives a) }.

(** A [string], and a [[]byte]. *)
Record text := Text { chars : bytes }.
Record slice := Slice { octets : bytes }.

Definition decodeText (old : bytes) (v : json) : result bytes :=
  match v with JNull => Ok old | JString s => Ok s | _ => Err UnmarshalTypeError end.

#[export] Instance text_JSON : JSON text := {
  zero := Text []; encode t := JString (ToValid (chars t));
  decode t v := Text <$> decodeText (chars t) v; arrives t := Text (ToValid (chars t));
}.
#[export] Instance text_JSONLaws : JSONLaws text.
Proof. by split. Qed.

(** An element of a [[]byte] that is written as a list of numbers. *)
Definition decodeOctet (v : json) : result ascii :=
  match v with
  | JNull => Ok (N2b 0)
  | JNumber t => match Atoi t with
                 | Some n => if ((0 <=? n) && (n <? 256))%Z then Ok (N2b (Z.to_N n)) else Err UnmarshalTypeError
                 | None => Err UnmarshalTypeError
                 end
  | _ => Err UnmarshalTypeError
  end.
Definition decodeSlice (v : json) : result bytes :=
  match v with
  | JNull => Ok []
  | JString s => Base64_Decode s
  | JArray l => mapM decodeOctet l
  | _ => Err UnmarshalTypeError
  end.

#[export] Instance slice_JSON : JSON slice := {
  zero := Slice []; encode b := JString (Base64 (octets b)); decode _ v := Slice <$> decodeSlice v; arrives b := b;
}.
#[export] Instance slice_JSONLaws : JSONLaws slice.
Proof.
  split. intros [b]. change (Slice <$> Base64_Decode (Base64 b) = Ok (Slice b)). by rewrite Base64_Decode_Base64.
Qed.

(** [hexutil.UnmarshalFixedText] and [UnmarshalFixedJSON], of a hash. *)
Definition checkText (input : bytes) (wantPrefix : bool) : result bytes :=
  if bool_decide (input = []) then Ok []
  else input ← (if hasHexPrefix input then Ok (drop 2 input)
                else if wantPrefix then Err ErrMissingPrefix else Ok input);
       if Nat.odd (length input) then Err ErrOddLength else Ok input.
Definition UnmarshalFixedText (n : nat) (input : bytes) : result (array n) :=
  raw ← checkText input true;
  if negb (length raw / 2 =? n)%nat then Err (ETyped "fmt.Errorf" "hex string has length %d, want %d for %s")
  else if forallb isHexCharacter raw then b ← DecodeString raw; Ok (SetBytes (zero_array n) b)
  else Err ErrSyntax.
Definition wrapTypeError (e : error) : error := EWrap "json.UnmarshalTypeError" [] e.
Definition UnmarshalFixedJSON (n : nat) (v : json) : result (array n) :=
  match v with
  | JString s => match UnmarshalFixedText n s with Err e => Err (wrapTypeError e) | r => r end
  | _ => Err UnmarshalTypeError
  end.

#[export] Instance Hash_JSON : JSON Hash := {
  zero := zero_array 32; encode h := JString (Hash_Hex h); decode _ v := UnmarshalFixedJSON 32 v; arrives h := h;
}.
#[export] Instance Hash_JSONLaws : JSONLaws Hash.
Proof.
  split. intros h. change (UnmarshalFixedJSON 32 (JString (Hash_Hex h)) = Ok h).
  unfold UnmarshalFixedJSON, UnmarshalFixedText, checkText. rewrite bool_decide_eq_false_2 by done.
  unfold Hash_Hex, Encode. change (hasHexPrefix ("0x" ++ EncodeToString h)) with true.
  change (drop 2 ("0x" ++ EncodeToString h)) with (EncodeToString h). cbn [mbind result_bind].
  rewrite odd_EncodeToString. cbn [mbind result_bind]. rewrite length_EncodeToString, Nat.mul_comm, Nat.div_mul, array_length by done.
  pose proof (isHex_EncodeToString h) as Hx. unfold isHex in Hx. rewrite odd_EncodeToString in Hx. rewrite Hx.
  cbn [Nat.eqb negb]. rewrite DecodeString_Encode. cbn [mbind result_bind]. by rewrite SetBytes_full.
Qed.

Definition decodeBool (old : bool) (v : json) : result bool :=
  match v with JNull => Ok old | JBool b => Ok b | _ => Err UnmarshalTypeError end.
Definition decodeInt8 (old : Z) (v : json) : result Z :=
  match v with
  | JNull => Ok old
  | JNumber t => match Atoi t with
                 | Some n => if ((-128 <=? n) && (n <? 128))%Z then Ok n else Err UnmarshalTypeError
                 | None => Err UnmarshalTypeError
                 end
  | _ => Err UnmarshalTypeError
  end.

Lemma decodeInt8_Itoa old n : decodeInt8 old (JNumber (Itoa (int8 n))) = Ok (int8 n).
Proof.
  pose proof (int8_range n). cbn [decodeInt8]. rewrite Atoi_Itoa by done.
  by rewrite (proj2 (Z.leb_le _ _)), (proj2 (Z.ltb_lt _ _)) by lia.
Qed.

(** *** Structs *)

(** Names of fields are compared up to case; two letters of Unicode fold to
    the ASCII [k] and [s]. *)
Fixpoint foldKey (s : bytes) : bytes :=
  match s with
  | [] => []
  | a :: s1 =>
      let c := if in_range "A" "Z" a then N2b (b2N a + 32) else a in
      match s1 with
      | b :: s2 =>
          if bool_decide (a = N2b 197 /\ b = N2b 191) then "s"%char :: foldKey s2
          else match s2 with
               | d :: s3 => if bool_decide (a = N2b 226 /\ b = N2b 132 /\ d = N2b 170)
                            then "k"%char :: foldKey s3 else c :: foldKey s1
               | [] => c :: foldKey s1
               end
      | [] => c :: foldKey s1
      end
  end.

(** The field a key means: the one of that name, else the first that has it up to case. *)
Definition fieldFor (names : list bytes) (k : bytes) : option nat :=
  match list_find (fun n => n = k) names with
  | Some (i, _) => Some i
  | None => fst <$> list_find (fun n => foldKey n = foldKey k) names
  end.

Section struct.
Context {A : Type} (names : list bytes) (set : nat -> A -> json -> result A).

Fixpoint decodeMembers (a : A) (l : list (bytes * json)) : result A :=
  match l with
  | [] => Ok a
  | (k, v) :: l => a ← (match fieldFor names k with Some i => set i a v | None => Ok a end); decodeMembers a l
  end.
Definition decodeStruct (a : A) (v : json) : result A :=
  match v with JNull => Ok a | JObject l => decodeMembers a l | _ => Err UnmarshalTypeError end.
End struct.

(** *** Quads, deltas, options *)

Definition zeroRaw : rawQuad := {| rawSubject := []; rawPredicate := []; rawObject := []; rawLabel := [] |}.
Definition setRaw (i : nat) (r : rawQuad) (v : json) : result rawQuad :=
  match i with
  | 0 => s ← decodeText (rawSubject r) v;
         Ok {| rawSubject := s; rawPredicate := rawPredicate r; rawObject := rawObject r; rawLabel := rawLabel r |}
  | 1 => s ← decodeText (rawPredicate r) v;
         Ok {| rawSubject := rawSubject r; rawPredicate := s; rawObject := rawObject r; rawLabel := rawLabel r |}
  | 2 => s ← decodeText (rawObject r) v;
         Ok {| rawSubject := rawSubject r; rawPredicate := rawPredicate r; rawObject := s; rawLabel := rawLabel r |}
  | _ => s ← decodeText (rawLabel r) v;
         Ok {| rawSubject := rawSubject r; rawPredicate := rawPredicate r; rawObject := rawObject r; rawLabel := s |}
  end.
Definition rawNames : list bytes := ["subject" : bytes; "predicate" : bytes; "object" : bytes; "label" : bytes].
Definition decodeRaw : json -> result rawQuad := decodeStruct rawNames setRaw zeroRaw.

(** An empty label is left out. *)
Definition encodeRaw (r : rawQuad) : json :=
  JObject ([("subject" : bytes, JString (ToValid (rawSubject r)));
            ("predicate" : bytes, JString (ToValid (rawPredicate r)));
            ("object" : bytes, JString (ToValid (rawObject r)))] ++
           if bool_decide (rawLabel r = []) then [] else [("label" : bytes, JString (ToValid (rawLabel r)))]).
Definition validRaw (r : rawQuad) : rawQuad :=
  {| rawSubject := ToValid (rawSubject r); rawPredicate := ToValid (rawPredicate r);
     rawObject := ToValid (rawObject r); rawLabel := ToValid (rawLabel r) |}.

Lemma decodeRaw_encodeRaw r : decodeRaw (encodeRaw r) = Ok (validRaw r).
Proof.
  unfold encodeRaw, decodeRaw, decodeStruct, validRaw. destruct r as [s p o l]. cbn [rawSubject rawPredicate rawObject rawLabel].
  case_bool_decide as Hl; [by rewrite Hl|done].
Qed.

#[export] Instance Quad_JSON : JSON Quad := {
  zero := {| qSubject := None; qPredicate := None; qObject := None; qLabel := None |};
  encode q := encodeRaw (MarshalJSON q); decode _ v := UnmarshalJSON <$> decodeRaw v;
  arrives q := UnmarshalJSON (validRaw (MarshalJSON q));
}.
#[export] Instance Quad_JSONLaws : JSONLaws Quad.
Proof. split. intros q. cbn [decode encode arrives Quad_JSON]. by rewrite decodeRaw_encodeRaw. Qed.

(** Texts that are valid arrive as [Cli] has it. *)
Definition quadText (q : Quad) : Prop :=
  let r := MarshalJSON q in isText (rawSubject r) /\ isText (rawPredicate r) /\ isText (rawObject r) /\ isText (rawLabel r).

Lemma arrives_quad q : quadText q -> arrives q = sent q.
Proof. intros (Hs & Hp & Ho & Hl). unfold arrives, Quad_JSON, sent, validRaw. rewrite Hs, Hp, Ho, Hl. by destruct (MarshalJSON q). Qed.

Definition setDelta (i : nat) (d : Delta) (v : json) : result Delta :=
  match i with
  | 0 => q ← decode (dQuad d) v; Ok {| dQuad := q; Action := Action d |}
  | _ => a ← decodeInt8 (Action d) v; Ok {| dQuad := dQuad d; Action := a |}
  end.
Definition deltaNames : list bytes := ["Quad" : bytes; "Action" : bytes].

#[export] Instance Delta_JSON : JSON Delta := {
  zero := {| dQuad := zero; Action := 0 |};
  encode d := JObject [("Quad" : bytes, encode (dQuad d)); ("Action" : bytes, JNumber (Itoa (int8 (Action d))))];
  decode := decodeStruct deltaNames setDelta;
  arrives d := {| dQuad := arrives (dQuad d); Action := int8 (Action d) |};
}.
#[export] Instance Delta_JSONLaws : JSONLaws Delta.
Proof.
  split. intros d. cbn [decode encode arrives Delta_JSON zero]. unfold decodeStruct. cbn [decodeMembers].
  change (fieldFor deltaNames ("Quad" : bytes)) with (Some 0). change (fieldFor deltaNames ("Action" : bytes)) with (Some 1).
  cbn [setDelta dQuad]. rewrite decode_arrives. cbn [mbind result_bind]. cbn [setDelta Action]. by rewrite decodeInt8_Itoa.
Qed.

Definition setOpts (i : nat) (o : IgnoreOpts) (v : json) : result IgnoreOpts :=
  match i with
  | 0 => b ← decodeBool (IgnoreDup o) v; Ok {| IgnoreDup := b; IgnoreMissing := IgnoreMissing o |}
  | _ => b ← decodeBool (IgnoreMissing o) v; Ok {| IgnoreDup := IgnoreDup o; IgnoreMissing := b |}
  end.
#[export] Instance IgnoreOpts_JSON : JSON IgnoreOpts := {
  zero := {| IgnoreDup := false; IgnoreMissing := false |};
  encode o := JObject [("IgnoreDup" : bytes, JBool (IgnoreDup o)); ("IgnoreMissing" : bytes, JBool (IgnoreMissing o))];
  decode := decodeStruct ["IgnoreDup" : bytes; "IgnoreMissing" : bytes] setOpts;
  arrives o := o;
}.
#[export] Instance IgnoreOpts_JSONLaws : JSONLaws IgnoreOpts.
Proof. split. by intros []. Qed.

(** A slice; it is decoded into a variable that is [nil]. *)
#[export] Instance list_JSON `{JSON A} : JSON (list A) := {
  zero := []; encode l := JArray (encode <$> l);
  decode _ v := match v with JNull => Ok [] | JArray l => mapM (decode zero) l | _ => Err UnmarshalTypeError end;
  arrives l := arrives <$> l;
}.
#[export] Instance list_JSONLaws `{JSONLaws A} : JSONLaws (list A).
Proof.
  split. intros l. change (mapM (decode zero) (encode <$> l) = Ok (arrives <$> l)).
  induction l as [|a l IH]; [done|]. cbn [fmap list_fmap mapM]. by rewrite decode_arrives, IH.
Qed.

Lemma arrives_deltas ds :
  Forall (fun d => quadText (dQuad d) /\ (-128 <= Action d < 128)%Z) ds ->
  arrives ds = (fun d => {| dQuad := sent (dQuad d); Action := Action d |}) <$> ds.
Proof.
  induction 1 as [|d ds [Hq Ha] _ IH]; [done|]. cbn [fmap list_fmap]. rewrite <- IH.
  change (arrives (d :: ds)) with (arrives d :: arrives ds). f_equal.
  change (arrives d) with {| dQuad := arrives (dQuad d); Action := int8 (Action d) |}.
  by rewrite arrives_quad, int8_id.
Qed.
