(* ===== verification/Rpc.v ===== *)
(** * JSON-RPC

    How a client reaches the API of a node: the server of the vendored package
    [rpc], which finds a method by the name of its service and reads its
    arguments from JSON; the endpoints of a node, and the services each of
    them has; the API of [Server] as such a service; and the client of
    kord/client.go.  A program over the state [K] of the services answers a
    request; a panic that no one recovers ends the process.  The identifiers
    that pair answers with requests, batches and subscriptions are left out. *)
From S2P Require Import Prelude Keccak Common Crypto Uri Contract Registry Claim Sha1 Quad Sql Db GraphDriver Api Server Cli Json.

(** ** Requests and answers *)

Record jsonRequest := { Method : bytes; Payload : option json }.

(** A result, or an error with its code; the error stands for its text. *)
Inductive response := Success (v : json) | Failure (code : Z) (e : error).

Definition methodNotFoundError (service method : bytes) : response :=
  Failure (-32601) (ETyped "rpc.methodNotFoundError" (service ++ "_" ++ method)).
Definition invalidParamsError (e : error) : response := Failure (-32602) e.
Definition callbackCode : Z := -32000.
Definition callbackError (e : error) : response := Failure callbackCode (EWrap "rpc.callbackError" [] e).

Definition underscore : ascii := "_"%char.

(** [strings.Split] at a character, and [strings.HasSuffix]. *)
Fixpoint Split (c : ascii) (s : bytes) : list bytes :=
  match s with
  | [] => [[]]
  | d :: s => if bool_decide (d = c) then [] :: Split c s
              else match Split c s with e :: es => (d :: e) :: es | [] => [[d]] end
  end.
Definition HasSuffix (s suffix : bytes) : bool := bool_decide (drop (length s - length suffix) s = suffix).

Definition isPubSub (method : bytes) : bool := HasSuffix method "_subscribe" || HasSuffix method "_unsubscribe".

(** ** The server *)

(** A method: it reads its arguments one after another, each of a type that
    travels, and then runs; a method without a result but an error yields
    [null].  [Modules] is the server's own. *)
Inductive callback (K : Type) : Type :=
  | Returns (m : prog K json)
  | Takes {A : Type} `{JSON A} (f : A -> callback K)
  | Modules.
Arguments Returns {K}. Arguments Takes {K A _}. Arguments Modules {K}.

Abbreviation service K := (gmap bytes (callback K)).
Abbreviation server K := (gmap bytes (service K)).

Section server.
Context {K : Type}.
Implicit Types cb : callback K.

Fixpoint numArgs cb : nat := match cb with Takes f => S (numArgs (f zero)) | _ => 0 end.

Definition tooManyArguments : error := ETyped "fmt.Errorf" "too many arguments, want at most %d".
Definition invalidArgument (i : nat) (e : error) : error := EWrap "invalid argument" (Itoa (Z.of_nat i)) e.
Definition missingValue (i : nat) : error := ETyped "missing value for required argument" (Itoa (Z.of_nat i)).
Definition nonArrayArgs : error := EMsg "non-array args".

(** What is left to run when the arguments are read: no argument is optional. *)
Inductive call := Run_ (m : prog K json) | Modules_.

Fixpoint parsePositionalArguments (i : nat) cb (l : list json) : result call :=
  match cb, l with
  | Returns m, [] => Ok (Run_ m)
  | Modules, [] => Ok Modules_
  | Takes f, j :: l =>
      match decode zero j with
      | Ok a => parsePositionalArguments (S i) (f a) l
      | Err e => Err (invalidArgument i e)
      | Panic p => Panic p
      end
  | Takes _, [] => Err (missingValue i)
  | _, _ :: _ => Err tooManyArguments
  end.

(** [RPCService.Modules]. *)
Definition modules (srv : server K) : json :=
  JObject ((fun p => (fst p, JString "1.0")) <$> map_to_list srv).

(** [Server.handle], on a regular call with its arguments. *)
Definition invoke (srv : server K) (c : call) : prog K response :=
  match c with
  | Modules_ => mret (Success (modules srv))
  | Run_ m => fun k => match m k with
                       | (Ok v, k') => (Ok (Success v), k')
                       | (Err e, k') => (Ok (callbackError e), k')
                       | (Panic p, k') => (Panic p, k')
                       end
  end.

Definition wrongNumber (method : bytes) : error := ETyped "%s%s%s expects %d parameters, got %d" method.

(** The arguments of a request are read when there are any to read and to be read into. *)
Definition handle (srv : server K) (method : bytes) cb (payload : option json) : prog K response :=
  match cb, payload with
  | Takes _, Some (JArray l) =>
      match parsePositionalArguments 0 cb l with
      | Ok c => invoke srv c
      | Err e => mret (invalidParamsError e)
      | Panic p => gopanic p
      end
  | Takes _, Some _ => mret (invalidParamsError nonArrayArgs)
  | Takes _, None => mret (invalidParamsError (wrongNumber method))
  | Returns m, _ => invoke srv (Run_ m)
  | Modules, _ => invoke srv Modules_
  end.

(** One request: parsed, its method looked up, and executed. *)
Definition serve (pubsub : jsonRequest -> prog K response) (srv : server K) (r : jsonRequest) : prog K response :=
  if isPubSub (Method r) then pubsub r
  else match Split underscore (Method r) with
       | [s; m] =>
           match srv !! s with
           | None => mret (methodNotFoundError s m)
           | Some svc => match svc !! m with
                         | None => mret (methodNotFoundError s m)
                         | Some cb => handle srv (Method r) cb (Payload r)
                         end
           end
       | _ => mret (methodNotFoundError (Method r) [])
       end.

(** A request on a connection runs in a goroutine of its own, and its panic is
    the process's; [ServeSingleRequest], of an HTTP request, recovers and
    sends nothing. *)
Definition ServeSingleRequest (pubsub : jsonRequest -> prog K response) (srv : server K) (r : jsonRequest) :
    prog K (option response) := fun k =>
  match serve pubsub srv r k with
  | (Ok x, k') => (Ok (Some x), k')
  | (Err e, k') => (Err e, k')
  | (Panic _, k') => (Ok None, k')
  end.

(** *** Registration *)

Definition formatName (name : bytes) : bytes :=
  match name with c :: s => (if in_range "A" "Z" c then N2b (b2N c + 32) else c) :: s | [] => [] end.

(** [RegisterName]: the service is the list of its suitable methods, of a type that is exported. *)
Definition RegisterName (name : bytes) (svc : list (bytes * callback K)) (srv : server K) : result (server K) :=
  if bool_decide (name = []) then Err (ETyped "fmt.Errorf" "no service name for type %s")
  else if bool_decide (fst <$> svc = [])
  then Err (ETyped "fmt.Errorf" "Service %T doesn't have any suitable methods/subscriptions to expose")
  else let methods := list_to_map ((fun p => (formatName (fst p), snd p)) <$> svc) : service K in
       Ok (<[name := methods ∪ default ∅ (srv !! name)]> srv).

Definition MetadataApi : bytes := "rpc".
Definition NewServer : server K := {[ MetadataApi := {[ "modules" : bytes := Modules ]} ]}.

(** *** The endpoints of a node *)

Record API := { Namespace : bytes; Version : bytes; Service : list (bytes * callback K); Public : bool }.

Fixpoint registerAll (chosen : API -> bool) (apis : list API) (srv : server K) : result (server K) :=
  match apis with
  | [] => Ok srv
  | a :: apis => srv ← (if chosen a then RegisterName (Namespace a) (Service a) srv else Ok srv);
                 registerAll chosen apis srv
  end.

Definition startInProc (apis : list API) : result (server K) := registerAll (fun _ => true) apis NewServer.

(** The other endpoints are off when they have no address; [listen] is the outcome of listening at one. *)
Definition startEndpoint (listen : bytes -> result unit) (endpoint : bytes) (chosen : API -> bool) (apis : list API) :
    result (option (server K)) :=
  if bool_decide (endpoint = []) then Ok None
  else srv ← registerAll chosen apis NewServer; _ ← listen endpoint; Ok (Some srv).

Definition whitelisted (ms : list bytes) (exposeAll : bool) (a : API) : bool :=
  exposeAll || bool_decide (Namespace a ∈ ms) || (bool_decide (ms = []) && Public a).

Definition startIPC (listen : bytes -> result unit) (endpoint : bytes) (apis : list API) :
    result (option (server K)) := startEndpoint listen endpoint (fun _ => true) apis.
Definition startHTTP (listen : bytes -> result unit) (endpoint : bytes) (apis : list API) (ms : list bytes) :
    result (option (server K)) := startEndpoint listen endpoint (whitelisted ms false) apis.
Definition startWS (listen : bytes -> result unit) (endpoint : bytes) (apis : list API) (ms : list bytes)
    (exposeAll : bool) : result (option (server K)) := startEndpoint listen endpoint (whitelisted ms exposeAll) apis.
End server.
Arguments API : clear implicits.

(** The part of [node.Config] the endpoints depend on. *)
Record rpcConfig := { Name : bytes; ConfigVersion : bytes; IPCPath : bytes; httpEndpoint : bytes; HTTPModules : list bytes;
                      wsEndpoint : bytes; WSModules : list bytes; WSExposeAll : bool }.

(** [node.DefaultConfig], without a host for HTTP or WebSocket, and [defaultNodeConfig] of cli/node.go. *)
Definition DefaultNode : rpcConfig :=
  {| Name := []; ConfigVersion := []; IPCPath := []; httpEndpoint := []; HTTPModules := ["net" : bytes; "web3" : bytes];
     wsEndpoint := []; WSModules := ["net" : bytes; "web3" : bytes]; WSExposeAll := false |}.
Definition defaultNodeConfig : rpcConfig :=
  {| Name := "kord"; ConfigVersion := "0.0.1"; IPCPath := "kord.ipc";
     httpEndpoint := httpEndpoint DefaultNode; HTTPModules := HTTPModules DefaultNode ++ ["eth" : bytes];
     wsEndpoint := wsEndpoint DefaultNode; WSModules := WSModules DefaultNode ++ ["eth" : bytes];
     WSExposeAll := WSExposeAll DefaultNode |}.

Record endpoints (K : Type) := { inproc : server K; ipc : option (server K);
                                 http : option (server K); ws : option (server K) }.
Arguments inproc {K}. Arguments ipc {K}. Arguments http {K}. Arguments ws {K}.

(** [startRPC], on the API of the node and of its services in the order the map of services yields them;
    what was started is stopped again when a later endpoint fails. *)
Definition startRPC {K} (listen : bytes -> result unit) (cfg : rpcConfig) (own : list (API K)) (services : list (list (API K))) :
    result (endpoints K) :=
  let apis := own ++ concat services in
  s0 ← startInProc apis;
  s1 ← startIPC listen (IPCPath cfg) apis;
  s2 ← startHTTP listen (httpEndpoint cfg) apis (HTTPModules cfg);
  s3 ← startWS listen (wsEndpoint cfg) apis (WSModules cfg) (WSExposeAll cfg);
  Ok {| inproc := s0; ipc := s1; http := s2; ws := s3 |}.

(** *** Where the node listens for local clients *)

(** [filepath.Clean] of a rooted path, [Abs] from a working directory, and
    [Join] to a rooted directory, on Unix. *)
Definition Clean (p : bytes) : bytes :=
  match cleanElements (elements_of p) with [] => "/" | els => joinPath els end.
Definition Abs (cwd p : bytes) : bytes :=
  match p with "/"%char :: _ => Clean p | _ => Clean (cwd ++ "/" ++ p) end.

(** [IPCEndpoint] of the configuration in a new node, whose data directory is absolute. *)
Definition IPCEndpoint (osTemp cwd dataDir ipcPath : bytes) : bytes :=
  if bool_decide (ipcPath = []) then []
  else if bool_decide ("/"%char ∉ ipcPath \/ ipcPath = ["/"%char]) then
    Clean ((if bool_decide (dataDir = []) then osTemp else Abs cwd dataDir) ++ "/" ++ ipcPath)
  else ipcPath.

(** ** The service of [Server] *)

(** A result as the server sends it: a value, or [null] where there is only an error. *)
Definition reply {K A} `{JSON A} (m : prog K A) : prog K json := a ← m; mret (encode a).
Definition replyNone {K} (m : prog K unit) : prog K json := _ ← m; mret JNull.

Section kord.
Context {R D : Type} `{Secp256k1} `{!Registry R} `{!DPA D} `{SqliteCodec}.
Context (iteration : list ValueHash -> list ValueHash).

Definition kordMethods : list (bytes * callback (kord R D)) :=
  [("CreateGraph" : bytes, Takes (fun name : text => Returns (reply (PublicAPI.CreateGraph (chars name)))));
   ("CommitGraph" : bytes, Takes (fun name : text => Returns (reply (PublicAPI.CommitGraph (chars name)))));
   ("SetGraph" : bytes, Takes (fun hash : Hash => Takes (fun sig : slice =>
      Returns (replyNone (PublicAPI.SetGraph hash (octets sig))))));
   ("SetRootDapp" : bytes, Takes (fun uri : text => Returns (replyNone (PublicAPI.SetRootDapp iteration (chars uri)))));
   ("HttpAddr" : bytes, Returns (reply (addr ← PublicAPI.HttpAddr; mret (Text addr))));
   ("ApplyDeltas" : bytes, Takes (fun name : text => Takes (fun ds : list Delta => Takes (fun opts : IgnoreOpts =>
      Returns (reply (PublicAPI.ApplyDeltas (chars name) ds opts))))))].

(** [Kord.APIs]. *)
Definition APIs : list (API (kord R D)) :=
  [{| Namespace := "kord"; Version := "0.1"; Service := kordMethods; Public := true |}].

(** ** The client *)

(** A client is the server at the other end of its connection. *)
Context (pubsub : jsonRequest -> prog (kord R D) response).
Implicit Types srv : server (kord R D).

Definition jsonError (e : error) : error := EWrap "rpc.jsonError" [] e.

(** [CallContext], on a connection that lasts until the answer; a panic of the
    server ends its process, and with it the call.  Arguments that are none
    are sent as [null]. *)
Definition CallContext srv (method : bytes) (args : list json) : prog (kord R D) json :=
  resp ← serve pubsub srv {| Method := method;
                             Payload := Some (if bool_decide (length args = 0) then JNull else JArray args) |};
  match resp with Success v => mret v | Failure _ e => throw (jsonError e) end.

(** The result is decoded into the variable the caller points to. *)
Definition decodeResult {A} `{JSON A} (v : json) : result A :=
  match v with JNull => Ok zero | _ => decode zero v end.

(** [return hash, c.client.CallContext(ctx, &hash, ...)]: the language leaves
    open whether the operand [hash] is read after the call ([late]) or
    before it. *)
Definition callForHash (late : bool) srv (method : bytes) (args : list json) : prog (kord R D) Hash :=
  v ← CallContext srv method args;
  hash ← lift (decodeResult v);
  mret (if late then hash else zero_array 32).

Definition Client_CreateGraph (late : bool) srv (id : bytes) : prog (kord R D) Hash :=
  callForHash late srv "kord_createGraph" [encode (Text id)].
Definition Client_CommitGraph (late : bool) srv (id : bytes) : prog (kord R D) Hash :=
  callForHash late srv "kord_commitGraph" [encode (Text id)].
Definition Client_SetGraph srv (hash : Hash) (sig : bytes) : prog (kord R D) unit :=
  _ ← CallContext srv "kord_setGraph" [encode hash; encode (Slice sig)]; mret tt.
Definition Client_SetRootDapp srv (uri : bytes) : prog (kord R D) unit :=
  _ ← CallContext srv "kord_setRootDapp" [encode (Text uri)]; mret tt.

(** [clientQuadStore.ApplyDeltas]. *)
Definition Client_ApplyDeltas srv (name : bytes) (ds : list Delta) (opts : IgnoreOpts) : prog (kord R D) unit :=
  _ ← CallContext srv "kord_applyDeltas" [encode (Text name); encode ds; encode opts]; mret tt.

(** The other methods of [clientQuadStore], and what each of them does. *)
Inductive storeMethod := MQuad | MQuadIterator | MNodesAllIterator | MQuadsAllIterator | MValueOf | MNameOf
  | MSize | MOptimizeIterator | MClose | MQuadDirection.
Definition clientQuadStore_method (m : storeMethod) : prog (kord R D) unit := gopanic "method not implemented".

(** ** The server has the service or it has not *)

Definition others (apis : list (API (kord R D))) : Prop := Forall (fun a => Namespace a <> "kord") apis.

Lemma registerAll_app chosen (apis apis' : list (API (kord R D))) srv :
  registerAll chosen (apis ++ apis') srv = (srv' ← registerAll chosen apis srv; registerAll chosen apis' srv').
Proof.
  revert srv. induction apis as [|a apis IH]; intros srv; [done|]. cbn [app registerAll].
  destruct (if chosen a then _ else _) as [s|e|p]; [|done..]. cbn [mbind result_bind]. apply IH.
Qed.

(** Registration changes the services of the names it is given. *)
Lemma registerAll_others chosen apis srv srv' name :
  Forall (fun a => chosen a = true -> Namespace a <> name) apis ->
  registerAll chosen apis srv = Ok srv' -> srv' !! name = srv !! name.
Proof.
  intros Ho. revert srv. induction Ho as [|a apis Ha _ IH]; intros srv; [by intros [= ->]|].
  cbn [registerAll]. intros (s & Hs & Hr)%result_bind_ok_inv. rewrite (IH _ Hr).
  destruct (chosen a); [|by injection Hs as ->]. unfold RegisterName in Hs. case_bool_decide; [done|].
  case_bool_decide; [done|]. injection Hs as <-. by rewrite lookup_insert_ne by auto.
Qed.

Definition kordService : service (kord R D) :=
  list_to_map ((fun p => (formatName (fst p), snd p)) <$> kordMethods).

(** The service of a server that has registered the API among others. *)
Lemma kord_registered chosen pre post srv :
  others pre -> others post -> (forall a, a ∈ APIs -> chosen a = true) ->
  registerAll chosen (pre ++ APIs ++ post) NewServer = Ok srv -> srv !! ("kord" : bytes) = Some kordService.
Proof.
  intros Hpre Hpost Hc. rewrite !registerAll_app. intros (s1 & H1 & (s2 & H2 & H3)%result_bind_ok_inv)%result_bind_ok_inv.
  assert (forall l, others l -> Forall (fun a : API (kord R D) => chosen a = true -> Namespace a <> "kord") l) as Hf
    by (intros l Hl; eapply Forall_impl; [exact Hl|auto]).
  rewrite (registerAll_others _ _ _ _ _ (Hf _ Hpost) H3).
  assert (s1 !! ("kord" : bytes) = None) as Hn by exact (registerAll_others _ _ _ _ _ (Hf _ Hpre) H1).
  unfold APIs in H2. cbn [registerAll Namespace Service] in H2. rewrite Hc in H2 by (left; done).
  unfold RegisterName in H2. rewrite !bool_decide_eq_false_2 in H2 by done. rewrite Hn in H2.
  cbn [default mbind result_bind registerAll] in H2. injection H2 as <-. by rewrite lookup_insert_eq.
Qed.

Definition takes (cb : callback (kord R D)) : bool := match cb with Takes _ => true | _ => false end.

(** A call from afar: an error arrives as its text. *)
Definition afar {A} (m : prog (kord R D) A) : prog (kord R D) A := fun k =>
  match m k with
  | (Err e, k') => (Err (jsonError (EWrap "rpc.callbackError" [] e)), k')
  | r => r
  end.

Lemma CallContext_runs srv (m : bytes) cb args p k :
  srv !! ("kord" : bytes) = Some kordService -> kordService !! m = Some cb ->
  Split underscore ("kord_" ++ m) = ["kord" : bytes; m] -> isPubSub ("kord_" ++ m) = false ->
  takes cb = true -> args <> [] ->
  parsePositionalArguments 0 cb args = Ok (Run_ p) ->
  CallContext srv ("kord_" ++ m) args k = afar p k.
Proof.
  intros Hs Hm Hsp Hps Hcb Hargs Hp. unfold CallContext. destruct args as [|a args]; [done|].
  destruct cb as [|A J f|]; [done| |done].
  rewrite bool_decide_eq_false_2 by done. unfold mbind at 1, prog_bind at 1. unfold serve. cbn [Method Payload].
  rewrite Hps, Hsp, Hs, Hm. unfold handle. rewrite Hp. unfold invoke, afar.
  by destruct (p k) as [[v|e|msg] k'].
Qed.

Lemma afar_reply {A B} `{JSONLaws A} (m : prog (kord R D) A) (c : A -> prog (kord R D) B) (h : json -> prog (kord R D) B) k :
  (forall a k', h (encode a) k' = c a k') ->
  (v ← afar (reply m); h v) k = (a ← afar m; c a) k.
Proof. intros Hh. unfold reply, afar, mbind, prog_bind. destruct (m k) as [[a|e|p] k']; [apply Hh|done..]. Qed.

Lemma afar_replyNone {B} (m : prog (kord R D) unit) (b : prog (kord R D) B) k :
  (_ ← afar (replyNone m); b) k = (_ ← afar m; b) k.
Proof. unfold replyNone, afar, mbind, prog_bind. by destruct (m k) as [[a|e|p] k']. Qed.

Lemma afar_tt (m : prog (kord R D) unit) k : (_ ← afar m; mret tt) k = afar m k.
Proof. unfold afar, mbind, prog_bind. by destruct (m k) as [[[]|e|p] k']. Qed.

(** What a caller reads back is what the method returned. *)
Lemma callForHash_runs srv (m : bytes) cb args p k :
  srv !! ("kord" : bytes) = Some kordService -> kordService !! m = Some cb ->
  Split underscore ("kord_" ++ m) = ["kord" : bytes; m] -> isPubSub ("kord_" ++ m) = false ->
  takes cb = true -> args <> [] ->
  parsePositionalArguments 0 cb args = Ok (Run_ (reply p)) ->
  callForHash true srv ("kord_" ++ m) args k = afar p k.
Proof.
  intros Hs Hm Hsp Hps Hcb Hargs Hp. unfold callForHash.
  assert (forall (h : json -> prog (kord R D) Hash), (v ← CallContext srv ("kord_" ++ m) args; h v) k = (v ← afar (reply p); h v) k) as E.
  { intros h. unfold mbind at 1 2, prog_bind at 1 2. by rewrite (CallContext_runs _ _ _ _ _ _ Hs Hm Hsp Hps Hcb Hargs Hp). }
  rewrite E. transitivity ((h ← afar p; mret h) k).
  - apply afar_reply. intros h k'. pose proof (decode_arrives h) as Hd.
    change (decodeResult (encode h)) with (decode (zero : Hash) (encode h)). by rewrite Hd.
  - unfold afar, mbind, prog_bind. by destruct (p k) as [[v|e|msg] k'].
Qed.


(** A method of the service, called by a client: its name is found and its arguments are read. *)
Ltac called Hs :=
  match goal with
  | |- context [callForHash true _ ?m _ _] => eapply (callForHash_runs _ (drop 5 m) _ _ _ _ Hs)
  | |- context [CallContext _ ?m _ _] => eapply (CallContext_runs _ (drop 5 m) _ _ _ _ Hs)
  end; [reflexivity|reflexivity|reflexivity|reflexivity|discriminate|].

(** The arguments of a call, as its method reads them. *)
Ltac read := cbn [fst snd parsePositionalArguments];
  repeat (rewrite decode_arrives; cbn [parsePositionalArguments]); reflexivity.

Lemma bind_cong {A B} (m m' : prog (kord R D) A) (c : A -> prog (kord R D) B) k :
  m k = m' k -> (a ← m; c a) k = (a ← m'; c a) k.
Proof. unfold mbind, prog_bind. by intros ->. Qed.

Lemma ipc_service (listen : bytes -> result unit) (endpoint : bytes) (pre post : list (API (kord R D))) srv :
  others pre -> others post -> startIPC listen endpoint (pre ++ APIs ++ post) = Ok (Some srv) ->
  srv !! ("kord" : bytes) = Some kordService.
Proof.
  unfold startIPC, startEndpoint. intros Hpre Hpost. case_bool_decide; [done|].
  intros (s & Hr & (u & _ & [= <-])%result_bind_ok_inv)%result_bind_ok_inv.
  exact (kord_registered (fun _ => true) pre post s Hpre Hpost (fun _ _ => eq_refl) Hr).
Qed.

Lemma ApplyDeltas_called srv name ds opts k :
  srv !! ("kord" : bytes) = Some kordService ->
  Client_ApplyDeltas srv name ds opts k =
  (_ ← afar (PublicAPI.ApplyDeltas (ToValid name) (arrives ds) opts); mret tt) k.
Proof.
  intros Hs. unfold Client_ApplyDeltas. rewrite <- (afar_reply _ _ (fun _ => mret tt)) by done.
  apply bind_cong. called Hs. read.
Qed.

(** C5: the client is the API from afar.  On a node that registers the API among
    services of other names, each call of the client over IPC does to the
    node exactly what the method of the API does, with its arguments as they
    arrive: strings with invalid UTF-8 replaced, hashes and signatures as they
    are, quads through their JSON.  It returns what the method returns, an
    error wrapped twice; the hash of applied deltas is dropped. *)
Theorem client_calls_api (listen : bytes -> result unit) (endpoint : bytes) (pre post : list (API (kord R D))) srv :
  others pre -> others post -> startIPC listen endpoint (pre ++ APIs ++ post) = Ok (Some srv) ->
  (forall id k, Client_CreateGraph true srv id k = afar (PublicAPI.CreateGraph (ToValid id)) k) /\
  (forall id k, Client_CommitGraph true srv id k = afar (PublicAPI.CommitGraph (ToValid id)) k) /\
  (forall hash sig k, Client_SetGraph srv hash sig k = afar (PublicAPI.SetGraph hash sig) k) /\
  (forall uri k, Client_SetRootDapp srv uri k = afar (PublicAPI.SetRootDapp iteration (ToValid uri)) k) /\
  (forall name ds opts k, Client_ApplyDeltas srv name ds opts k =
     (_ ← afar (PublicAPI.ApplyDeltas (ToValid name) (arrives ds) opts); mret tt) k).
Proof.
  intros Hpre Hpost Hst. pose proof (ipc_service _ _ _ _ _ Hpre Hpost Hst) as Hs.
  split_and!.
  - intros id k. unfold Client_CreateGraph. called Hs. read.
  - intros id k. unfold Client_CommitGraph. called Hs. read.
  - intros hash sig k. unfold Client_SetGraph.
    rewrite <- afar_tt, <- afar_replyNone. apply bind_cong. called Hs. read.
  - intros uri k. unfold Client_SetRootDapp.
    rewrite <- afar_tt, <- afar_replyNone. apply bind_cong. called Hs. read.
  - intros name ds opts k. by apply ApplyDeltas_called.
Qed.

(** The command line's view of quads that travel is what JSON-RPC does to
    them: over IPC, when their texts and the name are valid UTF-8, adding quads
    is applying the additions of the quads as sent. *)
Theorem deltas_arrive (listen : bytes -> result unit) (endpoint : bytes) (pre post : list (API (kord R D))) srv
    (name : bytes) (qs : list Quad) (opts : IgnoreOpts) k :
  others pre -> others post -> startIPC listen endpoint (pre ++ APIs ++ post) = Ok (Some srv) ->
  isText name -> Forall quadText qs ->
  Client_ApplyDeltas srv name (delta Add <$> qs) opts k =
  (_ ← afar (PublicAPI.ApplyDeltas name (delta Add <$> (sent <$> qs)) opts); mret tt) k.
Proof.
  intros Hpre Hpost Hst Hn Hq. pose proof (ipc_service _ _ _ _ _ Hpre Hpost Hst) as Hs.
  rewrite ApplyDeltas_called by done. rewrite Hn, arrives_deltas.
  - by rewrite <- !list_fmap_compose.
  - apply Forall_fmap. eapply Forall_impl; [exact Hq|]. intros q Hx. by split.
Qed.

(** ** Requests that are refused *)

(** C37: a request that is refused changes nothing.  Whatever services a server
    has, when the answer to a request is an error with another code than that
    of errors of methods (an unknown service or method, arguments that are not
    a list, too few, too many, or of the wrong type), the state of the services
    is as it was. *)
Theorem refused_unchanged srv (r : jsonRequest) (c : Z) (e : error) k k' :
  isPubSub (Method r) = false -> serve pubsub srv r k = (Ok (Failure c e), k') -> c <> callbackCode -> k' = k.
Proof.
  intros Hps. unfold serve. rewrite Hps.
  assert (forall cl, invoke srv cl k = (Ok (Failure c e), k') -> c <> callbackCode -> k' = k) as Hi.
  { intros [m|]; [|by intros [= ]]. cbn [invoke]. destruct (m k) as [[v|e'|p] k1]; [done| |done].
    by intros [= <- _ <-]. }
  destruct (Split underscore (Method r)) as [|s [|m [|]]]; try (by intros [= _ _ <-]).
  destruct (srv !! s) as [svc|]; [|by intros [= _ _ <-]]. destruct (svc !! m) as [cb|]; [|by intros [= _ _ <-]].
  unfold handle. destruct cb as [m'|A J f|]; [apply Hi| |apply Hi].
  destruct (Payload r) as [[]|]; try (by intros [= _ _ <-]).
  destruct (parsePositionalArguments 0 (Takes f) l) as [cl|e'|p]; [apply Hi|by intros [= _ _ <-]|done].
Qed.

(** A server without the service. *)
Lemma kord_unserved srv (r : jsonRequest) (m : bytes) k :
  srv !! ("kord" : bytes) = None -> isPubSub (Method r) = false -> Split underscore (Method r) = ["kord" : bytes; m] ->
  serve pubsub srv r k = (Ok (methodNotFoundError "kord" m), k).
Proof. intros Hs Hps Hsp. unfold serve. by rewrite Hps, Hsp, Hs. Qed.

Lemma unlisted_lacks_kord listen endpoint (apis : list (API (kord R D))) ms exposeAll srv :
  ms <> [] -> ("kord" : bytes) ∉ ms -> exposeAll = false ->
  startEndpoint listen endpoint (whitelisted ms exposeAll) apis = Ok (Some srv) -> srv !! ("kord" : bytes) = None.
Proof.
  intros Hne Hni ->. unfold startEndpoint. case_bool_decide; [done|].
  intros (s & Hr & (u & _ & [= <-])%result_bind_ok_inv)%result_bind_ok_inv.
  rewrite (registerAll_others (whitelisted ms false) apis NewServer s "kord"); [reflexivity| |exact Hr].
  apply Forall_forall. intros a _. unfold whitelisted. rewrite (bool_decide_eq_false_2 (ms = [])) by done.
  cbn [orb andb]. rewrite orb_false_r. intros Ha%bool_decide_eq_true Hk. by rewrite Hk in Ha.
Qed.

(** C36: the API is reached over IPC only.  With the modules of the default
    configuration for HTTP and WebSocket, and however these are enabled, a node
    that registers the API among services of other names serves it in the
    process and over IPC, and answers every request for a method of it over
    HTTP or WebSocket that the method is not found, changing nothing: that the
    API is marked public makes no difference. *)
Theorem kord_over_ipc_only (listen : bytes -> result unit) (cfg : rpcConfig) (own pre post : list (API (kord R D)))
    (services : list (list (API (kord R D)))) eps :
  HTTPModules cfg = HTTPModules defaultNodeConfig -> WSModules cfg = WSModules defaultNodeConfig ->
  WSExposeAll cfg = false ->
  own ++ concat services = pre ++ APIs ++ post -> others pre -> others post ->
  startRPC listen cfg own services = Ok eps ->
  inproc eps !! ("kord" : bytes) = Some kordService /\
  (forall srv, ipc eps = Some srv -> srv !! ("kord" : bytes) = Some kordService) /\
  (forall srv (r : jsonRequest) m k, http eps = Some srv \/ ws eps = Some srv ->
     isPubSub (Method r) = false -> Split underscore (Method r) = ["kord" : bytes; m] ->
     serve pubsub srv r k = (Ok (methodNotFoundError "kord" m), k)).
Proof.
  intros Hh Hw He Hapis Hpre Hpost. unfold startRPC. rewrite Hapis, Hh, Hw.
  intros (s0 & H0' & (s1 & H1 & (s2 & H2 & (s3 & H3 & [= <-])%result_bind_ok_inv)%result_bind_ok_inv)%result_bind_ok_inv)%result_bind_ok_inv.
  cbn [inproc ipc http ws]. split_and!.
  - exact (kord_registered (fun _ => true) pre post s0 Hpre Hpost (fun _ _ => eq_refl) H0').
  - intros srv ->. exact (ipc_service _ _ _ _ _ Hpre Hpost H1).
  - intros srv r m k Hsrv Hps Hsp. apply kord_unserved; [|done|done].
    assert (HTTPModules defaultNodeConfig <> [] /\ ("kord" : bytes) ∉ HTTPModules defaultNodeConfig) as [Hne Hni].
    { split; [done|]. apply (bool_decide_unpack _). vm_compute. exact I. }
    destruct Hsrv as [-> | ->].
    + exact (unlisted_lacks_kord _ _ _ _ _ _ Hne Hni eq_refl H2).
    + exact (unlisted_lacks_kord _ _ _ _ _ _ Hne Hni He H3).
Qed.

(** ** Requests that should be refused *)

(** A request to apply one delta that has no ["Action"]. *)
Definition actionless (name : bytes) (q : Quad) (opts : IgnoreOpts) : jsonRequest :=
  {| Method := "kord_applyDeltas";
     Payload := Some (JArray [encode (Text name); JArray [JObject [("Quad" : bytes, encode q)]]; encode opts]) |}.

Lemma decode_actionless q :
  decode (zero : list Delta) (JArray [JObject [("Quad" : bytes, encode q)]]) = Ok [{| dQuad := arrives q; Action := 0 |}].
Proof.
  change (mapM (decode (zero : Delta)) [JObject [("Quad" : bytes, encode q)]] = Ok [{| dQuad := arrives q; Action := 0 |}]).
  cbn [mapM]. cbn [decode Delta_JSON zero]. unfold decodeStruct. cbn [decodeMembers].
  change (fieldFor deltaNames ("Quad" : bytes)) with (Some 0). cbn [setDelta dQuad Action].
  by rewrite decode_arrives.
Qed.

(** C38: a delta without an action brings the node down: on an open graph, a
    request to apply deltas whose one delta has no action is accepted as
    well-formed and panics; over IPC the panic ends the process, and over HTTP
    with a single request it is recovered and nothing is answered. *)
Theorem actionless_panics srv (name : bytes) (q : Quad) (opts : IgnoreOpts) (d : db) k :
  srv !! ("kord" : bytes) = Some kordService ->
  isText name -> name ∈ stores (knode k) -> tables (knode k) name = Some (Some d) ->
  exists k', serve pubsub srv (actionless name q opts) k = (Panic "unknown action", k') /\
    ServeSingleRequest pubsub srv (actionless name q opts) k = (Ok None, k').
Proof.
  intros Hs Hn Hin Ht. set (ds := [{| dQuad := arrives q; Action := 0 |}]).
  destruct (onStore_ok name (Sql.ApplyDeltas ds opts) (knode k) d Ht) as (f' & Ho & _).
  assert (PublicAPI.ApplyDeltas name ds opts k = (Panic "unknown action", setKNode (setFiles f' (knode k)) k)) as Hp.
  { unfold PublicAPI.ApplyDeltas, onKNode, zoom, GraphDriver.ApplyDeltas.
    assert (Get name (knode k) = (Ok tt, knode k)) as Hg by (unfold Get, get, mbind, prog_bind; by rewrite bool_decide_eq_true_2).
    rewrite (bind_ok _ _ _ _ _ Hg). unfold mbind, prog_bind. by rewrite Ho. }
  exists (setKNode (setFiles f' (knode k)) k).
  assert (serve pubsub srv (actionless name q opts) k = (Panic "unknown action", setKNode (setFiles f' (knode k)) k)) as Hv.
  { unfold serve. change (isPubSub (Method (actionless name q opts))) with false.
    change (Split underscore (Method (actionless name q opts))) with ["kord" : bytes; "applyDeltas" : bytes].
    cbv iota. rewrite Hs.
    change (kordService !! ("applyDeltas" : bytes)) with
      (Some (Takes (fun name : text => Takes (fun ds : list Delta => Takes (fun opts : IgnoreOpts =>
         Returns (reply (PublicAPI.ApplyDeltas (chars name) ds opts)) : callback (kord R D)))))).
    cbv iota. unfold handle, actionless. cbn [Payload parsePositionalArguments].
    rewrite decode_arrives. cbn [parsePositionalArguments]. rewrite decode_actionless. cbn [parsePositionalArguments].
    rewrite decode_arrives. cbn [parsePositionalArguments invoke]. change (chars (arrives (Text name))) with (ToValid name).
    rewrite Hn. unfold reply, mbind, prog_bind. change (arrives opts) with opts. fold ds. by rewrite Hp. }
  split; [exact Hv|]. unfold ServeSingleRequest. by rewrite Hv.
Qed.

(** When the operand is read before the call, a graph is created, or its hash
    is computed, and the caller gets the zero hash without an error. *)
Lemma early_hash_lost srv (id : bytes) k h k' :
  Client_CreateGraph true srv id k = (Ok h, k') -> Client_CreateGraph false srv id k = (Ok (zero_array 32), k').
Proof.
  unfold Client_CreateGraph, callForHash. intros (v & k1 & Hc & (hash & k2 & Hl & [= _ <-])%bind_ok_inv)%bind_ok_inv.
  rewrite (bind_ok _ _ _ _ _ Hc), (bind_ok _ _ _ _ _ Hl). done.
Qed.

End kord.

(** ** Where the node listens and where the client dials *)

(** The later steps of the configuration leave the paths alone. *)
Definition paths (c : nodeConfig) : bytes * bytes := (Node_DataDir c, Node_IPCPath c).

Lemma options_paths (ParseNode : bytes -> result bytes) (args : Args) (c c' : nodeConfig) :
  (c1 ← setRootOption args c; c2 ← setCors args c1; setNetwork ParseNode args c2) = Ok c' -> paths c' = paths c.
Proof.
  intros (c1 & H1 & (c2 & H2 & H3)%result_bind_ok_inv)%result_bind_ok_inv.
  assert (paths c1 = paths c) as <-.
  { apply result_bind_ok_inv in H1 as (dapp & _ & H1). case_bool_decide; by injection H1 as <-. }
  assert (paths c2 = paths c1) as <-.
  { unfold setCors in H2. destruct (args !! _); [|by injection H2 as <-].
    by apply result_bind_ok_inv in H2 as (domains & _ & [= <-]). }
  apply result_bind_ok_inv in H3 as (dev & _ & (testnet & _ & H3)%result_bind_ok_inv).
  destruct (dev && testnet); [done|]. destruct dev; [by injection H3 as <-|]. destruct testnet; [|by injection H3 as <-].
  apply result_bind_ok_inv in H3 as (mine & _ & H3). destruct mine; [by injection H3 as <-|].
  by apply result_bind_ok_inv in H3 as (nodes & _ & [= <-]).
Qed.

Lemma IPCEndpoint_named osTemp cwd dir :
  dir <> [] -> IPCEndpoint osTemp cwd dir "kord.ipc" = Clean (Abs cwd dir ++ "/kord.ipc").
Proof.
  intros Hd. unfold IPCEndpoint. rewrite (bool_decide_eq_false_2 (_ = [])), (bool_decide_eq_false_2 (dir = [])) by done.
  rewrite bool_decide_eq_true_2; [done|]. left. apply (bool_decide_unpack _). vm_compute. exact I.
Qed.

(** Where the node listens and the client dials.  Without a configuration file,
    a development node without a data directory listens exactly where a client
    without a URL dials; a node with a data directory listens in it, and one
    with neither in the default one, where that client does not look. *)
Theorem IPCEndpoint_where (makeTemp : result bytes) (osTemp cwd : bytes) (loadConfig : bytes -> nodeConfig -> result nodeConfig)
    (ParseNode : bytes -> result bytes) (args cargs : Args) (c c' : nodeConfig) (dir : bytes) (dev : bool) :
  Node_IPCPath c = "kord.ipc" -> Args_String args "--config" = Ok [] ->
  Args_String args "--datadir" = Ok dir -> Args_Bool args "--dev" = Ok dev ->
  Args_String cargs "--url" = Ok [] ->
  configure makeTemp osTemp loadConfig ParseNode args c = Ok c' ->
  let at_ := IPCEndpoint osTemp cwd (Node_DataDir c') (Node_IPCPath c') in
  (dir = [] -> dev = true -> NodeURL osTemp cargs = Ok at_) /\
  (dir <> [] -> at_ = Clean (Abs cwd dir ++ "/kord.ipc")) /\
  (dir = [] -> dev = false -> Node_DataDir c <> [] -> at_ = Clean (Abs cwd (Node_DataDir c) ++ "/kord.ipc")).
Proof.
  intros Hipc Hfile Hdir Hdev Hurl. unfold configure. rewrite Hfile. cbn [mbind result_bind].
  rewrite bool_decide_eq_true_2 by done. unfold setDataDir. rewrite Hdir. cbn [mbind result_bind].
  intros (c1 & H1 & Hp%options_paths)%result_bind_ok_inv. injection Hp as -> ->. cbv zeta. split_and!.
  - intros -> ->. rewrite bool_decide_eq_true_2, Hdev in H1 by done. cbn [negb mbind result_bind] in H1.
    apply result_bind_ok_inv in H1 as (tmp & _ & [= <-]). cbn [Node_DataDir Node_IPCPath withDataDir]. rewrite Hipc.
    unfold NodeURL. rewrite Hurl. cbn [mbind result_bind]. rewrite bool_decide_eq_true_2 by done. f_equal.
    unfold IPCEndpoint. rewrite bool_decide_eq_false_2 by (by destruct osTemp).
    rewrite bool_decide_eq_false_2; [done|]. intros [Hn|Hn].
    + apply Hn, elem_of_app. right. left.
    + by destruct osTemp as [|? []].
  - intros Hd. rewrite bool_decide_eq_false_2 in H1 by done. injection H1 as <-.
    cbn [Node_DataDir Node_IPCPath withDataDir]. rewrite Hipc. by apply IPCEndpoint_named.
  - intros -> -> Hd. rewrite bool_decide_eq_true_2, Hdev in H1 by done. injection H1 as <-.
    rewrite Hipc. by apply IPCEndpoint_named.
Qed.

(** ** Witnesses *)

Section witnesses.
Import Toy SmallStore Digits OneAccount.

Definition noPubsub (_ : jsonRequest) : prog (kord Test.registry (list bytes)) response := throw (EMsg "no notifications").
Definition inOrder (l : list ValueHash) : list ValueHash := l.
Definition listens (_ : bytes) : result unit := Ok tt.

(** A node with one other service, and a server at each of its endpoints. *)
Definition web3 : API (kord Test.registry (list bytes)) :=
  {| Namespace := "web3"; Version := "1.0"; Public := true;
     Service := [("ClientVersion" : bytes, Returns (mret (JString "kord/v0.0.1")))] |}.
Definition openConfig : rpcConfig :=
  {| Name := "kord"; ConfigVersion := "0.0.1"; IPCPath := "kord.ipc"; httpEndpoint := "localhost:8545";
     HTTPModules := HTTPModules defaultNodeConfig; wsEndpoint := "localhost:8546"; WSModules := WSModules defaultNodeConfig;
     WSExposeAll := false |}.
Definition served : result (endpoints (kord Test.registry (list bytes))) :=
  startRPC listens openConfig [web3] [APIs inOrder].
Definition ipcServer : server (kord Test.registry (list bytes)) :=
  match startIPC listens "kord.ipc" ([web3] ++ APIs inOrder ++ []) with Ok (Some srv) => srv | _ => ∅ end.
Definition ownersNode : kord Test.registry (list bytes) := {| knode := author; rootDapp := None; srv := None |}.

Lemma ipcServer_starts : startIPC listens "kord.ipc" ([web3] ++ APIs inOrder ++ []) = Ok (Some ipcServer).
Proof. reflexivity. Qed.
Lemma web3_other : others [web3].
Proof. repeat constructor. discriminate. Qed.

Lemma client_calls_api_witness :
  startIPC listens "kord.ipc" ([web3] ++ APIs inOrder ++ []) = Ok (Some ipcServer) /\
  Client_CommitGraph noPubsub true ipcServer graphName ownersNode = afar (PublicAPI.CommitGraph graphName) ownersNode.
Proof.
  split; [exact ipcServer_starts|].
  destruct (client_calls_api inOrder noPubsub listens "kord.ipc" [web3] [] ipcServer web3_other (Forall_nil_2 _) ipcServer_starts)
    as (_ & H & _).
  specialize (H graphName ownersNode). assert (ToValid graphName = graphName) as Hv by (vm_compute; reflexivity).
  rewrite Hv in H. exact H.
Defined.

Lemma deltas_arrive_witness :
  Forall quadText [aQuad] /\
  Client_ApplyDeltas noPubsub ipcServer graphName (delta Add <$> [aQuad]) defaultOpts ownersNode =
  (_ ← afar (PublicAPI.ApplyDeltas graphName (delta Add <$> (sent <$> [aQuad])) defaultOpts); mret tt) ownersNode.
Proof.
  assert (Forall quadText [aQuad]) as Hq by (repeat constructor).
  split; [exact Hq|].
  refine (deltas_arrive inOrder noPubsub listens "kord.ipc" [web3] [] ipcServer graphName [aQuad] defaultOpts ownersNode
    web3_other (Forall_nil_2 _) ipcServer_starts _ Hq).
  vm_compute. reflexivity.
Defined.

Lemma refused_unchanged_witness :
  serve noPubsub ipcServer {| Method := "kord_createGraph"; Payload := Some (JArray []) |} ownersNode =
    (Ok (invalidParamsError (missingValue 0)), ownersNode) /\
  ownersNode = ownersNode.
Proof.
  assert (serve noPubsub ipcServer {| Method := "kord_createGraph"; Payload := Some (JArray []) |} ownersNode =
    (Ok (invalidParamsError (missingValue 0)), ownersNode)) as H by reflexivity.
  split; [exact H|].
  refine (refused_unchanged noPubsub ipcServer _ _ _ _ _ _ H _); [reflexivity|discriminate].
Defined.

(** With the endpoints for HTTP and WebSocket open, and the modules of the default configuration. *)
Lemma kord_over_ipc_only_witness :
  exists eps srv, served = Ok eps /\ http eps = Some srv /\
  serve noPubsub srv {| Method := "kord_createGraph"; Payload := Some (JArray [JString graphName]) |} ownersNode =
    (Ok (methodNotFoundError "kord" "createGraph"), ownersNode).
Proof.
  unfold served. destruct (startRPC listens openConfig [web3] [APIs inOrder]) as [eps|e|p] eqn:E; [|discriminate E..].
  destruct (http eps) as [srv|] eqn:Eh; [|injection E as <-; discriminate Eh]. exists eps, srv.
  split; [reflexivity|]. split; [exact Eh|].
  destruct (kord_over_ipc_only inOrder noPubsub listens openConfig [web3] [web3] [] [APIs inOrder] eps
    eq_refl eq_refl eq_refl eq_refl web3_other (Forall_nil_2 _) E) as (_ & _ & H).
  exact (H srv {| Method := "kord_createGraph"; Payload := Some (JArray [JString graphName]) |} "createGraph" ownersNode
    (or_introl Eh) eq_refl eq_refl).
Defined.

Lemma actionless_panics_witness :
  tables (knode ownersNode) graphName = Some (Some emptyDB) /\
  exists k', serve noPubsub ipcServer (actionless graphName aQuad defaultOpts) ownersNode = (Panic "unknown action", k').
Proof.
  split; [exact author_tables|].
  destruct (actionless_panics inOrder noPubsub ipcServer graphName aQuad defaultOpts emptyDB ownersNode
    (ipc_service _ _ _ _ _ _ web3_other (Forall_nil_2 _) ipcServer_starts)) as (k' & H & _).
  - vm_compute. reflexivity.
  - apply (proj2 (elem_of_singleton graphName graphName)). reflexivity.
  - exact author_tables.
  - exists k'. exact H.
Defined.

(** The testnet node of the README, and the command that follows it. *)
Definition testnetArgs : Args :=
  words [("--config" : bytes, ANil); ("--datadir" : bytes, AString "tmp/testnet"); ("--dev" : bytes, ABool false);
         ("--root-dapp" : bytes, ANil); ("--cors-domain" : bytes, AList []); ("--testnet" : bytes, ABool true);
         ("--mine" : bytes, ABool false)].

Lemma IPCEndpoint_where_witness :
  exists c', configure (Ok []) "/tmp" (fun _ c => Ok c) (fun n => Ok n) testnetArgs plainNode = Ok c' /\
  IPCEndpoint "/tmp" "/home/jaak" (Node_DataDir c') (Node_IPCPath c') = "/home/jaak/tmp/testnet/kord.ipc" /\
  NodeURL "/tmp" createArgs = Ok ("/tmp/kord.ipc" : bytes).
Proof.
  destruct (configure (Ok []) "/tmp" (fun _ c => Ok c) (fun n => Ok n) testnetArgs plainNode) as [c'|e|p] eqn:E;
    [|vm_compute in E; discriminate E..].
  exists c'. split; [reflexivity|]. split; [|vm_compute; reflexivity].
  destruct (IPCEndpoint_where (Ok []) "/tmp" "/home/jaak" (fun _ c => Ok c) (fun n => Ok n) testnetArgs createArgs plainNode c'
    "tmp/testnet" false) as (_ & H & _); [vm_compute; reflexivity..|exact E|].
  refine (eq_trans (H _) _); [discriminate|]. vm_compute. reflexivity.
Defined.
End witnesses.
