(* ===== verification/Graphql.v ===== *)
(** * GraphQL

    The vendored graphql-go, as far as the schema of [api/graphql.go] and the
    documents of [api/client.go] need it: the lexer and the parsers of schemas
    and documents, the packing of arguments, and the execution of an operation
    on resolvers.  The resolvers are a parameter here and given in [Exchange].

    The fields of a query, which the library resolves concurrently, are resolved
    in turn, as it resolves those of a mutation.  A document that uses more (literals other than variables and words,
    fragments, directives, introspection, comments, two fields under one
    alias) is [Unmodelled], which is an outcome of its own; so is one that
    runs out of fuel, and [parse_fuel] shows that none does. *)
From S2P Require Import Prelude Keccak Common Uri Sha1 Quad Sql Api Cli Json.

(** ** Tokens *)

Inductive token := TIdent (s : bytes) | TChar (c : ascii).
#[global] Instance token_eq_dec : EqDecision token.
Proof. solve_decision. Defined.

Definition isWordStart (c : ascii) : bool := in_range "a" "z" c || in_range "A" "Z" c || bool_decide (c = "_"%char).
Definition isSpace (c : ascii) : bool := bool_decide (c = " "%char \/ c = N2b 9 \/ c = N2b 10 \/ c = N2b 13).

Definition flush (cur : bytes) (ts : list token) : list token := if bool_decide (cur = []) then ts else TIdent cur :: ts.

(** The tokens of [text/scanner], without commas; [cur] is the identifier that is being read.  Numbers,
    strings, comments and characters beyond ASCII are left out. *)
Fixpoint lex (cur s : bytes) : option (list token) :=
  match s with
  | [] => Some (flush cur [])
  | c :: s =>
      if isWordStart c || (isDigit c && negb (bool_decide (cur = []))) then lex (cur ++ [c]) s
      else if isSpace c || bool_decide (c = ","%char) then flush cur <$> lex [] s
      else if isDigit c || bool_decide (c = quote \/ c = "#"%char) || negb (0 <? b2N c)%N || negb (b2N c <? 128)%N then None
      else (fun ts => flush cur (TChar c :: ts)) <$> lex [] s
  end.

(** ** Parsers *)

Inductive parsed (A : Type) := Parsed (a : A) (rest : list token) | SyntaxError | Unmodelled | OutOfFuel.
Arguments Parsed {A}. Arguments SyntaxError {A}. Arguments Unmodelled {A}. Arguments OutOfFuel {A}.
Definition parser (A : Type) := list token -> parsed A.

#[export] Instance parser_ret : MRet parser := fun _ a l => Parsed a l.
#[export] Instance parser_bind : MBind parser := fun _ _ f p l =>
  match p l with
  | Parsed a r => f a r
  | SyntaxError => SyntaxError
  | Unmodelled => Unmodelled
  | OutOfFuel => OutOfFuel
  end.

Definition syntaxError {A} : parser A := fun _ => SyntaxError.
Definition unmodelled {A} : parser A := fun _ => Unmodelled.
Definition outOfFuel {A} : parser A := fun _ => OutOfFuel.

Definition Peek : parser (option token) := fun l => Parsed (head l) l.
Definition next (t : token) : parser bool := fun l => Parsed (bool_decide (head l = Some t)) l.

Definition ConsumeIdent : parser bytes := fun l =>
  match l with TIdent s :: r => Parsed s r | _ => SyntaxError end.
Definition ConsumeToken (c : ascii) : parser unit := fun l =>
  match l with TChar d :: r => if bool_decide (d = c) then Parsed tt r else SyntaxError | _ => SyntaxError end.

(** [for l.Peek() != close { ... }]. *)
Fixpoint until {A} (fuel : nat) (close : ascii) (p : parser A) : parser (list A) :=
  match fuel with
  | O => outOfFuel
  | S fuel =>
      done ← next (TChar close);
      if (done : bool) then mret [] else a ← p; l ← until fuel close p; mret (a :: l)
  end.

(** *** Types and input values *)

Inductive type_ := TypeName (n : bytes) | NonNull (t : type_) | List_ (t : type_).

Fixpoint ParseType (fuel : nat) : parser type_ :=
  match fuel with
  | O => outOfFuel
  | S fuel =>
      isList ← next (TChar "[");
      t ← (if (isList : bool)
           then _ ← ConsumeToken "["; t ← ParseType fuel; _ ← ConsumeToken "]"; mret (List_ t)
           else n ← ConsumeIdent; mret (TypeName n));
      bang ← next (TChar "!");
      if (bang : bool) then _ ← ConsumeToken "!"; mret (NonNull t) else mret t
  end.

Record InputValue := { ivName : bytes; ivType : type_ }.

Definition ParseInputValue (fuel : nat) : parser InputValue :=
  n ← ConsumeIdent; _ ← ConsumeToken ":"; t ← ParseType fuel;
  default ← next (TChar "=");
  if (default : bool) then unmodelled else mret {| ivName := n; ivType := t |}.

(** *** Schemas *)

Record Field := { fName : bytes; fArgs : list InputValue; fType : type_ }.
Inductive NamedType := Scalar | Object (fs : list Field) | InputObject (vs : list InputValue).

Definition noDirectives : parser unit :=
  at_ ← next (TChar "@"); if (at_ : bool) then unmodelled else mret tt.

Definition parens {A} (fuel : nat) (p : parser A) : parser (list A) :=
  open ← next (TChar "(");
  if (open : bool) then _ ← ConsumeToken "("; l ← until fuel ")" p; _ ← ConsumeToken ")"; mret l else mret [].
Definition braces {A} (fuel : nat) (p : parser A) : parser (list A) :=
  _ ← ConsumeToken "{"; l ← until fuel "}" p; _ ← ConsumeToken "}"; mret l.

(** One field of [parseFields]. *)
Definition parseFieldDecl (fuel : nat) : parser Field :=
  n ← ConsumeIdent; args ← parens fuel (ParseInputValue fuel); _ ← ConsumeToken ":";
  t ← ParseType fuel; _ ← noDirectives; mret {| fName := n; fArgs := args; fType := t |}.

Definition parseObjectDecl (fuel : nat) : parser (bytes * NamedType) :=
  n ← ConsumeIdent; tok ← Peek;
  match tok with
  | Some (TIdent _) => unmodelled
  | _ => fs ← braces fuel (parseFieldDecl fuel); mret (n, Object fs)
  end.
Definition parseInputDecl (fuel : nat) : parser (bytes * NamedType) :=
  n ← ConsumeIdent; vs ← braces fuel (ParseInputValue fuel); mret (n, InputObject vs).
Definition entryPoint : parser (bytes * bytes) :=
  n ← ConsumeIdent; _ ← ConsumeToken ":"; t ← ConsumeIdent; mret (n, t).

Record Schema := { entryPoints : list (bytes * bytes); Types : list (bytes * NamedType) }.

(** Later declarations replace earlier ones. *)
Fixpoint lookup_ {A} (l : list (bytes * A)) (k : bytes) : option A :=
  match l with
  | [] => None
  | (k', v) :: l => match lookup_ l k with Some w => Some w | None => if decide (k' = k) then Some v else None end
  end.

(** [schema.New]: the scalars; the types of introspection are left out. *)
Definition NewSchema : Schema :=
  {| entryPoints := [];
     Types := (fun n => (n, Scalar)) <$> ["Int" : bytes; "Float" : bytes; "String" : bytes; "Boolean" : bytes; "ID" : bytes] |}.

Fixpoint parseSchema (fuel : nat) (s : Schema) : parser Schema :=
  match fuel with
  | O => outOfFuel
  | S fuel =>
      tok ← Peek;
      match tok with
      | None => mret s
      | Some _ =>
          x ← ConsumeIdent;
          if bool_decide (x = ("schema" : bytes)) then
            es ← braces fuel entryPoint;
            parseSchema fuel {| entryPoints := entryPoints s ++ es; Types := Types s |}
          else if bool_decide (x = ("type" : bytes)) then
            t ← parseObjectDecl fuel; parseSchema fuel {| entryPoints := entryPoints s; Types := Types s ++ [t] |}
          else if bool_decide (x = ("input" : bytes)) then
            t ← parseInputDecl fuel; parseSchema fuel {| entryPoints := entryPoints s; Types := Types s ++ [t] |}
          else if bool_decide (x ∈ ["interface" : bytes; "union" : bytes; "enum" : bytes; "scalar" : bytes; "directive" : bytes])
          then unmodelled else syntaxError
      end
  end.

(** [common.ResolveType]: every name is that of a type. *)
Fixpoint resolves (s : Schema) (t : type_) : bool :=
  match t with
  | TypeName n => bool_decide (is_Some (lookup_ (Types s) n))
  | NonNull t | List_ t => resolves s t
  end.
Definition resolved (s : Schema) : bool :=
  forallb (fun '(_, t) => match t with
    | Scalar => true
    | Object fs => forallb (fun f => resolves s (fType f) && forallb (fun v => resolves s (ivType v)) (fArgs f)) fs
    | InputObject vs => forallb (fun v => resolves s (ivType v)) vs
    end) (Types s).
Definition entered (s : Schema) : bool := forallb (fun e => resolves s (TypeName (snd e))) (entryPoints s).

(** [Schema.Parse]; [None] when the schema is not one of those modelled. *)
Definition unknownType : error := ETyped "errors.QueryError" "Unknown type %q.".
Definition typeNotFound : error := ETyped "errors.QueryError" "type %q not found".
Definition badSyntax : error := ETyped "errors.QueryError" "syntax error: %s".
Definition ParseSchema (text : bytes) : option (result Schema) :=
  l ← lex [] text;
  match parseSchema (S (length l)) NewSchema l with
  | Parsed s _ => Some (if resolved s then if entered s then Ok s else Err typeNotFound else Err unknownType)
  | SyntaxError => Some (Err badSyntax)
  | _ => None
  end.

(** *** Documents *)

(** A literal: a variable or a word. *)
Inductive Literal := Variable_ (n : bytes) | Word (s : bytes).
#[warnings="-register-all"]
Inductive Selection := FieldSel (alias name : bytes) (args : list (bytes * Literal)) (sels : list Selection).
Definition Alias (s : Selection) : bytes := match s with FieldSel a _ _ _ => a end.

Inductive OperationType := Query_ | Mutation_ | Subscription_.
#[global] Instance OperationType_eq_dec : EqDecision OperationType.
Proof. solve_decision. Defined.
Record Operation := { opType : OperationType; opName : bytes; opVars : list InputValue; opSels : list Selection }.

Definition ParseLiteral : parser Literal := fun l =>
  match l with
  | TIdent s :: r => Parsed (Word s) r
  | TChar c :: r =>
      if bool_decide (c = "$"%char) then (n ← ConsumeIdent; mret (Variable_ n)) r
      else if bool_decide (c = "-"%char \/ c = "["%char \/ c = "{"%char) then Unmodelled else SyntaxError
  | [] => SyntaxError
  end.
Definition ParseArgument : parser (bytes * Literal) :=
  n ← ConsumeIdent; _ ← ConsumeToken ":"; v ← ParseLiteral; mret (n, v).

(** Names with two underscores are those of introspection. *)
Definition ordinary (n : bytes) : parser unit :=
  if bool_decide (take 2 n = ["_"; "_"]%char) then unmodelled else mret tt.
Definition distinct (ss : list Selection) : parser (list Selection) :=
  if decide (NoDup (Alias <$> ss)) then mret ss else unmodelled.

Fixpoint parseSelection (fuel : nat) : parser Selection :=
  match fuel with
  | O => outOfFuel
  | S fuel =>
      dot ← next (TChar "."); if (dot : bool) then unmodelled else
      alias ← ConsumeIdent;
      colon ← next (TChar ":");
      name ← (if (colon : bool) then _ ← ConsumeToken ":"; ConsumeIdent else mret alias);
      _ ← ordinary name;
      args ← parens fuel ParseArgument;
      _ ← noDirectives;
      open ← next (TChar "{");
      if (open : bool)
      then sels ← braces fuel (parseSelection fuel); sels ← distinct sels; mret (FieldSel alias name args sels)
      else mret (FieldSel alias name args [])
  end.
Definition parseSelectionSet (fuel : nat) : parser (list Selection) := l ← braces fuel (parseSelection fuel); distinct l.

Definition ParseVariable (fuel : nat) : parser InputValue := _ ← ConsumeToken "$"; ParseInputValue fuel.

Definition parseOperation (fuel : nat) (t : OperationType) : parser Operation :=
  tok ← Peek;
  n ← (match tok with Some (TIdent _) => ConsumeIdent | _ => mret [] end);
  _ ← noDirectives;
  vars ← parens fuel (ParseVariable fuel);
  sels ← parseSelectionSet fuel;
  mret {| opType := t; opName := n; opVars := vars; opSels := sels |}.

Fixpoint parseDocument (fuel : nat) : parser (list Operation) :=
  match fuel with
  | O => outOfFuel
  | S fuel =>
      tok ← Peek;
      match tok with
      | None => mret []
      | Some t =>
          op ← (if bool_decide (t = TChar "{") then
                  sels ← parseSelectionSet fuel; mret {| opType := Query_; opName := []; opVars := []; opSels := sels |}
                else
                  x ← ConsumeIdent;
                  if bool_decide (x = ("query" : bytes)) then parseOperation fuel Query_
                  else if bool_decide (x = ("mutation" : bytes)) then parseOperation fuel Mutation_
                  else if bool_decide (x = ("subscription" : bytes)) then parseOperation fuel Subscription_
                  else if bool_decide (x = ("fragment" : bytes)) then unmodelled else syntaxError);
          ops ← parseDocument fuel;
          mret (op :: ops)
      end
  end.

(** [query.Parse]. *)
Definition ParseQuery (text : bytes) : parsed (list Operation) :=
  match lex [] text with
  | None => Unmodelled
  | Some l => parseDocument (S (length l)) l
  end.

(** *** There is fuel enough *)

(** On fewer than [n] tokens a parser does not run out of fuel, and it takes at least [k] of them. *)
Definition takes {A} (k : nat) (p : parser A) (n : nat) : Prop := forall l, length l < n ->
  match p l with Parsed _ r => length r + k <= length l | OutOfFuel => False | _ => True end.

Lemma takes_weaken {A} (p : parser A) k k' n n' : takes k p n -> k' <= k -> n' <= n -> takes k' p n'.
Proof. intros Hp Hk Hn l Hl. specialize (Hp l ltac:(lia)). destruct (p l); [lia|done..]. Qed.

Lemma takes_bind {A B} (p : parser A) (f : A -> parser B) k1 k2 k n :
  k = k1 + k2 -> takes k1 p n -> (forall a, takes k2 (f a) (n - k1)) -> takes k (p ≫= f) n.
Proof.
  intros -> Hp Hf l Hl. specialize (Hp l Hl). unfold mbind, parser_bind. destruct (p l) as [a r| | |]; [|done..].
  specialize (Hf a r ltac:(lia)). destruct (f a r); [lia|done..].
Qed.

Lemma takes_ret {A} (a : A) n : takes 0 (mret a) n.
Proof. intros l _. cbn. lia. Qed.
Lemma takes_unmodelled {A} k n : takes k (unmodelled (A := A)) n.
Proof. done. Qed.
Lemma takes_syntaxError {A} k n : takes k (syntaxError (A := A)) n.
Proof. done. Qed.
Lemma takes_Peek n : takes 0 Peek n.
Proof. intros l _. cbn. lia. Qed.
Lemma takes_next t n : takes 0 (next t) n.
Proof. intros l _. cbn. lia. Qed.
Lemma takes_ConsumeIdent n : takes 1 ConsumeIdent n.
Proof. intros [|[s|c] l] _; cbn; lia. Qed.
Lemma takes_ConsumeToken c n : takes 1 (ConsumeToken c) n.
Proof. intros [|[s|d] l] _; cbn; [done..|]. case_bool_decide; cbn; [lia|done]. Qed.

Lemma takes_until {A} fuel c (p : parser A) n : n <= fuel -> takes 1 p n -> takes 0 (until fuel c p) n.
Proof.
  revert n. induction fuel as [|fuel IH]; intros n Hn Hp; [intros l Hl; lia|]. cbn [until].
  apply (takes_bind _ _ 0 0); [done|apply takes_next|]. intros [|]; [apply takes_ret|].
  apply (takes_weaken _ 1 _ n); [|lia..]. apply (takes_bind _ _ 1 0); [done|done|]. intros a.
  apply (takes_bind _ _ 0 0); [done| |intros; apply takes_ret]. apply IH; [lia|]. by apply (takes_weaken _ 1 _ n); [|lia..].
Qed.

(** The shape of a parser settles the rest. *)
Create HintDb takes.
#[export] Hint Resolve takes_ret takes_unmodelled takes_syntaxError takes_Peek takes_next takes_ConsumeIdent takes_ConsumeToken : takes.
#[export] Hint Extern 1 (_ <= _) => lia : takes.
Ltac leaf :=
  solve [eauto with takes |
         match goal with |- takes _ ?p ?n => apply (takes_weaken p 1 _ n n); [solve [eauto with takes]|lia|lia] end].
Ltac parses :=
  intros;
  lazymatch goal with
  | |- takes _ (if ?b then _ else _) _ => destruct b; parses
  | |- takes _ (match ?t with _ => _ end) _ => destruct t; parses
  | |- takes 0 (mbind _ _) _ => apply (takes_bind _ _ 0 0); [reflexivity|parses|parses]
  | |- takes 1 (mbind _ _) _ => first [apply (takes_bind _ _ 1 0); [reflexivity|solve [parses]|parses]
                                      |apply (takes_bind _ _ 0 1); [reflexivity|solve [parses]|parses]]
  | |- _ => first [leaf | idtac]
  end.

Lemma takes_ParseType fuel n : n <= fuel -> takes 1 (ParseType fuel) n.
Proof.
  revert n. induction fuel as [|fuel IH]; intros n Hn; [intros l Hl; lia|]. cbn [ParseType]. parses.
Qed.
#[export] Hint Resolve takes_ParseType : takes.

Lemma takes_ParseInputValue fuel n : n <= fuel -> takes 1 (ParseInputValue fuel) n.
Proof. intros Hn. unfold ParseInputValue. parses. Qed.
#[export] Hint Resolve takes_ParseInputValue : takes.

Lemma takes_parens {A} fuel (p : parser A) n : n <= fuel -> takes 1 p n -> takes 0 (parens fuel p) n.
Proof.
  intros Hn Hp. unfold parens. apply (takes_bind _ _ 0 0); [done|apply takes_next|]. intros [|]; [|apply takes_ret].
  apply (takes_bind _ _ 0 0); [done|leaf|]. intros _. apply (takes_bind _ _ 0 0); [done| |parses].
  apply takes_until; [lia|]. by apply (takes_weaken _ 1 _ n); [|lia..].
Qed.
Lemma takes_braces {A} fuel (p : parser A) n : n <= S fuel -> takes 1 p (n - 1) -> takes 1 (braces fuel p) n.
Proof.
  intros Hn Hp. unfold braces. apply (takes_bind _ _ 1 0); [done|leaf|]. intros _.
  apply (takes_bind _ _ 0 0); [done| |parses]. apply takes_until; [lia|done].
Qed.
#[export] Hint Resolve takes_parens takes_braces : takes.

Lemma takes_noDirectives n : takes 0 noDirectives n.
Proof. unfold noDirectives. parses. Qed.
#[export] Hint Resolve takes_noDirectives : takes.

Lemma takes_ParseLiteral n : takes 1 ParseLiteral n.
Proof.
  intros [|[s|c] l] _; cbn; [done|lia|]. case_bool_decide; [|by case_bool_decide].
  unfold mbind, parser_bind, ConsumeIdent, mret, parser_ret. destruct l as [|[s|d] l]; [done| |done]. cbn [length]. lia.
Qed.
#[export] Hint Resolve takes_ParseLiteral : takes.
Lemma takes_ParseArgument n : takes 1 ParseArgument n.
Proof. unfold ParseArgument. parses. Qed.
Lemma takes_ordinary n m : takes 0 (ordinary m) n.
Proof. unfold ordinary. parses. Qed.
Lemma takes_distinct n ss : takes 0 (distinct ss) n.
Proof. unfold distinct. parses. Qed.
#[export] Hint Resolve takes_ParseArgument takes_ordinary takes_distinct : takes.

Lemma takes_parseSelection fuel n : n <= fuel -> takes 1 (parseSelection fuel) n.
Proof.
  revert n. induction fuel as [|fuel IH]; intros n Hn; [intros l Hl; lia|]. cbn [parseSelection]. parses.
Qed.
#[export] Hint Resolve takes_parseSelection : takes.

Lemma takes_parseSelectionSet fuel n : n <= S fuel -> takes 1 (parseSelectionSet fuel) n.
Proof. intros Hn. unfold parseSelectionSet. parses. Qed.
Lemma takes_ParseVariable fuel n : n <= fuel -> takes 1 (ParseVariable fuel) n.
Proof. intros Hn. unfold ParseVariable. parses. Qed.
#[export] Hint Resolve takes_parseSelectionSet takes_ParseVariable : takes.
Lemma takes_parseOperation fuel t n : n <= fuel -> takes 0 (parseOperation fuel t) n.
Proof. intros Hn. unfold parseOperation. parses. Qed.
#[export] Hint Resolve takes_parseOperation : takes.

Lemma takes_parseDocument fuel n : n <= fuel -> takes 0 (parseDocument fuel) n.
Proof.
  revert n. induction fuel as [|fuel IH]; intros n Hn; [intros l Hl; lia|]. cbn [parseDocument].
  apply (takes_bind _ _ 0 0); [done|leaf|]. intros [t|]; [|leaf].
  apply (takes_weaken _ 1 _ n); [|lia..]. apply (takes_bind _ _ 1 0); [done| |parses].
  case_bool_decide; [parses|]. apply (takes_bind _ _ 1 0); [done|leaf|]. parses.
Qed.

Lemma takes_entryPoint n : takes 1 entryPoint n.
Proof. unfold entryPoint. parses. Qed.
Lemma takes_parseFieldDecl fuel n : n <= fuel -> takes 1 (parseFieldDecl fuel) n.
Proof. intros Hn. unfold parseFieldDecl. parses. Qed.
#[export] Hint Resolve takes_entryPoint takes_parseFieldDecl : takes.
Lemma takes_parseObjectDecl fuel n : n <= fuel -> takes 0 (parseObjectDecl fuel) n.
Proof. intros Hn. unfold parseObjectDecl. parses. Qed.
Lemma takes_parseInputDecl fuel n : n <= fuel -> takes 0 (parseInputDecl fuel) n.
Proof. intros Hn. unfold parseInputDecl. parses. Qed.
#[export] Hint Resolve takes_parseObjectDecl takes_parseInputDecl : takes.

Lemma takes_parseSchema fuel s n : n <= fuel -> takes 0 (parseSchema fuel s) n.
Proof.
  revert s n. induction fuel as [|fuel IH]; intros s n Hn; [intros l Hl; lia|]. cbn [parseSchema].
  apply (takes_bind _ _ 0 0); [done|leaf|]. intros [t|]; [|leaf].
  apply (takes_weaken _ 1 _ n); [|lia..]. apply (takes_bind _ _ 1 0); [done|leaf|]. parses.
Qed.

(** Parsing ends: for every text, parsing it as a schema or as a document
    gives a result, a syntax error, or that the text is outside of what is
    modelled, and never stops for want of fuel. *)
Theorem parse_fuel (text : bytes) (l : list token) :
  ParseQuery text <> OutOfFuel /\ parseSchema (S (length l)) NewSchema l <> OutOfFuel.
Proof.
  split.
  - unfold ParseQuery. destruct (lex [] text) as [ts|]; [|done].
    pose proof (takes_parseDocument (S (length ts)) (S (length ts)) ltac:(lia) ts ltac:(lia)) as H.
    by destruct (parseDocument _ ts).
  - pose proof (takes_parseSchema (S (length l)) NewSchema (S (length l)) ltac:(lia) l ltac:(lia)) as H.
    by destruct (parseSchema _ _ l).
Qed.

(** ** Packing arguments *)

(** What a resolver is called with: a string, a pointer to one, a slice, a struct.  [PNil] is a nil pointer or slice. *)
#[warnings="-register-all"]
Inductive packed := PNil | PString (s : bytes) | PList (l : list packed) | PStruct (fs : list (bytes * packed)).

Definition gotNull : error := ETyped "errors.QueryError" "got null for non-null".
Definition couldNotUnmarshal : error := ETyped "fmt.Errorf" "could not unmarshal %#v (%T) into %s: %s".

Section packing.
Context (sch : Schema).

(** The zero value of the Go type that stands for a type of the schema. *)
Fixpoint zeroOf (fuel : nat) (t : type_) : packed :=
  match t with
  | NonNull (TypeName n) =>
      match fuel, lookup_ (Types sch) n with
      | S fuel, Some (InputObject vs) => PStruct ((fun v => (ivName v, zeroOf fuel (ivType v))) <$> vs)
      | _, _ => PString []
      end
  | _ => PNil
  end.

(** [StructPacker.Pack]: fields that are given are packed, the others keep their zero value, whatever their type. *)
Fixpoint packFields (pack : type_ -> json -> result packed) (zero : type_ -> packed) (vs : list InputValue)
    (given : list (bytes * json)) : result (list (bytes * packed)) :=
  match vs with
  | [] => Ok []
  | v :: vs =>
      p ← (match member given (ivName v) with Some j => pack (ivType v) j | None => Ok (zero (ivType v)) end);
      fs ← packFields pack zero vs given;
      Ok ((ivName v, p) :: fs)
  end.

(** The packers of [makePacker], by the type of the schema; [String] is the
    one scalar that is used.  The fuel is for inputs that nest as deep as the
    schema has types, which is as deep as they nest without recursion. *)
Fixpoint Pack (fuel : nat) (t : type_) (v : json) : result packed :=
  match fuel with
  | O => Panic "unreachable"
  | S fuel =>
      match t, v with
      | (TypeName _ | List_ _), JNull => Ok PNil
      | (NonNull (List_ t) | List_ t), v =>
          l ← mapM (Pack fuel t) (match v with JArray l => l | v => [v] end); Ok (PList l)
      | NonNull _, JNull => Err gotNull
      | (NonNull (TypeName n) | TypeName n), v =>
          match lookup_ (Types sch) n with
          | Some Scalar => match v with JString s => Ok (PString s) | _ => Err couldNotUnmarshal end
          | Some (InputObject vs) =>
              match v with
              | JObject l => fs ← packFields (Pack fuel) (zeroOf fuel) vs l; Ok (PStruct fs)
              | _ => Panic "interface conversion"
              end
          | _ => Panic "unreachable"
          end
      | NonNull (NonNull _), _ => Panic "unreachable"
      end
  end.

(** The packer of the arguments of a field: none when it takes none. *)
Definition packArgs (f : Field) (given : list (bytes * json)) : result packed :=
  if bool_decide (length (fArgs f) = 0) then Ok PNil
  else let fuel := S (S (length (Types sch))) in
       fs ← packFields (Pack fuel) (zeroOf fuel) (fArgs f) given; Ok (PStruct fs).
End packing.

(** ** Selections *)

(** A selected field: its alias, name and packed arguments, its type, and what is selected of it. *)
#[warnings="-register-all"]
Inductive Selected := SchemaField (alias name : bytes) (args : packed) (type : type_) (sels : list Selected).

Section applying.
Context (sch : Schema) (vars : list (bytes * json)).

Definition literalValue (l : Literal) : json :=
  match l with
  | Variable_ n => default JNull (member vars n)
  | Word w => if bool_decide (w = ("null" : bytes)) then JNull
              else if bool_decide (w = ("true" : bytes)) then JBool true
              else if bool_decide (w = ("false" : bytes)) then JBool false else JString w
  end.

Definition fieldOf (typ name : bytes) : option Field :=
  match lookup_ (Types sch) typ with
  | Some (Object fs) => snd <$> list_find (fun f => fName f = name) (reverse fs)
  | _ => None
  end.
Fixpoint baseType (t : type_) : bytes :=
  match t with TypeName n => n | NonNull t | List_ t => baseType t end.
Definition isObject (n : bytes) : bool := match lookup_ (Types sch) n with Some (Object _) => true | _ => false end.

(** What becomes of one selection: a field, with the errors found below it;
    an error that ends its list; or a panic that ends the operation, after
    the errors that had been found. *)
Inductive applied := Applied (f : Selected) (errs : nat) | Stops | Panics (errs : nat).

(** [applySelectionSet] on the fields of an object, given what becomes of each. *)
Fixpoint applyAll (apply : Selection -> applied) (ss : list Selection) : option (list Selected) * nat :=
  match ss with
  | [] => (Some [], 0)
  | s :: ss =>
      match apply s with
      | Applied f n => let '(fs, m) := applyAll apply ss in ((fun fs => f :: fs) <$> fs, n + m)
      | Stops => (Some [], 1)
      | Panics n => (None, n)
      end
  end.

Fixpoint applyField (typ : bytes) (s : Selection) : applied :=
  match s with
  | FieldSel alias name args sels =>
      match fieldOf typ name with
      | None => Panics 0
      | Some f =>
          match packArgs sch f ((fun '(n, l) => (n, literalValue l)) <$> args) with
          | Err _ => Stops
          | Panic _ => Panics 0
          | Ok p =>
              let base := baseType (fType f) in
              match (if isObject base then applyAll (applyField base) sels else (Some [], 0)) with
              | (Some fs, n) => Applied (SchemaField alias name p (fType f) fs) n
              | (None, n) => Panics n
              end
          end
      end
  end.
End applying.

(** ** Execution *)

Section execution.
(** The state, the objects that resolve fields, and their methods. *)
Context {St Ob : Type}.

#[warnings="-register-all"]
Inductive resolved_ := RObject (o : Ob) | RString (s : bytes) | RSlice (l : list resolved_).

Context (method : Ob -> bytes -> packed -> prog St resolved_).

(** A value, the number of errors, and the state. *)
Definition outcome : Type := json * nat * St.

Fixpoint inTurn {X} (exec : X -> St -> outcome) (l : list X) (s : St) : list json * nat * St :=
  match l with
  | [] => ([], 0, s)
  | x :: l => let '(v, n, s) := exec x s in let '(vs, m, s) := inTurn exec l s in (v :: vs, n + m, s)
  end.

(** [execSelectionSet], given how the fields of an object are executed.  No
    resolver returns a nil, and [ApplyResolver] has checked that what it
    returns is of the type of its field. *)
Fixpoint complete_ (fields : Ob -> St -> outcome) (t : type_) (v : resolved_) (s : St) : outcome :=
  match t, v with
  | NonNull t, v => complete_ fields t v s
  | List_ t, RSlice l => let '(vs, n, s) := inTurn (complete_ fields t) l s in (JArray vs, n, s)
  | TypeName _, RObject o => fields o s
  | TypeName _, RString w => (JString (ToValid w), 0, s)
  | _, _ => (JNull, 0, s)
  end.

(** [execFieldSelection]: an error of the resolver, or a panic of it, is one error, and the field is null. *)
Fixpoint execField (o : Ob) (f : Selected) (s : St) : outcome :=
  match f with
  | SchemaField _ name args t sels =>
      match method o name args s with
      | (Ok v, s) =>
          complete_ (fun o s => let '(vs, n, s) := inTurn (execField o) sels s in
                      (JObject (zip ((fun '(SchemaField a _ _ _ _) => a) <$> sels) vs), n, s)) t v s
      | (Err _, s) | (Panic _, s) => (JNull, 1, s)
      end
  end.
Definition execSelections (o : Ob) (sels : list Selected) (s : St) : outcome :=
  let '(vs, n, s) := inTurn (execField o) sels s in
  (JObject (zip ((fun '(SchemaField a _ _ _ _) => a) <$> sels) vs), n, s).

(** [Request.Execute]: a panic outside of a resolver is one more error,
    without data.  A subscription has no object to select from, which only
    an empty selection does not notice. *)
Definition Execute (sch : Schema) (vars : list (bytes * json)) (root : Ob) (op : Operation) (s : St) : outcome :=
  let entry := match opType op with Query_ => lookup_ (entryPoints sch) "query"
                                  | Mutation_ => lookup_ (entryPoints sch) "mutation" | Subscription_ => None end in
  match entry with
  | None => if bool_decide (opType op = Subscription_ /\ length (opSels op) = 0) then (JObject [], 0, s) else (JNull, 1, s)
  | Some typ =>
      match applyAll (applyField sch vars typ) (opSels op) with
      | (None, n) => (JNull, n + 1, s)
      | (Some fs, n) => let '(v, m, s) := execSelections root fs s in (v, n + m, s)
      end
  end.

(** A request: a document, the name of an operation, and the values of its variables. *)
Record Request := { Query : bytes; OperationName : bytes; Variables : list (bytes * json) }.

(** [getOperation]. *)
Definition getOperation (ops : list Operation) (name : bytes) : option Operation :=
  match ops with
  | [] => None
  | op :: rest =>
      if bool_decide (name = []) then if bool_decide (length rest = 0) then Some op else None
      else snd <$> list_find (fun o => opName o = name) ops
  end.

(** What the library does with a document that is not modelled, and the number
    of errors its validation finds. *)
Context (unmodelledExec : Request -> St -> Response * St) (Validate : list Operation -> nat).

Definition failed (n : nat) : Response := {| Data := JNull; Api.Errors := n; Extensions := [] |}.

Definition Exec (sch : Schema) (root : Ob) (r : Request) (s : St) : Response * St :=
  match ParseQuery (Query r) with
  | Parsed ops _ =>
      if negb (Validate ops =? 0) then (failed (Validate ops), s)
      else match getOperation ops (OperationName r) with
           | None => (failed 1, s)
           | Some op =>
               if forallb (fun v => resolves sch (ivType v)) (opVars op) then
                 let '(v, n, s) := Execute sch (Variables r) root op s in
                 ({| Data := v; Api.Errors := n; Extensions := [] |}, s)
               else (failed 1, s)
           end
  | SyntaxError => (failed 1, s)
  | Unmodelled | OutOfFuel => unmodelledExec r s
  end.
End execution.
Arguments resolved_ : clear implicits.
