(* ===== verification/Exchange.v ===== *)
(** * The GraphQL API from its client to its resolvers

    The schema of [api/graphql.go] and the documents of [api/client.go], as
    texts; the resolvers of [Api] and [Query] as methods of the objects of the
    schema; the operations of the client, each a request that is posted to
    the handler and an answer that is decoded.  [Graphql] parses and executes;
    what it leaves out are parameters: the validation of documents, which is
    assumed to accept those of the client, and the execution of documents it
    does not model. *)
From S2P Require Import Prelude Keccak Common Crypto Uri Contract Registry Claim Sha1 Quad Sql Db GraphDriver Api Query Cli Json Graphql.

(** ** The schema *)

Definition GraphQLSchema : bytes :=
"
schema {
  query: Query
  mutation: Mutation
}

type Query {
  graph(id: String!): Graph!
}

type Mutation {
  createGraph(input: GraphInput!): Graph!

  setGraph(input: SetGraphInput!): Graph!

  createClaim(input: ClaimInput!): Claim!
}

type Graph {
  id: String!

  claim(filter: ClaimFilter!): [Claim]!
}

input GraphInput {
  id: String!
}

input SetGraphInput {
  id:        String!
  hash:      String!
  signature: String!
}

type Claim {
  id:        String!
  issuer:    String!
  subject:   String!
  property:  String!
  claim:     String!
  signature: String!
}

input ClaimInput {
  graph:     String!
  issuer:    String!
  subject:   String!
  property:  String!
  claim:     String!
  signature: String!
}

input ClaimFilter {
  issuer:   String
  subject:  String
  property: String
  claim:    String
}
".

(** The methods of the Go types behind the types of the schema. *)
Definition resolverMethods : list bytes :=
  ["CreateClaim" : bytes; "CreateGraph" : bytes; "Graph" : bytes; "SetGraph" : bytes].
Definition graphResolverMethods : list bytes := ["Claim" : bytes; "ID" : bytes].
Definition claimResolverMethods : list bytes :=
  ["Claim" : bytes; "ID" : bytes; "Issuer" : bytes; "Property" : bytes; "Signature" : bytes; "Subject" : bytes].
Definition goMethods (typ : bytes) : list bytes :=
  if bool_decide (typ = ("Graph" : bytes)) then graphResolverMethods
  else if bool_decide (typ = ("Claim" : bytes)) then claimResolverMethods else resolverMethods.

(** [findMethod]: names are compared up to case, without underscores. *)
Definition methodKey (n : bytes) : bytes := foldKey (filter (fun c => c <> "_"%char) n).
Definition findMethod (typ name : bytes) : bool := bool_decide (methodKey name ∈ methodKey <$> goMethods typ).

(** [ApplyResolver]: every field has its method. *)
Definition ApplyResolver (s : Schema) : bool :=
  forallb (fun '(n, t) => match t with Object fs => forallb (fun f => findMethod n (fName f)) fs | _ => true end) (Types s).

(** [NewAPI]. *)
Definition missingMethod : error := ETyped "fmt.Errorf" "%s does not resolve %q: missing method for field %q%s".
Definition NewAPI : option (result Schema) :=
  (fun r : result Schema => s ← r; if ApplyResolver s then Ok s else Err missingMethod) <$> ParseSchema GraphQLSchema.

Definition string_ : type_ := NonNull (TypeName "String").
Definition strings (ns : list bytes) : list InputValue := (fun n => {| ivName := n; ivType := string_ |}) <$> ns.
Definition stringFields (ns : list bytes) : list Field := (fun n => {| fName := n; fArgs := []; fType := string_ |}) <$> ns.
Definition inputOf (t : bytes) : list InputValue := [{| ivName := "input"; ivType := NonNull (TypeName t) |}].
Definition claimNames : list bytes :=
  ["issuer" : bytes; "subject" : bytes; "property" : bytes; "claim" : bytes; "signature" : bytes].

Definition apiSchema : Schema :=
  {| entryPoints := [("query" : bytes, "Query" : bytes); ("mutation" : bytes, "Mutation" : bytes)];
     Types := Types NewSchema ++
       [("Query" : bytes, Object [{| fName := "graph"; fArgs := strings ["id" : bytes]; fType := NonNull (TypeName "Graph") |}]);
        ("Mutation" : bytes, Object
          [{| fName := "createGraph"; fArgs := inputOf "GraphInput"; fType := NonNull (TypeName "Graph") |};
           {| fName := "setGraph"; fArgs := inputOf "SetGraphInput"; fType := NonNull (TypeName "Graph") |};
           {| fName := "createClaim"; fArgs := inputOf "ClaimInput"; fType := NonNull (TypeName "Claim") |}]);
        ("Graph" : bytes, Object (stringFields ["id" : bytes] ++
          [{| fName := "claim"; fArgs := [{| ivName := "filter"; ivType := NonNull (TypeName "ClaimFilter") |}];
              fType := NonNull (List_ (TypeName "Claim")) |}]));
        ("GraphInput" : bytes, InputObject (strings ["id" : bytes]));
        ("SetGraphInput" : bytes, InputObject (strings ["id" : bytes; "hash" : bytes; "signature" : bytes]));
        ("Claim" : bytes, Object (stringFields (("id" : bytes) :: claimNames)));
        ("ClaimInput" : bytes, InputObject (strings (("graph" : bytes) :: claimNames)));
        ("ClaimFilter" : bytes, InputObject ((fun n => {| ivName := n; ivType := TypeName "String" |}) <$>
           ["issuer" : bytes; "subject" : bytes; "property" : bytes; "claim" : bytes]))] |}.

Lemma NewAPI_ok : NewAPI = Some (Ok apiSchema).
Proof. vm_compute. reflexivity. Qed.

(** ** The documents of the client *)

Definition createGraphQuery : bytes :=
"
mutation CreateGraph($input: GraphInput!) {
  createGraph(input: $input) {
    id
  }
}
".
Definition setGraphQuery : bytes :=
"
mutation SetGraph($input: SetGraphInput!) {
  setGraph(input: $input) {
    id
  }
}
".
Definition createClaimQuery : bytes :=
"
mutation CreateClaim($input: ClaimInput!) {
  createClaim(input: $input) {
    id
    issuer
    subject
    property
    claim
    signature
  }
}
".
Definition getClaimQuery : bytes :=
"
query GetClaim($id: String!, $filter: ClaimFilter!) {
  graph(id: $id) {
    claim(filter: $filter) {
      id
      issuer
      subject
      property
      claim
      signature
    }
  }
}
".

(** What each parses to. *)
Definition leaf_ (n : bytes) : Selection := FieldSel n n [] [].
Definition claimLeaves : list Selection := leaf_ <$> ("id" : bytes) :: claimNames.
Definition inputArg : list (bytes * Literal) := [("input" : bytes, Variable_ "input")].
Definition mutation (name type field : bytes) (sels : list Selection) : Operation :=
  {| opType := Mutation_; opName := name; opVars := inputOf type; opSels := [FieldSel field field inputArg sels] |}.
Definition createGraphOp : Operation := mutation "CreateGraph" "GraphInput" "createGraph" [leaf_ "id"].
Definition setGraphOp : Operation := mutation "SetGraph" "SetGraphInput" "setGraph" [leaf_ "id"].
Definition createClaimOp : Operation := mutation "CreateClaim" "ClaimInput" "createClaim" claimLeaves.
Definition getClaimOp : Operation :=
  {| opType := Query_; opName := "GetClaim";
     opVars := [{| ivName := "id"; ivType := string_ |}; {| ivName := "filter"; ivType := NonNull (TypeName "ClaimFilter") |}];
     opSels := [FieldSel "graph" "graph" [("id" : bytes, Variable_ "id")]
       [FieldSel "claim" "claim" [("filter" : bytes, Variable_ "filter")] claimLeaves]] |}.

Lemma parse_createGraph : ParseQuery createGraphQuery = Parsed [createGraphOp] [].
Proof. vm_compute. reflexivity. Qed.
Lemma parse_setGraph : ParseQuery setGraphQuery = Parsed [setGraphOp] [].
Proof. vm_compute. reflexivity. Qed.
Lemma parse_createClaim : ParseQuery createClaimQuery = Parsed [createClaimOp] [].
Proof. vm_compute. reflexivity. Qed.
Lemma parse_getClaim : ParseQuery getClaimQuery = Parsed [getClaimOp] [].
Proof. vm_compute. reflexivity. Qed.

(** ** The resolvers *)

Inductive object := Resolver | GraphResolver (id : bytes) | ClaimObject (c : Claim).

Definition stringOf (k : bytes) (p : packed) : bytes :=
  match p with PStruct fs => match lookup_ fs k with Some (PString s) => s | _ => [] end | _ => [] end.
Definition pointerOf (k : bytes) (p : packed) : option bytes :=
  match p with PStruct fs => match lookup_ fs k with Some (PString s) => Some s | _ => None end | _ => None end.
Definition structOf (k : bytes) (p : packed) : packed :=
  match p with PStruct fs => default PNil (lookup_ fs k) | _ => PNil end.

Section server.
Context {R D : Type} `{Secp256k1} `{!Registry R} `{!DPA D} `{SqliteCodec}.
Context (iteration : list ValueHash -> list ValueHash).
Abbreviation context := (ctx (R := R) (D := D)).

(** [GraphResolver.Claim]. *)
Definition graphClaims (id : bytes) (flt : ClaimFilter) : prog context (list Claim) :=
  c ← get;
  lift (match tables (nd c) id with
        | None => Err notADatabase
        | Some None => Err noSuchTable
        | Some (Some d) => queryClaims iteration d flt
        end).

Definition filterOf (p : packed) : ClaimFilter :=
  {| fIssuer := pointerOf "issuer" p; fSubject := pointerOf "subject" p; fProperty := pointerOf "property" p;
     fClaim := pointerOf "claim" p |}.
Definition setGraphInputOf (p : packed) : SetGraphInput :=
  {| sgID := stringOf "id" p; sgHash := stringOf "hash" p; sgSignature := stringOf "signature" p |}.
Definition claimInputOf (p : packed) : ClaimInput :=
  {| inGraph := stringOf "graph" p; inIssuer := stringOf "issuer" p; inSubject := stringOf "subject" p;
     inProperty := stringOf "property" p; inClaim := stringOf "claim" p; inSignature := stringOf "signature" p |}.

Definition unreachable {A} : prog context A := gopanic "unreachable".

(** The methods of [Resolver], [GraphResolver] and [ClaimResolver]. *)
Definition method (o : object) (name : bytes) (args : packed) : prog context (resolved_ object) :=
  let named (n : bytes) := bool_decide (methodKey name = methodKey n) in
  let input := structOf "input" args in
  match o with
  | Resolver =>
      if named "Graph" then id ← Api.Graph (stringOf "id" args); mret (RObject (GraphResolver id))
      else if named "CreateGraph" then id ← CreateGraph (stringOf "id" input); mret (RObject (GraphResolver id))
      else if named "SetGraph" then id ← SetGraph (setGraphInputOf input); mret (RObject (GraphResolver id))
      else if named "CreateClaim" then c ← CreateClaim (claimInputOf input); mret (RObject (ClaimObject c))
      else unreachable
  | GraphResolver id =>
      if named "ID" then mret (RString id)
      else if named "Claim" then
        cs ← graphClaims id (filterOf (structOf "filter" args)); mret (RSlice (RObject ∘ ClaimObject <$> cs))
      else unreachable
  | ClaimObject c =>
      if named "ID" then mret (RString (Hash_Hex (Claim_ID c)))
      else if named "Issuer" then mret (RString (Address_Hex (Issuer c)))
      else if named "Subject" then mret (RString (Address_Hex (Claim.Subject c)))
      else if named "Property" then mret (RString (Property c))
      else if named "Claim" then mret (RString (claim c))
      else if named "Signature" then mret (RString (Encode (Signature c)))
      else unreachable
  end.

(** ** The client *)

Context (unmodelledExec : Request -> node R D * Hash -> Response * (node R D * Hash)) (Validate : list Operation -> nat).

Definition inContext {A} (m : prog context A) : prog (node R D * Hash) A := fun s =>
  let '(r, c) := m {| nd := fst s; swarmHash := snd s |} in (r, (nd c, swarmHash c)).

(** [a.schema.Exec]. *)
Definition execute_ (r : Request) (s : node R D * Hash) : Response * (node R D * Hash) :=
  Exec (fun o name args => inContext (method o name args)) unmodelledExec Validate apiSchema Resolver r s.

(** [Client.Do] up to its answer: the request is marshalled, posted and read by the handler. *)
Definition post (query : bytes) (vars : list (bytes * json)) : node R D -> (nat * option Response) * node R D :=
  ServeHTTP execute_ (Ok {| Query := ToValid query; OperationName := []; Variables := vars |}).

Definition jstring (s : bytes) : json := JString (ToValid s).
Definition jpointer (s : option bytes) : json := match s with Some s => jstring s | None => JNull end.

Definition graphInput (graph : bytes) : json := JObject [("id" : bytes, jstring graph)].
Definition setGraphJSON (v : SetGraphInput) : json :=
  JObject [("id" : bytes, jstring (sgID v)); ("hash" : bytes, jstring (sgHash v)); ("signature" : bytes, jstring (sgSignature v))].
Definition claimInputJSON (v : ClaimInput) : json :=
  JObject [("graph" : bytes, jstring (inGraph v)); ("issuer" : bytes, jstring (inIssuer v));
           ("subject" : bytes, jstring (inSubject v)); ("property" : bytes, jstring (inProperty v));
           ("claim" : bytes, jstring (inClaim v)); ("signature" : bytes, jstring (inSignature v))].
Definition filterJSON (f : ClaimFilter) : json :=
  JObject [("issuer" : bytes, jpointer (fIssuer f)); ("subject" : bytes, jpointer (fSubject f));
           ("property" : bytes, jpointer (fProperty f)); ("claim" : bytes, jpointer (fClaim f))].

Definition Client_CreateGraph (graph : bytes) : prog (node R D) Hash := fun n =>
  let '(answer, n) := post createGraphQuery [("input" : bytes, graphInput graph)] n in (createdHash answer, n).
Definition Client_SetGraph (graph : bytes) (hash : Hash) (sig : bytes) : prog (node R D) unit := fun n =>
  let '(answer, n) := post setGraphQuery [("input" : bytes, setGraphJSON (setGraphInput graph hash sig))] n in
  (_ ← Do answer; Ok tt, n).
Definition Client_CreateClaim (graph : bytes) (c : Claim) : prog (node R D) Hash := fun n =>
  let '(answer, n) := post createClaimQuery [("input" : bytes, claimInputJSON (claimInput graph c))] n in
  (createdHash answer, n).
(** A filter that is nil is sent as null. *)
Definition Client_Claim (graph : bytes) (flt : option ClaimFilter) : prog (node R D) (list (option Claim)) := fun n =>
  let '(answer, n) := post getClaimQuery
    [("id" : bytes, jstring graph); ("filter" : bytes, match flt with Some f => filterJSON f | None => JNull end)] n in
  (ClientClaim answer, n).

(** ** What the client gets *)

Definition queryErrors : error := ETyped "fmt.Errorf" "graphql: unexpected errors in GraphQL response".

(** A resolver that is run for its effects: the caller gets the hash it has reported, or an error. *)
Definition reported {A} (m : prog context A) : prog (node R D) Hash := fun n =>
  match m {| nd := n; swarmHash := zero_array 32 |} with
  | (Ok _, c) => (Ok (swarmHash c), nd c)
  | (_, c) => (Err queryErrors, nd c)
  end.

Definition accepts : Prop := forall op, op ∈ [createGraphOp; setGraphOp; createClaimOp; getClaimOp] -> Validate [op] = 0.

Abbreviation meth := (fun o name args => inContext (method o name args)).

(** The handler, on a document that is one operation without errors of validation. *)
Lemma post_executes (query : bytes) (vars : list (bytes * json)) op n :
  ToValid query = query -> ParseQuery query = Parsed [op] [] -> Validate [op] = 0 ->
  forallb (fun v => resolves apiSchema (ivType v)) (opVars op) = true ->
  post query vars n =
  (let '(v, errs, (n', h)) := Execute meth apiSchema vars Resolver op (n, zero_array 32) in
   ((200, Some {| Data := v; Api.Errors := errs; Extensions := [kordExtension h] |}), n')).
Proof.
  intros Hq Hp Hv Hr. unfold post, ServeHTTP, execute_, Exec. cbn [Query OperationName Variables].
  rewrite Hq, Hp, Hv. cbn [Nat.eqb negb getOperation length]. rewrite bool_decide_eq_true_2, bool_decide_eq_true_2 by done.
  rewrite Hr. by destruct (Execute _ _ _ _ _ _) as [[v errs] [n' h]].
Qed.

Lemma post_runs (query : bytes) (vars : list (bytes * json)) op typ n v errs n' h :
  ToValid query = query -> ParseQuery query = Parsed [op] [] -> Validate [op] = 0 ->
  forallb (fun v => resolves apiSchema (ivType v)) (opVars op) = true ->
  match opType op with Query_ => lookup_ (entryPoints apiSchema) "query"
                     | Mutation_ => lookup_ (entryPoints apiSchema) "mutation" | Subscription_ => None end = Some typ ->
  forall sels, applyAll (applyField apiSchema vars typ) (opSels op) = (Some sels, 0) ->
  execSelections meth Resolver sels (n, zero_array 32) = (v, errs, (n', h)) ->
  post query vars n = ((200, Some {| Data := v; Api.Errors := errs; Extensions := [kordExtension h] |}), n').
Proof.
  intros Hq Hp Hv Hr He sels Ha Hx. rewrite (post_executes _ _ op) by done. unfold Execute. by rewrite He, Ha, Hx.
Qed.

(** A field of the mutation that gives a graph, of which the name is selected. *)
Lemma run_graph (m : prog context bytes) (field : bytes) (args : packed) n :
  method Resolver field args = (id ← m; mret (RObject (GraphResolver id))) ->
  execSelections (fun o name args => inContext (method o name args)) Resolver
    [SchemaField field field args (NonNull (TypeName "Graph")) [SchemaField "id" "id" PNil string_ []]] (n, zero_array 32) =
  match m {| nd := n; swarmHash := zero_array 32 |} with
  | (Ok id, c) => (JObject [(field, JObject [("id" : bytes, jstring id)])], 0, (nd c, swarmHash c))
  | (_, c) => (JObject [(field, JNull)], 1, (nd c, swarmHash c))
  end.
Proof.
  intros Hm. unfold execSelections. cbn [inTurn execField]. rewrite Hm. unfold inContext. cbn [fst snd].
  unfold mbind at 1, prog_bind at 1. destruct (m _) as [[id|e|p] c]; [|reflexivity..]. destruct c. reflexivity.
Qed.

(** The arguments as the resolvers are called with them. *)
Definition strings_ (l : list (bytes * bytes)) : packed := PStruct ((fun '(k, s) => (k, PString s)) <$> l).
Definition input_ (p : packed) : packed := PStruct [("input" : bytes, p)].

Definition idField : Selected := SchemaField "id" "id" PNil string_ [].
Definition claimFields_ : list Selected := (fun n => SchemaField n n PNil string_ []) <$> ("id" : bytes) :: claimNames.

Lemma apply_createGraph s :
  applyAll (applyField apiSchema [("input" : bytes, JObject [("id" : bytes, JString s)])] "Mutation") (opSels createGraphOp) =
  (Some [SchemaField "createGraph" "createGraph" (input_ (strings_ [("id" : bytes, s)])) (NonNull (TypeName "Graph")) [idField]], 0).
Proof. reflexivity. Qed.
Lemma apply_setGraph s h g :
  applyAll (applyField apiSchema [("input" : bytes, JObject [("id" : bytes, JString s); ("hash" : bytes, JString h);
    ("signature" : bytes, JString g)])] "Mutation") (opSels setGraphOp) =
  (Some [SchemaField "setGraph" "setGraph" (input_ (strings_ [("id" : bytes, s); ("hash" : bytes, h); ("signature" : bytes, g)]))
    (NonNull (TypeName "Graph")) [idField]], 0).
Proof. reflexivity. Qed.
Lemma apply_createClaim g i s p c x :
  applyAll (applyField apiSchema [("input" : bytes, JObject [("graph" : bytes, JString g); ("issuer" : bytes, JString i);
    ("subject" : bytes, JString s); ("property" : bytes, JString p); ("claim" : bytes, JString c);
    ("signature" : bytes, JString x)])] "Mutation") (opSels createClaimOp) =
  (Some [SchemaField "createClaim" "createClaim" (input_ (strings_ [("graph" : bytes, g); ("issuer" : bytes, i);
    ("subject" : bytes, s); ("property" : bytes, p); ("claim" : bytes, c); ("signature" : bytes, x)]))
    (NonNull (TypeName "Claim")) claimFields_], 0).
Proof. reflexivity. Qed.

Definition pointer_ (s : option bytes) : packed := match s with Some s => PString (ToValid s) | None => PNil end.
Definition filter_ (f : ClaimFilter) : packed :=
  PStruct [("filter" : bytes, PStruct [("issuer" : bytes, pointer_ (fIssuer f)); ("subject" : bytes, pointer_ (fSubject f));
    ("property" : bytes, pointer_ (fProperty f)); ("claim" : bytes, pointer_ (fClaim f))])].
Lemma apply_getClaim g f :
  applyAll (applyField apiSchema [("id" : bytes, JString g); ("filter" : bytes, filterJSON f)] "Query") (opSels getClaimOp) =
  (Some [SchemaField "graph" "graph" (strings_ [("id" : bytes, g)]) (NonNull (TypeName "Graph"))
    [SchemaField "claim" "claim" (filter_ f) (NonNull (List_ (TypeName "Claim"))) claimFields_]], 0).
Proof. destruct f as [[i|] [s|] [p|] [c|]]; reflexivity. Qed.

(** Hexadecimal is ASCII. *)
Lemma alnum_text s : Forall (fun c => alnum c = true) s -> ToValid s = s.
Proof.
  intros Hs. apply ascii_isText. eapply Forall_impl; [exact Hs|]. intros c Hc. apply N.ltb_lt.
  pose proof (byte_forall (fun c => negb (alnum c) || (b2N c <? 128)%N) ltac:(vm_compute; reflexivity) c) as H'.
  cbv beta in H'. by rewrite Hc in H'.
Qed.
Lemma address_text a : ToValid (Address_Hex a) = Address_Hex a.
Proof. apply alnum_text, Address_Hex_alnum. Qed.
Lemma encode_text b : ToValid (Encode b) = Encode b.
Proof.
  apply alnum_text. unfold Encode. apply Forall_app. split; [repeat constructor|]. apply isHex_alnum, isHex_EncodeToString.
Qed.
Lemma hash_text (h : Hash) : ToValid (Hash_Hex h) = Hash_Hex h.
Proof. apply encode_text. Qed.

(** A claim and a filter as they arrive. *)
Definition validClaim (c : Claim) : Claim :=
  {| Issuer := Issuer c; Claim.Subject := Claim.Subject c; Property := ToValid (Property c); claim := ToValid (claim c);
     Signature := Signature c |}.
Definition validFilter (f : ClaimFilter) : ClaimFilter :=
  {| fIssuer := ToValid <$> fIssuer f; fSubject := ToValid <$> fSubject f; fProperty := ToValid <$> fProperty f;
     fClaim := ToValid <$> fClaim f |}.

(** A claim with its six fields selected. *)
Definition claimJSON_ (c : Claim) : json :=
  JObject [("id" : bytes, jstring (Hash_Hex (Claim_ID c))); ("issuer" : bytes, jstring (Address_Hex (Issuer c)));
           ("subject" : bytes, jstring (Address_Hex (Claim.Subject c))); ("property" : bytes, jstring (Property c));
           ("claim" : bytes, jstring (claim c)); ("signature" : bytes, jstring (Encode (Signature c)))].


Lemma run_claimFields c s : execSelections meth (ClaimObject c) claimFields_ s = (claimJSON_ c, 0, s).
Proof. destruct s. reflexivity. Qed.

Lemma run_claim (m : prog context Claim) (args : packed) n :
  method Resolver "createClaim" args = (c ← m; mret (RObject (ClaimObject c))) ->
  execSelections meth Resolver [SchemaField "createClaim" "createClaim" args (NonNull (TypeName "Claim")) claimFields_] (n, zero_array 32) =
  match m {| nd := n; swarmHash := zero_array 32 |} with
  | (Ok c, k) => (JObject [("createClaim" : bytes, claimJSON_ c)], 0, (nd k, swarmHash k))
  | (_, k) => (JObject [("createClaim" : bytes, JNull)], 1, (nd k, swarmHash k))
  end.
Proof.
  intros Hm. unfold execSelections. cbn [inTurn execField]. rewrite Hm. unfold inContext at 1. cbn [fst snd].
  unfold mbind at 1, prog_bind at 1. destruct (m _) as [[c|e|p] k]; [|reflexivity..]. cbn [complete_ mret prog_ret].
  pose proof (run_claimFields c (nd k, swarmHash k)) as Hc. unfold execSelections in Hc. rewrite Hc. reflexivity.
Qed.

Lemma run_claims fields cs (s : node R D * Hash) :
  (forall c s, fields (ClaimObject c) s = (claimJSON_ c, 0, s)) ->
  inTurn (complete_ fields (TypeName "Claim")) (RObject ∘ ClaimObject <$> cs) s = (claimJSON_ <$> cs, 0, s).
Proof.
  intros Hf. assert (forall c s, complete_ fields (TypeName "Claim") (RObject (ClaimObject c)) s = (claimJSON_ c, 0, s)) as Hc
    by exact Hf.
  revert Hc. generalize (complete_ fields (TypeName "Claim")). intros f Hc. induction cs as [|c cs IH]; [done|].
  change (RObject ∘ ClaimObject <$> c :: cs) with (RObject (ClaimObject c) :: (RObject ∘ ClaimObject <$> cs)).
  cbn [inTurn]. by rewrite Hc, IH.
Qed.

(** The claims of a graph, by its name. *)
Definition claimsOf (graph : bytes) (flt : ClaimFilter) : prog context (list Claim) :=
  id ← Api.Graph graph; graphClaims id flt.

Lemma run_getClaim g f n :
  execSelections meth Resolver [SchemaField "graph" "graph" (strings_ [("id" : bytes, ToValid g)]) (NonNull (TypeName "Graph"))
    [SchemaField "claim" "claim" (filter_ f) (NonNull (List_ (TypeName "Claim"))) claimFields_]] (n, zero_array 32) =
  match claimsOf (ToValid g) (validFilter f) {| nd := n; swarmHash := zero_array 32 |} with
  | (Ok cs, k) => (JObject [("graph" : bytes, JObject [("claim" : bytes, JArray (claimJSON_ <$> cs))])], 0, (nd k, swarmHash k))
  | (_, k) => (JObject [("graph" : bytes, match Api.Graph (ToValid g) {| nd := n; swarmHash := zero_array 32 |} with
                                          | (Ok _, _) => JObject [("claim" : bytes, JNull)] | _ => JNull end)], 1, (nd k, swarmHash k))
  end.
Proof.
  unfold execSelections. cbn [inTurn execField].
  change (method Resolver "graph" (strings_ [("id" : bytes, ToValid g)])) with
    (id ← Api.Graph (ToValid g); mret (RObject (GraphResolver id)) : prog context (resolved_ object)).
  unfold inContext at 1, claimsOf. cbn [fst snd]. unfold mbind at 1 2, prog_bind at 1 2.
  destruct (Api.Graph (ToValid g) _) as [[id|e|p] k]; [|reflexivity..]. cbn [complete_ mret prog_ret]. cbn [inTurn execField].
  assert (method (GraphResolver id) "claim" (filter_ f) =
    (cs ← graphClaims id (validFilter f); mret (RSlice (RObject ∘ ClaimObject <$> cs)))) as ->
    by (destruct f as [[?|] [?|] [?|] [?|]]; reflexivity).
  unfold inContext at 1. cbn [fst snd]. destruct k as [k h]. cbn [nd swarmHash].
  unfold mbind at 1, prog_bind at 1. destruct (graphClaims id (validFilter f) _) as [[cs|e|p] k']; [|reflexivity..].
  cbn [complete_ mret prog_ret].
  pose proof (run_claims (fun o s => execSelections meth o claimFields_ s) cs (nd k', swarmHash k') run_claimFields) as Hc.
  unfold execSelections in Hc. cbn [complete_] in Hc. rewrite Hc. reflexivity.
Qed.

Lemma decodeClaims_sent cs : decodeClaims (claimJSON_ <$> cs) = Ok (Some ∘ validClaim <$> cs).
Proof.
  induction cs as [|c cs IH]; [done|].
  change (decodeClaims (claimJSON_ <$> c :: cs)) with
    (c' ← decodeClaim (claimJSON_ c); cs' ← decodeClaims (claimJSON_ <$> cs); Ok (Some c' :: cs')).
  assert (decodeClaim (claimJSON_ c) = Ok (validClaim c)) as Hc.
  { unfold claimJSON_, jstring. rewrite hash_text, !address_text, encode_text.
    change (Ok (Claim.UnmarshalJSON (Claim.MarshalJSON (validClaim c))) = Ok (validClaim c)).
    generalize (validClaim c). intros v. destruct v. unfold Claim.UnmarshalJSON, Claim.MarshalJSON, HexToID. simpl.
    by autorewrite with hex. }
  rewrite Hc. cbn [mbind result_bind]. by rewrite IH.
Qed.

(** The answer to a request, as the client reads its hash. *)
Lemma createdHash_answer v h :
  createdHash (200, Some {| Data := v; Api.Errors := 0; Extensions := [kordExtension h] |}) = Ok h.
Proof.
  unfold createdHash, Do. cbn [negb Nat.eqb Nat.ltb Nat.leb Api.Errors mbind result_bind Extensions].
  change (Ok (HexToHash (Hash_Hex h)) = Ok h). by rewrite HexToHash_Hex.
Qed.

Section client.
Context (Hv : accepts).

(** A mutation of one field, its resolver run in the context of the request. *)
Lemma post_mutation {A} (m : prog context A) query op field p t sels args n (f : A -> json) (g : json) :
  op ∈ [createGraphOp; setGraphOp; createClaimOp; getClaimOp] -> opType op = Mutation_ ->
  ToValid query = query -> ParseQuery query = Parsed [op] [] ->
  forallb (fun v => resolves apiSchema (ivType v)) (opVars op) = true ->
  applyAll (applyField apiSchema [("input" : bytes, p)] "Mutation") (opSels op) = (Some [SchemaField field field args t sels], 0) ->
  execSelections meth Resolver [SchemaField field field args t sels] (n, zero_array 32) =
    match m {| nd := n; swarmHash := zero_array 32 |} with
    | (Ok a, c) => (f a, 0, (nd c, swarmHash c))
    | (_, c) => (g, 1, (nd c, swarmHash c))
    end ->
  exists answer, post query [("input" : bytes, p)] n = (answer, snd (reported m n)) /\
    createdHash answer = fst (reported m n) /\ (_ ← Do answer; Ok tt) = (_ ← fst (reported m n); Ok tt).
Proof.
  intros Hin Ht Hq Hp Hr Ha Hx. unfold reported. destruct (m _) as [[a|e|q] c].
  all: eexists; (split; [eapply post_runs; try eassumption; [by apply Hv|by rewrite Ht]|]).
  all: split; [apply createdHash_answer || reflexivity|reflexivity].
Qed.

(** What is known of the documents, by computation. *)
Ltac request := first [reflexivity | by vm_compute | vm_compute; reflexivity | set_solver].

Lemma create_graph (graph : bytes) n : Client_CreateGraph graph n = reported (CreateGraph (ToValid graph)) n.
Proof.
  destruct (post_mutation (CreateGraph (ToValid graph)) createGraphQuery createGraphOp "createGraph" (graphInput graph) _ _ _ n _ _
    ltac:(request) eq_refl ltac:(request) parse_createGraph ltac:(request) (apply_createGraph (ToValid graph))
    (run_graph _ "createGraph" _ n eq_refl)) as (answer & Hp & Hh & _).
  unfold Client_CreateGraph. rewrite Hp, Hh. by destruct (reported _ n).
Qed.

Lemma set_graph (graph : bytes) hash sig n :
  Client_SetGraph graph hash sig n = (_ ← reported (SetGraph (setGraphInput (ToValid graph) hash sig)); mret tt) n.
Proof.
  pose proof (apply_setGraph (ToValid graph) (Hash_Hex hash) (Encode sig)) as Ha.
  assert (setGraphJSON (setGraphInput graph hash sig) = JObject [("id" : bytes, JString (ToValid graph));
    ("hash" : bytes, JString (Hash_Hex hash)); ("signature" : bytes, JString (Encode sig))]) as Hj.
  { unfold setGraphJSON, setGraphInput, jstring. cbn [sgID sgHash sgSignature]. by rewrite hash_text, encode_text. }
  destruct (post_mutation (SetGraph (setGraphInput (ToValid graph) hash sig)) setGraphQuery setGraphOp "setGraph" _ _ _ _ n _ _
    ltac:(request) eq_refl ltac:(request) parse_setGraph ltac:(request) Ha (run_graph _ "setGraph" _ n eq_refl))
    as (answer & Hp & _ & Hd).
  unfold Client_SetGraph. rewrite Hj, Hp, Hd. unfold mbind at 2, prog_bind. by destruct (reported _ n) as [[h|e|p] n'].
Qed.

Lemma create_claim (graph : bytes) (c : Claim) n :
  Client_CreateClaim graph c n = reported (CreateClaim (claimInput (ToValid graph) (validClaim c))) n.
Proof.
  pose proof (apply_createClaim (ToValid graph) (Address_Hex (Issuer c)) (Address_Hex (Claim.Subject c)) (ToValid (Property c))
    (ToValid (claim c)) (Encode (Signature c))) as Ha.
  assert (claimInputJSON (claimInput graph c) = JObject [("graph" : bytes, JString (ToValid graph));
    ("issuer" : bytes, JString (Address_Hex (Issuer c))); ("subject" : bytes, JString (Address_Hex (Claim.Subject c)));
    ("property" : bytes, JString (ToValid (Property c))); ("claim" : bytes, JString (ToValid (claim c)));
    ("signature" : bytes, JString (Encode (Signature c)))]) as Hj.
  { unfold claimInputJSON, claimInput, jstring. cbn [inGraph inIssuer inSubject inProperty inClaim inSignature].
    by rewrite !address_text, encode_text. }
  destruct (post_mutation (CreateClaim (claimInput (ToValid graph) (validClaim c))) createClaimQuery createClaimOp "createClaim" _ _ _ _ n
    _ _ ltac:(request) eq_refl ltac:(request) parse_createClaim ltac:(request) Ha (run_claim _ _ n eq_refl))
    as (answer & Hp & Hh & _).
  unfold Client_CreateClaim. rewrite Hj, Hp, Hh. by destruct (reported _ n).
Qed.

Lemma get_claims (graph : bytes) (f : ClaimFilter) n :
  Client_Claim graph (Some f) n =
  match claimsOf (ToValid graph) (validFilter f) {| nd := n; swarmHash := zero_array 32 |} with
  | (Ok cs, k) => (Ok (Some ∘ validClaim <$> cs), nd k)
  | (_, k) => (Err queryErrors, nd k)
  end.
Proof.
  unfold Client_Claim. pose proof (run_getClaim graph f n) as Hx.
  assert (forall v errs n' h, execSelections meth Resolver [SchemaField "graph" "graph" (strings_ [("id" : bytes, ToValid graph)])
      (NonNull (TypeName "Graph")) [SchemaField "claim" "claim" (filter_ f) (NonNull (List_ (TypeName "Claim"))) claimFields_]]
      (n, zero_array 32) = (v, errs, (n', h)) ->
    post getClaimQuery [("id" : bytes, jstring graph); ("filter" : bytes, filterJSON f)] n =
      ((200, Some {| Data := v; Api.Errors := errs; Extensions := [kordExtension h] |}), n')) as Hpost.
  { intros v errs n' h Hr. eapply (post_runs _ _ getClaimOp); [request|exact parse_getClaim|apply Hv; set_solver|request|reflexivity|
      exact (apply_getClaim (ToValid graph) f)|exact Hr]. }
  destruct (claimsOf _ _ _) as [[cs|e|p] k]; rewrite (Hpost _ _ _ _ Hx); [|reflexivity..].
  f_equal. unfold ClientClaim, Do. cbn [negb Nat.eqb Nat.ltb Nat.leb Api.Errors mbind result_bind Data].
  unfold decodeAnswer. cbn [member]. rewrite !decide_True by done. apply decodeClaims_sent.
Qed.

(** C24: the client's operations are the resolvers'.  Each posts a document with
    variables, which the handler parses, packs and executes; what becomes of
    the node is what the resolver of the field does to it, with strings in
    which invalid UTF-8 is replaced, and the caller gets the hash that the
    resolver has reported in its context, or an error when it failed or
    panicked.  Claims that are read come back as they are in the graph, up to
    the same replacement. *)
Theorem client_is_resolver (graph : bytes) n :
  Client_CreateGraph graph n = reported (CreateGraph (ToValid graph)) n /\
  (forall hash sig, Client_SetGraph graph hash sig n =
     (_ ← reported (SetGraph (setGraphInput (ToValid graph) hash sig)); mret tt) n) /\
  (forall c, Client_CreateClaim graph c n = reported (CreateClaim (claimInput (ToValid graph) (validClaim c))) n) /\
  (forall f, Client_Claim graph (Some f) n =
     match claimsOf (ToValid graph) (validFilter f) {| nd := n; swarmHash := zero_array 32 |} with
     | (Ok cs, k) => (Ok (Some ∘ validClaim <$> cs), nd k)
     | (_, k) => (Err queryErrors, nd k)
     end).
Proof. split_and!; intros; [apply create_graph|apply set_graph|apply create_claim|apply get_claims]. Qed.


(** ** Variables that are not what the schema says *)


(** C27: variables that are no objects are refused: whichever mutation of the
    client is posted, when its input is missing, null, or anything but an
    object, the answer has an error, and the node is as it was. *)
Theorem malformed_input_refused (query : bytes) (vars : list (bytes * json)) n :
  query ∈ [createGraphQuery; setGraphQuery; createClaimQuery] ->
  match member vars "input" with Some (JObject _) => False | _ => True end ->
  exists v k, post query vars n = ((200, Some {| Data := v; Api.Errors := S k; Extensions := [kordExtension (zero_array 32)] |}), n).
Proof.
  intros Hq Hin.
  assert (forall op, op ∈ [createGraphOp; setGraphOp; createClaimOp] ->
    applyAll (applyField apiSchema vars "Mutation") (opSels op) = (Some [], 1) \/
    applyAll (applyField apiSchema vars "Mutation") (opSels op) = (None, 0)) as Ha.
  { intros op Hop. repeat (apply elem_of_cons in Hop as [->|Hop]); [..|by apply elem_of_nil in Hop].
    all: unfold createGraphOp, setGraphOp, createClaimOp, mutation; cbn [opSels applyAll applyField fmap list_fmap inputArg literalValue].
    all: destruct (member vars "input") as [[]|]; try done; cbn [default]; (left; reflexivity) || (right; reflexivity). }
  assert (exists op, op ∈ [createGraphOp; setGraphOp; createClaimOp] /\ ToValid query = query /\
    ParseQuery query = Parsed [op] [] /\ opType op = Mutation_ /\
    forallb (fun v => resolves apiSchema (ivType v)) (opVars op) = true) as (op & Hop & Hv1 & Hp & Ht & Hr).
  { repeat (apply elem_of_cons in Hq as [->|Hq]); [..|by apply elem_of_nil in Hq].
    - exists createGraphOp. split_and!; [set_solver|by vm_compute|exact parse_createGraph|done|by vm_compute].
    - exists setGraphOp. split_and!; [set_solver|by vm_compute|exact parse_setGraph|done|by vm_compute].
    - exists createClaimOp. split_and!; [set_solver|by vm_compute|exact parse_createClaim|done|by vm_compute]. }
  rewrite (post_executes _ _ op) by (done || apply Hv; set_solver). unfold Execute. rewrite Ht.
  change (lookup_ (entryPoints apiSchema) "mutation") with (Some ("Mutation" : bytes)). cbv iota.
  destruct (Ha op Hop) as [-> | ->]; [|by exists JNull, 0]. exists (JObject []), 0. reflexivity.
Qed.
End client.
End server.

(** ** Witnesses *)

Section witnesses.
Import Toy SmallStore Digits.

Definition anyOrder (l : list ValueHash) : list ValueHash := l.
Definition valid_ (_ : list Operation) : nat := 0.
Definition refuses_ (_ : Request) (s : node Test.registry (list bytes) * Hash) :
    Response * (node Test.registry (list bytes) * Hash) := (failed 1, s).

Lemma valid_accepts : accepts valid_.
Proof. intros op _. reflexivity. Qed.

(** A graph is created on a node without files. *)
Lemma client_is_resolver_witness :
  accepts valid_ /\
  Client_CreateGraph anyOrder refuses_ valid_ graphName (reader1 Test.NewTestRegistry []) =
    reported (CreateGraph graphName) (reader1 Test.NewTestRegistry []).
Proof.
  split; [exact valid_accepts|].
  destruct (client_is_resolver anyOrder refuses_ valid_ valid_accepts graphName (reader1 Test.NewTestRegistry [])) as [H _].
  assert (ToValid graphName = graphName) as E by (vm_compute; reflexivity). rewrite E in H. exact H.
Defined.



Lemma malformed_input_refused_witness :
  createClaimQuery ∈ [createGraphQuery; setGraphQuery; createClaimQuery] /\
  exists v k, post anyOrder refuses_ valid_ createClaimQuery [("input" : bytes, JString "claim")] holder =
    ((200, Some {| Data := v; Api.Errors := S k; Extensions := [kordExtension (zero_array 32)] |}), holder).
Proof.
  assert (createClaimQuery ∈ [createGraphQuery; setGraphQuery; createClaimQuery]) as Hq by (right; right; left).
  split; [exact Hq|].
  apply (malformed_input_refused anyOrder refuses_ valid_ valid_accepts createClaimQuery _ holder Hq). exact I.
Defined.
End witnesses.
