(* ===== verification/Load.v ===== *)
(** * Loading a file of quads

    The command [kord graph load] of [cli/graph.go]: the quads of a file go to
    the node in batches, each a call of [PublicAPI.ApplyDeltas] through the
    client's quad store ([kord/client.go]), and then the graph is committed
    and published.  The batches are those of the vendored package [quad]
    ([CopyBatch]); the N-Quads parser and the progress bar are parameters. *)
From S2P Require Import Prelude Keccak Common Crypto Uri Contract Registry Claim Sha1 Quad Sql Db GraphDriver Api Server Cli.

(** ** Reading and copying in batches *)

(** A reader of quads: those it yields, and the error that ends them, which is
    [io.EOF] at the end of a file that parses. *)
Record quadReader := { qrQuads : list Quad; qrEnd : error }.

(** [batchReader.ReadQuads]: fill a buffer of [n] quads; an error ends it. *)
Fixpoint ReadQuads (n : nat) (qs : list Quad) : list Quad * bool * list Quad :=
  match n, qs with
  | 0, _ => ([], false, qs)
  | S n, [] => ([], true, [])
  | S n, q :: qs => let '(buf, ended, rest) := ReadQuads n qs in (q :: buf, ended, rest)
  end.

Definition DefaultBatch : nat := 10000.

Section copy.
Context {S : Type} (WriteQuads : list Quad -> prog S unit).

(** The loop of [CopyBatch], from a count; it returns the count and the error.
    [None] is a loop that has not ended within the fuel. *)
Fixpoint copyLoop (fuel batch : nat) (qs : list Quad) (fin : error) (cnt : nat) :
    prog S (option (nat * option error)) :=
  match fuel with
  | 0 => mret None
  | Datatypes.S fuel =>
      let '(buf, ended, rest) := ReadQuads batch qs in
      if ended && negb (bool_decide (fin = EOF)) then mret (Some (cnt, Some fin))
      else
        res ← try (WriteQuads buf);
        match res with
        | Err e => mret (Some (cnt, Some e))
        | _ => if ended then mret (Some (cnt + length buf, None))
               else copyLoop fuel batch rest fin (cnt + length buf)
        end
  end.

Definition CopyBatch (src : quadReader) (batchSize : nat) : prog S (option (nat * option error)) :=
  let batch := if (batchSize =? 0)%nat then DefaultBatch else batchSize in
  copyLoop (Datatypes.S (length (qrQuads src))) batch (qrQuads src) (qrEnd src) 0.
End copy.

(** ** The command *)

Section load.
Context {R D K : Type} `{Secp256k1} `{!Registry R} `{!DPA D} `{SqliteCodec} `{!Keystore K}.
Context (dial : bytes -> result unit) (tempDir : bytes).
(** [os.Open] on a path, and the N-Quads reader of what is there. *)
Context (openFile : bytes -> result quadReader).

(** [clientQuadStore.ApplyDeltas], under a writer of the kind "single": the
    deltas travel as JSON. *)
Definition AddQuadSet (name : bytes) (qs : list Quad) : prog (world R D K) unit :=
  _ ← onKord (PublicAPI.ApplyDeltas name (delta Add <$> (sent <$> qs)) defaultOpts); mret tt.

Definition loadQuads (id : Address) (file : bytes) : prog (world R D K) nat :=
  f ← lift (openFile file);
  r ← CopyBatch (AddQuadSet (Address_Hex id)) f DefaultBatch;
  match r with
  | Some (count, None) => mret count
  | Some (_, Some e) => throw e
  | None => gopanic "out of fuel"
  end.

Definition RunGraphLoad (args : Args) : prog (world R D K) nat :=
  idArg ← lift (Args_String args "<id>");
  if negb (IsHexAddress idArg) then throw invalidID
  else
    let id := HexToAddress idArg in
    _ ← Client dial tempDir args;
    file ← lift (Args_String args "<file>");
    count ← loadQuads id file;
    hash ← onKord (PublicAPI.CommitGraph (Address_Hex id));
    _ ← setGraph args id hash;
    mret count.

Definition RunGraph (args : Args) : prog (world R D K) unit :=
  lift (Args_Bool args "create") ≫= fun create : bool =>
  if create then RunGraphCreate dial tempDir args
  else lift (Args_Bool args "load") ≫= fun load : bool =>
       if load then _ ← RunGraphLoad args; mret tt else throw (EMsg "unknown graph command").
End load.

(** ** What copying does *)

Lemma ReadQuads_spec n qs buf ended rest :
  ReadQuads n qs = (buf, ended, rest) ->
  if ended then buf = qs /\ length qs < n else qs = buf ++ rest /\ length buf = n.
Proof.
  revert qs buf ended rest. induction n as [|n IH]; intros qs buf ended rest; [by intros [= <- <- <-]|].
  destruct qs as [|q qs]; [intros [= <- <- <-]; simpl; split; [done|lia]|].
  cbn [ReadQuads]. destruct (ReadQuads n qs) as [[b e] r] eqn:E. intros [= <- <- <-].
  specialize (IH _ _ _ _ E). destruct e; simpl; destruct IH as [-> ?]; split; [done|lia|done|lia].
Qed.

Lemma DefaultBatch_pos : 0 < DefaultBatch.
Proof. apply Nat.ltb_lt. vm_compute. reflexivity. Qed.

(** The whole batches at the start of a list. *)
Definition wholeBatches (batch : nat) (qs : list Quad) : list Quad := take (batch * (length qs / batch)) qs.

Lemma wholeBatches_short batch qs : length qs < batch -> wholeBatches batch qs = [].
Proof. intros Hl. unfold wholeBatches. rewrite Nat.div_small by done. by rewrite Nat.mul_0_r. Qed.

Section copying.
Context {S : Type} (WriteQuads : list Quad -> prog S unit).

(** A relation that every successful write extends by its quads. *)
Context (P : list Quad -> S -> Prop).
Context (P_write : forall done b s s', P done s -> WriteQuads b s = (Ok tt, s') -> P (done ++ b) s').

(** How a copy ends: with everything written and the end of the file; with
    the reader's error and the whole batches before it written; or with the
    failure of a write, after the writes before it. *)
Definition copied (batch : nat) (src : quadReader) (r : result (option (nat * option error))) (s' : S) : Prop :=
  match r with
  | Ok (Some (cnt, None)) => qrEnd src = EOF /\ cnt = length (qrQuads src) /\ P (qrQuads src) s'
  | Ok (Some (cnt, Some e)) =>
      (e = qrEnd src /\ e <> EOF /\ cnt = length (wholeBatches batch (qrQuads src)) /\
       P (wholeBatches batch (qrQuads src)) s') \/
      (exists done b s0, (done ++ b) `prefix_of` qrQuads src /\ cnt = length done /\ P done s0 /\
         WriteQuads b s0 = (Err e, s'))
  | Ok None => False
  | Err _ => False
  | Panic p => exists done b s0, P done s0 /\ WriteQuads b s0 = (Panic p, s')
  end.

Lemma copyLoop_copied fuel batch qs fin done s :
  0 < batch -> length qs < fuel -> P done s -> (exists k, length done = batch * k) ->
  let (r, s') := copyLoop WriteQuads fuel batch qs fin (length done) s in
  copied batch {| qrQuads := done ++ qs; qrEnd := fin |} r s'.
Proof.
  intros Hpos. revert qs done s. induction fuel as [|fuel IH]; intros qs done s Hf HP Hk; [lia|].
  assert (wholeBatches batch (done ++ qs) = done ++ wholeBatches batch qs) as Hwb.
  { destruct Hk as [k Hk]. unfold wholeBatches. rewrite length_app, Hk.
    replace (batch * k + length qs) with (k * batch + length qs) by lia.
    rewrite Nat.div_add_l by lia. rewrite take_app. f_equal; [apply take_ge; nia|f_equal; nia]. }
  cbn [copyLoop]. destruct (ReadQuads batch qs) as [[buf ended] rest] eqn:E.
  pose proof (ReadQuads_spec _ _ _ _ _ E) as Hr.
  destruct (ended && negb (bool_decide (fin = EOF))) eqn:Hend.
  - apply andb_true_iff in Hend as [-> Hfin]. apply negb_true_iff, bool_decide_eq_false in Hfin.
    destruct Hr as [-> Hl]. cbn. left. rewrite Hwb, wholeBatches_short, app_nil_r by done. done.
  - unfold mbind, prog_bind, try. destruct (WriteQuads buf s) as [[[]|e|p] s1] eqn:Hw.
    + pose proof (P_write _ _ _ _ HP Hw) as HP1. destruct ended.
      * destruct Hr as [-> Hl]. cbn. rewrite length_app. split_and!; [|done|done].
        simpl in Hend. by apply negb_false_iff, bool_decide_eq_true in Hend.
      * destruct Hr as [-> Hl]. rewrite length_app in Hf.
        specialize (IH rest (done ++ buf) s1). rewrite length_app, <- app_assoc in IH.
        apply IH; [lia|done|]. destruct Hk as [k ->]. exists (Datatypes.S k). lia.
    + cbn. right. exists done, buf, s. split_and!; [|done..]. cbn [qrQuads].
      destruct ended; destruct Hr as [-> _]; [done|]. rewrite (app_assoc done). by apply prefix_app_r.
    + cbn. by exists done, buf, s.
Qed.

Lemma CopyBatch_copied src batchSize s :
  0 < batchSize -> P [] s ->
  let (r, s') := CopyBatch WriteQuads src batchSize s in copied batchSize src r s'.
Proof.
  intros Hpos HP. unfold CopyBatch. destruct src as [qs fin].
  rewrite (proj2 (Nat.eqb_neq batchSize 0)) by lia.
  pose proof (copyLoop_copied (Datatypes.S (length qs)) batchSize qs fin [] s Hpos) as H.
  apply H; [simpl; lia|done|]. exists 0. simpl. lia.
Qed.
End copying.

(** ** What the command does *)

Section loading.
Context {R D K : Type} `{Secp256k1} `{!Secp256k1Laws} `{!Registry R} `{!RegistryLaws R} `{!DPA D}
  `{!DPALaws D} `{!SqliteCodec} `{!SqliteCodecLaws} `{!Keystore K} `{!KeystoreLaws K}.
Context (dial : bytes -> result unit) (tempDir : bytes) (openFile : bytes -> result quadReader).
Implicit Types w : world R D K.

Lemma rowsOf_app qs qs' rows rows' :
  rowsOf qs = Some rows -> rowsOf qs' = Some rows' -> rowsOf (qs ++ qs') = Some (rows ++ rows').
Proof. unfold rowsOf. rewrite !mapM_Some. apply Forall2_app. Qed.

(** The graph [name], open at first with tables [d], once the quads [qs] have
    been sent to it. *)
Definition loaded (name : bytes) (d : db) w0 (qs : list Quad) w : Prop :=
  name ∈ stores (knode (wkord w)) /\ (forall a, registryView w a = registryView w0 a) /\
  exists d' rows, tablesOf w name = Some (Some d') /\ wf d' /\ rowsOf (sent <$> qs) = Some rows /\
    forall r, r ∈ quads d' <-> r ∈ quads d \/ r ∈ rows.

Lemma loaded_nil name d w :
  name ∈ stores (knode (wkord w)) -> tablesOf w name = Some (Some d) -> wf d -> loaded name d w [] w.
Proof.
  intros Hin Ht Hwf. split; [done|]. split; [done|]. exists d, []. split_and!; [done..|]. set_solver.
Qed.

Lemma loaded_write name d w0 done b w res w' :
  loaded name d w0 done w -> AddQuadSet name b w = (res, w') ->
  (forall a, registryView w' a = registryView w0 a) /\ (res = Ok tt -> loaded name d w0 (done ++ b) w').
Proof.
  intros (Hin & Hv & d1 & rows & Ht & Hwf & Hrows & Hq) Ha.
  unfold AddQuadSet, mbind, prog_bind in Ha.
  destruct (onKord _ w) as [r w1] eqn:E.
  destruct (ApplyDeltas_afar _ _ _ _ _ _ _ Hin Ht E) as (Hin1 & Hv1 & d2 & Ht2 & _ & Hok).
  assert (w' = w1 /\ (res = Ok tt -> is_ok r = true)) as [-> Hr] by (destruct r; by injection Ha as <- <-).
  assert (forall a, registryView w1 a = registryView w0 a) as Hv2 by (intros a; by rewrite Hv1).
  split; [exact Hv2|]. intros Hres.
  destruct (AddQuadSet_ok _ _ _ (Hok (Hr Hres)) Hwf) as (rows2 & Hrows2 & Hwf2 & Hq2).
  split; [exact Hin1|]. split; [exact Hv2|]. exists d2, (rows ++ rows2).
  split; [exact Ht2|]. split; [exact Hwf2|]. split; [rewrite fmap_app; by apply rowsOf_app|].
  intros x. rewrite Hq2, Hq, elem_of_app. tauto.
Qed.

(** The copy of a file into an open graph. *)
Lemma loadQuads_copied id file src d w r w' :
  let name := Address_Hex id in
  name ∈ stores (knode (wkord w)) -> tablesOf w name = Some (Some d) -> wf d -> openFile file = Ok src ->
  loadQuads openFile id file w = (r, w') ->
  (forall a, registryView w' a = registryView w a) /\
  match r with
  | Ok count => qrEnd src = EOF /\ count = length (qrQuads src) /\ loaded name d w (qrQuads src) w'
  | Err e => e = qrEnd src /\ loaded name d w (wholeBatches DefaultBatch (qrQuads src)) w' \/
             exists done b w0, loaded name d w done w0 /\ AddQuadSet name b w0 = (Err e, w')
  | Panic p => exists done b w0, loaded name d w done w0 /\ AddQuadSet name b w0 = (Panic p, w')
  end.
Proof.
  intros name Hin Ht Hwf Hfile. unfold loadQuads. rewrite (bind_ok _ _ w src w) by (unfold lift; by rewrite Hfile).
  pose proof (CopyBatch_copied (AddQuadSet name) (loaded name d w)
    (fun done b s s' HP Hw => proj2 (loaded_write _ _ _ _ _ _ _ _ HP Hw) eq_refl)
    src DefaultBatch w DefaultBatch_pos (loaded_nil _ _ _ Hin Ht Hwf)) as Hc.
  unfold mbind, prog_bind. fold name. destruct (CopyBatch _ _ _ w) as [[[[cnt [e|]]|]|e|p] w1]; unfold copied in Hc.
  - intros [= <- <-]. destruct Hc as [(-> & _ & _ & HP)|(done & b & w0 & _ & _ & HP & Hw)].
    + split; [exact (proj1 (proj2 HP))|]. left. split; [reflexivity|exact HP].
    + split; [exact (proj1 (loaded_write _ _ _ _ _ _ _ _ HP Hw))|]. right. by exists done, b, w0.
  - intros [= <- <-]. destruct Hc as (? & ? & HP). split; [exact (proj1 (proj2 HP))|]. split_and!; assumption.
  - done.
  - done.
  - intros [= <- <-]. destruct Hc as (done & b & w0 & HP & Hw).
    split; [exact (proj1 (loaded_write _ _ _ _ _ _ _ _ HP Hw))|]. by exists done, b, w0.
Qed.

Lemma RunGraphLoad_steps args idArg file w r w' :
  Args_String args "<id>" = Ok idArg -> IsHexAddress idArg = true -> Args_String args "<file>" = Ok file ->
  RunGraphLoad dial tempDir openFile args w = (r, w') ->
  Client dial tempDir args w = (Ok tt, w) ->
  exists r1 w1, loadQuads openFile (HexToAddress idArg) file w = (r1, w1) /\
    (if is_ok r1 then exists count, r1 = Ok count /\
       (hash ← onKord (PublicAPI.CommitGraph (Address_Hex (HexToAddress idArg)));
        _ ← setGraph args (HexToAddress idArg) hash; mret count) w1 = (r, w')
     else r = r1 /\ w' = w1).
Proof.
  intros Hid Hhex Hfile Hr Hcl. unfold RunGraphLoad in Hr.
  rewrite (bind_ok _ _ w idArg w) in Hr by (unfold lift; by rewrite Hid). rewrite Hhex in Hr. cbn [negb] in Hr.
  rewrite (bind_ok _ _ _ _ _ Hcl) in Hr.
  rewrite (bind_ok _ _ w file w) in Hr by (unfold lift; by rewrite Hfile).
  unfold mbind at 1, prog_bind at 1 in Hr.
  destruct (loadQuads openFile _ file w) as [r1 w1]. exists r1, w1. split; [reflexivity|].
  destruct r1 as [c|e|p]; cbn [is_ok]; [by exists c|by injection Hr as <- <-..].
Qed.

(** [kord graph load] on an open graph: when the command succeeds the file
    parses to its end and the count is the number of its quads; the graph has
    exactly the quads it had and those of the file as JSON carries them, and
    is well formed, however many batches that took; the storage has a file
    with these tables; and, the signature being in range, the registry maps
    the identity to its hash, and every other identity to what it was mapped
    to. *)
Theorem RunGraphLoad_publishes (args : Args) (idArg file : bytes) (src : quadReader) (d : db) (count : nat) w w' :
  let id := HexToAddress idArg in
  let name := Address_Hex id in
  Args_String args "<id>" = Ok idArg -> Args_String args "<file>" = Ok file -> openFile file = Ok src ->
  name ∈ stores (knode (wkord w)) -> tablesOf w name = Some (Some d) -> wf d ->
  RunGraphLoad dial tempDir openFile args w = (Ok count, w') ->
  qrEnd src = EOF /\ count = length (qrQuads src) /\
  exists d' rows hash sig, rowsOf (sent <$> qrQuads src) = Some rows /\
    tablesOf w' name = Some (Some d') /\ wf d' /\ (forall r, r ∈ quads d' <-> r ∈ quads d \/ r ∈ rows) /\
    stored w' hash (Some d') /\ (exists w1, signHash args id hash w1 = (Ok sig, w1)) /\
    (valuesOk sig = true ->
       forall b, registryView w' b = if decide (b = id) then hash else registryView w b).
Proof.
  intros id name Hid Hfile Hopen Hin Ht Hwf Hr.
  assert (IsHexAddress idArg = true) as Hhex.
  { unfold RunGraphLoad in Hr. rewrite (bind_ok _ _ w idArg w) in Hr by (unfold lift; by rewrite Hid).
    by destruct (IsHexAddress idArg). }
  assert (Client dial tempDir args w = (Ok tt, w)) as Hcl.
  { unfold RunGraphLoad in Hr. rewrite (bind_ok _ _ w idArg w) in Hr by (unfold lift; by rewrite Hid).
    rewrite Hhex in Hr. cbn [negb] in Hr. apply bind_ok_inv in Hr as ([] & w1 & Hc & _).
    by rewrite Hc; apply Client_same in Hc as ->. }
  destruct (RunGraphLoad_steps _ _ _ _ _ _ Hid Hhex Hfile Hr Hcl) as (r1 & w1 & Hl & Hrest).
  destruct (loadQuads_copied _ _ _ _ _ _ _ Hin Ht Hwf Hopen Hl) as [Hv Hc].
  destruct r1 as [c|e|p]; cbn [is_ok] in Hrest; [|by destruct Hrest..].
  destruct Hrest as (c' & [= <-] & Hrest). destruct Hc as (Heof & Hcnt & _ & _ & d' & rows & Ht1 & Hwf1 & Hrows & Hq).
  apply bind_ok_inv in Hrest as (hash & w2 & Hcom & Hrest). apply bind_ok_inv in Hrest as ([] & w3 & Hset & Hret).
  injection Hret as -> ->.
  unfold PublicAPI.CommitGraph in Hcom. apply onKNode_inv in Hcom as (n' & Hc' & Hn' & _).
  destruct (Commit_fetched _ _ _ _ _ Hc' Ht1) as (Ht3 & Hreg & data & Hdata & Hdec).
  destruct (setGraph_publishes _ _ _ _ _ Hset) as (sig & Hsig & Htab & Hsto & Hval).
  split; [exact Heof|]. split; [exact Hcnt|]. exists d', rows, hash, sig.
  split; [exact Hrows|]. split; [rewrite Htab; unfold tablesOf; by rewrite Hn'|].
  split; [exact Hwf1|]. split; [exact Hq|].
  split; [apply Hsto; exists data; by rewrite Hn'|]. split; [by exists w2|].
  intros Hok b. rewrite (Hval Hok). unfold id. case_decide; [reflexivity|]. rewrite <- Hv. unfold registryView.
  by rewrite Hn', Hreg.
Qed.

(** Loading a file is not atomic: when the file stops parsing, the command
    fails and the registry is as it was, but the whole batches before the
    error are in the graph: either the error is the parser's and the graph
    has exactly them besides what it had, or sending one of them failed. *)
Theorem RunGraphLoad_partial (args : Args) (idArg file : bytes) (src : quadReader) (d : db) (r : result nat) w w' :
  let name := Address_Hex (HexToAddress idArg) in
  Args_String args "<id>" = Ok idArg -> IsHexAddress idArg = true -> Args_String args "<file>" = Ok file ->
  Client dial tempDir args w = (Ok tt, w) -> openFile file = Ok src -> qrEnd src <> EOF ->
  name ∈ stores (knode (wkord w)) -> tablesOf w name = Some (Some d) -> wf d ->
  RunGraphLoad dial tempDir openFile args w = (r, w') ->
  (forall a, registryView w' a = registryView w a) /\
  ((r = Err (qrEnd src) /\ loaded name d w (wholeBatches DefaultBatch (qrQuads src)) w') \/
   (is_ok r = false /\ exists done b w0 r0, loaded name d w done w0 /\ AddQuadSet name b w0 = (r0, w') /\
      is_ok r0 = false)).
Proof.
  intros name Hid Hhex Hfile Hcl Hopen Hend Hin Ht Hwf Hr.
  destruct (RunGraphLoad_steps _ _ _ _ _ _ Hid Hhex Hfile Hr Hcl) as (r1 & w1 & Hl & Hrest).
  destruct (loadQuads_copied _ _ _ _ _ _ _ Hin Ht Hwf Hopen Hl) as [Hv Hc].
  destruct r1 as [c|e|p]; cbn [is_ok] in Hrest.
  - by destruct Hc as [? _].
  - destruct Hrest as [-> ->]. split; [exact Hv|]. destruct Hc as [[-> HP]|(done & b & w0 & HP & Hw)].
    + left. split; [reflexivity|exact HP].
    + right. split; [reflexivity|]. exists done, b, w0, (Err e). split; [exact HP|]. split; [exact Hw|reflexivity].
  - destruct Hrest as [-> ->]. split; [exact Hv|]. destruct Hc as (done & b & w0 & HP & Hw).
    right. split; [reflexivity|]. exists done, b, w0, (Panic p). split; [exact HP|]. split; [exact Hw|reflexivity].
Qed.
End loading.

(** ** Witnesses *)

Section witnesses.
Import Toy SmallStore Digits OneAccount.

(** A file of two quads about the same subject, and one whose second line does
    not parse. *)
Definition twoQuads : quadReader := {| qrQuads := [q1; q2]; qrEnd := EOF |}.
Definition badLine : quadReader := {| qrQuads := [q1]; qrEnd := EVar "quad.ErrInvalid" |}.
Definition loadArgs : Args :=
  words [("<id>" : bytes, AString graphName); ("<file>" : bytes, AString "quads.nq"); ("--url" : bytes, ANil);
         ("--keystore" : bytes, AString "keys")].
Definition loadRun (src : quadReader) : result nat * world Test.registry (list bytes) unit :=
  RunGraphLoad dialled "/tmp" (fun _ => Ok src) loadArgs deployer.

Lemma graphName_again : Address_Hex (HexToAddress graphName) = graphName.
Proof. unfold graphName. by rewrite HexToAddress_Hex. Qed.

Lemma RunGraphLoad_publishes_witness :
  fst (loadRun twoQuads) = Ok 2 /\
  exists d' hash sig, tablesOf (snd (loadRun twoQuads)) graphName = Some (Some d') /\ wf d' /\
    stored (snd (loadRun twoQuads)) hash (Some d') /\
    (valuesOk sig = true -> registryView (snd (loadRun twoQuads)) owner = hash).
Proof.
  assert (Args_String loadArgs "<id>" = Ok graphName) as H1 by (vm_compute; reflexivity).
  assert (Args_String loadArgs "<file>" = Ok ("quads.nq" : bytes)) as H2 by (vm_compute; reflexivity).
  assert (fst (loadRun twoQuads) = Ok 2) as Hf by (vm_compute; reflexivity).
  assert (loadRun twoQuads = (Ok 2, snd (loadRun twoQuads))) as Hr by (rewrite <- Hf; apply surjective_pairing).
  split; [exact Hf|].
  pose proof (RunGraphLoad_publishes dialled "/tmp" (fun _ => Ok twoQuads) loadArgs graphName "quads.nq" twoQuads
    emptyDB 2 deployer (snd (loadRun twoQuads)) H1 H2 eq_refl) as H. cbv zeta in H. rewrite graphName_again in H.
  destruct (H (proj2 (elem_of_singleton graphName graphName) eq_refl) author_tables wf_empty Hr)
    as (_ & _ & d' & rows & hash & sig & _ & Ht & Hwf & _ & Hs & _ & Hv).
  exists d', hash, sig. split; [exact Ht|]. split; [exact Hwf|]. split; [exact Hs|].
  intros Hok. rewrite (Hv Hok), decide_True; [reflexivity|]. symmetry. apply HexToAddress_Hex.
Defined.

Lemma RunGraphLoad_partial_witness :
  fst (loadRun badLine) = Err (EVar "quad.ErrInvalid") /\
  forall a, registryView (snd (loadRun badLine)) a = registryView deployer a.
Proof.
  assert (Args_String loadArgs "<id>" = Ok graphName) as H1 by (vm_compute; reflexivity).
  assert (IsHexAddress graphName = true) as H2 by (vm_compute; reflexivity).
  assert (Args_String loadArgs "<file>" = Ok ("quads.nq" : bytes)) as H3 by (vm_compute; reflexivity).
  split; [vm_compute; reflexivity|].
  pose proof (RunGraphLoad_partial dialled "/tmp" (fun _ => Ok badLine) loadArgs graphName "quads.nq" badLine
    emptyDB (fst (loadRun badLine)) deployer (snd (loadRun badLine)) H1 H2 H3) as H.
  cbv zeta in H. rewrite graphName_again in H.
  apply H; [vm_compute; reflexivity|reflexivity|discriminate| |exact author_tables|exact wf_empty|].
  - exact (proj2 (elem_of_singleton graphName graphName) eq_refl).
  - apply surjective_pairing.
Defined.
End witnesses.
