(* ===== verification/Node.v ===== *)
(** * The node process

    The life of the node that [RunNode] of [cli/node.go] runs: the stack of
    services of the vendored package [node], with its lock, the construction
    and start of the KORD service ([kord/meta.go]) among the others, and the
    clean-up on every error.  The Ethereum and Swarm services, the peer-to-peer
    server, the RPC endpoints and the keystore are parameters.  A goroutine
    that waits for a lock that nobody will release is an outcome of its own. *)
From S2P Require Import Prelude Keccak Common Crypto Uri Contract Registry Claim Sha1 Quad Sql Db GraphDriver Api Server Cli.

(** ** Tasks

    Code that returns, fails or panics, or waits for ever: nothing runs after
    a wait, deferred calls included. *)
Inductive outcome (A : Type) := Returns (r : result A) | Waits.
Arguments Returns {A} r. Arguments Waits {A}.

Definition task (S A : Type) : Type := S -> outcome A * S.

#[global] Instance task_ret S : MRet (task S) := fun _ a s => (Returns (Ok a), s).
#[global] Instance task_bind S : MBind (task S) := fun _ _ f m s =>
  match m s with
  | (Returns (Ok a), s') => f a s'
  | (Returns (Err e), s') => (Returns (Err e), s')
  | (Returns (Panic p), s') => (Returns (Panic p), s')
  | (Waits, s') => (Waits, s')
  end.

(** Code that never waits, and the outcome of a call handed to what follows. *)
Definition plainly {S A} (m : prog S A) : task S A := fun s => let (r, s') := m s in (Returns r, s').
Definition tryTask {S A} (m : task S A) : task S (result A) := fun s =>
  match m s with
  | (Returns (Panic p), s') => (Returns (Panic p), s')
  | (Returns r, s') => (Returns (Ok r), s')
  | (Waits, s') => (Waits, s')
  end.
(** [defer]: when the task returns, [d] runs. *)
Definition deferTask {S A} (d : S -> S) (m : task S A) : task S A := fun s =>
  match m s with
  | (Returns r, s') => (Returns r, d s')
  | (Waits, s') => (Waits, s')
  end.

Lemma task_bind_ok {S A B} (m : task S A) (k : A -> task S B) s a s' :
  m s = (Returns (Ok a), s') -> (x ← m; k x) s = k a s'.
Proof. unfold mbind, task_bind. by intros ->. Qed.

Lemma task_bind_waits {S A B} (m : task S A) (k : A -> task S B) s s' :
  m s = (Waits, s') -> (x ← m; k x) s = (Waits, s').
Proof. unfold mbind, task_bind. by intros ->. Qed.

(** ** The stack of services *)

(** The types of the services, which is how the node tells them apart. *)
Inductive kind := Ethereum | Swarm | Kord.
#[global] Instance kind_eq_dec : EqDecision kind.
Proof. solve_decision. Defined.

(** [node.Node]: its lock (held for writing or not), the constructors that
    were registered, whether its server is set, and the services that run.
    [up] and [p2p] record which services have been started and not stopped,
    and whether the peer-to-peer server runs. *)
Record stack := {
  lock : bool; serviceFuncs : list kind; server : bool; services : list kind;
  up : list kind; p2p : bool;
}.

Definition NewStack : stack :=
  {| lock := false; serviceFuncs := []; server := false; services := []; up := []; p2p := false |}.

Definition setLock (b : bool) (n : stack) : stack :=
  {| lock := b; serviceFuncs := serviceFuncs n; server := server n; services := services n; up := up n; p2p := p2p n |}.
Definition addFunc (k : kind) (n : stack) : stack :=
  {| lock := lock n; serviceFuncs := serviceFuncs n ++ [k]; server := server n; services := services n;
     up := up n; p2p := p2p n |}.
Definition setServer (b : bool) (ks : list kind) (n : stack) : stack :=
  {| lock := lock n; serviceFuncs := serviceFuncs n; server := b; services := ks; up := up n; p2p := p2p n |}.
Definition setUp (ks : list kind) (n : stack) : stack :=
  {| lock := lock n; serviceFuncs := serviceFuncs n; server := server n; services := services n; up := ks; p2p := p2p n |}.
Definition setP2P (b : bool) (n : stack) : stack :=
  {| lock := lock n; serviceFuncs := serviceFuncs n; server := server n; services := services n; up := up n; p2p := b |}.

Definition ErrNodeRunning : error := EVar "node.ErrNodeRunning".
Definition ErrNodeStopped : error := EVar "node.ErrNodeStopped".
Definition ErrServiceUnknown : error := EVar "node.ErrServiceUnknown".
Definition DuplicateServiceError : error := ETyped "node.DuplicateServiceError" [].
Definition StopError : error := ETyped "node.StopError" [].

(** What [lazyRegistry] sees of the node when it attaches to it, and the
    network that a client of the node talks to. *)
Record nodeView (N : Type) := { vLock : bool; vRunning : bool; vNet : N }.
Arguments vLock {N}. Arguments vRunning {N}. Arguments vNet {N}.

(** How code that calls [Attach] while the node's lock is held says that it
    will never return; no code of the repository recovers from a panic. *)
Definition waitsForLock : bytes := "sync.RWMutex.RLock".

Section node.
Context {R N D O : Type} `{Secp256k1} `{!Registry R} `{!DPA D} `{SqliteCodec}.
Context (iteration : list ValueHash -> list ValueHash).
(** [registry.NewClient] on a client of the node. *)
Context (NewClient : prog N R).

(** [Node.Attach], as [lazyRegistry.registry] calls it. *)
Definition Attach : prog (nodeView N) unit := fun v =>
  if vLock v then (Panic waitsForLock, v)
  else if negb (vRunning v) then (Err ErrNodeStopped, v)
  else (Ok tt, v).

Definition setNet (x : N) (v : nodeView N) : nodeView N :=
  {| vLock := vLock v; vRunning := vRunning v; vNet := x |}.
Definition connect : prog (nodeView N) R := _ ← Attach; zoom vNet setNet NewClient.

Abbreviation Lreg := (Lazy.state (R := R) (E := nodeView N)).
#[local] Instance nodeRegistry : Registry Lreg := Lazy.lazyRegistry connect.
Abbreviation Kservice := (kord Lreg D).

(** The process: the stack; the KORD service once it is constructed; the
    state of the other services; the database drivers registered with
    [database/sql]; the temporary directories; the files in the node's data
    directory, the storage and the network. *)
Record process := {
  stk : stack; kordSvc : option Kservice; others : O; sqlDrivers : gset bytes;
  tempDirs : list bytes; disk : FS; storage : D; net : N;
}.
Implicit Types p : process.

Definition setStk (s : stack) p : process :=
  {| stk := s; kordSvc := kordSvc p; others := others p; sqlDrivers := sqlDrivers p; tempDirs := tempDirs p;
     disk := disk p; storage := storage p; net := net p |}.
Definition setKordSvc (k : option Kservice) p : process :=
  {| stk := stk p; kordSvc := k; others := others p; sqlDrivers := sqlDrivers p; tempDirs := tempDirs p;
     disk := disk p; storage := storage p; net := net p |}.
Definition setOthers (o : O) p : process :=
  {| stk := stk p; kordSvc := kordSvc p; others := o; sqlDrivers := sqlDrivers p; tempDirs := tempDirs p;
     disk := disk p; storage := storage p; net := net p |}.
Definition setDrivers (ds : gset bytes) p : process :=
  {| stk := stk p; kordSvc := kordSvc p; others := others p; sqlDrivers := ds; tempDirs := tempDirs p;
     disk := disk p; storage := storage p; net := net p |}.
Definition setTempDirs (ts : list bytes) p : process :=
  {| stk := stk p; kordSvc := kordSvc p; others := others p; sqlDrivers := sqlDrivers p; tempDirs := ts;
     disk := disk p; storage := storage p; net := net p |}.
Definition onStack (f : stack -> stack) p : process := setStk (f (stk p)) p.
Definition onOthers {A} (m : prog O A) : prog process A := zoom others setOthers m.

(** ** kord/meta.go: the service *)

Definition drvName : bytes := "kord".

(** [db.NewDriver] registers itself under its name, which panics when the
    name is taken. *)
Definition NewDriver : prog process unit := fun p =>
  if bool_decide (drvName ∈ sqlDrivers p)
  then (Panic "sql: Register called twice for driver kord", p)
  else (Ok tt, setDrivers ({[drvName]} ∪ sqlDrivers p) p).

(** [kord.New], in a context with the services constructed so far: [mkdir] is
    the outcome of [os.MkdirAll], [newAPI] that of [api.NewAPI]. *)
Definition New (constructed : list kind) (mkdir newAPI : result unit) : prog process unit :=
  _ ← (if bool_decide (Swarm ∈ constructed) then mret tt
       else throw (EWrap "error getting Swarm service" [] ErrServiceUnknown));
  _ ← lift mkdir;
  _ ← NewDriver;
  _ ← lift newAPI;
  modify (fun p => setKordSvc (Some
    {| knode := {| files := disk p; opened := ∅; stores := ∅;
                   reg := {| Lazy.inner := None; Lazy.env := {| vLock := false; vRunning := false; vNet := net p |} |};
                   swarm := storage p |};
       rootDapp := None; srv := None |}) p).

(** The service looks at the node through its registry. *)
Definition lookAt (s : stack) (k : Kservice) : Kservice :=
  let r := reg (knode k) in
  setKNode (setReg {| Lazy.inner := Lazy.inner r;
                      Lazy.env := {| vLock := lock s; vRunning := server s; vNet := vNet (Lazy.env r) |} |}
                   (knode k)) k.

(** A method of the service, called by the node. *)
Definition onService {A} (m : prog Kservice A) : task process A := fun p =>
  match kordSvc p with
  | None => (Returns (Panic "invalid memory address or nil pointer dereference"), p)
  | Some k =>
      match m (lookAt (stk p) k) with
      | (Panic msg, k') =>
          if bool_decide (msg = waitsForLock) then (Waits, setKordSvc (Some k') p)
          else (Returns (Panic msg), setKordSvc (Some k') p)
      | (r, k') => (Returns r, setKordSvc (Some k') p)
      end
  end.

(** [Kord.Stop]: [shutdown] is the outcome of [http.Server.Shutdown]. *)
Definition StopKord (shutdown : result unit) : prog Kservice unit :=
  k ← get; match srv k with Some _ => lift shutdown | None => mret tt end.

(** ** The node's operations *)

(** [n.lock.Lock()] with the deferred unlock, and [n.lock.RLock()]. *)
Definition withLock {A} (m : task process A) : task process A := fun p =>
  if lock (stk p) then (Waits, p)
  else deferTask (onStack (setLock false)) m (onStack (setLock true) p).
Definition withRLock {A} (m : task process A) : task process A := fun p =>
  if lock (stk p) then (Waits, p) else m p.

Definition running : task process bool := plainly (p ← get; mret (server (stk p))).

Definition Register (k : kind) : task process unit :=
  withLock (running ≫= fun b : bool =>
    if b then plainly (throw ErrNodeRunning) else plainly (modify (onStack (addFunc k)))).

(** [Node.Service]: is a service of this type running? *)
Definition Service (k : kind) : task process unit :=
  withRLock (running ≫= fun b : bool =>
    if negb b then plainly (throw ErrNodeStopped)
    else plainly (p ← get; if bool_decide (k ∈ services (stk p)) then mret tt else throw ErrServiceUnknown)).

(** The environment of the node: constructing, starting and stopping the other
    services; opening the data directory; the peer-to-peer server; the RPC
    endpoints; and what the KORD service needs. *)
Record environment := {
  constructOther : kind -> prog O unit; startOther : kind -> prog O unit; stopOther : kind -> prog O unit;
  openDataDir : prog O unit; startP2P : prog O unit; startRPC : prog O unit;
  kMkdir : result unit; kNewAPI : result unit; kListen : result bytes; kShutdown : result unit;
  (** the orders in which the map of services is walked: to start them, to
      stop them after the RPC endpoints failed, and to stop the node *)
  startOrder : list kind -> list kind; undoOrder : list kind -> list kind; stopOrder : list kind -> list kind;
}.
Context (e : environment).

Definition construct (k : kind) (constructed : list kind) : prog process unit :=
  match k with
  | Kord => New constructed (kMkdir e) (kNewAPI e)
  | _ => onOthers (constructOther e k)
  end.

Definition startService (cfg : Config) (k : kind) : task process unit :=
  match k with
  | Kord => onService (Server.Start iteration cfg (kListen e))
  | _ => plainly (onOthers (startOther e k))
  end.

Definition stopService (k : kind) : task process unit :=
  match k with
  | Kord => onService (StopKord (kShutdown e))
  | _ => plainly (onOthers (stopOther e k))
  end.

(** The services, one for each constructor, in order. *)
Fixpoint constructAll (funcs constructed : list kind) : task process (list kind) :=
  match funcs with
  | [] => mret constructed
  | k :: funcs =>
      _ ← plainly (construct k constructed);
      if bool_decide (k ∈ constructed) then plainly (throw DuplicateServiceError)
      else constructAll funcs (constructed ++ [k])
  end.

Definition wentUp (k : kind) : task process unit :=
  plainly (modify (onStack (fun s => setUp (up s ++ [k]) s))).
Definition wentDown (k : kind) : task process unit :=
  plainly (modify (onStack (fun s => setUp (filter (fun x => x <> k) (up s)) s))).

(** Stop services one after the other; the errors are returned together. *)
Fixpoint stopAll (ks : list kind) : task process (list error) :=
  match ks with
  | [] => mret []
  | k :: ks =>
      r ← tryTask (stopService k);
      _ ← wentDown k;
      es ← stopAll ks;
      mret (match r with Err x => x :: es | _ => es end)
  end.

Definition stopP2P : task process unit := plainly (modify (onStack (setP2P false))).

(** Start services one after the other, stopping those before on a failure. *)
Fixpoint startAll (cfg : Config) (ks started : list kind) : task process unit :=
  match ks with
  | [] => mret tt
  | k :: ks =>
      r ← tryTask (startService cfg k);
      match r with
      | Err x => _ ← stopAll started; _ ← stopP2P; plainly (throw x)
      | _ => _ ← wentUp k; startAll cfg ks (started ++ [k])
      end
  end.

(** Start the services and then the RPC endpoints, undoing what was done. *)
Definition startServices (cfg : Config) (ks : list kind) : task process unit :=
  _ ← startAll cfg (startOrder e ks) [];
  r ← tryTask (plainly (onOthers (startRPC e)));
  match r with
  | Err x => _ ← stopAll (undoOrder e ks); _ ← stopP2P; plainly (throw x)
  | _ => plainly (modify (onStack (setServer true ks)))
  end.

Definition Start (cfg : Config) : task process unit :=
  withLock (running ≫= fun b : bool =>
    if b then plainly (throw ErrNodeRunning)
    else
      _ ← plainly (onOthers (openDataDir e));
      p ← plainly get;
      ks ← constructAll (serviceFuncs (stk p)) [];
      _ ← plainly (onOthers (startP2P e));
      _ ← plainly (modify (onStack (setP2P true)));
      startServices cfg ks).

Definition Stop : task process unit :=
  withLock (running ≫= fun b : bool =>
    if negb b then plainly (throw ErrNodeStopped)
    else
      p ← plainly get;
      failures ← stopAll (stopOrder e (services (stk p)));
      _ ← stopP2P;
      _ ← plainly (modify (onStack (setServer false [])));
      match failures with [] => mret tt | _ => plainly (throw StopError) end).

(** [Wait]: the node waits until it is stopped; [stopper] says whether some
    other goroutine stops it. *)
Definition Wait (stopper : bool) : task process unit :=
  withRLock (running ≫= fun b : bool =>
    if negb b then mret tt
    else if stopper then _ ← tryTask Stop; mret tt
    else fun p => (Waits, p)).

(** ** cli/node.go: the command *)

(** What [RunNode] sets besides the settings of [nodeConfig]. *)
Record serviceConfig := { BzzAccount : bytes; DeveloperGenesis : option Address; GasPrice : option Z }.

(** The files and keys of the machine, and the outcomes of the calls to the
    vendored packages. *)
Record machine := {
  makeTemp : result bytes; osTemp : bytes; openConfig : bytes -> result bytes; decodeTOML : bytes -> nodeConfig -> result nodeConfig;
  ParseNode : bytes -> result bytes;
  newNode : nodeConfig -> result unit;             (* node.New *)
  importKey : result Address;                      (* ks.ImportECDSA of the developer's key *)
  findKey : Address -> result bytes;               (* ks.Find, giving the path of the key's file *)
  readFile : bytes -> result bytes; decryptKey : bytes -> bytes -> result unit;
  etherbase : result Address; unlock : Address -> bytes -> result unit; startMiner : result unit;
  deployRegistry : prog O Address;                 (* registry.Deploy on the node's IPC endpoint *)
}.
Context (mc : machine).

Definition readConfig : bytes -> nodeConfig -> result nodeConfig := loadConfig (openConfig mc) (decodeTOML mc).

Definition setupDevAccount (s : serviceConfig) : result serviceConfig :=
  match importKey mc with
  | Ok a => Ok {| BzzAccount := Address_Hex a; DeveloperGenesis := Some a; GasPrice := Some 1%Z |}
  | Err x => Err (EWrap "error importing developer account" [] x)
  | Panic m => Panic m
  end.

Definition registerSwarmService (s : serviceConfig) : task process unit :=
  path ← plainly (lift (findKey mc (HexToAddress (BzzAccount s))));
  keyjson ← plainly (lift (readFile mc path));
  _ ← plainly (lift (decryptKey mc keyjson []));
  Register Swarm.

Definition registerKordService : task process unit := Register Kord.

(** [utils.RegisterEthService] ends the process when it cannot register. *)
Definition RegisterEthService : task process unit :=
  r ← tryTask (Register Ethereum);
  match r with Err _ => plainly (gopanic "os.Exit") | _ => mret tt end.

Definition wrapTask {S A} (what : string) (m : task S A) : task S A := fun s =>
  match m s with
  | (Returns (Err x), s') => (Returns (Err (EWrap what [] x)), s')
  | r => r
  end.

Definition startMining : task process unit :=
  _ ← wrapTask "error getting Ethereum service" (Service Ethereum);
  base ← wrapTask "error getting Etherbase" (plainly (lift (etherbase mc)));
  _ ← wrapTask "error unlocking Etherbase" (plainly (lift (unlock mc base [])));
  wrapTask "error starting Ethereum mining" (plainly (lift (startMiner mc))).

(** Stop the node and return the error: the clean-up after a failure. *)
Definition stopAndReturn {A} (r : result A) : task process unit :=
  match r with
  | Ok _ => mret tt
  | Err x => _ ← tryTask Stop; plainly (throw x)
  | Panic m => plainly (gopanic m)
  end.

Definition makeTempDir (dir : bytes) : task process unit :=
  plainly (modify (fun p => setTempDirs (dir :: tempDirs p) p)).
Definition removeTempDir (dir : bytes) (p : process) : process :=
  setTempDirs (filter (fun d => d <> dir) (tempDirs p)) p.

(** From the configuration to the end of the command; [cancelled]: is the
    context cancelled some day? *)
Definition runStack (args : Args) (cancelled : bool) (c : nodeConfig) (s : serviceConfig) : task process unit :=
  _ ← plainly (lift (newNode mc c));
  dev ← plainly (lift (Args_Bool args "--dev"));
  s ← (if (dev : bool) then plainly (lift (setupDevAccount s)) else mret s);
  _ ← RegisterEthService;
  _ ← registerSwarmService s;
  _ ← registerKordService;
  _ ← Start (Kord_Config c);
  mine ← plainly (lift (Args_Bool args "--mine"));
  _ ← (if (mine || dev : bool) then r ← tryTask startMining; stopAndReturn r else mret tt);
  _ ← (if (dev : bool) then r ← tryTask (plainly (onOthers (deployRegistry mc))); stopAndReturn r else mret tt);
  Wait cancelled.

Definition RunNode (args : Args) (cancelled : bool) (c : nodeConfig) (s : serviceConfig) : task process unit :=
  file ← plainly (lift (Args_String args "--config"));
  c ← plainly (lift (if bool_decide (file = []) then Ok c else readConfig file c));
  dir ← plainly (lift (Args_String args "--datadir"));
  c ← plainly (lift (setDataDir (makeTemp mc) (osTemp mc) args c));
  let rest :=
    c ← plainly (lift (setRootOption args c));
    c ← plainly (lift (setCors args c));
    c ← plainly (lift (setNetwork (ParseNode mc) args c));
    runStack args cancelled c s in
  dev ← plainly (lift (Args_Bool args "--dev"));
  if bool_decide (dir = []) && dev
  then _ ← makeTempDir (Node_DataDir c); deferTask (removeTempDir (Node_DataDir c)) rest
  else rest.

(** ** What the operations leave alone *)

(** The stack and the temporary directories are as they were. *)
Definition framed p p' : Prop := stk p' = stk p /\ tempDirs p' = tempDirs p.
#[local] Instance framed_po : PreOrder framed.
Proof. split; [by intros p|]. intros p1 p2 p3 [? ?] [? ?]. split; congruence. Qed.

Lemma onOthers_framed {A} (m : prog O A) p r p' :
  onOthers m p = (r, p') -> framed p p' /\ kordSvc p' = kordSvc p /\ sqlDrivers p' = sqlDrivers p.
Proof. unfold onOthers, zoom. destruct (m (others p)) as [r1 o]. by intros [= <- <-]. Qed.

Lemma plainly_inv {S A} (m : prog S A) s o s' :
  plainly m s = (o, s') -> exists r, o = Returns r /\ m s = (r, s').
Proof. unfold plainly. destruct (m s) as [r s1]. intros [= <- <-]. by exists r. Qed.

Lemma onService_framed {A} (m : prog Kservice A) p o p' : onService m p = (o, p') -> framed p p'.
Proof.
  unfold onService. destruct (kordSvc p) as [k|]; [|by intros [= _ <-]].
  destruct (m _) as [[a|x|msg] k']; try case_bool_decide; by intros [= _ <-].
Qed.

Lemma startService_framed cfg k p o p' : startService cfg k p = (o, p') -> framed p p'.
Proof. destruct k; [| |apply onService_framed]; intros (r & _ & H1)%plainly_inv; apply (onOthers_framed _ _ _ _ H1). Qed.

Lemma stopService_framed k p o p' : stopService k p = (o, p') -> framed p p'.
Proof. destruct k; [| |apply onService_framed]; intros (r & _ & H1)%plainly_inv; apply (onOthers_framed _ _ _ _ H1). Qed.

Lemma construct_framed k ks p r p' : construct k ks p = (r, p') -> framed p p'.
Proof.
  destruct k; [intros H1; apply (onOthers_framed _ _ _ _ H1)..|].
  unfold construct, New, NewDriver, throw, lift. unfold mbind, prog_bind.
  case_bool_decide; cbn; [|by intros [= _ <-]].
  destruct (kMkdir e); cbn; [|by intros [= _ <-]..].
  case_bool_decide; cbn; [by intros [= _ <-]|].
  destruct (kNewAPI e); cbn; by intros [= _ <-].
Qed.

(** A task that is bound to another, in one of its outcomes. *)
Lemma task_bind_inv {S A B} (m : task S A) (k : A -> task S B) s o s' :
  (x ← m; k x) s = (o, s') ->
  (exists a s1, m s = (Returns (Ok a), s1) /\ k a s1 = (o, s')) \/
  (exists r, m s = (r, s') /\ (forall a, r <> Returns (Ok a)) /\
     match r with Returns (Err x) => o = Returns (Err x) | Returns (Panic msg) => o = Returns (Panic msg)
                | Waits => o = Waits | _ => False end).
Proof.
  unfold mbind, task_bind. destruct (m s) as [[[a|x|msg]|] s1] eqn:E; intros Ho.
  - left. by exists a, s1.
  - right. injection Ho as <- <-. by eexists.
  - right. injection Ho as <- <-. by eexists.
  - right. injection Ho as <- <-. by eexists.
Qed.

Lemma tryTask_inv {S A} (m : task S A) s o s' :
  tryTask m s = (o, s') ->
  exists o1, m s = (o1, s') /\
    match o1 with Returns (Panic msg) => o = Returns (Panic msg) | Returns r => o = Returns (Ok r) | Waits => o = Waits end.
Proof.
  unfold tryTask. destruct (m s) as [[[a|x|msg]|] s1]; intros [= <- <-]; by eexists.
Qed.

(** The constructors, in order, are the services. *)
Lemma constructAll_spec funcs ks p o p' :
  constructAll funcs ks p = (o, p') ->
  framed p p' /\ forall cs, o = Returns (Ok cs) -> cs = ks ++ funcs /\ (NoDup ks -> NoDup cs).
Proof.
  revert ks p. induction funcs as [|k funcs IH]; intros ks p.
  - intros [= <- <-]. split; [reflexivity|]. intros cs [= <-]. by rewrite app_nil_r.
  - cbn [constructAll]. intros [(u & p1 & Hc & Hk)|(r & Hc & Hne & Hr)]%task_bind_inv;
      apply plainly_inv in Hc as (r1 & Er & Hc); apply construct_framed in Hc.
    2:{ split; [done|]. intros cs ->. destruct r as [[]|]; naive_solver. }
    case_bool_decide as Hin.
    + apply plainly_inv in Hk as (r2 & -> & Hk). injection Hk as <- <-. split; [done|]. by intros cs [=].
    + apply IH in Hk as [Hf Hcs]. split; [by transitivity p1|]. intros cs ->.
      destruct (Hcs cs eq_refl) as [-> Hnd]. rewrite <- app_assoc in *. split; [done|]. intros Hks.
      apply Hnd. apply NoDup_app. split_and!; [done|set_solver|apply NoDup_singleton].
Qed.

(** A call that returns without a panic. *)
Definition fine {A} (o : outcome A) : Prop :=
  match o with Returns (Ok _) | Returns (Err _) => True | _ => False end.

Lemma task_bind_fine {S A B} (m : task S A) (k : A -> task S B) s o s' :
  (x ← m; k x) s = (o, s') -> fine o ->
  (exists a s1, m s = (Returns (Ok a), s1) /\ k a s1 = (o, s')) \/
  (exists x, m s = (Returns (Err x), s') /\ o = Returns (Err x)).
Proof.
  intros [H1|(r & Hm & Hne & Hr)]%task_bind_inv Hf; [by left|right].
  destruct r as [[a|x|msg]|]; [by destruct (Hne a)|by exists x|by subst o..].
Qed.

Lemma tryTask_fine {S A} (m : task S A) s o s' :
  tryTask m s = (o, s') -> fine o -> exists r, o = Returns (Ok r) /\ m s = (Returns r, s') /\ fine (Returns r).
Proof.
  intros (o1 & Hm & Ho)%tryTask_inv Hf. destruct o1 as [[a|x|msg]|]; subst o; try done; by eexists.
Qed.

(** Stopping services takes them, and nothing else, off the list of those up. *)
Lemma stopAll_spec ks p o p' :
  stopAll ks p = (o, p') -> fine o ->
  (exists es, o = Returns (Ok es)) /\ tempDirs p' = tempDirs p /\
  stk p' = setUp (filter (fun k => k ∉ ks) (up (stk p))) (stk p).
Proof.
  revert p o p'. induction ks as [|k ks IH]; intros p o p'.
  - intros [= <- <-] _. split; [by eexists|]. split; [done|].
    rewrite list_filter_all by (apply Forall_forall; set_solver). by destruct (stk p).
  - cbn [stopAll]. intros H1 Hf. apply task_bind_fine in H1 as [(r & p1 & Ht & Hk)|(x & Ht & ->)]; [| |done].
    2:{ by apply tryTask_fine in Ht as (? & ? & _). }
    apply tryTask_fine in Ht as (r1 & _ & Ht & _); [|done]. apply stopService_framed in Ht as [Hs1 Ht1].
    assert (wentDown k p1 = (Returns (Ok tt), onStack (fun s => setUp (filter (fun x => x <> k) (up s)) s) p1)) as Hd
      by reflexivity.
    rewrite (task_bind_ok _ _ _ _ _ Hd) in Hk.
    apply task_bind_fine in Hk as [(es & p2 & Hall & Hret)|(x & Hall & ->)]; [| |done].
    2:{ by destruct (IH _ _ _ Hall) as ([es ?] & _). }
    destruct (IH _ _ _ Hall) as (_ & Ht2 & Hs2); [done|]. injection Hret as <- <-.
    split; [by eexists|]. split; [by rewrite Ht2|]. rewrite Hs2. cbn [stk onStack setStk]. rewrite Hs1.
    destruct (stk p) as [l f sv ss u q]. unfold setUp. cbn. f_equal.
    rewrite list_filter_filter. apply list_filter_iff. set_solver.
Qed.

Lemma startAll_spec cfg ks started p o p' :
  startAll cfg ks started p = (o, p') -> fine o -> up (stk p) = started ->
  tempDirs p' = tempDirs p /\
  match o with
  | Returns (Ok _) => stk p' = setUp (started ++ ks) (stk p)
  | _ => stk p' = setP2P false (setUp [] (stk p))
  end.
Proof.
  revert started p o p'. induction ks as [|k ks IH]; intros started p o p'.
  - intros [= <- <-] _ <-. rewrite app_nil_r. split; [done|]. by destruct (stk p).
  - cbn [startAll]. intros H1 Hf Hup. apply task_bind_fine in H1 as [(r & p1 & Ht & Hk)|(x & Ht & ->)]; [| |done].
    2:{ by apply tryTask_fine in Ht as (? & ? & _). }
    apply tryTask_fine in Ht as (r1 & [= <-] & Ht & Hr); [|done].
    apply startService_framed in Ht as [Hs1 Ht1]. destruct r as [[]|x|msg]; [| |done].
    + assert (wentUp k p1 = (Returns (Ok tt), onStack (fun s => setUp (up s ++ [k]) s) p1)) as Hd by reflexivity.
      rewrite (task_bind_ok _ _ _ _ _ Hd) in Hk.
      apply IH in Hk as [Ht2 Hs2]; [|done|by cbn; rewrite Hs1, Hup].
      rewrite Ht2. split; [done|]. revert Hs2. cbn [stk onStack setStk]. rewrite Hs1, <- app_assoc, Hup.
      by destruct (stk p), o as [[]|].
    + apply task_bind_fine in Hk as [(es & p2 & Hall & Hret)|(y & Hall & ->)]; [| |done].
      2:{ by apply stopAll_spec in Hall as ([? ?] & _). }
      apply stopAll_spec in Hall as (_ & Ht2 & Hs2); [|done]. injection Hret as <- <-.
      cbn [tempDirs stk onStack setStk]. rewrite Ht2, Hs2, Hs1, Hup. split; [done|].
      rewrite list_filter_none; [by destruct (stk p)|]. apply Forall_forall. naive_solver.
Qed.

(** *** The two states of a stack between calls *)

Definition idle (s : stack) : Prop :=
  lock s = false /\ server s = false /\ services s = [] /\ up s = [] /\ p2p s = false.
Definition active (s : stack) : Prop :=
  lock s = false /\ server s = true /\ Permutation (up s) (services s) /\ p2p s = true.

(** Maps are walked in some order. *)
Context (walks : forall ks, Permutation (startOrder e ks) ks /\ Permutation (undoOrder e ks) ks /\
                            Permutation (stopOrder e ks) ks).

Lemma filter_gone (ks l : list kind) : Permutation ks l -> filter (fun k => k ∉ ks) l = [].
Proof. intros HP. apply list_filter_none, Forall_forall. intros k Hk Hn. apply Hn. by rewrite HP. Qed.

Lemma withLock_fine {A} (m : task process A) p o p' :
  withLock m p = (o, p') -> fine o ->
  lock (stk p) = false /\
  exists p1, m (onStack (setLock true) p) = (o, p1) /\ p' = onStack (setLock false) p1.
Proof.
  unfold withLock, deferTask. destruct (lock (stk p)); [by intros [= <- _]|].
  destruct (m _) as [[r|] p1]; intros [= <- <-] Hf; [|done]. split; [done|]. by exists p1.
Qed.

Lemma withRLock_fine {A} (m : task process A) p o p' :
  withRLock m p = (o, p') -> fine o -> lock (stk p) = false /\ m p = (o, p').
Proof. unfold withRLock. destruct (lock (stk p)); [by intros [= <- _]|done]. Qed.

Lemma running_bind {B} (k : bool -> task process B) p : (b ← running; k b) p = k (server (stk p)) p.
Proof. reflexivity. Qed.

Lemma onOthers_bind {B} (m : prog O unit) (k : unit -> task process B) p o p' :
  (x ← plainly (onOthers m); k x) p = (o, p') -> fine o ->
  exists p1, framed p p1 /\ (k tt p1 = (o, p') \/ (p' = p1 /\ exists x, o = Returns (Err x))).
Proof.
  intros H1 Hf. apply task_bind_fine in H1 as [([] & p1 & Hm & Hk)|(x & Hm & ->)]; [| |done];
    apply plainly_inv in Hm as (r & _ & Hm); apply onOthers_framed in Hm as [Hfr _].
  - exists p1. by split; [|left].
  - exists p'. split; [done|]. right. split; [done|]. by exists x.
Qed.

(** The services are up and the server is set, or nothing is. *)
Lemma startServices_spec cfg ks p o p' :
  startServices cfg ks p = (o, p') -> fine o -> up (stk p) = [] ->
  tempDirs p' = tempDirs p /\
  stk p' = match o with
           | Returns (Ok _) => setServer true ks (setUp (startOrder e ks) (stk p))
           | _ => setP2P false (setUp [] (stk p))
           end.
Proof.
  intros H1 Hf Hup. unfold startServices in H1.
  apply task_bind_fine in H1 as [([] & p5 & Hst & H1)|(x & Hst & ->)]; [| |done];
    apply startAll_spec in Hst as [Ht5 Hs5]; try done.
  apply task_bind_fine in H1 as [(r & p6 & Hrpc & H1)|(x & Hrpc & ->)]; [| |done].
  2:{ by apply tryTask_fine in Hrpc as (? & ? & _). }
  apply tryTask_fine in Hrpc as (r1 & [= <-] & Hrpc & Hr); [|done].
  apply plainly_inv in Hrpc as (r2 & [= <-] & Hrpc). apply onOthers_framed in Hrpc as [[Hs6 Ht6] _].
  destruct r as [[]|x|msg]; [| |done].
  - injection H1 as <- <-. cbn [tempDirs stk onStack setStk]. by rewrite Ht6, Ht5, Hs6, Hs5.
  - apply task_bind_fine in H1 as [(es & p7 & Hall & Hret)|(y & Hall & ->)]; [| |done].
    2:{ by apply stopAll_spec in Hall as ([? ?] & _). }
    apply stopAll_spec in Hall as (_ & Ht7 & Hs7); [|done]. injection Hret as <- <-.
    cbn [tempDirs stk onStack setStk]. rewrite Ht7, Ht6, Ht5, Hs7, Hs6, Hs5. split; [done|].
    cbn [up setUp app]. by rewrite filter_gone by (by destruct (walks ks) as (-> & -> & _)).
Qed.

(** What [Start] does to a node that does not run: it runs, with a service for
    each constructor, or it is as it was, with nothing left running. *)
Lemma Start_idle cfg p o p' :
  idle (stk p) -> Start cfg p = (o, p') -> fine o ->
  tempDirs p' = tempDirs p /\ serviceFuncs (stk p') = serviceFuncs (stk p) /\
  match o with
  | Returns (Ok _) => active (stk p') /\ services (stk p') = serviceFuncs (stk p)
  | _ => stk p' = stk p
  end.
Proof.
  intros (Hl & Hsv & Hss & Hup & Hp2p) H1 Hf. apply withLock_fine in H1 as (_ & p1 & H1 & ->); [|done].
  rewrite running_bind in H1. cbn [stk onStack setStk setLock server] in H1. rewrite Hsv in H1.
  set (p0 := onStack (setLock true) p) in H1.
  assert (stk p0 = setLock true (stk p) /\ tempDirs p0 = tempDirs p) as [Hs0 Ht0] by done. clearbody p0.
  assert (forall q, framed p0 q -> forall x : process, x = q ->
    tempDirs (onStack (setLock false) x) = tempDirs p /\ stk (onStack (setLock false) x) = stk p) as Hsame.
  { intros q [Hq1 Hq2] x ->. cbn [tempDirs stk onStack setStk]. rewrite Hq2, Ht0, Hq1, Hs0.
    split; [done|]. destruct (stk p). simpl in *. by subst. }
  apply onOthers_bind in H1 as (p2 & Hf2 & [H1|[-> [x ->]]]); [| |done].
  2:{ destruct (Hsame p2 Hf2 _ eq_refl) as [-> ->]. done. }
  rewrite (task_bind_ok (plainly get) _ p2 p2 p2) in H1 by reflexivity.
  apply task_bind_fine in H1 as [(ks & p3 & Hc & H1)|(x & Hc & ->)]; [| |done];
    apply constructAll_spec in Hc as [Hf3 Hks].
  2:{ destruct (Hsame p1 ltac:(by transitivity p2) _ eq_refl) as [-> ->]. done. }
  destruct (Hks ks eq_refl) as [-> _]. cbn [app] in H1.
  assert (serviceFuncs (stk p2) = serviceFuncs (stk p)) as Efs by (destruct Hf2 as [-> _]; by rewrite Hs0).
  rewrite Efs in H1. assert (framed p0 p3) as Hf03 by (by transitivity p2).
  apply onOthers_bind in H1 as (p4 & Hf4 & [H1|[-> [x ->]]]); [| |done].
  2:{ destruct (Hsame p4 ltac:(by transitivity p3) _ eq_refl) as [-> ->]. done. }
  assert (framed p0 p4) as [Hs4 Ht4] by (by transitivity p3).
  rewrite (task_bind_ok _ _ p4 tt (onStack (setP2P true) p4)) in H1 by reflexivity.
  apply startServices_spec in H1 as [Ht5 Hs5]; [|done|cbn; rewrite Hs4, Hs0; exact Hup].
  cbn [tempDirs stk onStack setStk] in *. rewrite Ht5, Ht4, Ht0. split; [done|].
  destruct o as [[]|]; rewrite Hs5, Hs4, Hs0; destruct (walks (serviceFuncs (stk p))) as (Hw & _);
    destruct (stk p); simpl in *; subst; by split_and!.
Qed.

Lemma Stop_active p o p' :
  active (stk p) -> Stop p = (o, p') -> fine o ->
  tempDirs p' = tempDirs p /\ idle (stk p') /\ serviceFuncs (stk p') = serviceFuncs (stk p).
Proof.
  intros (Hl & Hsv & Hup & Hp2p) H1 Hf. apply withLock_fine in H1 as (_ & p1 & H1 & ->); [|done].
  rewrite running_bind in H1. cbn [stk onStack setStk setLock server] in H1. rewrite Hsv in H1. cbn [negb] in H1.
  rewrite (task_bind_ok (plainly get) _ _ _ _ eq_refl) in H1.
  apply task_bind_fine in H1 as [(es & p2 & Hall & H1)|(x & Hall & ->)]; [| |done].
  2:{ by apply stopAll_spec in Hall as ([? ?] & _). }
  apply stopAll_spec in Hall as (_ & Ht2 & Hs2); [|done].
  assert (p1 = onStack (setServer false []) (onStack (setP2P false) p2)) as ->.
  { destruct es; by injection H1. }
  cbn [tempDirs stk onStack setStk setLock services] in *. rewrite Ht2, Hs2. split; [done|]. split; [|done]. unfold idle.
  cbn [lock server services up p2p setLock setServer setP2P setUp]. rewrite filter_gone; [done|].
  rewrite Hup. by apply walks.
Qed.

(** *** Triples

    From a state with [P], a task that returns without a panic ends in a state
    with [Q] of its value, or in one with [E] when it returns an error. *)
Definition triple {A} (P : process -> Prop) (m : task process A) (Q : A -> process -> Prop) (E : process -> Prop) : Prop :=
  forall p o p', P p -> m p = (o, p') -> fine o ->
    match o with Returns (Ok a) => Q a p' | _ => E p' end.

Lemma triple_bind {A B} P (m : task process A) (k : A -> task process B) Q R' E :
  triple P m Q E -> (forall a, triple (Q a) (k a) R' E) -> triple P (m ≫= k) R' E.
Proof.
  intros Hm Hk p o p' HP H1 Hf.
  apply task_bind_fine in H1 as [(a & p1 & H1 & H2)|(x & H1 & ->)]; [| |done].
  - exact (Hk a p1 o p' (Hm _ _ _ HP H1 I) H2 Hf).
  - exact (Hm _ _ _ HP H1 I).
Qed.

Lemma triple_lift {A} P (r : result A) : triple P (plainly (lift r)) (fun _ => P) P.
Proof. intros p o p' HP [= <- <-] Hf. by destruct r. Qed.

Lemma triple_ret {A} P (a : A) E : triple P (mret a) (fun _ => P) E.
Proof. by intros p o p' HP [= <- <-] _. Qed.

Lemma triple_try {A} P (m : task process A) Q E E' :
  triple P m Q E ->
  triple P (tryTask m) (fun r p => match r with Ok a => Q a p | Err _ => E p | Panic _ => False end) E'.
Proof.
  intros Hm p o p' HP H1 Hf. apply tryTask_fine in H1 as (r & -> & H1 & Hr); [|done].
  specialize (Hm _ _ _ HP H1 Hr). by destruct r.
Qed.

Lemma triple_wrap {A} P what (m : task process A) Q E : triple P m Q E -> triple P (wrapTask what m) Q E.
Proof.
  intros Hm p o p' HP H1 Hf. unfold wrapTask in H1. destruct (m p) as [o1 p1] eqn:E1.
  specialize (Hm _ _ _ HP E1). destruct o1 as [[]|]; injection H1 as <- <-; by apply Hm.
Qed.

Lemma triple_weaken {A} P (m : task process A) Q Q' E :
  triple P m Q E -> (forall a p, Q a p -> Q' a p) -> triple P m Q' E.
Proof. intros Hm HQ p o p' HP H1 Hf. specialize (Hm _ _ _ HP H1 Hf). destruct o as [[]|]; auto. Qed.

Lemma triple_strengthen {A} (P P' : process -> Prop) (m : task process A) Q E :
  triple P m Q E -> (forall p, P' p -> P p) -> triple P' m Q E.
Proof. intros Hm HP p o p' HP' H1 Hf. exact (Hm p o p' (HP p HP') H1 Hf). Qed.

(** Reading a flag of the command line panics or returns it. *)
Lemma flag_triple P args name E : triple P (plainly (lift (Args_Bool args name))) (fun _ => P) E.
Proof.
  intros p o p' HP [= <- <-] Hf. unfold Args_Bool in *. by destruct (args !! name) as [[]|].
Qed.

(** The states of the command before the stack is started and after, and
    where it ends, with [T] the temporary directories. *)
Definition before (T : list bytes) p : Prop := idle (stk p) /\ tempDirs p = T.
Definition during (T : list bytes) p : Prop := active (stk p) /\ tempDirs p = T.

Lemma Register_triple T k : triple (before T) (Register k) (fun _ => before T) (before T).
Proof.
  intros p o p' [(Hl & Hsv & Hr) Ht] H1 Hf. apply withLock_fine in H1 as (_ & p1 & H1 & ->); [|done].
  rewrite running_bind in H1. cbn [stk onStack setStk setLock server] in H1. rewrite Hsv in H1.
  injection H1 as <- <-. by split.
Qed.

Lemma RegisterEth_triple T : triple (before T) RegisterEthService (fun _ => before T) (before T).
Proof.
  eapply triple_bind; [apply triple_try, Register_triple|]. intros [[]|x|m]; [apply triple_ret| |].
  - intros p o p' _ [= <- <-] Hf. done.
  - by intros p o p' [].
Qed.

Lemma Start_triple T cfg : triple (before T) (Start cfg) (fun _ => during T) (before T).
Proof.
  intros p o p' [Hi Ht] H1 Hf. destruct (Start_idle _ _ _ _ Hi H1 Hf) as (Ht' & _ & H2).
  unfold before, during. rewrite Ht'. destruct o as [[]|]; [by destruct H2|by rewrite H2|done..].
Qed.

Lemma Stop_triple T : triple (during T) Stop (fun _ => before T) (before T).
Proof.
  intros p o p' [Ha Ht] H1 Hf. destruct (Stop_active _ _ _ Ha H1 Hf) as (Ht' & Hi & _).
  unfold before. rewrite Ht'. by destruct o as [[]|].
Qed.

Lemma stopAndReturn_triple {A} T (r : result A) :
  triple (fun p => match r with Panic _ => False | _ => during T p end) (stopAndReturn r)
    (fun _ => during T) (before T).
Proof.
  destruct r as [a|x|m]; [apply triple_ret| |].
  - eapply triple_bind; [apply triple_try, Stop_triple|]. intros r p o p' HP [= <- <-] _.
    by destruct r.
  - by intros p o p' _ [= <- <-].
Qed.

Lemma startMining_triple T : triple (during T) startMining (fun _ => during T) (during T).
Proof.
  eapply (triple_bind _ _ _ (fun _ => during T)); [apply triple_wrap|intros []].
  - intros p o p' HP H1 Hf. apply withRLock_fine in H1 as [_ H1]; [|done]. rewrite running_bind in H1.
    destruct (server (stk p)); cbn [negb] in H1; [|by injection H1 as <- <-].
    apply plainly_inv in H1 as (r & -> & H1). unfold mbind, prog_bind, get, throw, lift in H1.
    case_bool_decide; injection H1 as <- <-; exact HP.
  - eapply triple_bind; [apply triple_wrap, triple_lift|intros a].
    eapply triple_bind; [apply triple_wrap, triple_lift|intros b]. apply triple_wrap, triple_lift.
Qed.

Lemma Wait_triple T b : triple (during T) (Wait b) (fun _ => before T) (before T).
Proof.
  intros p o p' HP H1 Hf. apply withRLock_fine in H1 as [_ H1]; [|done]. rewrite running_bind in H1.
  destruct HP as [Ha Ht]. pose proof Ha as (_ & Hsv & _). rewrite Hsv in H1. cbn [negb] in H1. destruct b; [|by injection H1 as <- <-].
  assert (triple (during T) (_ ← tryTask Stop; mret tt) (fun _ => before T) (before T)) as H2.
  { eapply triple_bind; [apply triple_try, Stop_triple|]. intros r q o1 q' Hq [= <- <-] _. by destruct r. }
  exact (H2 p o p' (conj Ha Ht) H1 Hf).
Qed.

Lemma deploy_triple T : triple (during T) (plainly (onOthers (deployRegistry mc))) (fun _ => during T) (during T).
Proof.
  intros p o p' [Ha Ht] (r & -> & H1)%plainly_inv _. apply onOthers_framed in H1 as [[Hs Ht'] _].
  unfold during. rewrite Hs, Ht'. by destruct r.
Qed.

Lemma runStack_triple T args cancelled c s :
  triple (before T) (runStack args cancelled c s) (fun _ => before T) (before T).
Proof.
  unfold runStack, registerSwarmService, registerKordService.
  eapply triple_bind; [apply triple_lift|intros ?]. eapply triple_bind; [apply triple_lift|intros dev].
  eapply (triple_bind _ _ _ (fun _ => before T)); [by destruct dev; [apply triple_lift|apply triple_ret]|intros s'].
  eapply triple_bind; [apply RegisterEth_triple|intros ?].
  eapply triple_bind.
  { eapply triple_bind; [apply triple_lift|intros path]. eapply triple_bind; [apply triple_lift|intros json].
    eapply triple_bind; [apply triple_lift|intros ?]. apply Register_triple. }
  intros ?. eapply triple_bind; [apply Register_triple|intros ?].
  eapply triple_bind; [apply Start_triple|intros ?].
  eapply triple_bind; [apply flag_triple|intros mine].
  eapply (triple_bind _ _ _ (fun _ => during T)).
  { destruct (_ || _); [|apply triple_ret].
    eapply triple_bind; [apply triple_try, startMining_triple|].
    intros r. eapply triple_strengthen; [apply stopAndReturn_triple|]. by intros p; destruct r. }
  intros ?. eapply (triple_bind _ _ _ (fun _ => during T)).
  { destruct dev; [|apply triple_ret].
    eapply triple_bind; [apply triple_try, deploy_triple|].
    intros r. eapply triple_strengthen; [apply stopAndReturn_triple|]. by intros p; destruct r. }
  intros ?. apply Wait_triple.
Qed.

Lemma removeTemp_triple T dir (m : task process unit) :
  dir ∉ T -> triple (before (dir :: T)) m (fun _ => before (dir :: T)) (before (dir :: T)) ->
  triple (before (dir :: T)) (deferTask (removeTempDir dir) m) (fun _ => before T) (before T).
Proof.
  intros Hn Hm p o p' HP H1 Hf. unfold deferTask in H1. destruct (m p) as [[r|] p1] eqn:E; [|by injection H1 as <- <-].
  injection H1 as <- <-. specialize (Hm p _ p1 HP E Hf).
  assert (forall q, before (dir :: T) q -> before T (removeTempDir dir q)) as Hq.
  { intros q [Hi Ht]. split; [done|]. cbn. rewrite Ht, filter_cons_False by (by intros []).
    apply list_filter_all, Forall_forall. by intros x Hx ->. }
  destruct r; by apply Hq.
Qed.

Lemma setDataDir_temp args c c' :
  setDataDir (makeTemp mc) (osTemp mc) args c = Ok c' -> Args_String args "--datadir" = Ok [] ->
  Args_Bool args "--dev" = Ok true -> makeTemp mc = Ok (Node_DataDir c').
Proof.
  unfold setDataDir. intros H1 Hd Hdev. rewrite Hd in H1. cbn [mbind result_bind] in H1.
  rewrite bool_decide_true in H1 by done. cbn [negb] in H1. rewrite Hdev in H1. cbn [mbind result_bind] in H1.
  destruct (makeTemp mc); [|done..]. cbn [mbind result_bind] in H1. by injection H1 as <-.
Qed.

Lemma lift_bind_inv {A B} (r : result A) (k : A -> task process B) p o p' :
  (x ← plainly (lift r); k x) p = (o, p') -> fine o ->
  (exists a, r = Ok a /\ k a p = (o, p')) \/ (p' = p /\ exists x, o = Returns (Err x)).
Proof.
  intros H1 Hf. apply task_bind_fine in H1 as [(a & p1 & H1 & H2)|(x & H1 & ->)]; [| |done];
    unfold plainly, lift in H1; injection H1 as Hr Hp.
  - left. exists a. by rewrite Hr, Hp.
  - right. split; [done|]. by exists x.
Qed.


(** ** When the command waits for ever, and when it does not *)

(** A task that returns, from any state and from one with a free lock; in both
    cases the lock ends as it was. *)
Definition always {A} (m : task process A) : Prop :=
  forall p, exists r p', m p = (Returns r, p') /\ lock (stk p') = lock (stk p).
Definition returning {A} (m : task process A) : Prop :=
  forall p, lock (stk p) = false -> exists r p', m p = (Returns r, p') /\ lock (stk p') = false.

Lemma always_returning {A} (m : task process A) : always m -> returning m.
Proof. intros Hm p Hp. destruct (Hm p) as (r & p' & E & Hl). exists r, p'. by rewrite Hl. Qed.

Lemma always_bind {A B} (m : task process A) (k : A -> task process B) :
  always m -> (forall a, always (k a)) -> always (m ≫= k).
Proof.
  intros Hm Hk p. destruct (Hm p) as (r & p1 & E & Hl). unfold mbind, task_bind. rewrite E.
  destruct r as [a|x|msg]; [|by eexists _, _..].
  destruct (Hk a p1) as (r & p2 & E2 & Hl2). exists r, p2. by rewrite Hl2.
Qed.

Lemma returning_bind {A B} (m : task process A) (k : A -> task process B) :
  returning m -> (forall a, returning (k a)) -> returning (m ≫= k).
Proof.
  intros Hm Hk p Hp. destruct (Hm p Hp) as (r & p1 & E & Hl). unfold mbind, task_bind. rewrite E.
  destruct r as [a|x|msg]; [|by eexists _, _..]. by apply Hk.
Qed.

Lemma always_try {A} (m : task process A) : always m -> always (tryTask m).
Proof.
  intros Hm p. destruct (Hm p) as (r & p1 & E & Hl). unfold tryTask. rewrite E.
  destruct r; by eexists _, _.
Qed.

Lemma returning_try {A} (m : task process A) : returning m -> returning (tryTask m).
Proof.
  intros Hm p Hp. destruct (Hm p Hp) as (r & p1 & E & Hl). unfold tryTask. rewrite E.
  destruct r; by eexists _, _.
Qed.

Lemma returning_wrap {A} what (m : task process A) : returning m -> returning (wrapTask what m).
Proof.
  intros Hm p Hp. destruct (Hm p Hp) as (r & p1 & E & Hl). unfold wrapTask. rewrite E.
  destruct r; by eexists _, _.
Qed.

Lemma always_plainly {A} (m : prog process A) :
  (forall p r p', m p = (r, p') -> lock (stk p') = lock (stk p)) -> always (plainly m).
Proof.
  intros Hm p. unfold plainly. destruct (m p) as [r p'] eqn:E. exists r, p'. split; [done|]. by eapply Hm.
Qed.

Lemma always_lift {A} (r : result A) : always (plainly (lift r)).
Proof. apply always_plainly. by intros p r1 p' [= _ <-]. Qed.

Lemma always_ret {A} (a : A) : always (mret a).
Proof. intros p. by eexists _, _. Qed.

Lemma always_others {A} (m : prog O A) : always (plainly (onOthers m)).
Proof. apply always_plainly. intros p r p' H1. by apply onOthers_framed in H1 as [[-> _] _]. Qed.

Lemma always_modify f : (forall s, lock (f s) = lock s) -> always (plainly (modify (onStack f))).
Proof. intros Hf. apply always_plainly. intros p r p' [= _ <-]. apply Hf. Qed.

Lemma always_get : always (plainly get).
Proof. apply always_plainly. by intros p r p' [= _ <-]. Qed.

Lemma always_running : always running.
Proof. apply always_plainly. by intros p r p' [= _ <-]. Qed.

Lemma always_throw {A} x : always (plainly (throw x) : task process A).
Proof. apply always_lift. Qed.

Lemma always_construct k ks : always (plainly (construct k ks)).
Proof. apply always_plainly. intros p r p' H1. by apply construct_framed in H1 as [-> _]. Qed.

Lemma withLock_returning {A} (m : task process A) : always m -> returning (withLock m).
Proof.
  intros Hm p Hp. unfold withLock, deferTask. rewrite Hp.
  destruct (Hm (onStack (setLock true) p)) as (r & p' & -> & _). by eexists _, _.
Qed.

Lemma withRLock_returning {A} (m : task process A) : returning m -> returning (withRLock m).
Proof. intros Hm p Hp. unfold withRLock. rewrite Hp. by apply Hm. Qed.

(** A method of the service that does not ask for the lock returns. *)
Lemma always_service {A} (m : prog Kservice A) :
  (forall k k', m k <> (Panic waitsForLock, k')) -> always (onService m).
Proof.
  intros Hm p. unfold onService. destruct (kordSvc p) as [k|]; [|by eexists _, _].
  specialize (Hm (lookAt (stk p) k)). destruct (m _) as [[a|x|msg] k']; [by eexists _, _..|].
  rewrite bool_decide_false; [by eexists _, _|]. intros ->. by destruct (Hm k').
Qed.

Ltac always_steps :=
  repeat first
    [ apply always_ret | apply always_lift | apply always_throw | apply always_others | apply always_get
    | apply always_running | apply always_construct | by apply always_modify | apply always_try
    | (apply always_bind; [|intros ?]) ].

(** The listener and the shutdown of the HTTP server return. *)
Definition httpReturns : Prop := kListen e <> Panic waitsForLock /\ kShutdown e <> Panic waitsForLock.

Section returns.
Context (http : httpReturns).

Lemma stopService_always k : always (stopService k).
Proof.
  destruct k; [apply always_others..|]. apply always_service. intros k k'. unfold StopKord.
  rewrite (bind_ok _ _ k k k) by reflexivity. destruct (srv k); [|done].
  unfold lift. intros [= Hs _]. by destruct http.
Qed.

Lemma startService_always cfg k : RootDapp cfg = [] -> always (startService cfg k).
Proof.
  intros Hr. destruct k; [apply always_others..|]. apply always_service. intros k k'. unfold Server.Start.
  rewrite bool_decide_true by done. rewrite (bind_ok _ _ k tt k) by reflexivity.
  unfold mbind, prog_bind, lift. destruct (kListen e) as [a|x|msg] eqn:E; [done..|].
  intros [= -> _]. by destruct http.
Qed.

Lemma stopAll_always ks : always (stopAll ks).
Proof.
  induction ks as [|k ks IH]; cbn [stopAll]; [apply always_ret|].
  apply always_bind; [apply always_try, stopService_always|intros r].
  apply always_bind; [by apply always_modify|intros ?]. apply always_bind; [apply IH|intros ?]. apply always_ret.
Qed.

Lemma startAll_always cfg ks started : RootDapp cfg = [] -> always (startAll cfg ks started).
Proof.
  intros Hr. revert started. induction ks as [|k ks IH]; intros started; cbn [startAll]; [apply always_ret|].
  apply always_bind; [by apply always_try, startService_always|intros [y|x|m]].
  - apply always_bind; [by apply always_modify|intros ?]. apply IH.
  - apply always_bind; [apply stopAll_always|intros ?]. always_steps.
  - apply always_bind; [by apply always_modify|intros ?]. apply IH.
Qed.

Lemma constructAll_always funcs ks : always (constructAll funcs ks).
Proof.
  revert ks. induction funcs as [|k funcs IH]; intros ks; cbn [constructAll]; [apply always_ret|].
  apply always_bind; [apply always_construct|intros ?]. case_bool_decide; [apply always_throw|apply IH].
Qed.

Lemma Start_returning cfg : RootDapp cfg = [] -> returning (Start cfg).
Proof.
  intros Hr. apply withLock_returning. apply always_bind; [apply always_running|intros b].
  destruct b; [apply always_throw|].
  apply always_bind; [apply always_others|intros ?]. apply always_bind; [apply always_get|intros q].
  apply always_bind; [apply constructAll_always|intros ks]. apply always_bind; [apply always_others|intros ?].
  apply always_bind; [by apply always_modify|intros ?].
  apply always_bind; [by apply startAll_always|intros ?].
  apply always_bind; [apply always_try, always_others|intros [y|x|m]]; [by apply always_modify| |by apply always_modify].
  apply always_bind; [apply stopAll_always|intros ?]. always_steps.
Qed.

Lemma Stop_returning : returning Stop.
Proof.
  apply withLock_returning. apply always_bind; [apply always_running|intros b].
  destruct b; cbn [negb]; [|apply always_throw]. apply always_bind; [apply always_get|intros q].
  apply always_bind; [apply stopAll_always|intros es]. always_steps. destruct es; always_steps.
Qed.

Lemma Register_returning k : returning (Register k).
Proof.
  apply withLock_returning. apply always_bind; [apply always_running|intros b]. destruct b; always_steps.
Qed.

Lemma Wait_returning : returning (Wait true).
Proof.
  apply withRLock_returning. apply returning_bind; [apply always_returning, always_running|intros b].
  destruct b; cbn [negb]; [|apply always_returning, always_ret].
  apply returning_bind; [apply returning_try, Stop_returning|intros ?]. apply always_returning, always_ret.
Qed.

Lemma startMining_returning : returning startMining.
Proof.
  repeat (apply returning_bind; [apply returning_wrap|intros ?]); try apply returning_wrap;
    try apply always_returning, always_lift.
  apply withRLock_returning, always_returning. apply always_bind; [apply always_running|intros b].
  destruct b; cbn [negb]; [|apply always_throw]. apply always_plainly. intros q r q'.
  unfold mbind, prog_bind, get. case_bool_decide; by intros [= _ <-].
Qed.

Lemma stopAndReturn_returning {A} (r : result A) : returning (stopAndReturn r).
Proof.
  destruct r as [a|x|m]; [apply always_returning, always_ret| |apply always_returning, always_lift].
  apply returning_bind; [apply returning_try, Stop_returning|intros ?]. apply always_returning, always_throw.
Qed.

Lemma runStack_returning args c s : RootDapp (Kord_Config c) = [] -> returning (runStack args true c s).
Proof.
  intros Hr. unfold runStack, registerSwarmService, RegisterEthService.
  assert (forall A (r : result A), returning (plainly (lift r))) as Hlift
    by (intros; apply always_returning, always_lift).
  apply returning_bind; [apply Hlift|intros ?]. apply returning_bind; [apply Hlift|intros dev].
  apply returning_bind; [destruct dev; [apply Hlift|apply always_returning, always_ret]|intros s'].
  apply returning_bind.
  { apply returning_bind; [apply returning_try, Register_returning|intros [y|x|m]]; apply always_returning; always_steps.
    all: apply always_lift. }
  intros ?. apply returning_bind; [repeat (apply returning_bind; [apply Hlift|intros ?]); apply Register_returning|].
  intros ?. apply returning_bind; [apply Register_returning|intros ?].
  apply returning_bind; [by apply Start_returning|intros ?]. apply returning_bind; [apply Hlift|intros mine].
  apply returning_bind.
  { destruct (_ || _); [|apply always_returning, always_ret].
    apply returning_bind; [apply returning_try, startMining_returning|intros r; apply stopAndReturn_returning]. }
  intros ?. apply returning_bind.
  { destruct dev; [|apply always_returning, always_ret].
    apply returning_bind; [apply returning_try, always_returning, always_others|intros r; apply stopAndReturn_returning]. }
  intros ?. apply Wait_returning.
Qed.
End returns.

(** *** The root dapp in the configuration *)

Lemma setDataDir_kord mt ot args c c' : setDataDir mt ot args c = Ok c' -> Kord_Config c' = Kord_Config c.
Proof.
  unfold setDataDir. intros (dir & _ & H1)%result_bind_ok_inv. destruct (negb _); [by injection H1 as <-|].
  apply result_bind_ok_inv in H1 as (dev & _ & H1). destruct dev; [|by injection H1 as <-].
  apply result_bind_ok_inv in H1 as (tmp & _ & H1). by injection H1 as <-.
Qed.

Lemma setCors_root args c c' : setCors args c = Ok c' -> RootDapp (Kord_Config c') = RootDapp (Kord_Config c).
Proof.
  unfold setCors. destruct (args !! _); [|by intros [= <-]].
  intros (ds & _ & H1)%result_bind_ok_inv. by injection H1 as <-.
Qed.

Lemma setNetwork_kord pn args c c' : setNetwork pn args c = Ok c' -> Kord_Config c' = Kord_Config c.
Proof.
  unfold setNetwork. intros (dev & _ & H1)%result_bind_ok_inv. apply result_bind_ok_inv in H1 as (tn & _ & H1).
  destruct (dev && tn); [done|]. destruct dev; [by injection H1 as <-|]. destruct tn; [|by injection H1 as <-].
  apply result_bind_ok_inv in H1 as (mine & _ & H1). destruct mine; [by injection H1 as <-|].
  apply result_bind_ok_inv in H1 as (ns & _ & H1). by injection H1 as <-.
Qed.

Lemma setRootOption_none args c c' :
  Args_String args "--root-dapp" = Ok [] -> setRootOption args c = Ok c' -> c' = c.
Proof. unfold setRootOption. intros -> H1. cbn [mbind result_bind] in H1. rewrite bool_decide_true in H1 by done. by injection H1. Qed.

Lemma returning_lift_bind {A B} (r : result A) (k : A -> task process B) :
  (forall a, r = Ok a -> returning (k a)) -> returning (plainly (lift r) ≫= k).
Proof.
  intros Hk p Hp. unfold mbind, task_bind, plainly, lift. destruct r as [a|x|m]; [by apply Hk|by eexists _, _..].
Qed.

Lemma returning_defer {A} (f : process -> process) (m : task process A) :
  (forall q, stk (f q) = stk q) -> returning m -> returning (deferTask f m).
Proof.
  intros Hf Hm q Hq. unfold deferTask. destruct (Hm q Hq) as (r & q' & -> & Hl). exists r, (f q'). by rewrite Hf.
Qed.


(** Everything that [RunNode] needs of the machine and of the other services
    works. *)
Record allWell : Prop := {
  wellNew : forall c, newNode mc c = Ok tt;
  wellImport : exists a, importKey mc = Ok a;
  wellFind : forall a, exists path, findKey mc a = Ok path;
  wellRead : forall path, exists json, readFile mc path = Ok json;
  wellDecrypt : forall json, decryptKey mc json [] = Ok tt;
  wellConstruct : forall k o, exists o', constructOther e k o = (Ok tt, o');
  wellStart : forall k o, exists o', startOther e k o = (Ok tt, o');
  wellDir : forall o, exists o', openDataDir e o = (Ok tt, o');
  wellP2P : forall o, exists o', startP2P e o = (Ok tt, o');
  wellMkdir : kMkdir e = Ok tt; wellAPI : kNewAPI e = Ok tt;
}.

Section waiting.
Context (well : allWell) (cfg : Config) (u : URI).
Context (cfg_root : RootDapp cfg <> []) (cfg_parse : Parse (RootDapp cfg) = Ok u).

(** A service that has not been asked for any graph yet. *)
Definition untouched (k : Kservice) : Prop :=
  opened (knode k) = ∅ /\ stores (knode k) = ∅ /\ Lazy.inner (reg (knode k)) = None.

Lemma others_well (m : prog O unit) p :
  (forall o, exists o', m o = (Ok tt, o')) ->
  exists p', plainly (onOthers m) p = (Returns (Ok tt), p') /\ framed p p' /\
    kordSvc p' = kordSvc p /\ sqlDrivers p' = sqlDrivers p.
Proof.
  intros Hm. unfold plainly, onOthers, zoom. destruct (Hm (others p)) as [o' ->]. eexists. by split.
Qed.

(** The first use of the registry attaches to the node, whose lock is held. *)
Lemma Get_waits name (n : node Lreg D) :
  opened n = ∅ -> stores n = ∅ -> Lazy.inner (reg n) = None -> vLock (Lazy.env (reg n)) = true ->
  exists n', Get name n = (Panic waitsForLock, n').
Proof.
  intros Ho Hs Hi Hl. unfold Get. rewrite (bind_ok _ _ n n n) by reflexivity.
  rewrite Hs, bool_decide_false by set_solver.
  unfold openDB. rewrite bind_assoc, (bind_ok _ _ n n n) by reflexivity.
  rewrite Ho, bool_decide_false by set_solver. cbv zeta.
  assert (exists r, zoom reg setReg (Registry.Graph (HexToAddress name)) n = (Panic waitsForLock, setReg r n)) as [r Hr].
  { unfold zoom, Registry.Graph, nodeRegistry, Lazy.lazyRegistry, Lazy.Graph, mbind, prog_bind, Lazy.registry.
    rewrite Hi. unfold connect, mbind, prog_bind, Attach. rewrite Hl. by eexists. }
  unfold mbind, prog_bind. rewrite Hr. by eexists.
Qed.

(** So does the start of the service, which needs the graph of the dapp. *)
Lemma Kord_waits k p :
  kordSvc p = Some k -> untouched k -> lock (stk p) = true ->
  exists p', startService cfg Kord p = (Waits, p') /\ framed p p'.
Proof.
  intros Hk (Ho & Hs & Hi) Hl. cbn [startService]. unfold onService. rewrite Hk.
  assert (exists k', Server.Start iteration cfg (kListen e) (lookAt (stk p) k) = (Panic waitsForLock, k')) as [k' E].
  { destruct (Get_waits (Address_Hex (ID u)) (knode (lookAt (stk p) k)) Ho Hs Hi Hl) as [n' Hn].
    unfold Server.Start, setRootDapp. rewrite bool_decide_false by done. rewrite bind_assoc.
    rewrite (bind_ok _ _ (lookAt (stk p) k) u (lookAt (stk p) k)) by (unfold lift; by rewrite cfg_parse).
    cbv zeta. rewrite bind_assoc. unfold mbind at 1, prog_bind at 1, onKNode at 1, zoom. rewrite Hn. by eexists. }
  rewrite E, bool_decide_true by done. eexists. by split.
Qed.
Lemma startAll_waits k ks started p :
  Kord ∈ ks -> kordSvc p = Some k -> untouched k -> lock (stk p) = true ->
  exists p', startAll cfg ks started p = (Waits, p') /\ lock (stk p') = true.
Proof.
  revert started p. induction ks as [|x ks IH]; intros started p Hin Hk Hu Hl; [set_solver|]. cbn [startAll].
  destruct (decide (x = Kord)) as [->|Hx].
  - destruct (Kord_waits k p Hk Hu Hl) as (p' & E & [Hs _]). exists p'.
    split; [|by rewrite Hs]. apply task_bind_waits. unfold tryTask. by rewrite E.
  - destruct (others_well (startOther e x) p (wellStart well x)) as (p1 & E & [Hs _] & Hk1 & _).
    assert (tryTask (startService cfg x) p = (Returns (Ok (Ok tt)), p1)) as Et
      by (unfold tryTask; destruct x; cbn [startService]; [by rewrite E..|done]).
    rewrite (task_bind_ok _ _ _ _ _ Et). cbv beta match.
    rewrite (task_bind_ok _ _ p1 tt (onStack (fun s => setUp (up s ++ [x]) s) p1)) by reflexivity.
    apply IH; [set_solver|by cbn; rewrite Hk1|done|cbn; by rewrite Hs].
Qed.

(** The KORD service is constructed when Swarm is and no driver is registered. *)
Lemma New_well ks p :
  Swarm ∈ ks -> drvName ∉ sqlDrivers p ->
  exists p' k, plainly (construct Kord ks) p = (Returns (Ok tt), p') /\ framed p p' /\
    kordSvc p' = Some k /\ untouched k.
Proof.
  intros Hs Hd. unfold plainly, construct, New. rewrite bool_decide_true by done.
  rewrite (bind_ok _ _ p tt p) by reflexivity. rewrite (wellMkdir well).
  rewrite (bind_ok _ _ p tt p) by reflexivity.
  rewrite (bind_ok _ _ p tt (setDrivers ({[drvName]} ∪ sqlDrivers p) p))
    by (unfold NewDriver; by rewrite bool_decide_false).
  rewrite (wellAPI well). eexists _, _. split; [reflexivity|]. split; [done|]. split; [done|]. done.
Qed.

Lemma constructAll_three p :
  drvName ∉ sqlDrivers p ->
  exists p' k, constructAll [Ethereum; Swarm; Kord] [] p = (Returns (Ok [Ethereum; Swarm; Kord]), p') /\
    framed p p' /\ kordSvc p' = Some k /\ untouched k.
Proof.
  intros Hd. cbn [constructAll].
  destruct (others_well (constructOther e Ethereum) p (wellConstruct well Ethereum)) as (p1 & E1 & F1 & _ & D1).
  change (construct Ethereum []) with (onOthers (constructOther e Ethereum)).
  rewrite (task_bind_ok _ _ _ _ _ E1). rewrite bool_decide_false by set_solver. cbn [app].
  destruct (others_well (constructOther e Swarm) p1 (wellConstruct well Swarm)) as (p2 & E2 & F2 & _ & D2).
  change (construct Swarm [Ethereum]) with (onOthers (constructOther e Swarm)).
  rewrite (task_bind_ok _ _ _ _ _ E2). rewrite bool_decide_false by set_solver. cbn [app].
  destruct (New_well [Ethereum; Swarm] p2) as (p3 & k & E3 & F3 & Hk & Hu); [set_solver|by rewrite D2, D1|].
  rewrite (task_bind_ok _ _ _ _ _ E3). rewrite bool_decide_false by set_solver. cbn [app].
  exists p3, k. split_and!; try done. transitivity p2; [by transitivity p1|done].
Qed.

Lemma Start_waits p :
  lock (stk p) = false -> server (stk p) = false -> serviceFuncs (stk p) = [Ethereum; Swarm; Kord] ->
  drvName ∉ sqlDrivers p -> exists p', Start cfg p = (Waits, p') /\ lock (stk p') = true.
Proof.
  intros Hl Hsv Hfs Hd. unfold Start, withLock, deferTask. rewrite Hl. rewrite running_bind.
  set (p0 := onStack (setLock true) p).
  assert (stk p0 = setLock true (stk p) /\ sqlDrivers p0 = sqlDrivers p) as [Hs0 Hd0] by done. clearbody p0.
  rewrite Hs0. cbn [server setLock]. rewrite Hsv.
  destruct (others_well (openDataDir e) p0 (wellDir well)) as (p1 & E1 & [Hs1 _] & _ & D1).
  rewrite (task_bind_ok _ _ _ _ _ E1).
  rewrite (task_bind_ok (plainly get) _ p1 p1 p1) by reflexivity. rewrite Hs1, Hs0.
  cbn [serviceFuncs setLock]. rewrite Hfs.
  destruct (constructAll_three p1) as (p2 & k & E2 & [Hs2 _] & Hk2 & Hu); [by rewrite D1, Hd0|].
  rewrite (task_bind_ok _ _ _ _ _ E2).
  destruct (others_well (startP2P e) p2 (wellP2P well)) as (p3 & E3 & [Hs3 _] & Hk3 & _).
  rewrite (task_bind_ok _ _ _ _ _ E3).
  rewrite (task_bind_ok _ _ p3 tt (onStack (setP2P true) p3)) by reflexivity.
  destruct (startAll_waits k (startOrder e [Ethereum; Swarm; Kord]) [] (onStack (setP2P true) p3))
    as (p4 & E4 & Hl4); [|by cbn; rewrite Hk3|done|cbn; by rewrite Hs3, Hs2, Hs1, Hs0|].
  { rewrite (proj1 (walks _)). set_solver. }
  unfold startServices. rewrite (task_bind_waits _ _ _ _ E4). by exists p4.
Qed.
Lemma Register_ok k p :
  lock (stk p) = false -> server (stk p) = false ->
  exists p', Register k p = (Returns (Ok tt), p') /\ stk p' = addFunc k (stk p) /\ sqlDrivers p' = sqlDrivers p.
Proof.
  intros Hl Hs. unfold Register, withLock, deferTask. rewrite Hl, running_bind.
  cbn [stk onStack setStk setLock server]. rewrite Hs. eexists. split; [reflexivity|]. split; [|done].
  cbn. rewrite <- Hl. by destruct (stk p).
Qed.

Lemma runStack_waits args c s p dev :
  Args_Bool args "--dev" = Ok dev -> Kord_Config c = cfg ->
  lock (stk p) = false -> server (stk p) = false -> serviceFuncs (stk p) = [] -> drvName ∉ sqlDrivers p ->
  forall cancelled, exists p', runStack args cancelled c s p = (Waits, p') /\ lock (stk p') = true.
Proof.
  intros Hdev Hcfg Hl Hs Hfs Hd cancelled. unfold runStack. rewrite (wellNew well), Hdev.
  rewrite (task_bind_ok _ _ p tt p) by reflexivity. rewrite (task_bind_ok _ _ p dev p) by reflexivity.
  assert (exists s', (if dev then plainly (lift (setupDevAccount s)) else mret s) p = (Returns (Ok s'), p)) as [s' E].
  { destruct dev; [|by eexists]. destruct (wellImport well) as [a Ha]. unfold setupDevAccount. rewrite Ha. by eexists. }
  rewrite (task_bind_ok _ _ _ _ _ E).
  destruct (Register_ok Ethereum p Hl Hs) as (p1 & E1 & Hs1 & Hd1).
  rewrite (task_bind_ok RegisterEthService _ p tt p1)
    by (unfold RegisterEthService; by rewrite (task_bind_ok _ _ p (Ok tt) p1) by (unfold tryTask; by rewrite E1)).
  destruct (Register_ok Swarm p1) as (p2 & E2 & Hs2 & Hd2); [by rewrite Hs1..|].
  rewrite (task_bind_ok (registerSwarmService s') _ p1 tt p2).
  2:{ unfold registerSwarmService. destruct (wellFind well (HexToAddress (BzzAccount s'))) as [path Hp]. rewrite Hp.
      rewrite (task_bind_ok _ _ p1 path p1) by reflexivity. destruct (wellRead well path) as [json Hj]. rewrite Hj.
      rewrite (task_bind_ok _ _ p1 json p1) by reflexivity. rewrite (wellDecrypt well).
      by rewrite (task_bind_ok _ _ p1 tt p1) by reflexivity. }
  destruct (Register_ok Kord p2) as (p3 & E3 & Hs3 & Hd3); [by rewrite Hs2, Hs1..|].
  rewrite (task_bind_ok registerKordService _ p2 tt p3 E3).
  destruct (Start_waits p3) as (p4 & E4 & Hl4).
  1-3: rewrite Hs3, Hs2, Hs1; cbn; by rewrite ?Hfs.
  1: by rewrite Hd3, Hd2, Hd1.
  rewrite Hcfg, (task_bind_waits _ _ _ _ E4). by exists p4.
Qed.
End waiting.

(** [kord node --root-dapp] hangs before it serves anything: with a URI
    that parses, and everything else on the machine in order, the command
    neither returns nor finishes starting.  [Node.Start] holds the node's
    lock while the services start, in whatever order; the KORD service asks
    the registry for the dapp's graph; the registry, used for the first time,
    attaches to the node, which waits for that lock.  It is held for ever:
    the node cannot be stopped, asked for a service or waited for, and
    cancelling the context makes no difference. *)
Theorem RunNode_root_dapp_waits (args : Args) (cancelled dev : bool) (c c' : nodeConfig) (s : serviceConfig)
    (u : URI) p :
  allWell ->
  configure (makeTemp mc) (osTemp mc) readConfig (ParseNode mc) args c = Ok c' ->
  Args_Bool args "--dev" = Ok dev ->
  RootDapp (Kord_Config c') <> [] -> Parse (RootDapp (Kord_Config c')) = Ok u ->
  idle (stk p) -> serviceFuncs (stk p) = [] -> drvName ∉ sqlDrivers p ->
  exists p', RunNode args cancelled c s p = (Waits, p') /\ lock (stk p') = true /\
    Stop p' = (Waits, p') /\ Wait cancelled p' = (Waits, p') /\ forall k, Service k p' = (Waits, p').
Proof.
  intros Hwell Hconf Hdev Hroot Hparse (Hl & Hsv & _) Hfs Hd. unfold configure in Hconf.
  assert (exists p', RunNode args cancelled c s p = (Waits, p') /\ lock (stk p') = true) as (p' & E & Hl').
  2:{ exists p'. split; [exact E|]. split; [exact Hl'|].
      unfold Stop, Wait, Service, withLock, withRLock. by rewrite Hl'. }
  apply result_bind_ok_inv in Hconf as (file & H1 & Hconf). apply result_bind_ok_inv in Hconf as (c1 & H2 & Hconf).
  apply result_bind_ok_inv in Hconf as (c2 & H3 & Hconf). apply result_bind_ok_inv in Hconf as (c3 & H4 & Hconf).
  apply result_bind_ok_inv in Hconf as (c4 & H5 & H6).
  assert (exists dir, Args_String args "--datadir" = Ok dir) as [dir Hdir].
  { unfold setDataDir in H3. apply result_bind_ok_inv in H3 as (dir & ? & _). by exists dir. }
  unfold RunNode. rewrite H1, (task_bind_ok _ _ p file p) by reflexivity.
  rewrite H2, (task_bind_ok _ _ p c1 p) by reflexivity. rewrite Hdir, (task_bind_ok _ _ p dir p) by reflexivity.
  rewrite H3, (task_bind_ok _ _ p c2 p) by reflexivity. cbv zeta.
  rewrite Hdev, (task_bind_ok _ _ p dev p) by reflexivity.
  assert (forall q, lock (stk q) = false -> server (stk q) = false -> serviceFuncs (stk q) = [] ->
    drvName ∉ sqlDrivers q -> exists q',
    (c ← plainly (lift (setRootOption args c2)); c ← plainly (lift (setCors args c));
     c ← plainly (lift (setNetwork (ParseNode mc) args c)); runStack args cancelled c s) q = (Waits, q') /\
    lock (stk q') = true) as Hrest.
  { intros q Hq1 Hq2 Hq3 Hq4. rewrite H4, (task_bind_ok _ _ q c3 q) by reflexivity.
    rewrite H5, (task_bind_ok _ _ q c4 q) by reflexivity. rewrite H6, (task_bind_ok _ _ q c' q) by reflexivity.
    by apply (runStack_waits Hwell (Kord_Config c') u Hroot Hparse args c' s q dev). }
  destruct (_ && _); [|by apply Hrest].
  rewrite (task_bind_ok _ _ p tt (setTempDirs (Node_DataDir c2 :: tempDirs p) p)) by reflexivity.
  unfold deferTask. destruct (Hrest (setTempDirs (Node_DataDir c2 :: tempDirs p) p)) as (q' & -> & Hq); [done..|].
  by exists q'.
Qed.
(** ** Starting a node again *)

(** The database drivers that are registered are never unregistered. *)
Definition grows {A} (m : task process A) : Prop := forall p o p', m p = (o, p') -> sqlDrivers p ⊆ sqlDrivers p'.

Lemma grows_bind {A B} (m : task process A) (k : A -> task process B) :
  grows m -> (forall a, grows (k a)) -> grows (m ≫= k).
Proof.
  intros Hm Hk p o p' [(a & p1 & E & H1)|(r & E & _)]%task_bind_inv; [|by eapply Hm].
  etransitivity; [by eapply Hm|by eapply Hk].
Qed.

Lemma grows_plainly {A} (m : prog process A) :
  (forall p, sqlDrivers p ⊆ sqlDrivers (snd (m p))) -> grows (plainly m).
Proof. intros Hm p o p' (r & _ & E)%plainly_inv. specialize (Hm p). by rewrite E in Hm. Qed.

Lemma grows_others {A} (m : prog O A) : grows (plainly (onOthers m)).
Proof. intros p o p' (r & _ & E)%plainly_inv. by apply onOthers_framed in E as (_ & _ & ->). Qed.

Lemma grows_service {A} (m : prog Kservice A) : grows (onService m).
Proof.
  intros p o p'. unfold onService. destruct (kordSvc p) as [k|]; [|by intros [= _ <-]].
  destruct (m _) as [[a|x|msg] k']; try case_bool_decide; by intros [= _ <-].
Qed.

Lemma grows_try {A} (m : task process A) : grows m -> grows (tryTask m).
Proof. intros Hm p o p' (o1 & E & _)%tryTask_inv. by eapply Hm. Qed.

Lemma grows_lock {A} (m : task process A) : grows m -> grows (withLock m).
Proof.
  intros Hm p o p'. unfold withLock, deferTask. destruct (lock (stk p)); [by intros [= _ <-]|].
  destruct (m _) as [[r|] p1] eqn:E; intros [= _ <-]; by apply Hm in E.
Qed.

Lemma grows_ret {A} (a : A) : grows (mret a).
Proof. by intros p o p' [= _ <-]. Qed.

Lemma grows_construct k ks : grows (plainly (construct k ks)).
Proof.
  destruct k; [apply grows_others..|]. apply grows_plainly. intros p.
  unfold construct, New, NewDriver, throw, lift. unfold mbind, prog_bind.
  case_bool_decide; cbn; [|done]. destruct (kMkdir e); cbn; [|done..].
  case_bool_decide; cbn; [done|]. destruct (kNewAPI e); cbn; set_solver.
Qed.

(** Tasks whose steps are known to grow. *)
Ltac grows_steps :=
  repeat first
    [ apply grows_ret | apply grows_others | apply grows_service | apply grows_construct | by apply grows_plainly
    | assumption | apply grows_try | (apply grows_bind; [|intros ?])
    | match goal with
      | |- grows (match ?x with _ => _ end) => destruct x
      | |- grows (startService _ ?k) => destruct k
      | |- grows (stopService ?k) => destruct k
      end ].

Lemma grows_stopAll ks : grows (stopAll ks).
Proof. induction ks as [|k ks IH]; cbn [stopAll]; grows_steps. Qed.

Lemma grows_startAll cfg ks started : grows (startAll cfg ks started).
Proof.
  revert started. induction ks as [|k ks IH]; intros started; cbn [startAll]; grows_steps;
    first [apply IH | apply grows_stopAll].
Qed.

Lemma grows_startServices cfg ks : grows (startServices cfg ks).
Proof. unfold startServices. grows_steps; first [apply grows_startAll | apply grows_stopAll]. Qed.

Lemma grows_Stop : grows Stop.
Proof. apply grows_lock. unfold running. grows_steps. apply grows_stopAll. Qed.

(** Constructing the services registers the driver, and needs it to be free. *)
Lemma constructAll_driver funcs ks p cs p' :
  constructAll funcs ks p = (Returns (Ok cs), p') -> Kord ∈ funcs ->
  (drvName ∉ sqlDrivers p) /\ drvName ∈ sqlDrivers p'.
Proof.
  assert (forall fs l, grows (constructAll fs l)) as Hg.
  { induction fs as [|k fs IH]; intros l; cbn [constructAll]; grows_steps. apply IH. }
  revert ks p. induction funcs as [|k funcs IH]; intros ks p H1 Hin; [set_solver|]. cbn [constructAll] in H1.
  apply task_bind_fine in H1 as [([] & p1 & Hc & H1)|(x & _ & ?)]; [|done..].
  case_bool_decide; [by apply plainly_inv in H1 as (? & [= <-] & ?)|]. destruct (decide (k = Kord)) as [->|Hk].
  - apply plainly_inv in Hc as (r & [= <-] & Hc). apply Hg in H1. revert Hc.
    unfold construct, New, NewDriver, throw, lift. unfold mbind, prog_bind.
    case_bool_decide; cbn; [|done]. destruct (kMkdir e); cbn; [|done..].
    case_bool_decide; cbn; [done|]. destruct (kNewAPI e); cbn; [|done..].
    intros [= <-]. cbn in H1. set_solver.
  - destruct (IH _ _ H1) as [Hn Hy]; [set_solver|]. split; [|exact Hy].
    apply grows_construct in Hc. set_solver.
Qed.

(** When the driver is registered already, constructing the services that
    have been constructed before panics. *)
Lemma constructAll_again funcs ks p cs p' q :
  allWell -> constructAll funcs ks p = (Returns (Ok cs), p') -> Kord ∈ funcs -> drvName ∈ sqlDrivers q ->
  exists q', constructAll funcs ks q = (Returns (Panic "sql: Register called twice for driver kord"), q').
Proof.
  intros Hwell. revert ks p q. induction funcs as [|k funcs IH]; intros ks p q H1 Hin Hq; [set_solver|].
  cbn [constructAll] in H1 |- *. apply task_bind_fine in H1 as [([] & p1 & Hc & H1)|(x & _ & ?)]; [|done..].
  case_bool_decide as Hks; [by apply plainly_inv in H1 as (? & [= <-] & ?)|]. destruct (decide (k = Kord)) as [->|Hk].
  - apply plainly_inv in Hc as (r & [= <-] & Hc). exists q. unfold mbind at 1, task_bind, plainly.
    assert (construct Kord ks q = (Panic "sql: Register called twice for driver kord", q)) as ->; [|done].
    revert Hc. unfold construct, New, throw, lift. unfold mbind, prog_bind.
    case_bool_decide; cbn; [|done]. intros _. rewrite (wellMkdir Hwell). unfold NewDriver. by rewrite bool_decide_true.
  - destruct (others_well (constructOther e k) q (wellConstruct Hwell k)) as (q1 & E & _ & _ & Dq).
    assert (plainly (construct k ks) q = (Returns (Ok tt), q1)) as E' by (by destruct k).
    rewrite (task_bind_ok _ _ _ _ _ E'). eapply IH; [exact H1|set_solver|by rewrite Dq].
Qed.

(** [Start] of a node that does not run, up to the services. *)
Lemma Start_unfold cfg p :
  lock (stk p) = false -> server (stk p) = false ->
  Start cfg p = deferTask (onStack (setLock false))
    (_ ← plainly (onOthers (openDataDir e));
     q ← plainly get;
     ks ← constructAll (serviceFuncs (stk q)) [];
     _ ← plainly (onOthers (startP2P e));
     _ ← plainly (modify (onStack (setP2P true)));
     startServices cfg ks) (onStack (setLock true) p).
Proof.
  intros Hl Hs. unfold Start, withLock. rewrite Hl. unfold deferTask. rewrite running_bind.
  cbn [stk onStack setStk setLock server]. by rewrite Hs.
Qed.

(** A start that succeeds has constructed every service. *)
Lemma Start_constructed cfg p p' :
  idle (stk p) -> Start cfg p = (Returns (Ok tt), p') ->
  exists p1 cs p2, constructAll (serviceFuncs (stk p)) [] p1 = (Returns (Ok cs), p2) /\
    sqlDrivers p1 = sqlDrivers p /\ sqlDrivers p2 ⊆ sqlDrivers p'.
Proof.
  intros (Hl & Hs & _) H1. rewrite Start_unfold in H1 by done. unfold deferTask in H1.
  destruct ((_ ← plainly (onOthers (openDataDir e)); _) _) as [[r|] pe] eqn:E; [|discriminate]. injection H1 as -> <-.
  apply task_bind_fine in E as [([] & p1 & H1 & E)|(x & _ & ?)]; [|done..].
  apply plainly_inv in H1 as (r & _ & H1). apply onOthers_framed in H1 as ([Hs1 _] & _ & Hd1).
  rewrite (task_bind_ok (plainly get) _ p1 p1 p1) in E by reflexivity. rewrite Hs1 in E.
  apply task_bind_fine in E as [(cs & p2 & Hc & E)|(x & _ & ?)]; [|done..].
  exists p1, cs, p2. split; [exact Hc|]. split; [by rewrite Hd1|]. cbn [sqlDrivers onStack setStk].
  revert E. apply grows_bind; [apply grows_others|intros ?].
  apply grows_bind; [by apply grows_plainly|intros ?]. apply grows_startServices.
Qed.

(** A node that has been stopped cannot be started again in its process:
    the second start never succeeds, whatever the configuration; and when
    everything else on the machine is in order it panics, for [db.NewDriver]
    registers the fixed name [kord] with [database/sql] once more. *)
Theorem restart_panics (cfg cfg' : Config) p p1 o2 p2 o3 p3 :
  idle (stk p) -> Kord ∈ serviceFuncs (stk p) ->
  Start cfg p = (Returns (Ok tt), p1) -> Stop p1 = (o2, p2) -> fine o2 -> Start cfg' p2 = (o3, p3) ->
  o3 <> Returns (Ok tt) /\
  (allWell -> o3 = Returns (Panic "sql: Register called twice for driver kord")).
Proof.
  intros Hi Hin Hst Hstop Hf Hagain.
  destruct (Start_idle _ _ _ _ Hi Hst I) as (_ & Hfs & Ha & _).
  destruct (Stop_active _ _ _ Ha Hstop Hf) as (_ & Hi2 & Hfs2).
  destruct (Start_constructed _ _ _ Hi Hst) as (q1 & cs & q2 & Hc & _ & Hsub).
  destruct (constructAll_driver _ _ _ _ _ Hc Hin) as [_ Hd].
  assert (drvName ∈ sqlDrivers p2) as Hd2 by (apply grows_Stop in Hstop; set_solver).
  rewrite <- Hfs, <- Hfs2 in Hc, Hin. split.
  - intros ->. destruct (Start_constructed _ _ _ Hi2 Hagain) as (q3 & cs3 & q4 & Hc3 & Hd3 & _).
    destruct (constructAll_driver _ _ _ _ _ Hc3 Hin) as [Hn _]. by rewrite Hd3 in Hn.
  - intros Hwell. destruct Hi2 as (Hl & Hs & _). rewrite Start_unfold in Hagain by done. revert Hagain.
    destruct (others_well (openDataDir e) (onStack (setLock true) p2) (wellDir Hwell)) as (q & E & [Hq _] & _ & Dq).
    unfold deferTask. rewrite (task_bind_ok _ _ _ _ _ E), (task_bind_ok (plainly get) _ q q q) by reflexivity.
    rewrite Hq. cbn [serviceFuncs stk onStack setStk setLock].
    destruct (constructAll_again _ _ _ _ _ q Hwell Hc Hin) as [q' E']; [by rewrite Dq|].
    unfold mbind at 1, task_bind. rewrite E'. by intros [= <- _].
Qed.
End node.

(** ** Witnesses *)

Section witnesses.
Import Toy SmallStore Digits.

Abbreviation aProcess := (process (R := Test.registry) (N := unit) (D := list bytes) (O := unit)).

(** Services that work, walked in the order they were registered; the
    peer-to-peer server does as it is told. *)
Definition works : prog unit unit := mret tt.
Definition quiet (p2pStart : prog unit unit) : environment :=
  {| constructOther _ := works; startOther _ := works; stopOther _ := works; openDataDir := works;
     startP2P := p2pStart; startRPC := works; kMkdir := Ok tt; kNewAPI := Ok tt;
     kListen := Ok ("127.0.0.1:5000" : bytes); kShutdown := Ok tt;
     startOrder := id; undoOrder := id; stopOrder := id |}.
Definition tidy : machine (O := unit) :=
  {| makeTemp := Ok ("/tmp/kord-datadir" : bytes); osTemp := "/tmp"; openConfig _ := Ok []; decodeTOML _ c := Ok c; ParseNode n := Ok n;
     newNode _ := Ok tt; importKey := Ok owner; findKey _ := Ok ("key.json" : bytes);
     readFile _ := Ok ("{}" : bytes); decryptKey _ _ := Ok tt; etherbase := Ok owner; unlock _ _ := Ok tt;
     startMiner := Ok tt; deployRegistry := mret owner |}.
Definition freshProcess : aProcess :=
  {| stk := NewStack; kordSvc := None; others := tt; sqlDrivers := ∅; tempDirs := []; disk := noFiles;
     storage := []; net := tt |}.
Definition noClient : prog unit Test.registry := mret Test.NewTestRegistry.

Definition nodeFlags (dev : bool) (root : argument) : Args :=
  words [("--config" : bytes, ANil); ("--datadir" : bytes, if dev then ANil else AString "data");
         ("--dev" : bytes, ABool dev); ("--root-dapp" : bytes, root); ("--cors-domain" : bytes, AList []);
         ("--testnet" : bytes, ABool false); ("--mine" : bytes, ABool false)].
Definition noService : serviceConfig := {| BzzAccount := []; DeveloperGenesis := None; GasPrice := None |}.

Lemma quiet_walks m ks :
  Permutation (startOrder (quiet m) ks) ks /\ Permutation (undoOrder (quiet m) ks) ks /\
  Permutation (stopOrder (quiet m) ks) ks.
Proof. by split_and!. Qed.

(** A developer's node whose peer-to-peer server cannot start. *)
Definition portTaken : prog unit unit := throw (EMsg "address already in use").
Definition failedRun : outcome unit * aProcess :=
  RunNode (fun l => l) noClient (quiet portTaken) tidy (nodeFlags true ANil) false plainNode noService freshProcess.


Lemma quiet_well : allWell (quiet works) tidy.
Proof. split; try (intros; by eexists); done. Qed.

(** The command's services, started and stopped. *)
Definition threeKinds : stack := addFunc Kord (addFunc Swarm (addFunc Ethereum NewStack)).
Definition threeServices : aProcess :=
  {| stk := threeKinds; kordSvc := None; others := tt; sqlDrivers := ∅; tempDirs := []; disk := noFiles;
     storage := []; net := tt |}.
Definition startWorks := Start (fun l => l) noClient (quiet works) DefaultConfig.
Definition started : outcome unit * aProcess := startWorks threeServices.
Definition stopped : outcome unit * aProcess := Stop (quiet works) (snd started).

Lemma restart_panics_witness :
  fst started = Returns (Ok tt) /\ fst stopped = Returns (Ok tt) /\
  fst (startWorks (snd stopped)) = Returns (Panic "sql: Register called twice for driver kord").
Proof.
  assert (fst started = Returns (Ok tt)) as H1 by (vm_compute; reflexivity).
  assert (fst stopped = Returns (Ok tt)) as H2 by (vm_compute; reflexivity).
  split; [exact H1|]. split; [exact H2|].
  refine (proj2 (restart_panics (fun l => l) noClient (quiet works) tidy (quiet_walks works) DefaultConfig DefaultConfig
    threeServices (snd started) (fst stopped) (snd stopped) (fst (startWorks (snd stopped)))
    (snd (startWorks (snd stopped))) _ _ _ _ _ _) quiet_well).
  - repeat split.
  - apply (bool_decide_eq_true_1 (Kord ∈ [Ethereum; Swarm; Kord])). vm_compute. reflexivity.
  - rewrite <- H1. exact (surjective_pairing started).
  - apply surjective_pairing.
  - rewrite H2. exact I.
  - apply surjective_pairing.
Defined.


(** [kord node --root-dapp kord://...]. *)
Definition rooted : nodeConfig :=
  withDataDir "data" "kord.ipc" (withKord [] {| HTTPAddr := "localhost"; HTTPPort := 5000; RootDapp := looseURI;
                                                CORSDomains := [] |} plainNode).

Lemma RunNode_root_dapp_waits_witness :
  exists p', RunNode (fun l => l) noClient (quiet works) tidy (nodeFlags false (AString looseURI)) true plainNode
    noService freshProcess = (Waits, p') /\ lock (stk p') = true.
Proof.
  destruct (RunNode_root_dapp_waits (fun l => l) noClient (quiet works) tidy (quiet_walks works)
    (nodeFlags false (AString looseURI)) true false plainNode rooted noService appURI freshProcess)
    as (p' & E & Hl & _).
  - exact quiet_well.
  - vm_compute. reflexivity.
  - vm_compute. reflexivity.
  - discriminate.
  - vm_compute. reflexivity.
  - repeat split.
  - reflexivity.
  - exact (not_elem_of_empty drvName).
  - exists p'. split; [exact E|exact Hl].
Defined.
End witnesses.
