(* ===== verification/Main.v ===== *)
(** * The main program

    [cmd/kord/main.go] and the dispatch of [cli.Run] with the usages of the
    program. *)
From S2P Require Import Prelude Keccak Common Crypto Uri Contract Registry Claim Sha1 Quad Sql Db GraphDriver Api Server Cli Docopt Matching Load Node.

(** ** The usages of the program *)

Definition usage : bytes :=
"usage: kord [options] <command> [<args>...]

Options:
        -h, --help        show this usage message
        --version         print the version
        --verbosity <n>   logging verbosity: 0=silent, 1=error, 2=warn, 3=info, 4=debug, 5=detail [default: 3]

Commands:
        help     show usage for a specific command
        node     run a KORD node
        load     load quads into KORD

See 'kord help <command>' for more information on a specific command.
".
Definition tab : bytes := [N2b 9].
Definition graphUsage : bytes :=
"usage: kord graph create [options] <id>
       kord graph load [options] <id> <file>

Create, update or query a KORD graph.

options:
        -u, --url <url>        URL of the KORD node
" ++ tab ++ "-k, --keystore <dir>   Keystore directory
".
Definition idUsage : bytes :=
"usage: kord id new [options]

Create a new KORD ID.

options:
" ++ tab ++ "-k, --keystore <dir>   Keystore directory
".
Definition dappUsage : bytes :=
"usage: kord dapp deploy [options] <dir> <uri>
       kord dapp set-root [options] <uri>

Deploy a KORD Dapp.

options:
        -u, --url <url>        URL of the KORD node
        -s, --swarm-api <url>  URL of the Swarm API [default: http://localhost:5000]
        -k, --keystore <dir>   Keystore directory

example:
        kord dapp deploy path/to/dapp kord://xyz123/cool-dapp

        kord dapp set-root kord://xyz123/cool-dapp
".
Definition nodeUsage : bytes :=
"usage: kord node [--datadir <dir>] [--config <path>] [--dev] [--testnet] [--mine] [--root-dapp <uri>] [--cors-domain <domain>...]

Run a KORD node.

options:
" ++ tab ++ "-d, --datadir <dir>         Node data directory
" ++ tab ++ "-c, --config <path>         Path to the TOML config file
" ++ tab ++ "--dev                       Run a dev node
" ++ tab ++ "--testnet                   Connect to the testnet
" ++ tab ++ "--mine                      Mine the Ethereum chain
" ++ tab ++ "--root-dapp <uri>           Dapp to serve at root of KORD API
" ++ tab ++ "--cors-domain <domain>...   The allowed CORS domains
".

(** ** The program *)

Definition docopt (doc : bytes) (argv : list bytes) (version : bytes) (optionsFirst : bool) : ends Args :=
  Docopt.Parse doc argv true version optionsFirst.

(** The commands, as the files of the package register them. *)
Inductive runFn := RunDappFn | RunGraphFn | RunIDFn | RunNodeFn.
#[global] Instance runFn_eq_dec : EqDecision runFn.
Proof. solve_decision. Defined.
Definition commands : result (gmap bytes (command runFn)) :=
  cs ← registerCommand ∅ "dapp" RunDappFn dappUsage;
  cs ← registerCommand cs "graph" RunGraphFn graphUsage;
  cs ← registerCommand cs "id" RunIDFn idUsage;
  registerCommand cs "node" RunNodeFn nodeUsage.

(** [cli.Run] on the words after the name of the program. *)
Definition kordLine (argv : list bytes) : ends (dispatched runFn) :=
  cs ← Goes commands; Run docopt usage cs argv.

(** The grammars of the usages, by computation. *)
Definition noGrammar : bytes * list leaf * pattern leaf := ([], [], Branch Required []).
Definition topGrammar := Eval vm_compute in default noGrammar (compiled usage).
Definition graphGrammar := Eval vm_compute in default noGrammar (compiled graphUsage).
Definition idGrammar := Eval vm_compute in default noGrammar (compiled idUsage).
Definition dappGrammar := Eval vm_compute in default noGrammar (compiled dappUsage).
Definition nodeGrammar := Eval vm_compute in default noGrammar (compiled nodeUsage).
Lemma top_compiled : compiled usage = Some topGrammar.
Proof. vm_compute. reflexivity. Qed.
Lemma graph_compiled : compiled graphUsage = Some graphGrammar.
Proof. vm_compute. reflexivity. Qed.
Lemma id_compiled : compiled idUsage = Some idGrammar.
Proof. vm_compute. reflexivity. Qed.
Lemma dapp_compiled : compiled dappUsage = Some dappGrammar.
Proof. vm_compute. reflexivity. Qed.
Lemma node_compiled : compiled nodeUsage = Some nodeGrammar.
Proof. vm_compute. reflexivity. Qed.

Definition usageOf (f : runFn) : bytes :=
  match f with RunDappFn => dappUsage | RunGraphFn => graphUsage | RunIDFn => idUsage | RunNodeFn => nodeUsage end.
Definition grammarOf (f : runFn) : bytes * list leaf * pattern leaf :=
  match f with RunDappFn => dappGrammar | RunGraphFn => graphGrammar | RunIDFn => idGrammar | RunNodeFn => nodeGrammar end.
Lemma compiled_of f : compiled (usageOf f) = Some (grammarOf f).
Proof. destruct f; [apply dapp_compiled|apply graph_compiled|apply id_compiled|apply node_compiled]. Qed.
Lemma sound_of f : sound (snd (fst (grammarOf f))) (snd (grammarOf f)) = true.
Proof. destruct f; vm_compute; reflexivity. Qed.
Lemma sound_top : sound (snd (fst topGrammar)) (snd topGrammar) = true.
Proof. vm_compute. reflexivity. Qed.

(** An option with its value, or nothing. *)
Definition flag (f : bytes) (v : option bytes) : list bytes := match v with Some v => [f; v] | None => [] end.
Definition given (v : option bytes) (d : argument) : argument := match v with Some v => AString v | None => d end.
Definition aValue (v : option bytes) : Prop := v <> Some ("--" : bytes).
Lemma aValue_Some v : aValue (Some v) -> v <> ("--" : bytes).
Proof. intros H ->. by apply H. Qed.

(** ** The first level: a command and its words *)

Definition wordLeaf (w : bytes) : leaf := newArgument [] (AString w).
Lemma words_at (h : list leaf) ws : Forall2 (wordAt (h ++ (wordLeaf <$> ws))) (seq (length h) (length ws)) ws.
Proof.
  revert h. induction ws as [|w ws IH]; intros h; [constructor|]. cbn [length seq]. constructor.
  - split; [rewrite length_app; cbn; lia|]. rewrite fmap_cons. unfold at_. rewrite app_nth2, Nat.sub_diag by lia. done.
  - replace (h ++ (wordLeaf <$> w :: ws)) with ((h ++ [wordLeaf w]) ++ (wordLeaf <$> ws)) by (by rewrite <- app_assoc).
    replace (S (length h)) with (length (h ++ [wordLeaf w])) by (rewrite length_app; cbn; lia). apply IH.
Qed.

Lemma filter_none {A} (P : A -> Prop) `{!forall x, Decision (P x)} l : Forall (fun x => ~ P x) l -> filter P l = [].
Proof. induction 1 as [|x l Hx _ IH]; [done|]. by rewrite filter_cons_False. Qed.
Lemma matchAny_one {P} (m : P -> list nat -> list nat -> prog (list leaf) matching) p lft coll h ok l c h' :
  m p lft coll h = (Ok (ok, l, c), h') -> matchAny m [p] lft coll h = (Ok (true, l, c), h').
Proof. intros E. cbn [matchAny]. by rewrite (bind_ok _ _ _ _ _ E). Qed.
Lemma oneOrMore_ok p lft coll h n l c h' :
  matchMore (matchLeaf p) (S (S (length lft))) 0 None lft coll h = (Ok (S n, l, c), h') ->
  match_ (Branch OneOrMore [Leaf p]) lft coll h = (Ok (true, l, c), h').
Proof. intros E. cbn [match_]. by rewrite (bind_ok _ _ _ _ _ E). Qed.
Lemma matchAll_ok {P} (m : P -> list nat -> list nat -> prog (list leaf) matching) p ps lft coll h l c h' :
  m p lft coll h = (Ok (true, l, c), h') -> matchAll m (p :: ps) lft coll h = matchAll m ps l c h'.
Proof. intros E. cbn [matchAll]. by rewrite (bind_ok _ _ _ _ _ E). Qed.

(** Options that are not there. *)
Lemma shortcut_absent ls lft coll h :
  Forall (fun o => kindOf o = Option_ /\ Forall (fun i => name (at_ h i) <> name o) lft) ls ->
  matchAny match_ (Leaf <$> ls) lft coll h = (Ok (true, lft, coll), h).
Proof.
  induction 1 as [|o ls [Ho Hn] _ IH]; [done|]. cbn [fmap list_fmap matchAny match_].
  rewrite (bind_ok _ _ _ _ _ (matchLeaf_absent o lft coll h Ho Hn)). exact IH.
Qed.

Definition topOptions : list leaf := snd (fst topGrammar).
Definition commandLeaf : leaf := newArgument "<command>" ANil.
Definition argsLeaf : leaf := newArgument "<args>" (AList []).
Definition topRest : list (pattern leaf) := [Leaf commandLeaf; Branch Optional [Branch OneOrMore [Leaf argsLeaf]]].
Lemma top_pattern :
  snd topGrammar = Branch Required [Branch Required (Branch Optional [Branch OptionsShortcut (Leaf <$> topOptions)] :: topRest)].
Proof. reflexivity. Qed.

(** The command and its words, after what the options have taken. *)
Lemma match_rest h i lft coll cmd rest :
  wordAt h i cmd -> Forall2 (wordAt h) lft rest -> Forall (fun a => a < length h /\ name (at_ h a) <> ("<args>" : bytes)) coll ->
  exists c h', matchAll match_ topRest (i :: lft) coll h = (Ok (true, [], coll ++ c), h') /\
    (forall j, j < length h -> at_ h' j = at_ h j) /\
    at_ h' <$> c = newArgument "<command>" (AString cmd) :: match rest with [] => [] | _ => [newArgument "<args>" (AList rest)] end.
Proof.
  intros Hi Hl Hc. unfold topRest. set (h1 := h ++ [newArgument "<command>" (AString cmd)]).
  assert (match_ (Leaf commandLeaf) (i :: lft) coll h = (Ok (true, lft, coll ++ [length h]), h1)) as E1 by (by apply matchLeaf_word).
  rewrite (matchAll_ok _ _ _ _ _ _ _ _ _ E1). clear E1.
  assert (at_ h1 (length h) = newArgument "<command>" (AString cmd)) as Hcmd by apply at_new.
  assert (forall j, j < length h -> at_ h1 j = at_ h j) as Hold by (intros j Hj; by apply at_alloc).
  destruct rest as [|w ws].
  - apply Forall2_nil_inv_r in Hl as ->. exists [length h], h1. split_and!; [reflexivity|done|]. cbn. by rewrite Hcmd.
  - apply Forall2_cons_inv_r in Hl as (j & lft' & Hj & Hl & ->).
    assert (length h1 = S (length h)) as Hlen by (unfold h1; rewrite length_app; cbn; lia).
    assert (filter (fun a => name (at_ h1 a) = name argsLeaf) (coll ++ [length h]) = []) as Hf.
    { apply filter_none. apply Forall_app_2; [|constructor; [by rewrite Hcmd|done]].
      eapply Forall_impl; [exact Hc|]. intros a [Ha Hna]. cbn. by rewrite Hold. }
    assert (Forall (fun a => a < length h1) (coll ++ [length h])) as Hlt.
    { apply Forall_app_2; [|constructor; [lia|done]]. eapply Forall_impl; [exact Hc|]. intros a [Ha _]. lia. }
    destruct (matchMore_words argsLeaf eq_refl ltac:(discriminate) eq_refl h1 j lft' (coll ++ [length h]) w ws)
      as (n & h2 & E2 & Hargs & Hsame); [by apply wordAt_alloc| |done|done|].
    { eapply Forall2_impl; [exact Hl|]. intros k x. apply wordAt_alloc. }
    assert (match_ (Branch Optional [Branch OneOrMore [Leaf argsLeaf]]) (j :: lft') (coll ++ [length h]) h1 =
      (Ok (true, [], (coll ++ [length h]) ++ [length h1]), h2)) as E3 by (eapply matchAny_one, oneOrMore_ok, E2).
    rewrite (matchAll_ok _ _ _ _ _ _ _ _ _ E3). exists [length h; length h1], h2. split_and!.
    + by rewrite <- app_assoc.
    + intros k Hk. rewrite Hsame by lia. by apply Hold.
    + cbn. rewrite Hargs, Hsame by lia. by rewrite Hcmd.
Qed.

Lemma shortcut_match lft coll h l c h' :
  matchAny match_ (Leaf <$> topOptions) lft coll h = (Ok (true, l, c), h') ->
  match_ (Branch Optional [Branch OptionsShortcut (Leaf <$> topOptions)]) lft coll h = (Ok (true, l, c), h').
Proof. intros E. by apply matchAny_one with true. Qed.
Lemma top_match lft coll h l c h' :
  matchAll match_ (Branch Optional [Branch OptionsShortcut (Leaf <$> topOptions)] :: topRest) lft coll h = (Ok (true, l, c), h') ->
  match_ (snd topGrammar) lft coll h = (Ok (true, l, c), h').
Proof.
  intros E. rewrite top_pattern.
  assert (forall ps l0 c0 s0 s1 l1 c1, matchAll match_ ps l0 c0 s0 = (Ok (true, l1, c1), s1) ->
    match_ (Branch Required ps) l0 c0 s0 = (Ok (true, l1, c1), s1)) as Hreq.
  { intros ps l0 c0 s0 s1 l1 c1 E1. cbn [match_]. by rewrite (bind_ok _ _ _ _ _ E1). }
  apply Hreq. erewrite matchAll_ok; [reflexivity|]. by apply Hreq.
Qed.

(** The leaf of [--verbosity] with its value, if it was given. *)
Definition verbosityLeaf (v : bytes) : leaf := setValue (newOption [] "--verbosity" 1 (AString "3")) (AString v).
Definition verbosity (v : option bytes) : list leaf := match v with Some v => [verbosityLeaf v] | None => [] end.
Definition topArgs (v : option bytes) (cmd : bytes) (rest : list bytes) : Args :=
  list_to_map [("--help" : bytes, ABool false); ("--version" : bytes, ABool false);
    ("--verbosity" : bytes, AString (default ("3" : bytes) v)); ("<command>" : bytes, AString cmd); ("<args>" : bytes, AList rest)].

Lemma matchAny_app {P} (m : P -> list nat -> list nat -> prog (list leaf) matching) ps qs lft coll h l c h' :
  matchAny m ps lft coll h = (Ok (true, l, c), h') -> matchAny m (ps ++ qs) lft coll h = matchAny m qs l c h'.
Proof.
  revert lft coll h. induction ps as [|p ps IH]; intros lft coll h; cbn [matchAny app]; [by intros [= <- <- <-]|].
  intros E. apply bind_ok_inv in E as ([[ok l1] c1] & h1 & E1 & E). rewrite (bind_ok _ _ _ _ _ E1). by apply IH.
Qed.
Definition absent (h : list leaf) (lft : list nat) (o : leaf) : Prop :=
  kindOf o = Option_ /\ Forall (fun i => name (at_ h i) <> name o) lft.
Lemma words_absent o lft ws h : kindOf o = Option_ -> name o <> [] -> Forall2 (wordAt h) lft ws -> absent h lft o.
Proof. intros Ho Hn Hw. split; [done|]. by eapply words_unnamed. Qed.

(** The options of the first level take [--verbosity]. *)
Lemma topOptions_match v h k ws :
  length (verbosity v) = k -> (forall x, v = Some x -> at_ h 0 = verbosityLeaf x) -> Forall2 (wordAt h) (seq k (length ws)) ws ->
  matchAny match_ (Leaf <$> topOptions) (seq 0 (k + length ws)) [] h = (Ok (true, seq k (length ws), seq 0 k), h).
Proof.
  intros <- Hv Hw. destruct v as [v|]; cbn [verbosity length Nat.add seq] in *.
  - specialize (Hv v eq_refl).
    assert (forall o, kindOf o = Option_ -> name o <> [] -> name o <> name (verbosityLeaf v) -> absent h (0 :: seq 1 (length ws)) o) as Habs.
    { intros o Ho Hn Hne. destruct (words_absent o _ _ _ Ho Hn Hw) as [_ Hf]. split; [done|]. constructor; [|done]. rewrite Hv. congruence. }
    change (Leaf <$> topOptions) with ((Leaf <$> take 2 topOptions) ++ (Leaf <$> drop 2 topOptions)).
    erewrite matchAny_app; [|apply shortcut_absent; unfold topOptions; cbn; repeat (apply Forall_cons_2; [by apply Habs|]); done].
    apply matchAny_one with true. apply matchLeaf_option; [done|by rewrite Hv|done].
  - apply shortcut_absent. unfold topOptions. cbn. repeat (apply Forall_cons_2; [by eapply words_absent|]). done.
Qed.

Lemma finish_top v cmd rest :
  finish (snd topGrammar) (verbosity v ++ (wordLeaf <$> cmd :: rest)) = Ok (topArgs v cmd rest).
Proof.
  set (h := verbosity v ++ (wordLeaf <$> cmd :: rest)).
  assert (exists c h', match_ (snd topGrammar) (seq 0 (length h)) [] h = (Ok (true, [], c), h') /\
    at_ h' <$> c = verbosity v ++ newArgument "<command>" (AString cmd) :: match rest with [] => [] | _ => [newArgument "<args>" (AList rest)] end)
    as (c & h' & E & Hc).
  { pose proof (words_at (verbosity v) (cmd :: rest)) as Hw. fold h in Hw. cbn [length seq] in Hw.
    assert (length h = length (verbosity v) + S (length rest)) as Hlen by (unfold h; rewrite length_app, length_fmap; done).
    pose proof (topOptions_match v h _ (cmd :: rest) eq_refl) as E1.
    destruct (match_rest h (length (verbosity v)) (seq (S (length (verbosity v))) (length rest)) (seq 0 (length (verbosity v))) cmd rest)
      as (c & h' & E2 & Hold & Hc); [by apply Forall2_cons_1 in Hw as [? _]|by apply Forall2_cons_1 in Hw as [_ ?]| |].
    { destruct v as [v|]; [|done]. constructor; [|done]. split; [rewrite Hlen; cbn; lia|done]. }
    exists (seq 0 (length (verbosity v)) ++ c), h'. split.
    - apply top_match. rewrite Hlen. erewrite matchAll_ok; [exact E2|]. apply shortcut_match. apply E1; [by intros x ->|done].
    - rewrite fmap_app, Hc. f_equal. destruct v as [v|]; [|done]. cbn. by rewrite Hold by (rewrite Hlen; cbn; lia). }
  unfold finish, finishLeaves. rewrite E. cbn [andb length Nat.eqb fmap result_fmap]. rewrite Hc. f_equal.
  destruct v, rest; reflexivity.
Qed.

Lemma extras_none os help version doc :
  Forall (fun o => name o ∉ ["-h" : bytes; "--help" : bytes; "--version" : bytes]) os -> extras help version os doc = [].
Proof.
  intros Hn. unfold extras.
  assert (forall f, (forall o, f o = true -> name o ∈ ["-h" : bytes; "--help" : bytes; "--version" : bytes]) -> existsb f os = false) as Hex.
  { intros f Hf. induction Hn as [|o os Ho _ IH]; [done|]. cbn. rewrite IH. destruct (f o) eqn:E; [|done]. by apply Hf in E. }
  rewrite !Hex, !andb_false_r; [done| |].
  - intros o [-> _]%bool_decide_eq_true. set_solver.
  - intros o [? _]%bool_decide_eq_true. set_solver.
Qed.

(** The first level of a command line: [kord [--verbosity v] cmd rest...]. *)
Lemma Parse_top v cmd rest :
  aValue v -> plain cmd ->
  docopt usage (flag "--verbosity" v ++ cmd :: rest) "0.0.1" true = Goes (Ok (topArgs v cmd rest)).
Proof.
  intros Hv Hc. unfold docopt.
  rewrite (Parse_compiled usage (fst (fst topGrammar)) topOptions (snd topGrammar) _ _ _ _ top_compiled).
  assert (fst (parseArgv (S (length (flag "--verbosity" v ++ cmd :: rest))) true
    {| toks := flag "--verbosity" v ++ cmd :: rest; opts := topOptions |}) = Ok (verbosity v ++ (wordLeaf <$> cmd :: rest))) as E.
  { destruct v as [v|]; cbn [flag app length].
    - erewrite argv_flag; [|reflexivity|reflexivity|done|by apply aValue_Some|reflexivity|reflexivity|by apply argv_first]. reflexivity.
    - by rewrite argv_first. }
  rewrite E. cbn [handleError]. rewrite extras_none; [cbn [length Nat.eqb negb]; by rewrite finish_top|].
  assert (forall o, name o = name (verbosityLeaf []) \/ name o = [] -> name o ∉ ["-h" : bytes; "--help" : bytes; "--version" : bytes]) as Hn.
  { intros o [-> | ->]; apply (bool_decide_unpack _); vm_compute; exact I. }
  apply Forall_app_2; [destruct v; [constructor; [by apply Hn; left|done]|done]|].
  apply Forall_fmap, Forall_true. intros w. by apply Hn; right.
Qed.

(** ** The commands *)

Definition nameOf (f : runFn) : bytes :=
  match f with RunDappFn => "dapp" | RunGraphFn => "graph" | RunIDFn => "id" | RunNodeFn => "node" end.
Definition commandOf (f : runFn) : command runFn := {| run := f; Cli.usage := usageOf f |}.
Definition registered : gmap bytes (command runFn) :=
  <[nameOf RunNodeFn := commandOf RunNodeFn]> (<[nameOf RunIDFn := commandOf RunIDFn]>
    (<[nameOf RunGraphFn := commandOf RunGraphFn]> (<[nameOf RunDappFn := commandOf RunDappFn]> ∅))).
Lemma registerCommand_new {F} (cs : gmap bytes (command F)) n r u :
  cs !! n = None -> registerCommand cs n r u = Ok (<[n := {| run := r; Cli.usage := u |}]> cs).
Proof. unfold registerCommand. by intros ->. Qed.
Lemma commands_ok : commands = Ok registered.
Proof.
  unfold commands.
  rewrite registerCommand_new by done. cbn [mbind result_bind].
  rewrite registerCommand_new by (by rewrite lookup_insert_ne). cbn [mbind result_bind].
  rewrite registerCommand_new by (by rewrite !lookup_insert_ne). cbn [mbind result_bind].
  by rewrite registerCommand_new by (by rewrite !lookup_insert_ne).
Qed.
Lemma registered_named f : registered !! nameOf f = Some (commandOf f).
Proof.
  unfold registered. destruct f.
  - rewrite !lookup_insert_ne by done. apply lookup_insert_eq.
  - rewrite !lookup_insert_ne by done. apply lookup_insert_eq.
  - rewrite lookup_insert_ne by done. apply lookup_insert_eq.
  - apply lookup_insert_eq.
Qed.
Lemma registered_inv n c : registered !! n = Some c -> exists f, n = nameOf f /\ c = commandOf f.
Proof.
  unfold registered. intros E. repeat (apply lookup_insert_Some in E as [[<- <-]|[_ E]]; [by eexists|]). by rewrite lookup_empty in E.
Qed.

Definition levelOk (v : option bytes) : bool :=
  let v := default ("3" : bytes) v in bool_decide (v = []) || is_ok (setLogVerbosity v).

Lemma Run_top v cmd rest :
  aValue v -> plain cmd -> levelOk v = true ->
  kordLine (flag "--verbosity" v ++ cmd :: rest) =
  if bool_decide (cmd = ("help" : bytes)) then
    match rest with [] => mret Printed | c :: _ => runCommand docopt registered c ["--help" : bytes] end
  else runCommand docopt registered cmd rest.
Proof.
  intros Hv Hc Hlvl. unfold kordLine. rewrite commands_ok. unfold mbind at 1, ends_bind at 1. unfold Run.
  rewrite Parse_top by done. unfold mbind at 1, ends_bind at 1.
  change (Args_String (topArgs v cmd rest) "<command>") with (Ok cmd : result bytes).
  change (Args_List (topArgs v cmd rest) "<args>") with (Ok rest : result (list bytes)).
  change (Args_String (topArgs v cmd rest) "--verbosity") with (Ok (default ("3" : bytes) v) : result bytes).
  cbn [mbind ends_bind]. unfold levelOk in Hlvl.
  assert (forall (k : ends (dispatched runFn)), (_ ← (if bool_decide (default ("3" : bytes) v = []) then mret tt
    else _ ← Goes (setLogVerbosity (default ("3" : bytes) v)); mret tt : ends unit); k) = k) as Hk.
  { intros k. destruct (bool_decide _); [done|]. cbn [orb] in Hlvl. by destruct (setLogVerbosity _). }
  cbn [mbind ends_bind] in Hk. rewrite !Hk.
  destruct (bool_decide (cmd = _)); [|done]. by destruct rest.
Qed.

Lemma runCommand_registered f rest :
  runCommand docopt registered (nameOf f) rest = a ← docopt (usageOf f) (nameOf f :: rest) [] false; mret (Runs f a).
Proof. unfold runCommand. by rewrite registered_named. Qed.
Lemma runCommand_other n rest : (forall f, n <> nameOf f) -> runCommand docopt registered n rest = Goes (Err (notACommand n)).
Proof.
  intros Hn. unfold runCommand. destruct (registered !! n) as [c|] eqn:E; [|done].
  apply registered_inv in E as (f & -> & _). by destruct (Hn f).
Qed.

(** ** Arguments that are there *)

Definition patternOf (f : runFn) : pattern leaf := snd (grammarOf f).

Lemma docopt_typed f argv :
  (exists status output, docopt (usageOf f) argv [] false = Exits status output) \/
  exists a, docopt (usageOf f) argv [] false = Goes (Ok a) /\ wellTyped (patternOf f) a /\ chosen (patternOf f) a.
Proof.
  apply (Parse_typed (usageOf f) (fst (fst (grammarOf f))) (snd (fst (grammarOf f))) (patternOf f)); [|apply sound_of].
  rewrite compiled_of. unfold patternOf. by destruct (grammarOf f) as [[us os] p].
Qed.
Lemma docopt_top argv :
  (exists status output, docopt usage argv "0.0.1" true = Exits status output) \/
  exists a, docopt usage argv "0.0.1" true = Goes (Ok a) /\ wellTyped (snd topGrammar) a.
Proof.
  unfold docopt.
  assert (compiled usage = Some (fst (fst topGrammar), snd (fst topGrammar), snd topGrammar)) as Hc.
  { rewrite top_compiled. by destruct topGrammar as [[us os] p]. }
  destruct (Parse_typed _ _ _ _ Hc sound_top argv "0.0.1" true) as [Hx|(a & Hp & Ha & _)].
  - left. exact Hx.
  - right. exists a. split; [exact Hp|exact Ha].
Qed.

(** What is there can be read. *)
Lemma typed_String p a n : wellTyped p a -> types p !! n = Some TString -> exists s, Args_String a n = Ok s.
Proof. intros Ha Ht. destruct (Ha _ _ Ht) as (v & Hv & Hf). unfold Args_String. rewrite Hv. destruct v; try done; eauto. Qed.
Lemma typed_List p a n : wellTyped p a -> types p !! n = Some TList -> exists l, Args_List a n = Ok l.
Proof. intros Ha Ht. destruct (Ha _ _ Ht) as (v & Hv & Hf). unfold Args_List. rewrite Hv. destruct v; try done; eauto. Qed.
Lemma typed_Bool p a n : wellTyped p a -> types p !! n = Some TBool -> exists b, Args_Bool a n = Ok b.
Proof. intros Ha Ht. destruct (Ha _ _ Ht) as (v & Hv & Hf). unfold Args_Bool. rewrite Hv. destruct v; try done; eauto. Qed.

(** A command line ends the process, is an error, prints the usage, or runs a command on arguments of its usage. *)
Definition endsWell (r : ends (dispatched runFn)) : Prop :=
  match r with
  | Goes (Ok (Runs f a)) => wellTyped (patternOf f) a /\ chosen (patternOf f) a
  | Goes (Panic _) => False
  | _ => True
  end.
Lemma kordLine_run argv : kordLine argv = Run docopt usage registered argv.
Proof. unfold kordLine. by rewrite commands_ok. Qed.
Lemma runCommand_well n ws : endsWell (runCommand docopt registered n ws).
Proof.
  unfold runCommand. destruct (registered !! n) as [c|] eqn:E; [|done].
  apply registered_inv in E as (f & -> & ->). cbn [commandOf Cli.usage run].
  by destruct (docopt_typed f (nameOf f :: ws)) as [(st & out & ->)|(a' & -> & Ha')].
Qed.
Lemma kordLine_well argv : endsWell (kordLine argv).
Proof.
  rewrite kordLine_run. unfold Run.
  destruct (docopt_top argv) as [(st & out & ->)|(a & -> & Ha)]; [done|].
  destruct (typed_String _ _ "<command>" Ha) as [cmd Hcmd]; [vm_compute; reflexivity|].
  destruct (typed_List _ _ "<args>" Ha) as [rest Hrest]; [vm_compute; reflexivity|].
  destruct (typed_String _ _ "--verbosity" Ha) as [v Hv]; [vm_compute; reflexivity|].
  cbn [mbind ends_bind]. rewrite Hcmd, Hrest, Hv. cbn [mbind ends_bind].
  assert (forall n ws, endsWell (_ ← (if bool_decide (v = []) then mret tt else _ ← Goes (setLogVerbosity v); mret tt : ends unit);
    runCommand docopt registered n ws)) as Hlvl.
  { intros n ws. destruct (bool_decide _); [apply runCommand_well|]. unfold setLogVerbosity.
    destruct (Atoi v); [apply runCommand_well|done]. }
  cbn [mbind ends_bind] in Hlvl. destruct (bool_decide (cmd = _)); [destruct rest as [|c rest]; [done|]|]; apply Hlvl.
Qed.

(** What the run functions read: the names they give to [Args.String], [Args.List] and [Args.Bool]. *)
Definition reads (f : runFn) : list (bytes * ty) :=
  match f with
  | RunGraphFn => [("create" : bytes, TBool); ("load" : bytes, TBool); ("<id>" : bytes, TString); ("--url" : bytes, TString);
                   ("--keystore" : bytes, TString); ("<file>" : bytes, TString)]
  | RunDappFn => [("deploy" : bytes, TBool); ("set-root" : bytes, TBool); ("<uri>" : bytes, TString); ("--url" : bytes, TString);
                  ("--swarm-api" : bytes, TString); ("<dir>" : bytes, TString); ("--keystore" : bytes, TString)]
  | RunIDFn => [("new" : bytes, TBool); ("--keystore" : bytes, TString)]
  | RunNodeFn => [("--config" : bytes, TString); ("--datadir" : bytes, TString); ("--dev" : bytes, TBool); ("--root-dapp" : bytes, TString);
                  ("--cors-domain" : bytes, TList); ("--testnet" : bytes, TBool); ("--mine" : bytes, TBool)]
  end.
Definition readable (a : Args) (n : bytes) (t : ty) : Prop :=
  match t with
  | TString => exists s, Args_String a n = Ok s
  | TList => exists l, Args_List a n = Ok l
  | TBool => exists b, Args_Bool a n = Ok b
  end.
(** The names that a run function looks at in turn to find what to do. *)
Definition actions (f : runFn) : list bytes :=
  match f with
  | RunGraphFn => ["create" : bytes; "load" : bytes]
  | RunDappFn => ["deploy" : bytes; "set-root" : bytes]
  | RunIDFn => ["new" : bytes]
  | RunNodeFn => ["node" : bytes]
  end.

Lemma typed_reads f a : wellTyped (patternOf f) a -> Forall (fun '(n, t) => readable a n t) (reads f).
Proof.
  intros Ha. assert (Forall (fun '(n, t) => types (patternOf f) !! n = Some t) (reads f)) as Ht.
  { destruct f; apply (bool_decide_unpack _); vm_compute; exact I. }
  eapply Forall_impl; [exact Ht|]. intros [n []] Hn; [by eapply typed_String|by eapply typed_List|by eapply typed_Bool].
Qed.
Lemma chosen_action f a : chosen (patternOf f) a -> exists n, n ∈ actions f /\ Args_Bool a n = Ok true.
Proof.
  intros (d & Hd & Hset).
  assert (Forall (fun d => Exists (fun n => n ∈ d /\ types (patternOf f) !! n = Some TBool) (actions f)) (must (patternOf f))) as Hall.
  { destruct f; apply (bool_decide_unpack _); vm_compute; exact I. }
  eapply Forall_forall in Hall; [|exact Hd]. apply Exists_exists in Hall as (n & Hn & Hin & Ht). exists n. split; [done|].
  unfold Args_Bool. by rewrite (Hset n Hin Ht).
Qed.

(** C9: no command line makes the program panic before its command runs, and a
    command that runs finds every argument it reads, of the type it reads it
    at: the panics of [Args.String], [Args.List] and [Args.Bool] do not
    happen.  One of the actions its run function looks for is set, so that
    the errors for unknown commands do not happen either. *)
Theorem arguments_found (argv : list bytes) :
  (forall msg, kordLine argv <> Goes (Panic msg)) /\
  forall f a, kordLine argv = Goes (Ok (Runs f a)) ->
    Forall (fun '(n, t) => readable a n t) (reads f) /\ exists n, n ∈ actions f /\ Args_Bool a n = Ok true.
Proof.
  pose proof (kordLine_well argv) as Hw. split; [by intros msg E; rewrite E in Hw|].
  intros f a E. rewrite E in Hw. destruct Hw as [Ha Hc]. split; [by apply typed_reads|by apply chosen_action].
Qed.

(** ** What a line comes to *)

Lemma help_prints f : docopt (usageOf f) [nameOf f; "--help" : bytes] [] false = Exits 0 (trimNewlines (usageOf f)).
Proof. destruct f; vm_compute; reflexivity. Qed.

(** C10: the first level of a command line, [kord [--verbosity v] cmd rest...]: a
    registered command gets its words, whatever they are, to be read by its
    own usage; any other name but [help] is an error; and [help] with the name
    of a command prints the usage of the command and ends with status 0. *)
Theorem commands_dispatched (v : option bytes) (cmd : bytes) (rest : list bytes) :
  aValue v -> plain cmd -> levelOk v = true ->
  let line := flag "--verbosity" v ++ cmd :: rest in
  (forall f, cmd = nameOf f -> kordLine line = a ← docopt (usageOf f) (cmd :: rest) [] false; mret (Runs f a)) /\
  ((forall f, cmd <> nameOf f) -> cmd <> ("help" : bytes) -> kordLine line = Goes (Err (notACommand cmd))) /\
  (forall f more, cmd = ("help" : bytes) -> rest = nameOf f :: more -> kordLine line = Exits 0 (trimNewlines (usageOf f))).
Proof.
  intros Hv Hc Hl line. unfold line. rewrite Run_top by done. split_and!.
  - intros f ->. rewrite bool_decide_eq_false_2 by (by destruct f). apply runCommand_registered.
  - intros Hn Hh. rewrite bool_decide_eq_false_2 by done. by apply runCommand_other.
  - intros f more -> ->. rewrite bool_decide_eq_true_2 by done. by rewrite runCommand_registered, help_prints.
Qed.

(** The usage announces a command [load], which there is not. *)
Theorem load_is_announced (rest : list bytes) :
  is_Some (cut ("load     load quads into KORD" : bytes) usage) /\ kordLine (("load" : bytes) :: rest) = Goes (Err (notACommand "load")).
Proof.
  split; [apply (bool_decide_unpack _); vm_compute; exact I|].
  exact (eq_trans (Run_top None "load" rest ltac:(discriminate) eq_refl eq_refl) (runCommand_other "load" rest ltac:(by intros []))).
Qed.

(** Whatever the words of a node command: the CORS settings of a configuration file make no difference. *)
Theorem cors_from_file_lost_always (argv : list bytes) (a : Args) (makeTemp : result bytes) (osTemp : bytes)
    (ParseNode : bytes -> result bytes) (loadConfig : bytes -> nodeConfig -> result nodeConfig) (c : nodeConfig)
    (swarm : bytes) (domains : list bytes) :
  kordLine argv = Goes (Ok (Runs RunNodeFn a)) ->
  configure makeTemp osTemp (fun f c => replaceCors swarm domains <$> loadConfig f c) ParseNode a c =
  configure makeTemp osTemp loadConfig ParseNode a c.
Proof.
  intros E. apply cors_from_file_lost. pose proof (kordLine_well argv) as Hw. rewrite E in Hw. destruct Hw as [Ha _].
  destruct (Ha "--cors-domain" TList) as (x & Hx & _); [vm_compute; reflexivity|by eexists].
Qed.

(** ** Lines that are understood *)

Definition has (a : Args) (l : list (bytes * argument)) : Prop := Forall (fun '(n, v) => a !! n = Some v) l.

(** The leaves of a line, and what they come to. *)
Lemma Parse_leaves doc us os p argv args ls :
  compiled doc = Some (us, os, p) -> fst (parseArgv (S (length argv)) false {| toks := argv; opts := os |}) = Ok args ->
  existsb (fun o => bool_decide (name o ∈ ["-h" : bytes; "--help" : bytes] /\ value o = ABool true)) args = false ->
  finishLeaves p args = Ok ls -> docopt doc argv [] false = Goes (Ok (dictionary ls)).
Proof.
  intros Hc Ha He Hf. unfold docopt. rewrite (Parse_compiled _ _ _ _ _ _ _ _ Hc), Ha. cbn [handleError].
  unfold extras, finish. rewrite He, Hf. reflexivity.
Qed.

Ltac word := first [eapply argv_flag; [vm_compute; reflexivity|vm_compute; reflexivity|discriminate|by first [apply aValue_Some|discriminate]|vm_compute; reflexivity|reflexivity|]
                   |apply argv_word; [first [assumption | vm_compute; reflexivity]|]].
Ltac line compiled :=
  eexists; split;
  [eapply Parse_leaves;
    [exact compiled
    |cbn [app flag length]; match goal with |- fst ?x = _ => eassert (x = (Ok _, _)) as -> by (repeat word; reflexivity); reflexivity end
    |vm_compute; reflexivity|vm_compute; reflexivity]
  |repeat (apply Forall_cons_2; [vm_compute; reflexivity|]); apply Forall_nil_2].

Lemma graph_create_line (url ks : option bytes) (id : bytes) :
  aValue url -> aValue ks -> plain id ->
  exists a, docopt graphUsage (["graph" : bytes; "create" : bytes] ++ flag "--url" url ++ flag "--keystore" ks ++ [id]) [] false = Goes (Ok a) /\
    has a [("create" : bytes, ABool true); ("--url" : bytes, given url ANil); ("--keystore" : bytes, given ks ANil); ("<id>" : bytes, AString id)].
Proof. intros Hu Hk Hi. destruct url as [url|], ks as [ks|]; line graph_compiled. Qed.
Lemma graph_load_line (url ks : option bytes) (id file : bytes) :
  aValue url -> aValue ks -> plain id -> plain file ->
  exists a, docopt graphUsage (["graph" : bytes; "load" : bytes] ++ flag "--url" url ++ flag "--keystore" ks ++ [id; file]) [] false = Goes (Ok a) /\
    has a [("create" : bytes, ABool false); ("load" : bytes, ABool true); ("--url" : bytes, given url ANil); ("--keystore" : bytes, given ks ANil); ("<id>" : bytes, AString id);
      ("<file>" : bytes, AString file)].
Proof. intros Hu Hk Hi Hf. destruct url as [url|], ks as [ks|]; line graph_compiled. Qed.
Lemma dapp_deploy_line (url api ks : option bytes) (dir uri : bytes) :
  aValue url -> aValue api -> aValue ks -> plain dir -> plain uri ->
  exists a, docopt dappUsage (["dapp" : bytes; "deploy" : bytes] ++ flag "--url" url ++ flag "--swarm-api" api ++ flag "--keystore" ks ++ [dir; uri]) [] false = Goes (Ok a) /\
    has a [("deploy" : bytes, ABool true); ("--url" : bytes, given url ANil); ("--swarm-api" : bytes, given api (AString "http://localhost:5000")); ("--keystore" : bytes, given ks ANil); ("<dir>" : bytes, AString dir);
      ("<uri>" : bytes, AString uri)].
Proof. intros Hu Hs Hk Hd Hi. destruct url as [url|], api as [api|], ks as [ks|]; line dapp_compiled. Qed.
Lemma dapp_set_root_line (url : option bytes) (uri : bytes) :
  aValue url -> plain uri ->
  exists a, docopt dappUsage (["dapp" : bytes; "set-root" : bytes] ++ flag "--url" url ++ [uri]) [] false = Goes (Ok a) /\
    has a [("deploy" : bytes, ABool false); ("set-root" : bytes, ABool true); ("--url" : bytes, given url ANil); ("<uri>" : bytes, AString uri)].
Proof. intros Hu Hi. destruct url as [url|]; line dapp_compiled. Qed.
Lemma id_new_line (ks : option bytes) :
  aValue ks ->
  exists a, docopt idUsage (["id" : bytes; "new" : bytes] ++ flag "--keystore" ks) [] false = Goes (Ok a) /\
    has a [("new" : bytes, ABool true); ("--keystore" : bytes, given ks ANil)].
Proof. intros Hk. destruct ks as [ks|]; line id_compiled. Qed.
Lemma node_line (dir : option bytes) (uri : bytes) :
  aValue dir -> aValue (Some uri) ->
  exists a, docopt nodeUsage (["node" : bytes] ++ flag "--datadir" dir ++ ["--root-dapp" : bytes; uri]) [] false = Goes (Ok a) /\
    has a [("--config" : bytes, ANil); ("--datadir" : bytes, given dir ANil); ("--dev" : bytes, ABool false); ("--root-dapp" : bytes, AString uri);
      ("--cors-domain" : bytes, AList []); ("--testnet" : bytes, ABool false)].
Proof. intros Hd Hu. destruct dir as [dir|]; line node_compiled. Qed.

(** ** cmd/kord/main.go *)

(** How a process ends: with a status and what docopt printed; with an error, which is printed, and status 1;
    with a panic; or not at all. *)
Inductive ending := Exited (status : nat) (output : bytes) | Failed (err : error) | Panicked (msg : bytes) | Hung.
Definition status (x : ending) : option nat :=
  match x with Exited n _ => Some n | Failed _ => Some 1 | Panicked _ => Some 2 | Hung => None end.

Section program.
Context {R D K R' D' N O : Type} `{Secp256k1} `{!Registry R} `{!DPA D} `{SqliteCodec} `{!Keystore K} `{!Registry R'} `{!DPA D'}.
Context (iteration : list ValueHash -> list ValueHash) (dial : bytes -> result unit) (tempDir : bytes)
  (upload : bytes -> bytes -> result bytes) (openFile : bytes -> result quadReader).
Context (connectClient : prog N R') (e : environment (O := O)) (mc : machine (O := O)) (defaults : nodeConfig) (services : serviceConfig).

(** What the client's commands see, and the process that the node command runs. *)
Definition machineState : Type := world R D K * process (R := R') (N := N) (D := D') (O := O).
Implicit Types s : machineState.

Definition onWorld (m : prog (world R D K) unit) : task machineState unit := fun s =>
  let (r, w) := m (fst s) in (Returns r, (w, snd s)).

(** The command's [run]; [signalled]: does a signal cancel the context some day? *)
Definition runs (signalled : bool) (f : runFn) (a : Args) : task machineState unit :=
  match f with
  | RunGraphFn => onWorld (RunGraph dial tempDir openFile a)
  | RunDappFn => onWorld (RunDapp iteration dial tempDir upload a)
  | RunIDFn => onWorld (RunID a)
  | RunNodeFn => fun s =>
      let (o, p) := RunNode iteration connectClient e mc a signalled defaults services (snd s) in (o, (fst s, p))
  end.

Definition main (signalled : bool) (argv : list bytes) : machineState -> ending * machineState := fun s =>
  match kordLine argv with
  | Exits n output => (Exited n output, s)
  | Goes (Err x) => (Failed x, s)
  | Goes (Panic m) => (Panicked m, s)
  | Goes (Ok Printed) => (Exited 0 usage, s)
  | Goes (Ok (Runs f a)) =>
      match runs signalled f a s with
      | (Returns (Ok _), s') => (Exited 0 [], s')
      | (Returns (Err x), s') => (Failed x, s')
      | (Returns (Panic m), s') => (Panicked m, s')
      | (Waits, s') => (Hung, s')
      end
  end.

(** A command, from its line. *)
Lemma main_runs signalled f rest a s :
  docopt (usageOf f) (nameOf f :: rest) [] false = Goes (Ok a) ->
  main signalled (nameOf f :: rest) s =
  match runs signalled f a s with
  | (Returns (Ok _), s') => (Exited 0 [], s')
  | (Returns (Err x), s') => (Failed x, s')
  | (Returns (Panic m), s') => (Panicked m, s')
  | (Waits, s') => (Hung, s')
  end.
Proof.
  intros Ha. unfold main.
  assert (kordLine (nameOf f :: rest) = Goes (Ok (Runs f a))) as ->; [|done].
  assert (plain (nameOf f)) as Hp by (by destruct f).
  refine (eq_trans (Run_top None (nameOf f) rest ltac:(done) Hp eq_refl) _).
  rewrite bool_decide_eq_false_2 by (by destruct f). rewrite runCommand_registered, Ha. reflexivity.
Qed.
Lemma main_world signalled f rest a m s w x :
  docopt (usageOf f) (nameOf f :: rest) [] false = Goes (Ok a) -> runs signalled f a = onWorld m ->
  main signalled (nameOf f :: rest) s = (x, w) -> exists r, m (fst s) = (r, fst w) /\ snd w = snd s /\
    x = match r with Ok _ => Exited 0 [] | Err y => Failed y | Panic p => Panicked p end.
Proof.
  intros Ha Hm. rewrite (main_runs _ _ _ _ _ Ha), Hm. unfold onWorld. destruct (m (fst s)) as [[[]|y|p] w'];
  intros [= <- <-]; by eexists.
Qed.
End program.

(** ** From the words to the registry *)

Lemma has_at a l i n v : has a l -> l !! i = Some (n, v) -> a !! n = Some v.
Proof. intros Ha Hi. by eapply Forall_lookup_1 in Ha; [|exact Hi]. Qed.
Lemma has_String a l i n s : has a l -> l !! i = Some (n, AString s) -> Args_String a n = Ok s.
Proof. intros Ha Hi. unfold Args_String. by rewrite (has_at _ _ _ _ _ Ha Hi). Qed.
Lemma has_Bool a l i n b : has a l -> l !! i = Some (n, ABool b) -> Args_Bool a n = Ok b.
Proof. intros Ha Hi. unfold Args_Bool. by rewrite (has_at _ _ _ _ _ Ha Hi). Qed.
Lemma lift_ok {S A B} (r : result A) a (k : A -> prog S B) s : r = Ok a -> (x ← lift r; k x) s = k a s.
Proof. intros ->. reflexivity. Qed.

Section publishing.
Context {R D K R' D' N O : Type} `{Secp256k1} `{!Secp256k1Laws} `{!Registry R} `{!RegistryLaws R} `{!DPA D} `{!DPALaws D}
  `{!SqliteCodec} `{!SqliteCodecLaws} `{!Keystore K} `{!KeystoreLaws K} `{!Registry R'} `{!DPA D'}.
Context (iteration : list ValueHash -> list ValueHash) (dial : bytes -> result unit) (tempDir : bytes)
  (upload : bytes -> bytes -> result bytes) (openFile : bytes -> result quadReader).
Context (connectClient : prog N R') (e : environment (O := O)) (mc : machine (O := O)) (defaults : nodeConfig) (services : serviceConfig).
Implicit Types s : machineState (R := R) (D := D) (K := K) (R' := R') (D' := D') (N := N) (O := O).
Abbreviation kordMain := (main iteration dial tempDir upload openFile connectClient e mc defaults services).

(** What a published graph is: the tables in the client's node, a file of them
    in the storage, and their hash in the registry under a signature of the identity. *)
Definition published (id : Address) (d : db) s s' : Prop :=
  exists hash key sig, tablesOf (fst s') (Address_Hex id) = Some (Some d) /\ stored (fst s') hash (Some d) /\
    addressOf key = id /\ Sign hash key = Ok sig /\
    (valuesOk sig = true ->
       forall b, registryView (fst s') b = if decide (b = id) then hash else registryView (fst s) b).

Lemma world_line signalled f rest a m s x s' :
  docopt (usageOf f) (nameOf f :: rest) [] false = Goes (Ok a) ->
  runs iteration dial tempDir upload openFile connectClient e mc defaults services signalled f a = onWorld m ->
  kordMain signalled (nameOf f :: rest) s = (x, s') ->
  exists r, m (fst s) = (r, fst s') /\ snd s' = snd s /\
    x = match r with Ok _ => Exited 0 [] | Err y => Failed y | Panic p => Panicked p end.
Proof. intros Ha Hm E. exact (main_world _ _ _ _ _ _ _ _ _ _ _ _ _ _ _ _ _ _ Ha Hm E). Qed.

(** A published graph, from what the command has signed. *)
Lemma published_signed args id hash sig d s s' :
  tablesOf (fst s') (Address_Hex id) = Some (Some d) -> stored (fst s') hash (Some d) ->
  (exists w1 : world R D K, signHash args id hash w1 = (Ok sig, w1)) ->
  (valuesOk sig = true -> forall b, registryView (fst s') b = if decide (b = id) then hash else registryView (fst s) b) ->
  published id d s s'.
Proof.
  intros Ht Hs (w1 & Hsig) Hv. destruct (signHash_key _ _ _ _ _ _ Hsig) as (_ & key & Hkey & Hsign). by exists hash, key, sig.
Qed.

(** C1: [kord graph create], from the words of the command line to the registry:
    when the process ends with status 0, the client's node has the empty graph
    open under the identity's name, a file of it is in the storage, and the
    registry maps the identity to the hash of that file under a signature of the
    identity, the signature being in range, and other identities to what they
    were mapped to.  An argument that is no address is an error that changes
    nothing. *)
Theorem graph_create_publishes (signalled : bool) (url ks : option bytes) (id : bytes) s :
  aValue url -> aValue ks -> plain id ->
  let argv := ["graph" : bytes; "create" : bytes] ++ flag "--url" url ++ flag "--keystore" ks ++ [id] in
  if IsHexAddress id
  then forall output s', kordMain signalled argv s = (Exited 0 output, s') -> published (HexToAddress id) emptyDB s s'
  else kordMain signalled argv s = (Failed invalidID, s).
Proof.
  intros Hu Hk Hi argv. destruct (graph_create_line url ks id Hu Hk Hi) as (a & Ha & Hhas).
  assert (Args_String a "<id>" = Ok id) as Hid by (by apply (has_String _ _ 3 _ _ Hhas)).
  assert (Args_Bool a "create" = Ok true) as Hcr by (by apply (has_Bool _ _ 0 _ _ Hhas)).
  pose proof (RunGraphCreate_publishes dial tempDir a id (fst s) Hid) as Hpub.
  assert (forall x s', kordMain signalled argv s = (x, s') -> exists r, RunGraphCreate dial tempDir a (fst s) = (r, fst s') /\ snd s' = snd s /\
    x = match r with Ok _ => Exited 0 [] | Err y => Failed y | Panic p => Panicked p end) as Hmain.
  { intros x s' E. destruct (world_line signalled RunGraphFn _ a (RunGraph dial tempDir openFile a) s x s' Ha eq_refl E) as (r & Hr & Hs & Hx).
    unfold RunGraph in Hr. rewrite (lift_ok _ _ _ _ Hcr) in Hr.
    exists r. split; [exact Hr|]. split; [exact Hs|exact Hx]. }
  destruct (IsHexAddress id).
  - intros output s' E. destruct (Hmain _ _ E) as ([[]|y|p] & Hr & _ & Hx); [|done..].
    destruct (Hpub _ Hr) as (hash & sig & Ht & Hs & Hsig & Hv). by eapply published_signed.
  - destruct (kordMain signalled argv s) as [x s'] eqn:E. destruct (Hmain _ _ eq_refl) as (r & Hr & Hs & ->).
    rewrite Hpub in Hr. injection Hr as <- Hw. destruct s, s'. cbn in *. congruence.
Qed.

(** C23: [kord graph load], from the words of the command line to the registry: when
    the process ends with status 0 the file has parsed to its end, the graph
    has exactly the quads of the file besides those it had, as they arrive
    through JSON, and it is published under a signature of the identity. *)
Theorem graph_load_publishes (signalled : bool) (url ks : option bytes) (id file output : bytes) (src : quadReader) (d : db) s s' :
  let name := Address_Hex (HexToAddress id) in
  aValue url -> aValue ks -> plain id -> plain file -> openFile file = Ok src ->
  name ∈ stores (knode (wkord (fst s))) -> tablesOf (fst s) name = Some (Some d) -> wf d ->
  kordMain signalled (["graph" : bytes; "load" : bytes] ++ flag "--url" url ++ flag "--keystore" ks ++ [id; file]) s = (Exited 0 output, s') ->
  qrEnd src = EOF /\ exists d' rows, rowsOf (sent <$> qrQuads src) = Some rows /\ wf d' /\
    (forall r, r ∈ quads d' <-> r ∈ quads d \/ r ∈ rows) /\ published (HexToAddress id) d' s s'.
Proof.
  intros name Hu Hk Hi Hf Hopen Hin Ht Hwf E. destruct (graph_load_line url ks id file Hu Hk Hi Hf) as (a & Ha & Hhas).
  assert (Args_String a "<id>" = Ok id) as Hid by (by apply (has_String _ _ 4 _ _ Hhas)).
  assert (Args_String a "<file>" = Ok file) as Hfile by (by apply (has_String _ _ 5 _ _ Hhas)).
  assert (Args_Bool a "create" = Ok false) as Hcr by (by apply (has_Bool _ _ 0 _ _ Hhas)).
  assert (Args_Bool a "load" = Ok true) as Hlo by (by apply (has_Bool _ _ 1 _ _ Hhas)).
  destruct (world_line signalled RunGraphFn _ a (RunGraph dial tempDir openFile a) s _ s' Ha eq_refl E) as ([[]|y|p] & Hr & _ & Hx); [|done..].
  unfold RunGraph in Hr. rewrite (lift_ok _ _ _ _ Hcr), (lift_ok _ _ _ _ Hlo) in Hr.
  apply bind_ok_inv in Hr as (count & w1 & Hr & [= ->]).
  destruct (RunGraphLoad_publishes dial tempDir openFile a id file src d count (fst s) _ Hid Hfile Hopen Hin Ht Hwf Hr)
    as (Heof & _ & d' & rows & hash & sig & Hrows & Ht' & Hwf' & Hq & Hs & Hsig & Hv).
  split; [done|]. exists d', rows. split_and!; [done..|]. by eapply published_signed.
Qed.

(** C30: [kord dapp deploy], from the words of the command line to the registry:
    when the process ends with status 0, the quads of the dapp, under the
    canonical form of the URI and not as it was given, have been added to the
    graph of the URI's identity, which is published under a signature of the
    identity.  Without [--swarm-api] the directory goes to the default of the
    usage. *)
Theorem dapp_deploy_publishes (signalled : bool) (url api ks : option bytes) (dir uri mh output : bytes) (u : URI) (d : db) s s' :
  let name := Address_Hex (ID u) in
  aValue url -> aValue api -> aValue ks -> plain dir -> plain uri -> Uri.Parse uri = Ok u ->
  upload (default ("http://localhost:5000" : bytes) api) dir = Ok mh -> transportable (String mh) = true ->
  name ∈ stores (knode (wkord (fst s))) -> tablesOf (fst s) name = Some (Some d) ->
  kordMain signalled (["dapp" : bytes; "deploy" : bytes] ++ flag "--url" url ++ flag "--swarm-api" api ++ flag "--keystore" ks ++ [dir; uri]) s =
    (Exited 0 output, s') ->
  exists d', Sql.AddQuadSet [manifestQuad {| dappID := URI_String u; ManifestHash := mh |}] d = (Ok tt, d') /\ published (ID u) d' s s'.
Proof.
  intros name Hu Hap Hk Hd Hi Hparse Hup Htr Hin Ht E.
  destruct (dapp_deploy_line url api ks dir uri Hu Hap Hk Hd Hi) as (a & Ha & Hhas).
  assert (Args_String a "<uri>" = Ok uri) as Huri by (by apply (has_String _ _ 5 _ _ Hhas)).
  assert (Args_String a "<dir>" = Ok dir) as Hdir by (by apply (has_String _ _ 4 _ _ Hhas)).
  assert (Args_String a "--swarm-api" = Ok (default ("http://localhost:5000" : bytes) api)) as Hapi
    by (apply (has_String _ _ 2 _ _ Hhas); by destruct api).
  assert (Args_Bool a "deploy" = Ok true) as Hde by (by apply (has_Bool _ _ 0 _ _ Hhas)).
  destruct (world_line signalled RunDappFn _ a (RunDapp iteration dial tempDir upload a) s _ s' Ha eq_refl E) as ([[]|y|p] & Hr & _ & Hx); [|done..].
  unfold RunDapp in Hr. rewrite (lift_ok _ _ _ _ Hde) in Hr.
  destruct (RunDappDeploy_publishes dial tempDir upload a uri _ dir mh u d (fst s) _ Huri Hparse Hapi Hdir Hup Htr Hin Ht Hr)
    as (d' & hash & sig & Hadd & Ht' & Hs & Hsig & Hv).
  exists d'. split; [done|]. by eapply published_signed.
Qed.
End publishing.

(** ** A node with a root dapp *)

Section hanging.
Context {R D K R' D' N O : Type} `{Secp256k1} `{!Registry R} `{!DPA D} `{SqliteCodec} `{!Keystore K} `{!Registry R'} `{!DPA D'}.
Context (iteration : list ValueHash -> list ValueHash) (dial : bytes -> result unit) (tempDir : bytes)
  (upload : bytes -> bytes -> result bytes) (openFile : bytes -> result quadReader).
Context (connectClient : prog N R') (e : environment (O := O)) (mc : machine (O := O)) (defaults : nodeConfig) (services : serviceConfig).
Implicit Types s : machineState (R := R) (D := D) (K := K) (R' := R') (D' := D') (N := N) (O := O).
Abbreviation kordMain := (main iteration dial tempDir upload openFile connectClient e mc defaults services).

(** The configuration that such a line makes. *)
Lemma configure_root a dir uri makeTemp osTemp loadConfig ParseNode c :
  has a [("--config" : bytes, ANil); ("--datadir" : bytes, given dir ANil); ("--dev" : bytes, ABool false); ("--root-dapp" : bytes, AString uri);
      ("--cors-domain" : bytes, AList []); ("--testnet" : bytes, ABool false)] -> uri <> [] ->
  exists c', configure makeTemp osTemp loadConfig ParseNode a c = Ok c' /\ RootDapp (Kord_Config c') = uri /\ CORSDomains (Kord_Config c') = [].
Proof.
  intros Ha Hu. assert (Args_String a "--config" = Ok []) as H1 by (unfold Args_String; by rewrite (has_at _ _ 0 _ _ Ha eq_refl)).
  assert (Args_String a "--datadir" = Ok (default [] dir)) as H2.
  { unfold Args_String. rewrite (has_at _ _ 1 _ _ Ha eq_refl). by destruct dir. }
  assert (Args_Bool a "--dev" = Ok false) as H3 by (by apply (has_Bool _ _ 2 _ _ Ha)).
  assert (Args_String a "--root-dapp" = Ok uri) as H4 by (by apply (has_String _ _ 3 _ _ Ha)).
  assert (Args_Bool a "--testnet" = Ok false) as H6 by (by apply (has_Bool _ _ 5 _ _ Ha)).
  unfold configure, setDataDir, setRootOption, setCors, setNetwork, Args_List.
  rewrite H1. cbn [mbind result_bind]. rewrite bool_decide_eq_true_2 by done. cbn [mbind result_bind]. rewrite H2. cbn [mbind result_bind].
  rewrite H3, H4, H6, (has_at _ _ 4 _ _ Ha eq_refl). cbn [mbind result_bind andb].
  rewrite (bool_decide_eq_false_2 (uri = [])) by done. destruct (negb _); cbn [mbind result_bind]; eexists; split_and!; reflexivity.
Qed.

(** C7: [kord node --root-dapp], from the words of the command line: with a URI
    that parses, and everything else on the machine in order, the process
    hangs before it serves anything.  A signal does not end it, as [main] takes
    signals for itself and only cancels the context; the lock of the node stays
    held, so that the node cannot be stopped. *)
Theorem node_root_dapp_hangs (signalled : bool) (dir : option bytes) (uri : bytes) (u : URI) s :
  (forall ks, Permutation (startOrder e ks) ks /\ Permutation (undoOrder e ks) ks /\ Permutation (stopOrder e ks) ks) -> allWell e mc ->
  aValue dir -> aValue (Some uri) -> Uri.Parse uri = Ok u ->
  idle (stk (snd s)) -> serviceFuncs (stk (snd s)) = [] -> drvName ∉ sqlDrivers (snd s) ->
  exists s', kordMain signalled (["node" : bytes] ++ flag "--datadir" dir ++ ["--root-dapp" : bytes; uri]) s = (Hung, s') /\
    fst s' = fst s /\ lock (stk (snd s')) = true /\ Stop e (snd s') = (Waits, snd s').
Proof.
  intros Hwalks Hwell Hd Hu Hparse Hidle Hfs Hdrv. destruct (node_line dir uri Hd Hu) as (a & Ha & Hhas).
  assert (uri <> []) as Hne by (clear -Hparse; intros ->; discriminate Hparse).
  destruct (configure_root a dir uri (makeTemp mc) (osTemp mc) (readConfig mc) (ParseNode mc) defaults Hhas Hne) as (c' & Hc & Hroot & _).
  assert (Args_Bool a "--dev" = Ok false) as Hdev by (by apply (has_Bool _ _ 2 _ _ Hhas)).
  destruct (RunNode_root_dapp_waits iteration connectClient e mc Hwalks a signalled false defaults c' services u (snd s))
    as (p' & E & Hl & Hstop & _); [exact Hwell|exact Hc|exact Hdev|rewrite Hroot; exact Hne|rewrite Hroot; exact Hparse|exact Hidle|exact Hfs|exact Hdrv|].
  exists (fst s, p'). split; [|split; [reflexivity|split; [exact Hl|exact Hstop]]].
  refine (eq_trans (main_runs iteration dial tempDir upload openFile connectClient e mc defaults services signalled RunNodeFn _ a s Ha) _).
  unfold runs. by rewrite E.
Qed.
End hanging.

(** ** Witnesses *)

Section witnesses.
Import Toy SmallStore Digits OneAccount.

Abbreviation concrete p2p := (main (R := Test.registry) (K := unit) (fun l => l) dialled "/tmp" uploaded (fun _ => Ok twoQuads) noClient
  (quiet p2p) tidy plainNode noService).
Definition both (w : world Test.registry (list bytes) unit) : machineState (R := Test.registry) (D := list bytes) (K := unit)
  (R' := Test.registry) (D' := list bytes) (N := unit) (O := unit) := (w, freshProcess).

Definition createLine : list bytes := ["graph" : bytes; "create" : bytes; "--keystore" : bytes; "keys" : bytes; graphName].
Definition createdBy := concrete works false createLine (both newcomer).
Lemma graph_create_publishes_witness :
  concrete works false createLine (both newcomer) = (Exited 0 [], snd createdBy) /\
  published owner emptyDB (both newcomer) (snd createdBy).
Proof.
  assert (fst createdBy = Exited 0 []) as Hf by (vm_compute; reflexivity).
  assert (concrete works false createLine (both newcomer) = (Exited 0 [], snd createdBy)) as Hr
    by (rewrite <- Hf; apply surjective_pairing).
  split; [exact Hr|].
  assert (IsHexAddress graphName = true) as Hx by (vm_compute; reflexivity).
  pose proof (graph_create_publishes (K := unit) (fun l => l) dialled "/tmp" uploaded (fun _ => Ok twoQuads) noClient (quiet works) tidy plainNode
    noService false None (Some ("keys" : bytes)) graphName (both newcomer)) as H.
  rewrite Hx in H. change (HexToAddress graphName) with (HexToAddress (Address_Hex owner)) in H. rewrite HexToAddress_Hex in H.
  apply (H ltac:(discriminate) ltac:(discriminate) ltac:(vm_compute; reflexivity) [] _ Hr).
Defined.

Definition loadLine : list bytes := ["graph" : bytes; "load" : bytes; "--keystore" : bytes; "keys" : bytes; graphName; "quads.nq" : bytes].
Definition loadedBy := concrete works false loadLine (both deployer).
Lemma graph_load_publishes_witness :
  concrete works false loadLine (both deployer) = (Exited 0 [], snd loadedBy) /\
  exists d' rows, rowsOf (sent <$> [q1; q2]) = Some rows /\ (forall r, r ∈ quads d' <-> r ∈ quads emptyDB \/ r ∈ rows) /\
    published owner d' (both deployer) (snd loadedBy).
Proof.
  assert (fst loadedBy = Exited 0 []) as Hf by (vm_compute; reflexivity).
  assert (concrete works false loadLine (both deployer) = (Exited 0 [], snd loadedBy)) as Hr by (rewrite <- Hf; apply surjective_pairing).
  split; [exact Hr|].
  pose proof (graph_load_publishes (K := unit) (fun l => l) dialled "/tmp" uploaded (fun _ => Ok twoQuads) noClient (quiet works) tidy plainNode
    noService false None (Some ("keys" : bytes)) graphName "quads.nq" [] twoQuads emptyDB (both deployer) (snd loadedBy)) as H.
  cbv zeta in H. rewrite graphName_again in H. change (HexToAddress graphName) with (HexToAddress (Address_Hex owner)) in H.
  rewrite HexToAddress_Hex in H.
  destruct (H ltac:(discriminate) ltac:(discriminate) ltac:(vm_compute; reflexivity) ltac:(vm_compute; reflexivity) eq_refl
    (proj2 (elem_of_singleton graphName graphName) eq_refl) author_tables wf_empty Hr) as (_ & d' & rows & H1 & _ & H2 & H3).
  exists d', rows. split; [exact H1|]. split; [exact H2|exact H3].
Defined.

Definition deployLine : list bytes := ["dapp" : bytes; "deploy" : bytes; "--keystore" : bytes; "keys" : bytes; "dir" : bytes; looseURI].
Definition deployedBy := concrete works false deployLine (both deployer).
Lemma dapp_deploy_publishes_witness :
  concrete works false deployLine (both deployer) = (Exited 0 [], snd deployedBy) /\
  exists d', Sql.AddQuadSet [manifestQuad (appAs "aa")] emptyDB = (Ok tt, d') /\ published owner d' (both deployer) (snd deployedBy).
Proof.
  assert (fst deployedBy = Exited 0 []) as Hf by (vm_compute; reflexivity).
  assert (concrete works false deployLine (both deployer) = (Exited 0 [], snd deployedBy)) as Hr by (rewrite <- Hf; apply surjective_pairing).
  split; [exact Hr|].
  assert (Uri.Parse looseURI = Ok appURI) as Hu by (vm_compute; reflexivity).
  exact (dapp_deploy_publishes (K := unit) (fun l => l) dialled "/tmp" uploaded (fun _ => Ok twoQuads) noClient (quiet works) tidy plainNode
    noService false None None (Some ("keys" : bytes)) "dir" looseURI "aa" [] appURI emptyDB (both deployer) (snd deployedBy)
    ltac:(discriminate) ltac:(discriminate) ltac:(discriminate) eq_refl ltac:(vm_compute; reflexivity) Hu eq_refl eq_refl
    (proj2 (elem_of_singleton graphName graphName) eq_refl) author_tables Hr).
Defined.

Lemma node_root_dapp_hangs_witness :
  exists s', concrete works true ["node" : bytes; "--root-dapp" : bytes; looseURI] (both newcomer) = (Hung, s') /\ lock (stk (snd s')) = true.
Proof.
  assert (Uri.Parse looseURI = Ok appURI) as Hu by (vm_compute; reflexivity).
  destruct (node_root_dapp_hangs (R := Test.registry) (K := unit) (fun l => l) dialled "/tmp" uploaded (fun _ => Ok twoQuads) noClient
    (quiet works) tidy plainNode noService true None looseURI appURI (both newcomer)) as (s' & E & _ & Hl & _).
  - exact (quiet_walks works).
  - exact quiet_well.
  - discriminate.
  - discriminate.
  - exact Hu.
  - repeat split.
  - reflexivity.
  - exact (not_elem_of_empty drvName).
  - exists s'. split; [exact E|exact Hl].
Defined.

Lemma commands_dispatched_witness :
  kordLine ["--verbosity" : bytes; "4" : bytes; "help" : bytes; "node" : bytes] = Exits 0 (trimNewlines nodeUsage).
Proof.
  exact (proj2 (proj2 (commands_dispatched (Some ("4" : bytes)) "help" ["node" : bytes] ltac:(discriminate) eq_refl ltac:(vm_compute; reflexivity)))
    RunNodeFn [] eq_refl eq_refl).
Defined.

Lemma arguments_found_witness :
  exists a, kordLine createLine = Goes (Ok (Runs RunGraphFn a)) /\ Forall (fun '(n, t) => readable a n t) (reads RunGraphFn).
Proof.
  destruct (graph_create_line None (Some ("keys" : bytes)) graphName ltac:(discriminate) ltac:(discriminate) ltac:(vm_compute; reflexivity))
    as (a & Ha & _).
  assert (kordLine createLine = Goes (Ok (Runs RunGraphFn a))) as E.
  { refine (eq_trans (Run_top None "graph" (tail createLine) ltac:(discriminate) eq_refl eq_refl) _).
    refine (eq_trans (runCommand_registered RunGraphFn (tail createLine)) _).
    change (docopt (usageOf RunGraphFn) (nameOf RunGraphFn :: tail createLine) [] false) with
      (docopt graphUsage (["graph" : bytes; "create" : bytes] ++ flag "--url" None ++ flag "--keystore" (Some ("keys" : bytes)) ++ [graphName]) [] false).
    rewrite Ha. reflexivity. }
  exists a. split; [exact E|]. exact (proj1 (proj2 (arguments_found createLine) RunGraphFn a E)).
Defined.
End witnesses.
